(** * The ISO-BMFF box engine of the Steam video downloader

    A shallow embedding of the muxing code of [content.js]: the box reader
    ([readBoxHeader], [parseBoxes], [findSubBox]), the field patchers, the
    moov merger ([createMergedMoov]), the fragment assembler
    ([binaryMuxFragmentedMP4]), the sample collectors, the two progressive
    builders ([buildMP4WithRawStsd], [buildMP4File]) and the fallback chain
    of [muxVideoAudio].

    Conventions.  An [ArrayBuffer] is a [list byte]; offsets, sizes and
    every JavaScript number that holds an integer are in [Z].  A thrown
    exception is the [Throw] case of [result].  Loops that the source
    writes with [while] carry a fuel argument; the theorems show which
    fuel is enough. *)

From Stdlib Require Import ZArith Lia List Sorting.Sorted.
From Stdlib Require Import Strings.Byte Strings.Ascii Strings.String.
From stdpp Require Import base option list gmap strings.

Local Open Scope Z_scope.

(** ** Exceptions *)

Inductive error : Type :=
| RangeError            (* DataView / typed-array access out of bounds *)
| TypeError             (* property access on undefined *)
| MissingRequiredBoxes  (* Error('Missing required boxes') *)
| NoAudioTrack          (* Error('No audio track found') *)
| NoVideoStsd           (* Error('Could not extract video stsd') *)
| TimeoutError          (* Error('Timeout') *)
| MP4BoxNotLoaded       (* Error('MP4Box library not loaded') *)
| External              (* an error raised by the demuxer library *).

Inductive result (A : Type) : Type :=
| Ok (a : A)
| Throw (e : error).
Arguments Ok {A} a.
Arguments Throw {A} e.

Definition bind {A B} (r : result A) (k : A -> result B) : result B :=
  match r with
  | Ok a => k a
  | Throw e => Throw e
  end.

Notation "'let*' x ':=' r 'in' k" := (bind r (fun x => k))
  (at level 10, x name, r at level 200, k at level 200).

(** ** Bytes and [DataView] accessors *)

Abbreviation buffer := (list byte).

Definition byteLength (b : buffer) : Z := Z.of_nat (length b).

Definition byte_of_Z (z : Z) : byte :=
  match Byte.of_N (Z.to_N (z mod 256)) with
  | Some b => b
  | None => x00
  end.

Definition Z_of_byte (b : byte) : Z := Z.of_N (Byte.to_N b).

(** Bytes written as a list of numbers. *)
Definition bytes (l : list Z) : buffer := map byte_of_Z l.

(** The char codes of a string: [s.charCodeAt(i)] for every [i]. *)
Definition charCodes (s : string) : buffer := list_byte_of_string s.

(** [data.slice(start, end)] with [0 <= start]. *)
Definition slice (data : buffer) (start stop : Z) : buffer :=
  take (Z.to_nat (stop - start)) (drop (Z.to_nat start) data).

(** [view.getUint8(off)]. *)
Definition getUint8 (view : buffer) (off : Z) : result Z :=
  if (0 <=? off) && (off + 1 <=? byteLength view)
  then Ok (Z_of_byte (nth (Z.to_nat off) view x00))
  else Throw RangeError.

(** [data[i]] on a [Uint8Array], passed to [String.fromCharCode]: an
    index out of range reads [undefined], whose char code is 0. *)
Definition charAt (data : buffer) (i : Z) : byte :=
  if 0 <=? i then nth (Z.to_nat i) data x00 else x00.

(** Big-endian value of a byte sequence. *)
Fixpoint be_value (acc : Z) (l : list byte) : Z :=
  match l with
  | [] => acc
  | b :: l' => be_value (acc * 256 + Z_of_byte b) l'
  end.

Definition getUint32 (view : buffer) (off : Z) : result Z :=
  if (0 <=? off) && (off + 4 <=? byteLength view)
  then Ok (be_value 0 (slice view off (off + 4)))
  else Throw RangeError.

Definition getBigUint64 (view : buffer) (off : Z) : result Z :=
  if (0 <=? off) && (off + 8 <=? byteLength view)
  then Ok (be_value 0 (slice view off (off + 8)))
  else Throw RangeError.

(** The four bytes of [v] modulo 2^32, most significant first. *)
Definition be32 (v : Z) : buffer :=
  [ byte_of_Z (v / 16777216); byte_of_Z (v / 65536);
    byte_of_Z (v / 256); byte_of_Z v ].

Definition be16 (v : Z) : buffer :=
  [ byte_of_Z (v / 256); byte_of_Z v ].

(** Overwrite [data] from position [off] with [src] (which must fit):
    [result.set(src, off)] on a typed array. *)
Definition blit (data : buffer) (off : Z) (src : buffer) : buffer :=
  take (Z.to_nat off) data ++ src ++
  drop (Z.to_nat off + length src) data.

Definition setArray (data : buffer) (off : Z) (src : buffer) : result buffer :=
  if (0 <=? off) && (off + byteLength src <=? byteLength data)
  then Ok (blit data off src)
  else Throw RangeError.

Definition setUint32 (view : buffer) (off v : Z) : result buffer :=
  setArray view off (be32 v).

Definition setUint16 (view : buffer) (off v : Z) : result buffer :=
  setArray view off (be16 v).

(** [Number(x)] of a [BigInt] below 2^64: the nearest double, ties to the
    even mantissa.  Integers below 2^53 are exact. *)
Definition numberOfBigInt (n : Z) : Z :=
  if n <? 2 ^ 53 then n
  else
    let e := Z.log2 n - 52 in
    let q := n / 2 ^ e in
    let r := n mod 2 ^ e in
    let half := 2 ^ (e - 1) in
    if r <? half then q * 2 ^ e
    else if half <? r then (q + 1) * 2 ^ e
    else if Z.even q then q * 2 ^ e else (q + 1) * 2 ^ e.

(** [String.fromCharCode(b0, b1, b2, b3)]. *)
Definition fromCharCode4 (b0 b1 b2 b3 : byte) : string :=
  String (ascii_of_byte b0) (String (ascii_of_byte b1)
    (String (ascii_of_byte b2) (String (ascii_of_byte b3) EmptyString))).

(** ** Box reader *)

Record box : Type := mkBox {
  box_size : Z;
  box_type : string;
  box_headerSize : Z;
  box_offset : Z
}.

(** [readBoxHeader(view, offset)]; [Ok None] is the [null] result. *)
Definition readBoxHeader (view : buffer) (offset : Z) : result (option box) :=
  if offset + 8 >? byteLength view then Ok None
  else
    let* size := getUint32 view offset in
    let* c0 := getUint8 view (offset + 4) in
    let* c1 := getUint8 view (offset + 5) in
    let* c2 := getUint8 view (offset + 6) in
    let* c3 := getUint8 view (offset + 7) in
    let type := fromCharCode4 (byte_of_Z c0) (byte_of_Z c1)
                              (byte_of_Z c2) (byte_of_Z c3) in
    if size =? 1 then
      let* big := getBigUint64 view (offset + 8) in
      Ok (Some (mkBox (numberOfBigInt big) type 16 offset))
    else if size =? 0 then
      Ok (Some (mkBox (byteLength view - offset) type 8 offset))
    else
      Ok (Some (mkBox size type 8 offset)).

(** The [while] loop of [parseBoxes]; [None] only when the fuel runs out. *)
Fixpoint parseBoxes_loop (fuel : nat) (view : buffer) (offset : Z)
    (boxes : list box) : option (result (list box)) :=
  match fuel with
  | O => None
  | S fuel' =>
    if offset <? byteLength view then
      match readBoxHeader view offset with
      | Throw e => Some (Throw e)
      | Ok None => Some (Ok boxes)
      | Ok (Some b) =>
        if box_size b <? 8 then Some (Ok boxes)
        else parseBoxes_loop fuel' view (offset + box_size b) (boxes ++ [b])
      end
    else Some (Ok boxes)
  end.

(** One iteration consumes at least eight bytes, so this fuel is enough
    ([parseBoxes_loop_total]). *)
Definition parseBoxes_fuel (view : buffer) : nat := S (length view).

Definition parseBoxes (view : buffer) : result (list box) :=
  match parseBoxes_loop (parseBoxes_fuel view) view 0 [] with
  | Some r => r
  | None => Ok []
  end.

(** ** Scanning the children of a container box

    [findSubBox], [findSubBoxWithOffset], [updateTrackIdInTrak] and
    [updateTrackIdInMoof] each walk the children of a box from offset 8
    with the same guard.  [childType] is the [String.fromCharCode] call of
    these loops. *)

Definition childType (data : buffer) (offset : Z) : string :=
  fromCharCode4 (charAt data (offset + 4)) (charAt data (offset + 5))
                (charAt data (offset + 6)) (charAt data (offset + 7)).

Definition scan_fuel (data : buffer) : nat := S (length data).

(** What a loop returns when its fuel runs out; [scan_fuel] never lets
    that happen. *)
Definition run {A} (d : A) (o : option A) : A :=
  match o with Some a => a | None => d end.

Fixpoint findSubBox_loop (fuel : nat) (data : buffer) (targetType : string)
    (offset : Z) : option (result (option buffer)) :=
  match fuel with
  | O => None
  | S fuel' =>
    if offset <? byteLength data - 8 then
      match getUint32 data offset with
      | Throw e => Some (Throw e)
      | Ok size =>
        let type := childType data offset in
        if (size <? 8) || (offset + size >? byteLength data) then Some (Ok None)
        else if String.eqb type targetType
        then Some (Ok (Some (slice data offset (offset + size))))
        else findSubBox_loop fuel' data targetType (offset + size)
      end
    else Some (Ok None)
  end.

Definition findSubBox (data : buffer) (targetType : string)
    : result (option buffer) :=
  run (Ok None) (findSubBox_loop (scan_fuel data) data targetType 8).

Record subBox : Type := mkSubBox {
  sub_offset : Z;
  sub_size : Z;
  sub_data : buffer
}.

Fixpoint findSubBoxWithOffset_loop (fuel : nat) (data : buffer)
    (targetType : string) (offset : Z) : option (result (option subBox)) :=
  match fuel with
  | O => None
  | S fuel' =>
    if offset <? byteLength data - 8 then
      match getUint32 data offset with
      | Throw e => Some (Throw e)
      | Ok size =>
        let type := childType data offset in
        if (size <? 8) || (offset + size >? byteLength data) then Some (Ok None)
        else if String.eqb type targetType
        then Some (Ok (Some (mkSubBox offset size
                                      (slice data offset (offset + size)))))
        else findSubBoxWithOffset_loop fuel' data targetType (offset + size)
      end
    else Some (Ok None)
  end.

Definition findSubBoxWithOffset (data : buffer) (targetType : string)
    : result (option subBox) :=
  run (Ok None) (findSubBoxWithOffset_loop (scan_fuel data) data targetType 8).

(** ** Field patchers

    A patcher mutates the array it is given; the model returns the new
    contents of that array.  Whose memory the array is a window on is the
    caller's matter (see [binaryMuxFragmentedMP4]). *)

Definition updateTrackIdInSidx (sidxData : buffer) (newTrackId : Z) : buffer :=
  if byteLength sidxData <? 16 then sidxData
  else blit sidxData 12 (be32 newTrackId).

Definition updateTrackIdInTrex (trexData : buffer) (newTrackId : Z) : buffer :=
  if byteLength trexData <? 16 then trexData
  else blit trexData 12 (be32 newTrackId).

Fixpoint updateTrackIdInTrak_loop (fuel : nat) (trakData : buffer)
    (newTrackId : Z) (offset : Z) : option (result buffer) :=
  match fuel with
  | O => None
  | S fuel' =>
    if offset <? byteLength trakData - 8 then
      match getUint32 trakData offset with
      | Throw e => Some (Throw e)
      | Ok size =>
        let type := childType trakData offset in
        if (size <? 8) || (offset + size >? byteLength trakData)
        then Some (Ok trakData)
        else if String.eqb type "tkhd" then
          let version := Z_of_byte (charAt trakData (offset + 8)) in
          let trackIdOffset := offset + (if version =? 0 then 20 else 28) in
          Some (setUint32 trakData trackIdOffset newTrackId)
        else updateTrackIdInTrak_loop fuel' trakData newTrackId (offset + size)
      end
    else Some (Ok trakData)
  end.

Definition updateTrackIdInTrak (trakData : buffer) (newTrackId : Z)
    : result buffer :=
  run (Ok trakData)
      (updateTrackIdInTrak_loop (scan_fuel trakData) trakData newTrackId 8).

(** The inner loop of [updateTrackIdInMoof], over the children of the
    [traf] box at [offset] of size [size].  [Ok None]: no [tfhd] here, the
    outer loop goes on; [Ok (Some d)]: patched, the function returns. *)
Fixpoint updateTrackIdInTraf_loop (fuel : nat) (moofData : buffer)
    (newTrackId : Z) (offset size : Z) (trafOffset : Z)
    : option (result (option buffer)) :=
  match fuel with
  | O => None
  | S fuel' =>
    if trafOffset <? offset + size - 8 then
      match getUint32 moofData trafOffset with
      | Throw e => Some (Throw e)
      | Ok subSize =>
        let subType := childType moofData trafOffset in
        if subSize <? 8 then Some (Ok None)
        else if String.eqb subType "tfhd" then
          Some (let* d := setUint32 moofData (trafOffset + 12) newTrackId in
                Ok (Some d))
        else updateTrackIdInTraf_loop fuel' moofData newTrackId offset size
                                      (trafOffset + subSize)
      end
    else Some (Ok None)
  end.

Fixpoint updateTrackIdInMoof_loop (fuel : nat) (moofData : buffer)
    (newTrackId : Z) (offset : Z) : option (result buffer) :=
  match fuel with
  | O => None
  | S fuel' =>
    if offset <? byteLength moofData - 8 then
      match getUint32 moofData offset with
      | Throw e => Some (Throw e)
      | Ok size =>
        let type := childType moofData offset in
        if (size <? 8) || (offset + size >? byteLength moofData)
        then Some (Ok moofData)
        else
          let next := updateTrackIdInMoof_loop fuel' moofData newTrackId
                                               (offset + size) in
          if String.eqb type "traf" then
            match updateTrackIdInTraf_loop (scan_fuel moofData) moofData
                    newTrackId offset size (offset + 8) with
            | None => None
            | Some (Throw e) => Some (Throw e)
            | Some (Ok (Some d)) => Some (Ok d)
            | Some (Ok None) => next
            end
          else next
      end
    else Some (Ok moofData)
  end.

Definition updateTrackIdInMoof (moofData : buffer) (newTrackId : Z)
    : result buffer :=
  run (Ok moofData)
      (updateTrackIdInMoof_loop (scan_fuel moofData) moofData newTrackId 8).

(** ** Moov merger *)

(** [new Uint8Array(n)]: [n] zero bytes. *)
Definition zeros (n : Z) : buffer := replicate (Z.to_nat n) x00.

Definition createMergedMoov (videoMoovData audioTrakBox : buffer)
    (audioTrexBox : option buffer) : result buffer :=
  let* audioTrakCopy := updateTrackIdInTrak audioTrakBox 2 in
  let* videoMvex := findSubBoxWithOffset videoMoovData "mvex" in
  match videoMvex, audioTrexBox with
  | Some videoMvex, Some audioTrexBox =>
    let audioTrexCopy := updateTrackIdInTrex audioTrexBox 2 in
    let mvexOffset := sub_offset videoMvex in
    let mvexSize := sub_size videoMvex in
    let beforeMvex := slice videoMoovData 0 mvexOffset in
    let oldMvex := slice videoMoovData mvexOffset (mvexOffset + mvexSize) in
    let newMvexSize := mvexSize + byteLength audioTrexCopy in
    let* newMvex := setArray (zeros newMvexSize) 0 oldMvex in
    let* newMvex := setArray newMvex mvexSize audioTrexCopy in
    let* newMvex := setUint32 newMvex 0 newMvexSize in
    let newMoovSize := byteLength beforeMvex + byteLength audioTrakCopy
                       + byteLength newMvex in
    let offset := 0 in
    let* result := setArray (zeros newMoovSize) offset beforeMvex in
    let offset := offset + byteLength beforeMvex in
    let* result := setArray result offset audioTrakCopy in
    let offset := offset + byteLength audioTrakCopy in
    let* result := setArray result offset newMvex in
    setUint32 result 0 newMoovSize
  | _, _ =>
    let newSize := byteLength videoMoovData + byteLength audioTrakCopy in
    let* result := setArray (zeros newSize) 0 videoMoovData in
    let* result := setArray result (byteLength videoMoovData) audioTrakCopy in
    setUint32 result 0 newSize
  end.

(** ** Fragment assembler

    [new Uint8Array(buf, off, len)] is a window on [buf], not a copy: a
    write through it lands in [buf].  The two input buffers are the
    store; an array is either a window on one of them or owns fresh
    memory ([slice], [new Uint8Array(typedArray)]). *)

Inductive source : Type := VideoData | AudioData.

Record store : Type := mkStore {
  videoData : buffer;
  audioData : buffer
}.

Inductive u8array : Type :=
| Window (src : source) (byteOffset len : Z)
| Owned (data : buffer).

Definition sourceOf (st : store) (src : source) : buffer :=
  match src with
  | VideoData => videoData st
  | AudioData => audioData st
  end.

(** [new Uint8Array(buf, byteOffset, len)]. *)
Definition newWindow (st : store) (src : source) (byteOffset len : Z)
    : result u8array :=
  if (0 <=? byteOffset) && (0 <=? len)
     && (byteOffset + len <=? byteLength (sourceOf st src))
  then Ok (Window src byteOffset len)
  else Throw RangeError.

Definition contents (st : store) (a : u8array) : buffer :=
  match a with
  | Window src off len => slice (sourceOf st src) off (off + len)
  | Owned d => d
  end.

(** Replace the contents of [a] by [d] (of the same length).  For a
    window this changes the source buffer. *)
Definition writeBack (st : store) (a : u8array) (d : buffer)
    : store * u8array :=
  match a with
  | Window VideoData off _ =>
      (mkStore (blit (videoData st) off d) (audioData st), a)
  | Window AudioData off _ =>
      (mkStore (videoData st) (blit (audioData st) off d), a)
  | Owned _ => (st, Owned d)
  end.

Record fragment : Type := mkFragment {
  frag_type : string;
  frag_data : u8array
}.

Definition findBox (boxes : list box) (type : string) : option box :=
  List.find (fun b => String.eqb (box_type b) type) boxes.

(** The first [for] loop: the video boxes kept as fragments. *)
Fixpoint collectVideoFragments (st : store) (boxes : list box)
    : result (list fragment) :=
  match boxes with
  | [] => Ok []
  | b :: rest =>
    let ty := box_type b in
    if String.eqb ty "styp" || String.eqb ty "sidx"
       || String.eqb ty "moof" || String.eqb ty "mdat" then
      let* data := newWindow st VideoData (box_offset b) (box_size b) in
      let* frags := collectVideoFragments st rest in
      Ok (mkFragment ty data :: frags)
    else collectVideoFragments st rest
  end.

(** The second [for] loop: [moof] boxes are copied with [slice] and
    patched; the others are windows on [audioData]. *)
Fixpoint collectAudioFragments (st : store) (boxes : list box)
    : result (list fragment) :=
  match boxes with
  | [] => Ok []
  | b :: rest =>
    let ty := box_type b in
    if String.eqb ty "styp" || String.eqb ty "sidx" then
      let* data := newWindow st AudioData (box_offset b) (box_size b) in
      let* frags := collectAudioFragments st rest in
      Ok (mkFragment ty data :: frags)
    else if String.eqb ty "moof" then
      let moofData := slice (audioData st) (box_offset b)
                            (box_offset b + box_size b) in
      let* moofData := updateTrackIdInMoof moofData 2 in
      let* frags := collectAudioFragments st rest in
      Ok (mkFragment "moof" (Owned moofData) :: frags)
    else if String.eqb ty "mdat" then
      let* data := newWindow st AudioData (box_offset b) (box_size b) in
      let* frags := collectAudioFragments st rest in
      Ok (mkFragment ty data :: frags)
    else collectAudioFragments st rest
  end.

(** The third loop: every [sidx] fragment is patched through its array. *)
Fixpoint patchSidxFragments (st : store) (frags : list fragment)
    : store * list fragment :=
  match frags with
  | [] => (st, [])
  | f :: rest =>
    if String.eqb (frag_type f) "sidx" then
      let d := updateTrackIdInSidx (contents st (frag_data f)) 2 in
      let '(st1, a) := writeBack st (frag_data f) d in
      let '(st2, rest') := patchSidxFragments st1 rest in
      (st2, mkFragment (frag_type f) a :: rest')
    else
      let '(st2, rest') := patchSidxFragments st rest in
      (st2, f :: rest')
  end.

(** The output loop: [output.set(part, writeOffset)] for each part. *)
Fixpoint writeParts (output : buffer) (writeOffset : Z) (parts : list buffer)
    : result buffer :=
  match parts with
  | [] => Ok output
  | p :: rest =>
    let* output := setArray output writeOffset p in
    writeParts output (writeOffset + byteLength p) rest
  end.

Definition totalLength (parts : list buffer) : Z :=
  fold_left (fun sum p => sum + byteLength p) parts 0.

(** [binaryMuxFragmentedMP4]: the store after the call and what the
    call returns or throws. *)
Definition binaryMuxFragmentedMP4 (st : store) : store * result buffer :=
  let prepared :=
    let* videoBoxes := parseBoxes (videoData st) in
    let* audioBoxes := parseBoxes (audioData st) in
    match findBox videoBoxes "ftyp", findBox videoBoxes "moov",
          findBox audioBoxes "moov" with
    | Some videoFtyp, Some videoMoov, Some audioMoov =>
      let* videoMoovData :=
        newWindow st VideoData (box_offset videoMoov) (box_size videoMoov) in
      let* audioMoovData :=
        newWindow st AudioData (box_offset audioMoov) (box_size audioMoov) in
      let* audioTrakBox := findSubBox (contents st audioMoovData) "trak" in
      let* audioMvexBox := findSubBox (contents st audioMoovData) "mvex" in
      let* audioTrexBox :=
        match audioMvexBox with
        | Some mvex => findSubBox mvex "trex"
        | None => Ok None
        end in
      match audioTrakBox with
      | None => Throw NoAudioTrack
      | Some audioTrakBox =>
        let* mergedMoov :=
          createMergedMoov (contents st videoMoovData) audioTrakBox
                           audioTrexBox in
        let* videoFragments := collectVideoFragments st videoBoxes in
        let* audioFragments := collectAudioFragments st audioBoxes in
        Ok (videoFtyp, mergedMoov, videoFragments, audioFragments)
      end
    | _, _, _ => Throw MissingRequiredBoxes
    end in
  match prepared with
  | Throw e => (st, Throw e)
  | Ok (videoFtyp, mergedMoov, videoFragments, audioFragments) =>
    let '(st', audioFragments) := patchSidxFragments st audioFragments in
    (st',
     let* ftypData :=
       newWindow st' VideoData (box_offset videoFtyp) (box_size videoFtyp) in
     let parts :=
       contents st' ftypData :: mergedMoov
       :: map (fun f => contents st' (frag_data f)) videoFragments
       ++ map (fun f => contents st' (frag_data f)) audioFragments in
     writeParts (zeros (totalLength parts)) 0 parts)
  end.

(** ** Box writer

    [buildMP4WithRawStsd] and [buildMP4File] each declare the same two
    local helpers, [makeBox] and [concat]. *)

Definition charCodeAt (s : string) (i : nat) : byte := nth i (charCodes s) x00.

(** In-range field writes on a fresh content array: [view.setUint32(off, v)],
    [view.setUint16(off, v)], [content[off] = v]. *)
Definition put32 (content : buffer) (off v : Z) : buffer :=
  blit content off (be32 v).

Definition put16 (content : buffer) (off v : Z) : buffer :=
  blit content off (be16 v).

Definition put8 (content : buffer) (off : Z) (b : byte) : buffer :=
  blit content off [b].

Definition makeBox (type : string) (content : buffer) : buffer :=
  let size := 8 + byteLength content in
  let box := zeros size in
  let box := put32 box 0 size in
  let box := put8 box 4 (charCodeAt type 0) in
  let box := put8 box 5 (charCodeAt type 1) in
  let box := put8 box 6 (charCodeAt type 2) in
  let box := put8 box 7 (charCodeAt type 3) in
  blit box 8 content.

Fixpoint concat_loop (result : buffer) (offset : Z) (arrays : list buffer)
    : buffer :=
  match arrays with
  | [] => result
  | arr :: rest =>
    concat_loop (blit result offset arr) (offset + byteLength arr) rest
  end.

Definition concat (arrays : list buffer) : buffer :=
  concat_loop (zeros (totalLength arrays)) 0 arrays.

(** ** Samples and tracks *)

Record sample : Type := mkSample {
  s_data : option buffer;   (* [null]/[undefined] is [None] *)
  s_duration : Z;
  s_dts : Z;
  s_cts : Z;
  s_is_sync : bool
}.

(** [sample.data?.byteLength || 0]. *)
Definition dataLength (s : sample) : Z :=
  match s_data s with
  | Some d => byteLength d
  | None => 0
  end.

(** [s.data && s.data.byteLength > 0]. *)
Definition hasData (s : sample) : bool :=
  match s_data s with
  | Some d => 0 <? byteLength d
  | None => false
  end.

(** [a || b] on numbers: [0] is the falsy one. *)
Definition orElse (a b : Z) : Z := if a =? 0 then b else a.

(** [Math.round(a * b / c)] as the builders store it in a 32-bit field:
    the quotient rounded half up; a zero divisor gives an infinity or
    [NaN], all stored as 0.  The source computes in doubles, which is
    exact for the durations and timescales of a media file (products
    below 2^51). *)
Definition roundDiv (a b c : Z) : Z :=
  if c =? 0 then 0 else (2 * (a * b) + c) / (2 * c).

(** Run-length encoding as both builders write it, for time-to-sample
    (on durations) and composition offsets: [first] is the initial
    [currentDuration]/[currentOffset], the loop state is the open run. *)
Fixpoint rle_loop (vals : list Z) (current count : Z) (entries : list (Z * Z))
    : list (Z * Z) :=
  match vals with
  | [] => if 0 <? count then entries ++ [(count, current)] else entries
  | v :: rest =>
    if v =? current then rle_loop rest current (count + 1) entries
    else rle_loop rest v 1 (entries ++ [(count, current)])
  end.

(** [samples[0]?.duration || 1] and the loop of [buildStts]. *)
Definition sttsEntries (samples : list sample) : list (Z * Z) :=
  let currentDuration :=
    match samples with
    | [] => 1
    | s :: _ => orElse (s_duration s) 1
    end in
  rle_loop (map s_duration samples) currentDuration 0 [].

Definition compositionOffset (s : sample) : Z :=
  orElse (s_cts s) 0 - orElse (s_dts s) 0.

Definition cttsEntries (samples : list sample) : list (Z * Z) :=
  let currentOffset :=
    match samples with
    | [] => 0 - 0
    | s :: _ => compositionOffset s
    end in
  rle_loop (map compositionOffset samples) currentOffset 0 [].

(** The loop that fills a table of pairs from offset 8. *)
Fixpoint putPairs (content : buffer) (i : Z) (entries : list (Z * Z))
    : buffer :=
  match entries with
  | [] => content
  | (count, v) :: rest =>
    putPairs (put32 (put32 content (8 + i * 8) count) (12 + i * 8) v)
             (i + 1) rest
  end.

(** The loop that fills a table of 32-bit words from offset [base]. *)
Fixpoint putWords (content : buffer) (base i : Z) (words : list Z) : buffer :=
  match words with
  | [] => content
  | w :: rest => putWords (put32 content (base + i * 4) w) base (i + 1) rest
  end.

(** The 1-based positions of the sync samples, counting from [i + 1]. *)
Fixpoint syncSamples_from (i : Z) (samples : list sample) : list Z :=
  match samples with
  | [] => []
  | s :: rest =>
    if s_is_sync s then (i + 1) :: syncSamples_from (i + 1) rest
    else syncSamples_from (i + 1) rest
  end.

Definition syncSamples (samples : list sample) : list Z :=
  syncSamples_from 0 samples.

(** [track.samples.some(s => s.cts !== s.dts)]. *)
Definition needsCtts (samples : list sample) : bool :=
  existsb (fun s => negb (s_cts s =? s_dts s)) samples.

(** The bytes a track contributes to [mdat]: every sample with [data]. *)
Fixpoint sampleBytes (samples : list sample) : list buffer :=
  match samples with
  | [] => []
  | s :: rest =>
    match s_data s with
    | Some d => d :: sampleBytes rest
    | None => sampleBytes rest
    end
  end.

(** [trackDataSize]: the sum of [s.data.byteLength] over those samples. *)
Definition trackDataSize (samples : list sample) : Z :=
  fold_left (fun sum s => match s_data s with
                          | Some d => sum + byteLength d
                          | None => sum
                          end) samples 0.

Definition movieTimescale : Z := 1000.

(** ** Progressive builder with raw sample descriptions
    ([buildMP4WithRawStsd]) *)

Module RawStsd.

Record track : Type := mkTrack {
  id : Z;
  type : string;
  timescale : Z;
  duration : Z;
  width : Z;
  height : Z;
  samples : list sample;
  rawStsd : option buffer
}.

Definition ftyp : buffer :=
  let ftypContent := zeros 20 in
  let ftypContent := blit ftypContent 0 (bytes [0x69; 0x73; 0x6F; 0x6D]) in
  let ftypContent := put32 ftypContent 4 0x200 in
  let ftypContent := blit ftypContent 8 (bytes [0x69; 0x73; 0x6F; 0x6D]) in
  let ftypContent := blit ftypContent 12 (bytes [0x69; 0x73; 0x6F; 0x32]) in
  let ftypContent := blit ftypContent 16 (bytes [0x61; 0x76; 0x63; 0x31]) in
  makeBox "ftyp" ftypContent.

(** [Math.round(maxDuration)] as the movie header stores it: the
    largest [duration * 1000 / timescale], rounded (rounding keeps the
    order, so the largest rounded quotient is the rounded largest one).
    A track with timescale 0 and a positive duration makes the maximum
    infinite, which is stored as 0. *)
Definition maxDuration (tracks : list track) : Z :=
  if existsb (fun t => (timescale t =? 0) && (0 <? duration t)) tracks then 0
  else fold_left (fun m t => Z.max m (roundDiv (duration t) movieTimescale
                                               (timescale t))) tracks 0.

Definition mvhd (tracks : list track) : buffer :=
  let mvhdContent := zeros 100 in
  let mvhdContent := put32 mvhdContent 12 movieTimescale in
  let mvhdContent := put32 mvhdContent 16 (maxDuration tracks) in
  let mvhdContent := put32 mvhdContent 20 0x00010000 in
  let mvhdContent := put16 mvhdContent 24 0x0100 in
  let mvhdContent := put32 mvhdContent 36 0x00010000 in
  let mvhdContent := put32 mvhdContent 52 0x00010000 in
  let mvhdContent := put32 mvhdContent 68 0x40000000 in
  let mvhdContent := put32 mvhdContent 96 (Z.of_nat (length tracks) + 1) in
  makeBox "mvhd" mvhdContent.

Definition mdatContent (tracks : list track) : buffer :=
  concat (flat_map (fun t => sampleBytes (samples t)) tracks).

Definition tkhd (t : track) : buffer :=
  let trackDuration := roundDiv (duration t) movieTimescale (timescale t) in
  let tkhdContent := zeros 84 in
  let tkhdContent := put32 tkhdContent 0 0x00000003 in
  let tkhdContent := put32 tkhdContent 12 (id t) in
  let tkhdContent := put32 tkhdContent 20 trackDuration in
  let tkhdContent :=
    put16 tkhdContent 36 (if String.eqb (type t) "audio" then 0x0100 else 0) in
  let tkhdContent := put32 tkhdContent 40 0x00010000 in
  let tkhdContent := put32 tkhdContent 56 0x00010000 in
  let tkhdContent := put32 tkhdContent 72 0x40000000 in
  let tkhdContent := put32 tkhdContent 76 (Z.shiftl (width t) 16) in
  let tkhdContent := put32 tkhdContent 80 (Z.shiftl (height t) 16) in
  makeBox "tkhd" tkhdContent.

Definition mdhd (t : track) : buffer :=
  let mdhdContent := zeros 24 in
  let mdhdContent := put32 mdhdContent 12 (timescale t) in
  let mdhdContent := put32 mdhdContent 16 (duration t) in
  let mdhdContent := put16 mdhdContent 20 0x55C4 in
  makeBox "mdhd" mdhdContent.

Definition hdlr (t : track) : buffer :=
  let isVideo := String.eqb (type t) "video" in
  let handlerType := if isVideo then "vide" else "soun" in
  let handlerName := if isVideo then "VideoHandler" else "SoundHandler" in
  let hdlrContent := zeros (25 + Z.of_nat (String.length handlerName)) in
  let hdlrContent := blit hdlrContent 8 (charCodes handlerType) in
  let hdlrContent := blit hdlrContent 24 (charCodes handlerName) in
  makeBox "hdlr" hdlrContent.

Definition mediaHeader (t : track) : buffer :=
  if String.eqb (type t) "video"
  then makeBox "vmhd" (bytes [0; 0; 0; 1; 0; 0; 0; 0; 0; 0; 0; 0])
  else makeBox "smhd" (zeros 8).

Definition dinf : buffer :=
  let urlBox := makeBox "url " (bytes [0; 0; 0; 1]) in
  let dref := makeBox "dref" (concat [bytes [0; 0; 0; 0; 0; 0; 0; 1]; urlBox]) in
  makeBox "dinf" dref.

Definition stsd (t : track) : buffer :=
  match rawStsd t with
  | Some raw => raw
  | None => makeBox "stsd" (zeros 8)
  end.

Definition stts (t : track) : buffer :=
  let entries := sttsEntries (samples t) in
  let n := Z.of_nat (length entries) in
  let sttsContent := zeros (8 + n * 8) in
  let sttsContent := put32 sttsContent 4 n in
  makeBox "stts" (putPairs sttsContent 0 entries).

Definition stsc (t : track) : buffer :=
  let stscContent := zeros 20 in
  let stscContent := put32 stscContent 4 1 in
  let stscContent := put32 stscContent 8 1 in
  let stscContent := put32 stscContent 12 (Z.of_nat (length (samples t))) in
  let stscContent := put32 stscContent 16 1 in
  makeBox "stsc" stscContent.

Definition stsz (t : track) : buffer :=
  let n := Z.of_nat (length (samples t)) in
  let stszContent := zeros (12 + n * 4) in
  let stszContent := put32 stszContent 8 n in
  makeBox "stsz" (putWords stszContent 12 0 (map dataLength (samples t))).

Definition stco (dataOffset : Z) : buffer :=
  let stcoContent := zeros 12 in
  let stcoContent := put32 stcoContent 4 1 in
  let stcoContent := put32 stcoContent 8 dataOffset in
  makeBox "stco" stcoContent.

(** [null] is [None]. *)
Definition stss (t : track) : option buffer :=
  if String.eqb (type t) "video" then
    let sync := syncSamples (samples t) in
    let n := Z.of_nat (length sync) in
    if (0 <? n) && (n <? Z.of_nat (length (samples t))) then
      let stssContent := zeros (8 + n * 4) in
      let stssContent := put32 stssContent 4 n in
      Some (makeBox "stss" (putWords stssContent 8 0 sync))
    else None
  else None.

Definition ctts (t : track) : option buffer :=
  if needsCtts (samples t) then
    let entries := cttsEntries (samples t) in
    let n := Z.of_nat (length entries) in
    let cttsContent := zeros (8 + n * 8) in
    let cttsContent := put32 cttsContent 4 n in
    Some (makeBox "ctts" (putPairs cttsContent 0 entries))
  else None.

(** [if (x) parts.push(x)]. *)
Definition pushIf (parts : list buffer) (x : option buffer) : list buffer :=
  match x with
  | Some b => parts ++ [b]
  | None => parts
  end.

Definition buildTrak (t : track) (dataOffset : Z) : buffer :=
  let stblParts := [stsd t; stts t; stsc t; stsz t; stco dataOffset] in
  let stblParts := pushIf stblParts (stss t) in
  let stblParts := pushIf stblParts (ctts t) in
  let stbl := makeBox "stbl" (concat stblParts) in
  let minf := makeBox "minf" (concat [mediaHeader t; dinf; stbl]) in
  let mdia := makeBox "mdia" (concat [mdhd t; hdlr t; minf]) in
  makeBox "trak" (concat [tkhd t; mdia]).

(** The second pass: each track is built at the running offset, which
    then advances by the track's sample bytes. *)
Fixpoint finalTraks (tracks : list track) (offset : Z) : list buffer :=
  match tracks with
  | [] => []
  | t :: rest =>
    buildTrak t offset :: finalTraks rest (offset + trackDataSize (samples t))
  end.

Definition tempMoov (tracks : list track) : buffer :=
  makeBox "moov" (concat (mvhd tracks :: map (fun t => buildTrak t 0) tracks)).

Definition mdatStart (tracks : list track) : Z :=
  byteLength ftyp + byteLength (tempMoov tracks) + 8.

Definition buildMP4WithRawStsd (tracks : list track) : buffer :=
  let moov :=
    makeBox "moov" (concat (mvhd tracks :: finalTraks tracks (mdatStart tracks))) in
  let mdat := makeBox "mdat" (mdatContent tracks) in
  concat [ftyp; moov; mdat].

End RawStsd.

(** ** Progressive builder with demuxer sample descriptions
    ([buildMP4File]) *)

Module Manual.

(** [stsdEntry] is the demuxer's sample-description object together with
    what [serializeBox] makes of it: its [write] method belongs to the
    demuxer library, so the bytes (or the exception) come with the track. *)
Record track : Type := mkTrack {
  id : Z;
  type : string;
  timescale : Z;
  duration : Z;
  width : Z;
  height : Z;
  samples : list sample;
  stsdEntry : option (result buffer)
}.

Definition buildFtyp : buffer :=
  let content := zeros 20 in
  let content := blit content 0 (bytes [0x69; 0x73; 0x6F; 0x6D]) in
  let content := put32 content 4 0x200 in
  let content := blit content 8 (bytes [0x69; 0x73; 0x6F; 0x6D]) in
  let content := blit content 12 (bytes [0x69; 0x73; 0x6F; 0x32]) in
  let content := blit content 16 (bytes [0x6D; 0x70; 0x34; 0x31]) in
  makeBox "ftyp" content.

Definition buildMvhd (tracks : list track) (timescale duration : Z) : buffer :=
  let content := zeros 100 in
  let content := put32 content 0 0 in
  let content := put32 content 4 0 in
  let content := put32 content 8 0 in
  let content := put32 content 12 timescale in
  let content := put32 content 16 duration in
  let content := put32 content 20 0x00010000 in
  let content := put16 content 24 0x0100 in
  let content := put32 content 36 0x00010000 in
  let content := put32 content 52 0x00010000 in
  let content := put32 content 68 0x40000000 in
  let content := put32 content 96 (Z.of_nat (length tracks) + 1) in
  makeBox "mvhd" content.

Definition buildTkhd (t : track) (trackDuration : Z) : buffer :=
  let content := zeros 84 in
  let content := put32 content 0 0x00000003 in
  let content := put32 content 4 0 in
  let content := put32 content 8 0 in
  let content := put32 content 12 (id t) in
  let content := put32 content 16 0 in
  let content := put32 content 20 trackDuration in
  let content := put16 content 32 0 in
  let content := put16 content 34 0 in
  let content :=
    put16 content 36 (if String.eqb (type t) "audio" then 0x0100 else 0) in
  let content := put16 content 38 0 in
  let content := put32 content 40 0x00010000 in
  let content := put32 content 56 0x00010000 in
  let content := put32 content 72 0x40000000 in
  let content := put32 content 76 (Z.shiftl (width t) 16) in
  let content := put32 content 80 (Z.shiftl (height t) 16) in
  makeBox "tkhd" content.

Definition buildMdhd (timescale duration : Z) : buffer :=
  let content := zeros 24 in
  let content := put32 content 0 0 in
  let content := put32 content 4 0 in
  let content := put32 content 8 0 in
  let content := put32 content 12 timescale in
  let content := put32 content 16 duration in
  let content := put16 content 20 0x55C4 in
  let content := put16 content 22 0 in
  makeBox "mdhd" content.

Definition buildHdlr (type : string) : buffer :=
  let isVideo := String.eqb type "video" in
  let handlerType := if isVideo then "vide" else "soun" in
  let name := if isVideo then "VideoHandler" else "SoundHandler" in
  let content := zeros (25 + Z.of_nat (String.length name)) in
  let content := put32 content 0 0 in
  let content := put32 content 4 0 in
  let content := blit content 8 (charCodes handlerType) in
  let content := blit content 24 (charCodes name) in
  makeBox "hdlr" content.

Definition buildVmhd : buffer :=
  makeBox "vmhd" (put32 (zeros 12) 0 0x00000001).

Definition buildSmhd : buffer := makeBox "smhd" (zeros 8).

Definition buildDref : buffer :=
  let urlBox := makeBox "url " (bytes [0; 0; 0; 1]) in
  makeBox "dref" (concat [bytes [0; 0; 0; 0; 0; 0; 0; 1]; urlBox]).

Definition buildDinf : buffer := makeBox "dinf" buildDref.

Definition buildStsd (t : track) : buffer :=
  match stsdEntry t with
  | Some (Ok entryData) =>
    let content := zeros (8 + byteLength entryData) in
    let content := put32 content 0 0 in
    let content := put32 content 4 1 in
    makeBox "stsd" (blit content 8 entryData)
  | _ => makeBox "stsd" (put32 (zeros 8) 4 0)
  end.

Definition buildStts (samples : list sample) : buffer :=
  let entries := sttsEntries samples in
  let n := Z.of_nat (length entries) in
  let content := zeros (8 + n * 8) in
  let content := put32 content 0 0 in
  let content := put32 content 4 n in
  makeBox "stts" (putPairs content 0 entries).

(** [null] is [None]. *)
Definition buildStss (samples : list sample) : option buffer :=
  let sync := syncSamples samples in
  let n := Z.of_nat (length sync) in
  if (n =? 0) || (n =? Z.of_nat (length samples)) then None
  else
    let content := zeros (8 + n * 4) in
    let content := put32 content 0 0 in
    let content := put32 content 4 n in
    Some (makeBox "stss" (putWords content 8 0 sync)).

Definition buildStsz (samples : list sample) : buffer :=
  let n := Z.of_nat (length samples) in
  let content := zeros (12 + n * 4) in
  let content := put32 content 0 0 in
  let content := put32 content 4 0 in
  let content := put32 content 8 n in
  makeBox "stsz" (putWords content 12 0 (map dataLength samples)).

Definition buildStco (offset : Z) : buffer :=
  let content := zeros 12 in
  let content := put32 content 0 0 in
  let content := put32 content 4 1 in
  let content := put32 content 8 offset in
  makeBox "stco" content.

Definition buildCtts (samples : list sample) : option buffer :=
  if needsCtts samples then
    let entries := cttsEntries samples in
    let n := Z.of_nat (length entries) in
    let content := zeros (8 + n * 8) in
    let content := put32 content 0 0 in
    let content := put32 content 4 n in
    Some (makeBox "ctts" (putPairs content 0 entries))
  else None.

Definition pushIf (parts : list buffer) (x : option buffer) : list buffer :=
  match x with
  | Some b => parts ++ [b]
  | None => parts
  end.

Definition buildStsc (t : track) : buffer :=
  let stscContent := zeros 20 in
  let stscContent := put32 stscContent 0 0 in
  let stscContent := put32 stscContent 4 1 in
  let stscContent := put32 stscContent 8 1 in
  let stscContent := put32 stscContent 12 (Z.of_nat (length (samples t))) in
  let stscContent := put32 stscContent 16 1 in
  makeBox "stsc" stscContent.

Definition buildStbl (t : track) (mdatOffset : Z) : buffer :=
  let parts := [buildStsd t; buildStts (samples t); buildStsc t;
                buildStsz (samples t); buildStco mdatOffset] in
  let parts :=
    if String.eqb (type t) "video" then pushIf parts (buildStss (samples t))
    else parts in
  let parts := pushIf parts (buildCtts (samples t)) in
  makeBox "stbl" (concat parts).

Definition buildMinf (t : track) (mdatOffset : Z) : buffer :=
  let mediaHeader :=
    if String.eqb (type t) "video" then buildVmhd else buildSmhd in
  makeBox "minf" (concat [mediaHeader; buildDinf; buildStbl t mdatOffset]).

Definition buildMdia (t : track) (mdatOffset : Z) : buffer :=
  makeBox "mdia" (concat [buildMdhd (timescale t) (duration t);
                          buildHdlr (type t); buildMinf t mdatOffset]).

Definition buildTrak (t : track) (movieTimescale mdatOffset : Z) : buffer :=
  let trackDuration := roundDiv (duration t) movieTimescale (timescale t) in
  makeBox "trak" (concat [buildTkhd t trackDuration; buildMdia t mdatOffset]).

(** [buildTrakWithOffset] spells out the same boxes as [buildTrak]
    without going through [buildMdia], [buildMinf] and [buildStbl]. *)
Definition buildTrakWithOffset (t : track) (movieTimescale dataOffset : Z)
    : buffer :=
  let trackDuration := roundDiv (duration t) movieTimescale (timescale t) in
  let tkhd := buildTkhd t trackDuration in
  let mdhd := buildMdhd (timescale t) (duration t) in
  let hdlr := buildHdlr (type t) in
  let mediaHeader :=
    if String.eqb (type t) "video" then buildVmhd else buildSmhd in
  let dinf := buildDinf in
  let stblParts := [buildStsd t; buildStts (samples t); buildStsc t;
                    buildStsz (samples t); buildStco dataOffset] in
  let stblParts :=
    if String.eqb (type t) "video" then pushIf stblParts (buildStss (samples t))
    else stblParts in
  let stblParts := pushIf stblParts (buildCtts (samples t)) in
  let stbl := makeBox "stbl" (concat stblParts) in
  let minf := makeBox "minf" (concat [mediaHeader; dinf; stbl]) in
  let mdia := makeBox "mdia" (concat [mdhd; hdlr; minf]) in
  makeBox "trak" (concat [tkhd; mdia]).

Definition maxDuration (tracks : list track) : Z :=
  if existsb (fun t => (timescale t =? 0) && (0 <? duration t)) tracks then 0
  else fold_left (fun m t => Z.max m (roundDiv (duration t) movieTimescale
                                               (timescale t))) tracks 0.

Fixpoint finalTraks (tracks : list track) (runningOffset : Z) : list buffer :=
  match tracks with
  | [] => []
  | t :: rest =>
    buildTrakWithOffset t movieTimescale runningOffset
    :: finalTraks rest (runningOffset + trackDataSize (samples t))
  end.

Definition tempMoov (tracks : list track) : buffer :=
  let tempMvhd := buildMvhd tracks movieTimescale (maxDuration tracks) in
  makeBox "moov"
    (concat (tempMvhd :: map (fun t => buildTrak t movieTimescale 0) tracks)).

Definition realMdatStart (tracks : list track) : Z :=
  byteLength buildFtyp + byteLength (tempMoov tracks) + 8.

Definition mdatContent (tracks : list track) : buffer :=
  concat (flat_map (fun t => sampleBytes (samples t)) tracks).

Definition buildMP4File (tracks : list track) : buffer :=
  let tempMvhd := buildMvhd tracks movieTimescale (maxDuration tracks) in
  let finalMoov :=
    makeBox "moov"
      (concat (tempMvhd :: finalTraks tracks (realMdatStart tracks))) in
  let mdat := makeBox "mdat" (mdatContent tracks) in
  concat [buildFtyp; finalMoov; mdat].

End Manual.

(** ** Raw sample-description extraction *)

Definition isStsdContainer (type : string) : bool :=
  String.eqb type "trak" || String.eqb type "mdia"
  || String.eqb type "minf" || String.eqb type "stbl".

(** The fuel bounds the loop and the recursion into containers alike. *)
Fixpoint findStsdInBox_loop (fuel : nat) (data : buffer) (offset : Z)
    : option (result (option buffer)) :=
  match fuel with
  | O => None
  | S fuel' =>
    if offset <? byteLength data - 8 then
      match getUint32 data offset with
      | Throw e => Some (Throw e)
      | Ok size =>
        let type := childType data offset in
        if (size <? 8) || (offset + size >? byteLength data) then Some (Ok None)
        else if String.eqb type "stsd"
        then Some (Ok (Some (slice data offset (offset + size))))
        else
          let next := findStsdInBox_loop fuel' data (offset + size) in
          if isStsdContainer type then
            match findStsdInBox_loop fuel'
                    (slice data offset (offset + size)) 8 with
            | None => None
            | Some (Throw e) => Some (Throw e)
            | Some (Ok (Some found)) => Some (Ok (Some found))
            | Some (Ok None) => next
            end
          else next
      end
    else Some (Ok None)
  end.

Definition findStsdInBox (data : buffer) (startOffset : Z)
    : result (option buffer) :=
  run (Ok None) (findStsdInBox_loop (scan_fuel data) data startOffset).

Fixpoint extractStsdFromMoov_loop (fuel : nat) (data : buffer) (offset : Z)
    : option (result (option buffer)) :=
  match fuel with
  | O => None
  | S fuel' =>
    if offset <? byteLength data - 8 then
      match getUint32 data offset with
      | Throw e => Some (Throw e)
      | Ok size =>
        let type := childType data offset in
        if (size <? 8) || (offset + size >? byteLength data) then Some (Ok None)
        else if String.eqb type "moov"
        then Some (findStsdInBox (slice data offset (offset + size)) 8)
        else extractStsdFromMoov_loop fuel' data (offset + size)
      end
    else Some (Ok None)
  end.

Definition extractStsdFromMoov (data : buffer) : result (option buffer) :=
  run (Ok None) (extractStsdFromMoov_loop (scan_fuel data) data 0).

(** ** The demuxer library

    [MP4Box] is a collaborator.  What the code sees of it: the track
    list of [onReady], the batches of [onSamples], [onError], and the
    output file of the last strategy.  The library makes its callbacks
    while [appendBuffer] and [flush] run, so a run of a collector is the
    list of callbacks in order, followed by the collector's timer. *)

Record trackInfo : Type := mkTrackInfo {
  ti_id : Z;
  ti_type : string;
  ti_nb_samples : Z;
  ti_timescale : Z;
  ti_duration : Z;
  ti_video_width : Z;      (* [track.video?.width], 0 when absent *)
  ti_video_height : Z;
  ti_track_width : Z;
  ti_track_height : Z
}.

Inductive demuxEvent : Type :=
| OnReady (tracks : list trackInfo)
| OnSamples (trackId : Z) (batch : list sample)
| OnError
| Timer.

(** A promise: the first [resolve] or [reject] settles it. *)
Definition settle {A} (p : option (result A)) (r : result A)
    : option (result A) :=
  match p with
  | Some _ => p
  | None => Some r
  end.

(** ** Sample collection and build of [defragmentWithRawStsd] *)

Module Defrag.

Record state : Type := mkState {
  fileInfo : option (list trackInfo);
  trackSamples : gmap Z (list sample);
  resolved : bool;
  promise : option (result buffer)
}.

(** [tracks.sort((a, b) => (a.type === 'video' ? -1 : 1))]: the
    comparator looks at its first argument only.  An element compared
    as [a] goes before everything when it is a video track and after
    everything otherwise; for one video and one audio track every
    sorting algorithm agrees with this. *)
Definition sortInsert (sorted : list RawStsd.track) (a : RawStsd.track)
    : list RawStsd.track :=
  if String.eqb (RawStsd.type a) "video" then a :: sorted else sorted ++ [a].

Definition sortTracks (tracks : list RawStsd.track) : list RawStsd.track :=
  fold_left sortInsert tracks [].

(** The [for] loop of [buildOutput]. *)
Fixpoint collectTracks (infos : list trackInfo)
    (trackSamples : gmap Z (list sample)) (videoStsd audioStsd : option buffer)
    (tracks : list RawStsd.track) : list RawStsd.track :=
  match infos with
  | [] => tracks
  | track :: rest =>
    match trackSamples !! ti_id track with
    | None | Some [] =>
      collectTracks rest trackSamples videoStsd audioStsd tracks
    | Some samples =>
      let filteredSamples := List.filter hasData samples in
      let calculatedDuration :=
        if ti_duration track =? 0
        then fold_left (fun sum s => sum + orElse (s_duration s) 0)
                       filteredSamples 0
        else ti_duration track in
      collectTracks rest trackSamples videoStsd audioStsd
        (tracks ++ [RawStsd.mkTrack
           (Z.of_nat (length tracks) + 1)
           (ti_type track)
           (ti_timescale track)
           calculatedDuration
           (orElse (orElse (ti_video_width track) (ti_track_width track)) 0)
           (orElse (orElse (ti_video_height track) (ti_track_height track)) 0)
           filteredSamples
           (if String.eqb (ti_type track) "video" then videoStsd
            else audioStsd)])
    end
  end.

Definition buildOutput (infos : list trackInfo)
    (trackSamples : gmap Z (list sample)) (videoStsd audioStsd : option buffer)
    : buffer :=
  let tracks := collectTracks infos trackSamples videoStsd audioStsd [] in
  RawStsd.buildMP4WithRawStsd (sortTracks tracks).

(** [fileInfo.tracks.every(t => trackSamples[t.id] &&
    trackSamples[t.id].length >= t.nb_samples)]. *)
Definition allDone (infos : list trackInfo)
    (trackSamples : gmap Z (list sample)) : bool :=
  forallb (fun t => match trackSamples !! ti_id t with
                    | Some l => ti_nb_samples t <=? Z.of_nat (length l)
                    | None => false
                    end) infos.

Definition onReady (infos : list trackInfo) (s : state) : state :=
  mkState (Some infos)
          (fold_left (fun m t => <[ti_id t := []]> m) infos (trackSamples s))
          (resolved s) (promise s).

(** A batch for a track without accumulator makes [push] throw inside
    the callback; the exception leaves through [appendBuffer] and
    reaches [.catch(reject)]. *)
Definition onSamples (videoStsd audioStsd : option buffer)
    (trackId : Z) (batch : list sample) (s : state) : state :=
  if resolved s then s
  else
    match trackSamples s !! trackId with
    | None =>
      mkState (fileInfo s) (trackSamples s) (resolved s)
              (settle (promise s) (Throw TypeError))
    | Some l =>
      let ts := <[trackId := l ++ batch]> (trackSamples s) in
      match fileInfo s with
      | Some infos =>
        if allDone infos ts then
          mkState (fileInfo s) ts true
                  (settle (promise s)
                          (Ok (buildOutput infos ts videoStsd audioStsd)))
        else mkState (fileInfo s) ts (resolved s) (promise s)
      | None => mkState (fileInfo s) ts (resolved s) (promise s)
      end
    end.

Definition onError (s : state) : state :=
  if resolved s then s
  else mkState (fileInfo s) (trackSamples s) true
               (settle (promise s) (Throw External)).

(** [setTimeout(() => { if (!resolved) { resolved = true;
    reject(new Error('Timeout')) } }, 20000)]. *)
Definition onTimeout (s : state) : state :=
  if resolved s then s
  else mkState (fileInfo s) (trackSamples s) true
               (settle (promise s) (Throw TimeoutError)).

Definition step (videoStsd audioStsd : option buffer) (s : state)
    (ev : demuxEvent) : state :=
  match ev with
  | OnReady infos => onReady infos s
  | OnSamples trackId batch => onSamples videoStsd audioStsd trackId batch s
  | OnError => onError s
  | Timer => onTimeout s
  end.

Definition init : state := mkState None ∅ false None.

(** The collector fed with the demuxer's callbacks, then the timer. *)
Definition collect (videoStsd audioStsd : option buffer)
    (events : list demuxEvent) : state :=
  fold_left (step videoStsd audioStsd) (events ++ [Timer]) init.

End Defrag.

(** [demux buf]: the callbacks the library makes when a fresh file is
    fed [buf] with [appendBuffer] and [flush]. *)
Definition demuxer := buffer -> list demuxEvent.

(** [defragmentWithRawStsd]: the store after the call, and how the
    returned promise settles.  The timer always fires, so the promise is
    always settled ([Defrag_collect_settled]). *)
Definition defragmentWithRawStsd (demux : demuxer) (st : store)
    : store * result buffer :=
  match extractStsdFromMoov (videoData st),
        extractStsdFromMoov (audioData st) with
  | Throw e, _ => (st, Throw e)
  | Ok _, Throw e => (st, Throw e)
  | Ok None, Ok _ => (st, Throw NoVideoStsd)
  | Ok (Some videoStsd), Ok audioStsd =>
    match binaryMuxFragmentedMP4 st with
    | (st', Throw e) => (st', Throw e)
    | (st', Ok fragmented) =>
      let s := Defrag.collect (Some videoStsd) audioStsd (demux fragmented) in
      (st', match Defrag.promise s with
            | Some r => r
            | None => Throw TimeoutError
            end)
    end
  end.

(** ** Sample collection of [parseFile] *)

Module ParseFile.

Record parsed : Type := mkParsed {
  info : option (list trackInfo);
  samples : list sample;
  file : bool            (* [false] for [file: null] *)
}.

Record state : Type := mkState {
  st_info : option (list trackInfo);
  st_samples : list sample;
  extractionDone : bool;
  totalSamples : Z;
  promise : option (result parsed)
}.

Definition onReady (fileInfo : list trackInfo) (s : state) : state :=
  match fileInfo with
  | track :: _ =>
    mkState (Some fileInfo) (st_samples s) (extractionDone s)
            (orElse (ti_nb_samples track) 0) (promise s)
  | [] =>
    mkState (Some fileInfo) (st_samples s) (extractionDone s) (totalSamples s)
            (settle (promise s) (Ok (mkParsed None [] false)))
  end.

Definition onSamples (sampleBatch : list sample) (s : state) : state :=
  let samples := st_samples s ++ sampleBatch in
  if (totalSamples s <=? Z.of_nat (length samples)) && negb (extractionDone s)
  then mkState (st_info s) samples true (totalSamples s)
               (settle (promise s) (Ok (mkParsed (st_info s) samples true)))
  else mkState (st_info s) samples (extractionDone s) (totalSamples s)
               (promise s).

Definition onError (s : state) : state :=
  mkState (st_info s) (st_samples s) (extractionDone s) (totalSamples s)
          (settle (promise s) (Throw External)).

(** [setTimeout(() => { if (!extractionDone) { extractionDone = true;
    resolve({ info, samples, file }) } }, 3000)]. *)
Definition onTimeout (s : state) : state :=
  if extractionDone s then s
  else mkState (st_info s) (st_samples s) true (totalSamples s)
               (settle (promise s)
                       (Ok (mkParsed (st_info s) (st_samples s) true))).

Definition step (s : state) (ev : demuxEvent) : state :=
  match ev with
  | OnReady fileInfo => onReady fileInfo s
  | OnSamples _ sampleBatch => onSamples sampleBatch s
  | OnError => onError s
  | Timer => onTimeout s
  end.

Definition init : state := mkState None [] false 0 None.

Definition collect (events : list demuxEvent) : state :=
  fold_left step (events ++ [Timer]) init.

Definition parseFile (demux : demuxer) (data : buffer) : result parsed :=
  match promise (collect (demux data)) with
  | Some r => r
  | None => Throw TimeoutError
  end.

End ParseFile.

(** ** The fallback chain of [muxVideoAudio] *)

(** The last strategy writes its output with the library ([addTrack],
    [addSample], [getBuffer]).  What the code does with it depends on
    where the library throws and on what [getBuffer] returns. *)
Inductive remuxOutcome : Type :=
| AddVideoTrackThrows
| GetBuffer (output : result (option buffer))
| RemuxThrows (e : error).

Record MP4BoxLib : Type := mkMP4Box {
  demux : demuxer;
  remux : ParseFile.parsed -> ParseFile.parsed -> remuxOutcome
}.

(** [size > videoData.byteLength * 0.9].  Both sizes are byte counts;
    for integers in that range the double product compares with an
    integer as nine tenths do. *)
Definition plausible (size videoSize : Z) : bool :=
  9 * videoSize <? 10 * size.

(** The third strategy, from [parseFile] on; every exception ends in
    the outer [catch], which returns [videoData]. *)
Definition remuxWithLibrary (lib : MP4BoxLib) (st : store) : buffer :=
  match ParseFile.parseFile (demux lib) (videoData st) with
  | Throw _ => videoData st
  | Ok videoResult =>
    match ParseFile.parseFile (demux lib) (audioData st) with
    | Throw _ => videoData st
    | Ok audioResult =>
      match ParseFile.info videoResult with
      | None | Some [] => videoData st
      | Some _ =>
        match remux lib videoResult audioResult with
        | AddVideoTrackThrows => videoData st
        | RemuxThrows _ => videoData st
        | GetBuffer (Throw _) => videoData st
        | GetBuffer (Ok None) => videoData st
        | GetBuffer (Ok (Some output)) =>
          if 10000 <? byteLength output then output else videoData st
        end
      end
    end
  end.

(** [muxVideoAudio]; [None] for the library is [typeof MP4Box ===
    'undefined'].  The store is threaded through the attempts: what one
    attempt writes into an input buffer, the next one reads. *)
Definition muxVideoAudio (lib : option MP4BoxLib) (st : store)
    : store * result buffer :=
  match lib with
  | None => (st, Throw MP4BoxNotLoaded)
  | Some lib =>
    let videoSize := byteLength (videoData st) in
    let '(st1, r1) := defragmentWithRawStsd (demux lib) st in
    let accepted1 :=
      match r1 with
      | Ok result => if plausible (byteLength result) videoSize
                     then Some result else None
      | Throw _ => None
      end in
    match accepted1 with
    | Some result => (st1, Ok result)
    | None =>
      let '(st2, r2) := binaryMuxFragmentedMP4 st1 in
      let accepted2 :=
        match r2 with
        | Ok fragmented => if plausible (byteLength fragmented) videoSize
                           then Some fragmented else None
        | Throw _ => None
        end in
      match accepted2 with
      | Some fragmented => (st2, Ok fragmented)
      | None => (st2, Ok (remuxWithLibrary lib st2))
      end
    end
  end.

(** ** Observations used in the statements *)

(** A sequence of box headers laid end to end from [offset], each of
    size at least 8. *)
Fixpoint chained (offset : Z) (boxes : list box) : Prop :=
  match boxes with
  | [] => True
  | b :: rest =>
    box_offset b = offset /\ 8 <= box_size b
    /\ chained (offset + box_size b) rest
  end.

(** The top-level children of a container, as the scanning loops walk
    them. *)
Fixpoint children_loop (fuel : nat) (data : buffer) (offset : Z)
    : list subBox :=
  match fuel with
  | O => []
  | S fuel' =>
    if offset <? byteLength data - 8 then
      match getUint32 data offset with
      | Throw _ => []
      | Ok size =>
        if (size <? 8) || (offset + size >? byteLength data) then []
        else mkSubBox offset size (slice data offset (offset + size))
             :: children_loop fuel' data (offset + size)
      end
    else []
  end.

Definition children (data : buffer) : list subBox :=
  children_loop (scan_fuel data) data 8.

(** The type of a box given by its bytes. *)
Definition typeOf (boxBytes : buffer) : string := childType boxBytes 0.

(** The [track_ID] of a [trak] box: in its [tkhd] child, at offset 20
    for version 0 and 28 otherwise. *)
Definition trackIdOfTrak (trak : buffer) : option Z :=
  match findSubBox trak "tkhd" with
  | Ok (Some tkhd) =>
    let version := Z_of_byte (charAt tkhd 8) in
    match getUint32 tkhd (if version =? 0 then 20 else 28) with
    | Ok id => Some id
    | Throw _ => None
    end
  | _ => None
  end.

(** The track IDs of the [trak] children of a [moov] box, in order. *)
Definition trackIdsOfMoov (moov : buffer) : list (option Z) :=
  map (fun c => trackIdOfTrak (sub_data c))
      (List.filter (fun c => String.eqb (typeOf (sub_data c)) "trak")
                   (children moov)).

(** The track IDs declared by the [moov] of a whole file. *)
Definition trackIdsOfFile (file : buffer) : list (option Z) :=
  match parseBoxes file with
  | Ok boxes =>
    match findBox boxes "moov" with
    | Some moov =>
      trackIdsOfMoov (slice file (box_offset moov)
                            (box_offset moov + box_size moov))
    | None => []
    end
  | Throw _ => []
  end.

(** The bytes of a table of pairs: two 32-bit words per entry. *)
Definition pairBytes (entries : list (Z * Z)) : buffer :=
  flat_map (fun e => be32 (fst e) ++ be32 (snd e)) entries.

(** Re-expansion of run-length entries. *)
Definition expandRuns (entries : list (Z * Z)) : list Z :=
  flat_map (fun e => repeat (snd e) (Z.to_nat (fst e))) entries.

(** No two neighbouring runs carry the same value. *)
Fixpoint distinctNeighbours (l : list Z) : Prop :=
  match l with
  | a :: ((b :: _) as rest) => a <> b /\ distinctNeighbours rest
  | _ => True
  end.

Definition maximalRuns (entries : list (Z * Z)) : Prop :=
  distinctNeighbours (map snd entries).

(** How many samples are sync samples. *)
Definition syncCount (samples : list sample) : nat :=
  length (List.filter s_is_sync samples).

(** The samples that the callbacks of a run have delivered. *)
Definition batchesOf (events : list demuxEvent) : list sample :=
  flat_map (fun ev => match ev with
                      | OnSamples _ batch => batch
                      | _ => []
                      end) events.

(** ** Sample inputs *)

Module Sample.

(** A minimal [tkhd] (version 0) with the given track ID, inside a
    [trak] that also holds a sample description; a [trex] for the same
    ID; a [moov] holding both. *)
Definition tkhd (trackId : Z) : buffer :=
  makeBox "tkhd" (be32 0 ++ be32 0 ++ be32 0 ++ be32 trackId).

Definition stsd : buffer := makeBox "stsd" (bytes [0; 0; 0; 0; 0; 0; 0; 0]).

Definition trak (trackId : Z) : buffer :=
  makeBox "trak"
    (tkhd trackId
     ++ makeBox "mdia" (makeBox "minf" (makeBox "stbl" stsd))).

Definition trex (trackId : Z) : buffer :=
  makeBox "trex" (be32 0 ++ be32 trackId ++ be32 1).

Definition moov (trackId : Z) : buffer :=
  makeBox "moov" (makeBox "mvhd" (bytes [0; 0; 0; 0]) ++ trak trackId
                  ++ makeBox "mvex" (trex trackId)).

(** The merge of [moov 5] with the audio track and [trex] of [moov 7]. *)
Definition mergedMoov : buffer :=
  makeBox "moov" (makeBox "mvhd" (bytes [0; 0; 0; 0]) ++ trak 5 ++ trak 2
                  ++ makeBox "mvex" (trex 5 ++ trex 2)).

(** A video stream whose track has ID 5: [ftyp], [moov], one fragment. *)
Definition video : buffer :=
  makeBox "ftyp" (bytes [1; 2; 3; 4]) ++ moov 5
  ++ makeBox "moof" (bytes [9; 9]) ++ makeBox "mdat" (bytes [7; 7; 7]).

(** An audio stream whose track has ID 7, with a segment index. *)
Definition audio : buffer :=
  makeBox "ftyp" (bytes [1; 2; 3; 4]) ++ moov 7
  ++ makeBox "sidx" (be32 0 ++ be32 7 ++ be32 0)
  ++ makeBox "moof"
       (makeBox "traf" (makeBox "tfhd" (be32 0 ++ be32 7)
                        ++ makeBox "trun" (bytes [0])))
  ++ makeBox "mdat" (bytes [8; 8; 8]).

Definition inputs : store := mkStore video audio.

(** What the fragmented assembly makes of them: the video [ftyp], the
    merged [moov], the video fragment, then the audio fragments with
    their references set to 2. *)
Definition fragmented : buffer :=
  makeBox "ftyp" (bytes [1; 2; 3; 4]) ++ mergedMoov
  ++ makeBox "moof" (bytes [9; 9]) ++ makeBox "mdat" (bytes [7; 7; 7])
  ++ makeBox "sidx" (be32 0 ++ be32 2 ++ be32 0)
  ++ makeBox "moof"
       (makeBox "traf" (makeBox "tfhd" (be32 0 ++ be32 2)
                        ++ makeBox "trun" (bytes [0])))
  ++ makeBox "mdat" (bytes [8; 8; 8]).

(** The demuxer's description of a video and of an audio track. *)
Definition videoInfo : trackInfo :=
  mkTrackInfo 5 "video" 3 90000 9000 640 360 0 0.

Definition audioInfo : trackInfo :=
  mkTrackInfo 2 "audio" 2 48000 2048 0 0 0 0.

(** Samples of one byte each with the given durations, all sync. *)
Definition withDurations (durations : list Z) : list sample :=
  map (fun d => mkSample (Some (bytes [0])) d 0 0 true) durations.

(** Two tracks as [buildOutput] hands them to the builder: a video
    track of three samples (3, 2 and 4 bytes) and an audio track of two
    (1 and 5 bytes). *)
Definition videoTrack : RawStsd.track :=
  RawStsd.mkTrack 1 "video" 90000 9000 640 360
    [mkSample (Some (bytes [1; 2; 3])) 3000 0 0 true;
     mkSample (Some (bytes [4; 5])) 3000 3000 3000 false;
     mkSample (Some (bytes [6; 7; 8; 9])) 3000 6000 6000 false]
    None.

Definition audioTrack : RawStsd.track :=
  RawStsd.mkTrack 2 "audio" 48000 2048 0 0
    [mkSample (Some (bytes [10])) 1024 0 0 true;
     mkSample (Some (bytes [11; 12; 13; 14; 15])) 1024 1024 1024 true]
    None.

(** A run of the demuxer that stops one video sample short of the
    three it announced, and the run that delivers it too. *)
Definition partialRun : list demuxEvent :=
  [OnReady [videoInfo; audioInfo];
   OnSamples 5 (take 2 (RawStsd.samples videoTrack));
   OnSamples 2 (RawStsd.samples audioTrack)].

Definition fullRun : list demuxEvent :=
  partialRun ++ [OnSamples 5 (drop 2 (RawStsd.samples videoTrack))].

(** A library whose demuxer always makes the partial run and whose
    output file comes back empty. *)
Definition slowLibrary : MP4BoxLib :=
  mkMP4Box (fun _ => partialRun) (fun _ _ => GetBuffer (Ok None)).

(** A buffer cut inside its second box: a complete 8-byte [ftyp], then
    a [moov] header announcing 100 bytes of which 12 are present. *)
Definition truncated : buffer :=
  makeBox "ftyp" [] ++ be32 100 ++ charCodes "moov" ++ bytes [1; 2; 3; 4].

(** A buffer cut inside the 64-bit size of its only box. *)
Definition truncatedLargeSize : buffer := be32 1 ++ charCodes "mdat".

End Sample.

(** A fragment whose array is not a window on the video input. *)
Definition offVideo (f : fragment) : Prop :=
  match frag_data f with
  | Window VideoData _ _ => False
  | _ => True
  end.

(** ** Functions of the source that nothing calls *)

(** [insertTrakIntoMoov]: the audio track appended to the video [moov]. *)
Definition insertTrakIntoMoov (moovData trakData : buffer) : result buffer :=
  let* trakCopy := updateTrackIdInTrak trakData 2 in
  let newSize := byteLength moovData + byteLength trakCopy in
  let* newMoov := setArray (zeros newSize) 0 moovData in
  let* newMoov := setArray newMoov (byteLength moovData) trakCopy in
  setUint32 newMoov 0 newSize.

(** Sample collection and build of [defragmentMP4]. *)

Module DefragMP4.

Record state : Type := mkState {
  fileInfo : option (list trackInfo);
  trackSamples : gmap Z (list sample);
  resolved : bool;
  promise : option (result buffer)
}.

(** The [for] loop of [buildManualMP4].  [stsdEntryOf id] is the first
    sample description of [file.getTrackById(id)], with what
    [serializeBox] makes of it. *)
Fixpoint collectTracks (stsdEntryOf : Z -> option (result buffer))
    (infos : list trackInfo) (trackSamples : gmap Z (list sample))
    (tracks : list Manual.track) : list Manual.track :=
  match infos with
  | [] => tracks
  | track :: rest =>
    match trackSamples !! ti_id track with
    | None | Some [] => collectTracks stsdEntryOf rest trackSamples tracks
    | Some samples =>
      collectTracks stsdEntryOf rest trackSamples
        (tracks ++ [Manual.mkTrack
           (Z.of_nat (length tracks) + 1)
           (ti_type track)
           (ti_timescale track)
           (ti_duration track)
           (orElse (orElse (ti_video_width track) (ti_track_width track)) 0)
           (orElse (orElse (ti_video_height track) (ti_track_height track)) 0)
           samples
           (stsdEntryOf (ti_id track))])
    end
  end.

(** What [buildManualMP4] resolves the promise with. *)
Definition buildManualMP4 (fragmentedData : buffer)
    (stsdEntryOf : Z -> option (result buffer)) (infos : list trackInfo)
    (trackSamples : gmap Z (list sample)) : buffer :=
  let tracks := collectTracks stsdEntryOf infos trackSamples [] in
  let output := Manual.buildMP4File tracks in
  if 10000 <? byteLength output then output else fragmentedData.

Definition onReady (infos : list trackInfo) (s : state) : state :=
  mkState (Some infos)
          (fold_left (fun m t => <[ti_id t := []]> m) infos (trackSamples s))
          (resolved s) (promise s).

(** Here a batch for a track without accumulator is dropped. *)
Definition onSamples (fragmentedData : buffer)
    (stsdEntryOf : Z -> option (result buffer))
    (trackId : Z) (batch : list sample) (s : state) : state :=
  if resolved s then s
  else
    let ts :=
      match trackSamples s !! trackId with
      | Some l => <[trackId := l ++ batch]> (trackSamples s)
      | None => trackSamples s
      end in
    match fileInfo s with
    | Some infos =>
      if Defrag.allDone infos ts then
        mkState (fileInfo s) ts true
                (settle (promise s)
                        (Ok (buildManualMP4 fragmentedData stsdEntryOf
                                            infos ts)))
      else mkState (fileInfo s) ts (resolved s) (promise s)
    | None => mkState (fileInfo s) ts (resolved s) (promise s)
    end.

Definition onError (fragmentedData : buffer) (s : state) : state :=
  if resolved s then s
  else mkState (fileInfo s) (trackSamples s) true
               (settle (promise s) (Ok fragmentedData)).

(** [setTimeout(() => { if (!resolved) { resolved = true;
    resolve(fragmentedData) } }, 15000)]. *)
Definition onTimeout (fragmentedData : buffer) (s : state) : state :=
  if resolved s then s
  else mkState (fileInfo s) (trackSamples s) true
               (settle (promise s) (Ok fragmentedData)).

Definition step (fragmentedData : buffer)
    (stsdEntryOf : Z -> option (result buffer)) (s : state)
    (ev : demuxEvent) : state :=
  match ev with
  | OnReady infos => onReady infos s
  | OnSamples trackId batch =>
    onSamples fragmentedData stsdEntryOf trackId batch s
  | OnError => onError fragmentedData s
  | Timer => onTimeout fragmentedData s
  end.

Definition init : state := mkState None ∅ false None.

Definition collect (fragmentedData : buffer)
    (stsdEntryOf : Z -> option (result buffer))
    (events : list demuxEvent) : state :=
  fold_left (step fragmentedData stsdEntryOf) (events ++ [Timer]) init.

End DefragMP4.

(** [defragmentMP4]: how the returned promise settles. *)
Definition defragmentMP4 (demux : demuxer)
    (stsdEntryOf : Z -> option (result buffer)) (fragmentedData : buffer)
    : result buffer :=
  match DefragMP4.promise
          (DefragMP4.collect fragmentedData stsdEntryOf
                             (demux fragmentedData)) with
  | Some r => r
  | None => Throw TimeoutError
  end.

(** ** Joining the downloaded segments *)

(** [concatenateBuffers]: the downloaded segments joined into one
    buffer, with the same loop as the output of the fragment assembler. *)
Definition concatenateBuffers (buffers : list buffer) : result buffer :=
  let totalLength :=
    fold_left (fun acc buf => acc + byteLength buf) buffers 0 in
  writeParts (zeros totalLength) 0 buffers.

(** ** Further observations *)

(** The headers that [parseBoxes] reports for boxes written one after
    the other by [makeBox], the first one at [offset]. *)
Fixpoint writtenBoxes (offset : Z) (items : list (string * buffer))
    : list box :=
  match items with
  | [] => []
  | (type, content) :: rest =>
    mkBox (8 + byteLength content) type 8 offset
    :: writtenBoxes (offset + (8 + byteLength content)) rest
  end.

(** What [makeBox] can write so that the size field and the type read
    back: a four-character type and a size that fits 32 bits. *)
Definition writable (it : string * buffer) : Prop :=
  String.length (fst it) = 4%nat /\ 8 + byteLength (snd it) < 2 ^ 32.

(** A fragment whose window lies inside its source buffer. *)
Definition windowFits (st : store) (f : fragment) : Prop :=
  match frag_data f with
  | Window src off len =>
    0 <= off /\ 0 <= len /\ off + len <= byteLength (sourceOf st src)
  | Owned _ => True
  end.

(** The bytes of a table of 32-bit words. *)
Definition wordBytes (words : list Z) : buffer := flat_map be32 words.

(** A box that the search for [stsd] steps over: well formed, not the
    box looked for and not one of the containers it descends into. *)
Definition steppedOver (b : buffer) : Prop :=
  getUint32 b 0 = Ok (byteLength b) /\ 8 <= byteLength b
  /\ String.eqb (typeOf b) "stsd" = false
  /\ isStsdContainer (typeOf b) = false.

(** The bytes of a top-level box, cut out of its buffer. *)
Definition boxBytes (data : buffer) (b : box) : buffer :=
  slice data (box_offset b) (box_offset b + box_size b).

(** The boxes that the fragment assembler carries over. *)
Definition isFragmentBox (b : box) : bool :=
  String.eqb (box_type b) "styp" || String.eqb (box_type b) "sidx"
  || String.eqb (box_type b) "moof" || String.eqb (box_type b) "mdat".

(** An audio box as it appears in the assembled file: the segment
    index and the movie fragment with their references set to track 2,
    the other boxes as they are. *)
Definition audioPiece (audio : buffer) (b : box) : buffer :=
  if String.eqb (box_type b) "sidx"
  then updateTrackIdInSidx (boxBytes audio b) 2
  else if String.eqb (box_type b) "moof"
  then match updateTrackIdInMoof (boxBytes audio b) 2 with
       | Ok moofData => moofData
       | Throw _ => []
       end
  else boxBytes audio b.

(** The contents of a fragment once the segment-index patch has run. *)
Definition patchedContents (st : store) (f : fragment) : buffer :=
  if String.eqb (frag_type f) "sidx"
  then updateTrackIdInSidx (contents st (frag_data f)) 2
  else contents st (frag_data f).

(** Fragments whose windows lie one after the other in an audio buffer
    of [n] bytes, none starting before [lo], and none on the video
    buffer. *)
Fixpoint windowsFrom (n lo : Z) (frags : list fragment) : Prop :=
  match frags with
  | [] => True
  | f :: rest =>
    match frag_data f with
    | Window AudioData off len =>
      lo <= off /\ 0 <= len /\ off + len <= n
      /\ windowsFrom n (off + len) rest
    | Window VideoData _ _ => False
    | Owned _ => windowsFrom n lo rest
    end
  end.

(** ** Reading a built file *)

(** A box of the given type whose size field is its length. *)
Definition isBoxOf (type : string) (b : buffer) : Prop :=
  8 <= byteLength b /\ getUint32 b 0 = Ok (byteLength b) /\ typeOf b = type.

(** Boxes laid end to end from [offset], as the child scan reports
    them. *)
Fixpoint laidOut (offset : Z) (boxes : list buffer) : list subBox :=
  match boxes with
  | [] => []
  | b :: rest =>
    mkSubBox offset (byteLength b) b :: laidOut (offset + byteLength b) rest
  end.

(** The first child of the given type, as [findSubBox] finds it. *)
Definition childOf (type : string) (box : buffer) : option buffer :=
  match findSubBox box type with
  | Ok found => found
  | Throw _ => None
  end.

Definition isTrak (c : subBox) : bool :=
  String.eqb (typeOf (sub_data c)) "trak".

(** The [trak] boxes of a [moov] box, and of the [moov] of a file. *)
Definition traksOfMoov (moov : buffer) : list buffer :=
  map sub_data (List.filter isTrak (children moov)).

Definition traksOfFile (file : buffer) : list buffer :=
  match parseBoxes file with
  | Ok boxes =>
    match findBox boxes "moov" with
    | Some moov => traksOfMoov (boxBytes file moov)
    | None => []
    end
  | Throw _ => []
  end.

(** The boxes of the sample table of a track: the children of
    [trak] / [mdia] / [minf] / [stbl]. *)
Definition tablesOfTrak (trak : buffer) : list buffer :=
  match childOf "mdia" trak with
  | Some mdia =>
    match childOf "minf" mdia with
    | Some minf =>
      match childOf "stbl" minf with
      | Some stbl => map sub_data (children stbl)
      | None => []
      end
    | None => []
    end
  | None => []
  end.

Definition tableOfTrak (type : string) (trak : buffer) : option buffer :=
  List.find (fun b => String.eqb (typeOf b) type) (tablesOfTrak trak).

(** Reading a table: [n] 32-bit words, or [n] pairs of them, from
    [offset]. *)
Fixpoint readWords (data : buffer) (offset : Z) (n : nat) : list Z :=
  match n with
  | O => []
  | S n' =>
    match getUint32 data offset with
    | Ok w => w :: readWords data (offset + 4) n'
    | Throw _ => []
    end
  end.

Fixpoint readPairs (data : buffer) (offset : Z) (n : nat) : list (Z * Z) :=
  match n with
  | O => []
  | S n' =>
    match getUint32 data offset, getUint32 data (offset + 4) with
    | Ok a, Ok b => (a, b) :: readPairs data (offset + 8) n'
    | _, _ => []
    end
  end.

(** The entry count of a table box: the word after the header and the
    version and flags. *)
Definition entryCount (table : buffer) : nat :=
  match getUint32 table 12 with
  | Ok n => Z.to_nat n
  | Throw _ => O
  end.

(** The chunk offsets of an [stco] box and the (count, duration) runs
    of an [stts] box. *)
Definition chunkOffsets (stco : buffer) : list Z :=
  readWords stco 16 (entryCount stco).

Definition timeToSample (stts : buffer) : list (Z * Z) :=
  readPairs stts 16 (entryCount stts).

(** ** The tracks of a merged movie box *)

(** [cs] are the children that the scan of [data] lists from [offset]
    up to the child boundary [stop]. *)
Fixpoint scanned (data : buffer) (offset : Z) (cs : list subBox) (stop : Z)
    : Prop :=
  match cs with
  | [] => offset = stop
  | c :: rest =>
    sub_offset c = offset
    /\ 8 <= sub_size c
    /\ offset + sub_size c <= byteLength data
    /\ getUint32 data offset = Ok (sub_size c)
    /\ sub_data c = slice data offset (offset + sub_size c)
    /\ scanned data (offset + sub_size c) rest stop
  end.

(** The children that come before the first one of the given type. *)
Fixpoint childrenBefore (type : string) (cs : list subBox) : list subBox :=
  match cs with
  | [] => []
  | c :: rest =>
    if String.eqb (typeOf (sub_data c)) type then []
    else c :: childrenBefore type rest
  end.

(** The track IDs of the [trak] boxes among the given children. *)
Definition trackIdsOf (cs : list subBox) : list (option Z) :=
  map (fun c => trackIdOfTrak (sub_data c))
      (List.filter (fun c => String.eqb (typeOf (sub_data c)) "trak") cs).

(* ================================================================== *)
(** * Properties *)

(** ** Bytes *)

Lemma byteLength_nonneg (b : buffer) : 0 <= byteLength b.
Proof. unfold byteLength. lia. Qed.

Lemma byteLength_app (a b : buffer) :
  byteLength (a ++ b) = byteLength a + byteLength b.
Proof. unfold byteLength. rewrite length_app. lia. Qed.

Lemma Z_of_byte_range (b : byte) : 0 <= Z_of_byte b < 256.
Proof.
  unfold Z_of_byte. pose proof (Byte.to_N_bounded b). lia.
Qed.

Lemma Z_of_byte_of_Z (z : Z) : Z_of_byte (byte_of_Z z) = z mod 256.
Proof.
  unfold Z_of_byte, byte_of_Z.
  pose proof (Z.mod_pos_bound z 256 ltac:(lia)) as Hb.
  destruct (Byte.of_N (Z.to_N (z mod 256))) as [b|] eqn:E.
  - apply Byte.to_of_N in E. rewrite E. lia.
  - apply Byte.of_N_None_iff in E. lia.
Qed.

Lemma be_value_be32 (v : Z) : be_value 0 (be32 v) = v mod 2 ^ 32.
Proof.
  unfold be32. cbn [be_value]. rewrite !Z_of_byte_of_Z.
  change (2 ^ 32) with (256 * (256 * (256 * 256))).
  rewrite (Z.rem_mul_r v 256 (256 * (256 * 256))) by lia.
  rewrite (Z.rem_mul_r (v / 256) 256 (256 * 256)) by lia.
  rewrite (Z.rem_mul_r (v / 256 / 256) 256 256) by lia.
  rewrite !Z.div_div by lia.
  change (256 * 256 * 256) with 16777216.
  change (256 * 256) with 65536.
  lia.
Qed.

Lemma be_value_be16 (v : Z) : be_value 0 (be16 v) = v mod 2 ^ 16.
Proof.
  unfold be16. cbn [be_value]. rewrite !Z_of_byte_of_Z.
  change (2 ^ 16) with (256 * 256).
  rewrite (Z.rem_mul_r v 256 256) by lia.
  lia.
Qed.

Lemma length_be32 (v : Z) : length (be32 v) = 4%nat.
Proof. reflexivity. Qed.

Lemma length_zeros (n : Z) : length (zeros n) = Z.to_nat n.
Proof. unfold zeros. apply length_replicate. Qed.

Lemma byteLength_zeros (n : Z) : 0 <= n -> byteLength (zeros n) = n.
Proof. intros. unfold byteLength. rewrite length_zeros. lia. Qed.

Lemma length_blit (data : buffer) (off : Z) (src : buffer) :
  0 <= off -> off + byteLength src <= byteLength data ->
  length (blit data off src) = length data.
Proof.
  unfold blit, byteLength. intros.
  rewrite !length_app, length_take, length_drop. lia.
Qed.

Lemma byteLength_blit (data : buffer) (off : Z) (src : buffer) :
  0 <= off -> off + byteLength src <= byteLength data ->
  byteLength (blit data off src) = byteLength data.
Proof.
  intros. unfold byteLength. f_equal. now apply length_blit.
Qed.

(** Reading back what was written. *)
Lemma slice_blit (data : buffer) (off : Z) (src : buffer) :
  0 <= off -> off + byteLength src <= byteLength data ->
  slice (blit data off src) off (off + byteLength src) = src.
Proof.
  unfold slice, blit, byteLength. intros.
  rewrite drop_app_length'
    by (rewrite length_take; lia).
  replace (Z.to_nat (off + Z.of_nat (length src) - off)) with (length src)
    by lia.
  apply take_app_length.
Qed.

Lemma getUint32_blit (data : buffer) (off v : Z) :
  0 <= off -> off + 4 <= byteLength data ->
  getUint32 (blit data off (be32 v)) off = Ok (v mod 2 ^ 32).
Proof.
  intros H0 H4. unfold getUint32.
  rewrite byteLength_blit by (change (byteLength (be32 v)) with 4; lia).
  replace ((0 <=? off) && (off + 4 <=? byteLength data)) with true
    by (symmetry; apply andb_true_iff; split; lia).
  change 4 with (byteLength (be32 v)) at 1.
  rewrite slice_blit by (change (byteLength (be32 v)) with 4; lia).
  now rewrite be_value_be32.
Qed.

(** ** Box reader *)

Lemma readBoxHeader_offset (view : buffer) (offset : Z) (b : box) :
  readBoxHeader view offset = Ok (Some b) -> box_offset b = offset.
Proof.
  unfold readBoxHeader.
  destruct (offset + 8 >? byteLength view); [discriminate|].
  destruct (getUint32 view offset) as [size|]; [|discriminate].
  destruct (getUint8 view (offset + 4)); [|discriminate].
  destruct (getUint8 view (offset + 5)); [|discriminate].
  destruct (getUint8 view (offset + 6)); [|discriminate].
  destruct (getUint8 view (offset + 7)); [|discriminate].
  cbn [bind].
  destruct (size =? 1).
  - destruct (getBigUint64 view (offset + 8)); [|discriminate].
    cbn [bind]. intros [= <-]. reflexivity.
  - destruct (size =? 0); intros [= <-]; reflexivity.
Qed.

(** Fewer than eight bytes left: the not-found header. *)
Lemma readBoxHeader_short (view : buffer) (offset : Z) :
  byteLength view < offset + 8 -> readBoxHeader view offset = Ok None.
Proof.
  intros H. unfold readBoxHeader.
  destruct (Z.gtb_spec (offset + 8) (byteLength view)); [reflexivity|lia].
Qed.

Lemma parseBoxes_loop_total (view : buffer) (fuel : nat) :
  forall offset boxes,
    byteLength view - offset < 8 * Z.of_nat fuel -> (1 <= fuel)%nat ->
    exists r, parseBoxes_loop fuel view offset boxes = Some r.
Proof.
  induction fuel as [|fuel IH]; intros offset boxes Hrem Hpos; [lia|].
  cbn [parseBoxes_loop].
  destruct (Z.ltb_spec offset (byteLength view)) as [Hlt|Hge]; [|eauto].
  destruct (Z.lt_ge_cases (byteLength view) (offset + 8)) as [Hshort|Hlong].
  { rewrite readBoxHeader_short by assumption. eauto. }
  destruct (readBoxHeader view offset) as [[b|]|e] eqn:Hhdr; [|eauto|eauto].
  destruct (Z.ltb_spec (box_size b) 8) as [Hsmall|Hbig]; [eauto|].
  apply IH; lia.
Qed.

Lemma parseBoxes_loop_more_fuel (view : buffer) (fuel : nat) :
  forall fuel' offset boxes r,
    parseBoxes_loop fuel view offset boxes = Some r -> (fuel <= fuel')%nat ->
    parseBoxes_loop fuel' view offset boxes = Some r.
Proof.
  induction fuel as [|fuel IH]; intros fuel' offset boxes r Hrun Hle;
    [discriminate|].
  destruct fuel' as [|fuel']; [lia|].
  cbn [parseBoxes_loop] in *.
  destruct (offset <? byteLength view); [|assumption].
  destruct (readBoxHeader view offset) as [[b|]|e]; [|assumption|assumption].
  destruct (box_size b <? 8); [assumption|].
  apply IH; [assumption|lia].
Qed.

Lemma parseBoxes_loop_chained (view : buffer) (fuel : nat) :
  forall offset acc boxes,
    parseBoxes_loop fuel view offset acc = Some (Ok boxes) ->
    exists more, boxes = acc ++ more /\ chained offset more.
Proof.
  induction fuel as [|fuel IH]; intros offset acc boxes Hrun; [discriminate|].
  cbn [parseBoxes_loop] in Hrun.
  assert (Hstop : Some (Ok acc) = Some (Ok boxes) ->
                  exists more, boxes = acc ++ more /\ chained offset more).
  { intros [= <-]. exists []. rewrite app_nil_r. split; [reflexivity|exact I]. }
  destruct (offset <? byteLength view); [|auto].
  destruct (readBoxHeader view offset) as [[b|]|e] eqn:Hhdr;
    [|auto|discriminate].
  destruct (Z.ltb_spec (box_size b) 8) as [Hsmall|Hbig]; [auto|].
  apply IH in Hrun as (more & -> & Hchain).
  exists (b :: more). rewrite <- app_assoc. split; [reflexivity|].
  cbn [chained]. apply readBoxHeader_offset in Hhdr. rewrite Hhdr. auto.
Qed.

(** C10. [parseBoxes] terminates on every buffer: as soon as the fuel
    exceeds an eighth of the buffer length the loop returns, and always
    the same result; the boxes it accepts lie end to end from offset 0,
    each of size at least 8, so the scan offset grows by at least 8 per
    iteration; a header whose computed size is below 8, and fewer than 8
    remaining bytes, end the loop on the spot with the boxes read so
    far. *)
Theorem parseBoxes_terminates :
  forall view : buffer,
    (exists r : result (list box),
       (forall fuel : nat,
          byteLength view < 8 * Z.of_nat fuel ->
          parseBoxes_loop fuel view 0 [] = Some r)
       /\ parseBoxes view = r)
    /\ (forall boxes, parseBoxes view = Ok boxes -> chained 0 boxes)
    /\ (forall (fuel : nat) offset acc b,
          offset < byteLength view ->
          readBoxHeader view offset = Ok (Some b) -> box_size b < 8 ->
          parseBoxes_loop (S fuel) view offset acc = Some (Ok acc))
    /\ (forall (fuel : nat) offset acc,
          byteLength view < offset + 8 ->
          parseBoxes_loop (S fuel) view offset acc = Some (Ok acc)).
Proof.
  intros view.
  assert (Hfuel : byteLength view - 0 < 8 * Z.of_nat (parseBoxes_fuel view)).
  { unfold parseBoxes_fuel, byteLength. lia. }
  destruct (parseBoxes_loop_total view (parseBoxes_fuel view) 0 [] Hfuel)
    as [r Hr]; [unfold parseBoxes_fuel; lia|].
  assert (Hparse : parseBoxes view = r).
  { unfold parseBoxes. now rewrite Hr. }
  split; [|split; [|split]].
  - exists r. split; [|assumption].
    intros fuel Hbound.
    destruct (parseBoxes_loop_total view fuel 0 []) as [r' Hr'];
      [lia | pose proof (byteLength_nonneg view); lia |].
    destruct (Nat.le_ge_cases fuel (parseBoxes_fuel view)) as [Hle|Hle].
    + pose proof (parseBoxes_loop_more_fuel _ _ _ _ _ _ Hr' Hle) as Hsame.
      congruence.
    + pose proof (parseBoxes_loop_more_fuel _ _ _ _ _ _ Hr Hle) as Hsame.
      congruence.
  - intros boxes Hok. rewrite Hparse in Hok. rewrite Hok in Hr.
    apply parseBoxes_loop_chained in Hr as (more & -> & Hchain).
    exact Hchain.
  - intros fuel offset acc b Hlt Hhdr Hsmall. cbn [parseBoxes_loop].
    destruct (Z.ltb_spec offset (byteLength view)); [|lia].
    rewrite Hhdr.
    destruct (Z.ltb_spec (box_size b) 8); [reflexivity|lia].
  - intros fuel offset acc Hshort. cbn [parseBoxes_loop].
    destruct (offset <? byteLength view); [|reflexivity].
    now rewrite readBoxHeader_short.
Qed.

(** C5. On a buffer cut inside its second box (the header announces 100
    bytes, 12 are there), [parseBoxes] does stop without throwing, but
    what it returns includes the header of the cut box: the size is
    never compared with the bytes that remain.  When the cut falls inside
    a 64-bit size field the read of that field throws. *)
Theorem parseBoxes_keeps_truncated_box :
  byteLength Sample.truncated = 20
  /\ parseBoxes Sample.truncated
     = Ok [mkBox 8 "ftyp" 8 0; mkBox 100 "moov" 8 8]
  /\ parseBoxes Sample.truncatedLargeSize = Throw RangeError.
Proof. repeat split; vm_compute; reflexivity. Qed.

(** The cut box then makes the assembler's window on it fail. *)
Example binaryMux_truncated_video :
  snd (binaryMuxFragmentedMP4 (mkStore Sample.truncated Sample.audio))
  = Throw RangeError.
Proof. vm_compute. reflexivity. Qed.

(** ** Fragment assembler: what happens to the input buffers *)

Lemma collectAudioFragments_offVideo (st : store) (boxes : list box) :
  forall frags,
    collectAudioFragments st boxes = Ok frags -> Forall offVideo frags.
Proof.
  induction boxes as [|b rest IH]; intros frags Hrun; cbn in Hrun.
  - injection Hrun as <-. constructor.
  - destruct (String.eqb (box_type b) "styp" || String.eqb (box_type b) "sidx").
    { unfold newWindow in Hrun.
      destruct (_ && _); [|discriminate]. cbn [bind] in Hrun.
      destruct (collectAudioFragments st rest) as [frags'|]; [|discriminate].
      injection Hrun as <-. constructor; [exact I | now apply IH]. }
    destruct (String.eqb (box_type b) "moof").
    { destruct (updateTrackIdInMoof _ 2); [|discriminate]. cbn [bind] in Hrun.
      destruct (collectAudioFragments st rest) as [frags'|]; [|discriminate].
      injection Hrun as <-. constructor; [exact I | now apply IH]. }
    destruct (String.eqb (box_type b) "mdat"); [|now apply IH].
    unfold newWindow in Hrun.
    destruct (_ && _); [|discriminate]. cbn [bind] in Hrun.
    destruct (collectAudioFragments st rest) as [frags'|]; [|discriminate].
    injection Hrun as <-. constructor; [exact I | now apply IH].
Qed.

Lemma patchSidxFragments_video (frags : list fragment) :
  forall st, Forall offVideo frags ->
             videoData (fst (patchSidxFragments st frags)) = videoData st.
Proof.
  induction frags as [|f rest IH]; intros st Hoff; [reflexivity|].
  inversion Hoff as [|? ? Hf Hrest]; subst. cbn [patchSidxFragments].
  destruct (String.eqb (frag_type f) "sidx").
  - unfold offVideo in Hf.
    destruct (frag_data f) as [[|] off len|d]; [contradiction| |]; cbn.
    + specialize (IH (mkStore (videoData st)
                         (blit (audioData st) off
                            (updateTrackIdInSidx
                               (slice (audioData st) off (off + len)) 2)))
                     Hrest).
      destruct (patchSidxFragments _ rest). exact IH.
    + specialize (IH st Hrest).
      destruct (patchSidxFragments st rest). exact IH.
  - specialize (IH st Hrest).
    destruct (patchSidxFragments st rest). exact IH.
Qed.

(** The video input is never written to. *)
Lemma binaryMux_video_unchanged (st : store) :
  videoData (fst (binaryMuxFragmentedMP4 st)) = videoData st.
Proof.
  unfold binaryMuxFragmentedMP4.
  match goal with |- context [match ?p with Ok _ => _ | Throw _ => _ end] =>
    destruct p as [[[[videoFtyp mergedMoov] videoFragments] audioFragments]|e]
      eqn:Hprep end; [|reflexivity].
  assert (Hoff : Forall offVideo audioFragments).
  { destruct (parseBoxes (videoData st)) as [videoBoxes|]; [|discriminate].
    destruct (parseBoxes (audioData st)) as [audioBoxes|]; [|discriminate].
    cbn [bind] in Hprep.
    destruct (findBox videoBoxes "ftyp"); [|discriminate].
    destruct (findBox videoBoxes "moov"); [|discriminate].
    destruct (findBox audioBoxes "moov"); [|discriminate].
    destruct (newWindow st VideoData _ _); [|discriminate].
    destruct (newWindow st AudioData _ _); [|discriminate].
    cbn [bind] in Hprep.
    destruct (findSubBox _ "trak") as [[audioTrak|]|]; try discriminate;
      cbn [bind] in Hprep;
      destruct (findSubBox _ "mvex") as [audioMvex|]; try discriminate;
      cbn [bind] in Hprep;
      destruct (match audioMvex with
                | Some mvex => findSubBox mvex "trex"
                | None => Ok None
                end); try discriminate; cbn [bind] in Hprep;
      try discriminate.
    destruct (createMergedMoov _ _ _); [|discriminate].
    destruct (collectVideoFragments st videoBoxes); [|discriminate].
    cbn [bind] in Hprep.
    destruct (collectAudioFragments st audioBoxes) eqn:Haudio; [|discriminate].
    cbn [bind] in Hprep. injection Hprep as <- <- <- <-.
    eapply collectAudioFragments_offVideo; eassumption. }
  pose proof (patchSidxFragments_video audioFragments st Hoff) as Hvideo.
  destruct (patchSidxFragments st audioFragments). exact Hvideo.
Qed.

(** C3. The fragmented assembly leaves the video input untouched, but
    not the audio input: a [sidx] box of the audio stream is patched
    through a window on [audioData], so its reference ID (7 in the
    sample) reads 2 in the caller's buffer after the call; the [tfhd] of
    the [moof], patched on a copy, still reads 7 there. *)
Theorem binaryMux_patches_audio_input :
  (exists output,
      snd (binaryMuxFragmentedMP4 Sample.inputs) = Ok output)
  /\ videoData (fst (binaryMuxFragmentedMP4 Sample.inputs)) = Sample.video
  /\ getUint32 Sample.audio 144 = Ok 7
  /\ getUint32 (audioData (fst (binaryMuxFragmentedMP4 Sample.inputs))) 144
     = Ok 2
  /\ audioData (fst (binaryMuxFragmentedMP4 Sample.inputs))
     = blit Sample.audio 144 (be32 2)
  /\ getUint32 (audioData (fst (binaryMuxFragmentedMP4 Sample.inputs))) 180
     = Ok 7.
Proof.
  split; [eexists; vm_compute; reflexivity|].
  repeat split; vm_compute; reflexivity.
Qed.

(** ** Sample tables *)

Lemma length_syncSamples_from (samples : list sample) :
  forall i, length (syncSamples_from i samples) = syncCount samples.
Proof.
  unfold syncCount.
  induction samples as [|s rest IH]; intros i; cbn; [reflexivity|].
  destruct (s_is_sync s); cbn; now rewrite IH.
Qed.

Lemma syncCount_le (samples : list sample) :
  (syncCount samples <= length samples)%nat.
Proof. unfold syncCount. apply List.filter_length_le. Qed.

Lemma syncCount_all (samples : list sample) :
  Forall (fun s => s_is_sync s = true) samples ->
  syncCount samples = length samples.
Proof.
  unfold syncCount. induction 1 as [|s rest Hs _ IH]; cbn; [reflexivity|].
  rewrite Hs. cbn. now rewrite IH.
Qed.

Lemma syncCount_none (samples : list sample) :
  Forall (fun s => s_is_sync s = false) samples -> syncCount samples = 0%nat.
Proof.
  unfold syncCount. induction 1 as [|s rest Hs _ IH]; cbn; [reflexivity|].
  now rewrite Hs.
Qed.

Lemma RawStsd_stss_Some (t : RawStsd.track) (b : buffer) :
  RawStsd.stss t = Some b ->
  RawStsd.type t = "video"
  /\ (0 < syncCount (RawStsd.samples t) < length (RawStsd.samples t))%nat.
Proof.
  unfold RawStsd.stss, syncSamples.
  rewrite length_syncSamples_from.
  destruct (String.eqb_spec (RawStsd.type t) "video") as [Hv|]; [|discriminate].
  destruct (Z.ltb_spec 0 (Z.of_nat (syncCount (RawStsd.samples t))));
    [|discriminate].
  destruct (Z.ltb_spec (Z.of_nat (syncCount (RawStsd.samples t)))
                       (Z.of_nat (length (RawStsd.samples t))));
    [|discriminate].
  intros _. split; [assumption|lia].
Qed.

Lemma Manual_buildStss_Some (samples : list sample) (b : buffer) :
  Manual.buildStss samples = Some b ->
  (0 < syncCount samples < length samples)%nat.
Proof.
  unfold Manual.buildStss, syncSamples.
  rewrite length_syncSamples_from.
  pose proof (syncCount_le samples).
  destruct (Z.eqb_spec (Z.of_nat (syncCount samples)) 0); [discriminate|].
  destruct (Z.eqb_spec (Z.of_nat (syncCount samples))
                       (Z.of_nat (length samples))); [discriminate|].
  intros _. lia.
Qed.

(** Without a sync-sample box the sample table of the built track
    has its five fixed boxes and nothing else. *)
Example stss_absent_from_stbl :
  let t := RawStsd.mkTrack 1 "video" 1000 30 0 0
             (Sample.withDurations [10; 10; 10]) None in
  RawStsd.stss t = None /\ RawStsd.ctts t = None
  /\ map typeOf (tablesOfTrak (RawStsd.buildTrak t 0))
     = ["stsd"; "stts"; "stsc"; "stsz"; "stco"].
Proof. cbv zeta. repeat split; vm_compute; reflexivity. Qed.

(** ** Run-length tables *)

Lemma expandRuns_app (a b : list (Z * Z)) :
  expandRuns (a ++ b) = expandRuns a ++ expandRuns b.
Proof. unfold expandRuns. apply flat_map_app. Qed.

Lemma repeat_succ_snoc (v : Z) (n : nat) : repeat v (S n) = repeat v n ++ [v].
Proof. induction n as [|n IH]; cbn in *; [reflexivity|]. now rewrite <- IH. Qed.

Lemma rle_loop_expand (vals : list Z) :
  forall current count entries,
    0 <= count ->
    expandRuns (rle_loop vals current count entries)
    = expandRuns entries ++ repeat current (Z.to_nat count) ++ vals.
Proof.
  induction vals as [|v rest IH]; intros current count entries Hcount;
    cbn [rle_loop].
  - rewrite app_nil_r.
    destruct (Z.ltb_spec 0 count).
    + rewrite expandRuns_app. cbn. now rewrite app_nil_r.
    + replace count with 0 by lia. cbn. now rewrite app_nil_r.
  - destruct (Z.eqb_spec v current) as [->|Hne].
    + rewrite IH by lia.
      replace (Z.to_nat (count + 1)) with (S (Z.to_nat count)) by lia.
      rewrite repeat_succ_snoc, <- !app_assoc. reflexivity.
    + rewrite IH by lia. rewrite expandRuns_app. cbn.
      rewrite app_nil_r, <- !app_assoc. reflexivity.
Qed.

Lemma distinctNeighbours_snoc (l : list Z) (a b : Z) :
  distinctNeighbours (l ++ [a]) -> a <> b ->
  distinctNeighbours ((l ++ [a]) ++ [b]).
Proof.
  induction l as [|x l IH]; intros Hl Hab; cbn in *; [auto|].
  destruct l as [|y l]; cbn in *.
  - destruct Hl as [Hxa _]. auto.
  - destruct Hl as [Hxy Hl]. split; [assumption|]. now apply IH.
Qed.

Lemma distinctNeighbours_init (l : list Z) (a : Z) :
  distinctNeighbours (l ++ [a]) -> distinctNeighbours l.
Proof.
  induction l as [|x l IH]; intros Hl; cbn in *; [exact I|].
  destruct l as [|y l]; cbn in *; [exact I|].
  destruct Hl as [Hxy Hl]. split; [assumption|]. now apply IH.
Qed.

Lemma rle_loop_maximal (vals : list Z) :
  forall current count entries,
    maximalRuns (entries ++ [(count, current)]) ->
    maximalRuns (rle_loop vals current count entries).
Proof.
  unfold maximalRuns.
  induction vals as [|v rest IH]; intros current count entries Hinv;
    cbn [rle_loop].
  - destruct (0 <? count); [assumption|].
    rewrite map_app in Hinv. cbn in Hinv.
    now apply distinctNeighbours_init in Hinv.
  - destruct (Z.eqb_spec v current) as [->|Hne].
    + apply IH. rewrite map_app in *. exact Hinv.
    + apply IH. rewrite !map_app in *. cbn in *.
      apply distinctNeighbours_snoc; [assumption|congruence].
Qed.

(** ** Slices and writes *)

Lemma byteLength_slice (data : buffer) (a b : Z) :
  0 <= a -> a <= b -> b <= byteLength data -> byteLength (slice data a b) = b - a.
Proof.
  unfold slice, byteLength. intros.
  rewrite length_take, length_drop. lia.
Qed.

Lemma slice_app_slice (data : buffer) (a b c : Z) :
  0 <= a -> a <= b -> b <= c ->
  slice data a b ++ slice data b c = slice data a c.
Proof.
  unfold slice. intros.
  replace (Z.to_nat (c - a)) with (Z.to_nat (b - a) + Z.to_nat (c - b))%nat
    by lia.
  rewrite <- take_take_drop, drop_drop. do 3 f_equal. lia.
Qed.

(** Filling a zeroed array from the left. *)
Lemma blit_fill (pre src : buffer) (k : Z) :
  byteLength src <= k ->
  blit (pre ++ zeros k) (byteLength pre) src
  = pre ++ src ++ zeros (k - byteLength src).
Proof.
  unfold blit, byteLength, zeros. intros.
  rewrite Nat2Z.id, take_app_length. f_equal. f_equal.
  rewrite drop_app_add', drop_replicate by reflexivity.
  f_equal. lia.
Qed.

Lemma setArray_fill (pre src : buffer) (k : Z) :
  byteLength src <= k ->
  setArray (pre ++ zeros k) (byteLength pre) src
  = Ok (pre ++ src ++ zeros (k - byteLength src)).
Proof.
  intros Hk. unfold setArray.
  pose proof (byteLength_nonneg pre). pose proof (byteLength_nonneg src).
  rewrite byteLength_app, byteLength_zeros by lia.
  replace ((0 <=? byteLength pre)
           && (byteLength pre + byteLength src <=? byteLength pre + k))
    with true by (symmetry; apply andb_true_iff; split; lia).
  now rewrite blit_fill.
Qed.

Lemma setUint32_head (data : buffer) (v : Z) :
  4 <= byteLength data ->
  setUint32 data 0 v = Ok (be32 v ++ drop 4 data).
Proof.
  intros Hlen. unfold setUint32, setArray.
  change (byteLength (be32 v)) with 4.
  replace ((0 <=? 0) && (0 + 4 <=? byteLength data)) with true
    by (symmetry; apply andb_true_iff; split; lia).
  reflexivity.
Qed.

(** ** Sub-box search *)

Lemma run_Some {A} (d : A) (o : option A) (a : A) :
  run d o = a -> a <> d -> o = Some a.
Proof. destruct o; cbn; congruence. Qed.

Lemma findSubBoxWithOffset_loop_found (data : buffer) (targetType : string)
    (fuel : nat) :
  forall offset m,
    findSubBoxWithOffset_loop fuel data targetType offset = Some (Ok (Some m)) ->
    offset <= sub_offset m
    /\ 8 <= sub_size m
    /\ sub_offset m + sub_size m <= byteLength data
    /\ childType data (sub_offset m) = targetType
    /\ getUint32 data (sub_offset m) = Ok (sub_size m)
    /\ sub_data m = slice data (sub_offset m) (sub_offset m + sub_size m).
Proof.
  induction fuel as [|fuel IH]; intros offset m Hrun; [discriminate|].
  cbn [findSubBoxWithOffset_loop] in Hrun.
  destruct (offset <? byteLength data - 8); [|discriminate].
  destruct (getUint32 data offset) as [size|] eqn:Hsize; [|discriminate].
  destruct (Z.ltb_spec size 8); [discriminate|].
  destruct (Z.gtb_spec (offset + size) (byteLength data)); [discriminate|].
  cbn [orb] in Hrun.
  destruct (String.eqb_spec (childType data offset) targetType) as [Hty|Hty].
  - injection Hrun as <-. cbn. repeat split; auto; lia.
  - apply IH in Hrun. intuition lia.
Qed.

Lemma findSubBoxWithOffset_found (data : buffer) (targetType : string)
    (m : subBox) :
  findSubBoxWithOffset data targetType = Ok (Some m) ->
  8 <= sub_offset m
  /\ 8 <= sub_size m
  /\ sub_offset m + sub_size m <= byteLength data
  /\ childType data (sub_offset m) = targetType
  /\ getUint32 data (sub_offset m) = Ok (sub_size m)
  /\ sub_data m = slice data (sub_offset m) (sub_offset m + sub_size m).
Proof.
  intros Hfound. apply run_Some in Hfound; [|discriminate].
  now apply findSubBoxWithOffset_loop_found in Hfound.
Qed.

Lemma updateTrackIdInTrex_length (trexData : buffer) (newTrackId : Z) :
  length (updateTrackIdInTrex trexData newTrackId) = length trexData.
Proof.
  unfold updateTrackIdInTrex.
  destruct (Z.ltb_spec (byteLength trexData) 16); [reflexivity|].
  apply length_blit; [lia|]. change (byteLength (be32 newTrackId)) with 4. lia.
Qed.

Lemma charAt_lookup (data : buffer) (i : Z) :
  0 <= i -> charAt data i = default x00 (data !! Z.to_nat i).
Proof.
  intros Hi. unfold charAt.
  destruct (Z.leb_spec 0 i); [|lia]. apply nth_lookup.
Qed.

Lemma charAt_app_l (a b : buffer) (i : Z) :
  0 <= i -> i < byteLength a -> charAt (a ++ b) i = charAt a i.
Proof.
  unfold byteLength. intros. rewrite !charAt_lookup by assumption.
  now rewrite lookup_app_l by lia.
Qed.

Lemma charAt_app_r (a b : buffer) (i : Z) :
  byteLength a <= i -> charAt (a ++ b) i = charAt b (i - byteLength a).
Proof.
  unfold byteLength. intros Hi.
  rewrite (charAt_lookup (a ++ b)), (charAt_lookup b) by lia.
  rewrite lookup_app_r by lia. do 2 f_equal. lia.
Qed.

Lemma charAt_drop (data : buffer) (n i : Z) :
  0 <= n -> 0 <= i ->
  charAt (drop (Z.to_nat n) data) i = charAt data (n + i).
Proof.
  intros. rewrite !charAt_lookup by lia.
  rewrite lookup_drop. do 2 f_equal. lia.
Qed.

Lemma charAt_slice (data : buffer) (a b i : Z) :
  0 <= a -> 0 <= i -> i < b - a ->
  charAt (slice data a b) i = charAt data (a + i).
Proof.
  intros. unfold slice. rewrite !charAt_lookup by lia.
  rewrite lookup_take_lt by lia. rewrite lookup_drop. do 2 f_equal. lia.
Qed.

(** ** Moov merger *)

Lemma setArray_fill0 (src : buffer) (k : Z) :
  byteLength src <= k ->
  setArray (zeros k) 0 src = Ok (src ++ zeros (k - byteLength src)).
Proof. intros Hk. exact (setArray_fill [] src k Hk). Qed.

Lemma zeros_0 : zeros 0 = [].
Proof. reflexivity. Qed.

Lemma drop_slice (data : buffer) (n a b : Z) :
  0 <= n -> 0 <= a -> n <= b - a ->
  drop (Z.to_nat n) (slice data a b) = slice data (a + n) b.
Proof.
  intros. unfold slice.
  replace (Z.to_nat (b - a))
    with (Z.to_nat n + Z.to_nat (b - (a + n)))%nat by lia.
  rewrite <- take_drop_commute, drop_drop. do 2 f_equal. lia.
Qed.

Lemma setArray_fill_at (pre src : buffer) (k off : Z) :
  off = byteLength pre -> byteLength src <= k ->
  setArray (pre ++ zeros k) off src
  = Ok (pre ++ src ++ zeros (k - byteLength src)).
Proof. intros ->. apply setArray_fill. Qed.

Lemma zeros_nil (k : Z) : k = 0 -> zeros k = [].
Proof. now intros ->. Qed.

Lemma Ok_inj {A} (a b : A) : Ok a = Ok b -> a = b.
Proof. now intros [= ->]. Qed.

(** What [createMergedMoov] computes when the video [moov] has an
    [mvex] and an audio [trex] is given. *)
Lemma createMergedMoov_mvex (videoMoovData audioTrakBox audioTrexBox : buffer)
    (videoMvex : subBox) (audioTrakCopy : buffer) :
  findSubBoxWithOffset videoMoovData "mvex" = Ok (Some videoMvex) ->
  updateTrackIdInTrak audioTrakBox 2 = Ok audioTrakCopy ->
  let audioTrexCopy := updateTrackIdInTrex audioTrexBox 2 in
  let beforeMvex := slice videoMoovData 0 (sub_offset videoMvex) in
  let oldMvex := slice videoMoovData (sub_offset videoMvex)
                       (sub_offset videoMvex + sub_size videoMvex) in
  let newMvexSize := sub_size videoMvex + byteLength audioTrexCopy in
  let newMvex := be32 newMvexSize ++ drop 4 (oldMvex ++ audioTrexCopy) in
  let newMoovSize := sub_offset videoMvex + byteLength audioTrakCopy
                     + newMvexSize in
  createMergedMoov videoMoovData audioTrakBox (Some audioTrexBox)
  = Ok (be32 newMoovSize ++ drop 4 (beforeMvex ++ audioTrakCopy ++ newMvex)).
Proof.
  intros Hfind Htrak. cbv zeta.
  pose proof (findSubBoxWithOffset_found _ _ _ Hfind)
    as (Hoff & Hsize & Hend & _).
  unfold createMergedMoov. rewrite Htrak, Hfind. cbn [bind].
  set (off := sub_offset videoMvex) in *.
  set (size := sub_size videoMvex) in *.
  set (trexCopy := updateTrackIdInTrex audioTrexBox 2).
  pose proof (byteLength_nonneg trexCopy) as Htrex.
  pose proof (byteLength_nonneg audioTrakCopy) as Htc.
  assert (Hbefore : byteLength (slice videoMoovData 0 off) = off)
    by (rewrite byteLength_slice; lia).
  assert (Hold : byteLength (slice videoMoovData off (off + size)) = size)
    by (rewrite byteLength_slice; lia).
  set (before := slice videoMoovData 0 off) in *.
  set (old := slice videoMoovData off (off + size)) in *.
  rewrite setArray_fill0 by lia. cbn [bind].
  rewrite setArray_fill_at by lia. cbn [bind].
  rewrite (zeros_nil (_ - _ - _)), app_nil_r by lia.
  rewrite setUint32_head by (rewrite byteLength_app; lia). cbn [bind].
  set (newMvex := be32 (size + byteLength trexCopy) ++ drop 4 (old ++ trexCopy)).
  assert (HnewMvex : byteLength newMvex = size + byteLength trexCopy).
  { unfold newMvex, byteLength.
    rewrite length_app, length_drop, length_app, length_be32.
    unfold byteLength in Hold, Htrex. lia. }
  rewrite setArray_fill0 by lia. cbn [bind].
  rewrite setArray_fill_at by lia. cbn [bind].
  rewrite (app_assoc before audioTrakCopy).
  rewrite setArray_fill_at by (rewrite ?byteLength_app; lia). cbn [bind].
  rewrite (zeros_nil (_ - _ - _ - _)), app_nil_r by lia.
  rewrite setUint32_head by (rewrite !byteLength_app; lia).
  rewrite <- app_assoc. do 3 f_equal. lia.
Qed.

(** C6. When the video [moov] has an [mvex] and an audio [trex] is
    given, the merged box is, after its own size field, the bytes of the
    video [moov] before the [mvex], then the patched copy of the audio
    [trak], then the new [mvex] (the old one followed by the patched
    [trex], under a size field that counts both).  The new [mvex] sits
    right after the [trak] and ends with the box, and the leading 32-bit
    field of the merged box is its byte length. *)
Theorem createMergedMoov_layout :
  forall (videoMoovData audioTrakBox audioTrexBox merged : buffer)
         (videoMvex : subBox),
    findSubBoxWithOffset videoMoovData "mvex" = Ok (Some videoMvex) ->
    createMergedMoov videoMoovData audioTrakBox (Some audioTrexBox)
    = Ok merged ->
    exists audioTrakCopy : buffer,
      updateTrackIdInTrak audioTrakBox 2 = Ok audioTrakCopy
      /\ let mvexOffset := sub_offset videoMvex in
         let mvexEnd := sub_offset videoMvex + sub_size videoMvex in
         let audioTrexCopy := updateTrackIdInTrex audioTrexBox 2 in
         let newMvex :=
           be32 (sub_size videoMvex + byteLength audioTrexCopy)
           ++ slice videoMoovData (mvexOffset + 4) mvexEnd
           ++ audioTrexCopy in
         merged = be32 (byteLength merged)
                  ++ slice videoMoovData 4 mvexOffset
                  ++ audioTrakCopy ++ newMvex
         /\ byteLength newMvex = sub_size videoMvex + byteLength audioTrexCopy
         /\ byteLength merged
            = mvexOffset + byteLength audioTrakCopy + byteLength newMvex
         /\ getUint32 merged 0 = Ok (byteLength merged mod 2 ^ 32)
         /\ getUint32 newMvex 0 = Ok (byteLength newMvex mod 2 ^ 32)
         /\ typeOf newMvex = "mvex"
         /\ slice merged mvexOffset (mvexOffset + byteLength audioTrakCopy)
            = audioTrakCopy
         /\ slice merged (mvexOffset + byteLength audioTrakCopy)
                  (byteLength merged)
            = newMvex.
Proof.
  intros v trak trex merged m Hfind Hmerged.
  destruct (updateTrackIdInTrak trak 2) as [tc|e] eqn:Htrak;
    [|unfold createMergedMoov in Hmerged; rewrite Htrak in Hmerged;
      discriminate].
  exists tc. split; [reflexivity|].
  rewrite (createMergedMoov_mvex _ _ _ _ _ Hfind Htrak) in Hmerged.
  cbv zeta in Hmerged. apply Ok_inj in Hmerged.
  pose proof (findSubBoxWithOffset_found _ _ _ Hfind)
    as (Hoff & Hsize & Hend & Hty & _).
  cbv zeta.
  set (off := sub_offset m) in *. set (size := sub_size m) in *.
  set (trexCopy := updateTrackIdInTrex trex 2) in *.
  pose proof (byteLength_nonneg trexCopy) as Htrex.
  pose proof (byteLength_nonneg tc) as Htc.
  rewrite (drop_app_le (slice v off (off + size)))
    in Hmerged by (pose proof (byteLength_slice v off (off + size));
                   unfold byteLength in *; lia).
  rewrite (drop_app_le (slice v 0 off))
    in Hmerged by (pose proof (byteLength_slice v 0 off);
                   unfold byteLength in *; lia).
  rewrite (drop_slice v 4 off) in Hmerged by lia.
  rewrite (drop_slice v 4 0) in Hmerged by lia.
  rewrite Z.add_0_l in Hmerged.
  set (newMvex := be32 (size + byteLength trexCopy)
                  ++ slice v (off + 4) (off + size) ++ trexCopy) in *.
  assert (HnewMvex : byteLength newMvex = size + byteLength trexCopy).
  { unfold newMvex. rewrite !byteLength_app, byteLength_slice by lia.
    change (byteLength (be32 _)) with 4. lia. }
  assert (Hlen : byteLength merged = off + byteLength tc + byteLength newMvex).
  { rewrite <- Hmerged, !byteLength_app, byteLength_slice by lia.
    change (byteLength (be32 _)) with 4. lia. }
  assert (Hhead : forall (n : Z) (rest : buffer),
             getUint32 (be32 n ++ rest) 0 = Ok (n mod 2 ^ 32)).
  { intros n rest. unfold getUint32, slice.
    pose proof (byteLength_nonneg rest).
    rewrite byteLength_app. change (byteLength (be32 n)) with 4.
    replace ((0 <=? 0) && (0 + 4 <=? 4 + byteLength rest)) with true
      by (symmetry; apply andb_true_iff; split; lia).
    change (take (Z.to_nat (0 + 4 - 0)) (drop (Z.to_nat 0) (be32 n ++ rest)))
      with (be32 n).
    now rewrite be_value_be32. }
  assert (Hmerged' : merged = be32 (byteLength merged) ++ slice v 4 off
                              ++ tc ++ newMvex).
  { rewrite Hlen, HnewMvex. symmetry. exact Hmerged. }
  repeat split.
  - exact Hmerged'.
  - exact HnewMvex.
  - exact Hlen.
  - rewrite Hmerged' at 1. apply Hhead.
  - unfold newMvex at 1. rewrite HnewMvex. apply Hhead.
  - unfold typeOf, newMvex, childType.
    rewrite !(charAt_app_r (be32 _)) by (change (byteLength (be32 _)) with 4; lia).
    change (byteLength (be32 _)) with 4.
    rewrite !charAt_app_l
      by (rewrite ?byteLength_slice by lia; lia).
    rewrite !charAt_slice by lia.
    replace (off + 4 + (0 + 4 - 4)) with (off + 4) by lia.
    replace (off + 4 + (0 + 5 - 4)) with (off + 5) by lia.
    replace (off + 4 + (0 + 6 - 4)) with (off + 6) by lia.
    replace (off + 4 + (0 + 7 - 4)) with (off + 7) by lia.
    exact Hty.
  - assert (Hpre : length (be32 (byteLength merged) ++ slice v 4 off)
                   = Z.to_nat off).
    { rewrite length_app, length_be32.
      pose proof (byteLength_slice v 4 off ltac:(lia) ltac:(lia) ltac:(lia)).
      unfold byteLength in *. lia. }
    rewrite Hmerged' at 1. unfold slice.
    rewrite (app_assoc (be32 _)).
    rewrite drop_app_length' by (symmetry; exact Hpre).
    replace (Z.to_nat (off + byteLength tc - off)) with (length tc)
      by (unfold byteLength; lia).
    apply take_app_length.
  - assert (Hpre : length ((be32 (byteLength merged) ++ slice v 4 off) ++ tc)
                   = Z.to_nat (off + byteLength tc)).
    { rewrite !length_app, length_be32.
      pose proof (byteLength_slice v 4 off ltac:(lia) ltac:(lia) ltac:(lia)).
      unfold byteLength in *. lia. }
    rewrite Hmerged' at 1. unfold slice.
    rewrite (app_assoc (be32 _)), (app_assoc _ tc).
    rewrite drop_app_length' by (symmetry; exact Hpre).
    apply take_ge. unfold byteLength in *. lia.
Qed.

Lemma createMergedMoov_layout_witness :
  findSubBoxWithOffset (Sample.moov 5) "mvex"
  = Ok (Some (mkSubBox 92 28 (makeBox "mvex" (Sample.trex 5))))
  /\ createMergedMoov (Sample.moov 5) (Sample.trak 7) (Some (Sample.trex 7))
     = Ok Sample.mergedMoov
  /\ exists audioTrakCopy : buffer,
       updateTrackIdInTrak (Sample.trak 7) 2 = Ok audioTrakCopy
       /\ getUint32 Sample.mergedMoov 0
          = Ok (byteLength Sample.mergedMoov mod 2 ^ 32)
       /\ slice Sample.mergedMoov 92 (92 + byteLength audioTrakCopy)
          = audioTrakCopy
       /\ typeOf (slice Sample.mergedMoov (92 + byteLength audioTrakCopy)
                        (byteLength Sample.mergedMoov)) = "mvex".
Proof.
  assert (Hfind : findSubBoxWithOffset (Sample.moov 5) "mvex"
                  = Ok (Some (mkSubBox 92 28 (makeBox "mvex" (Sample.trex 5)))))
    by (vm_compute; reflexivity).
  assert (Hmerged : createMergedMoov (Sample.moov 5) (Sample.trak 7)
                                     (Some (Sample.trex 7))
                    = Ok Sample.mergedMoov)
    by (vm_compute; reflexivity).
  split; [exact Hfind|]. split; [exact Hmerged|].
  destruct (createMergedMoov_layout _ _ _ _ _ Hfind Hmerged)
    as (audioTrakCopy & Htrak & _ & _ & _ & Hsize & _ & Htype & Hat & Hlast).
  exists audioTrakCopy. cbn [sub_offset sub_size] in *.
  split; [exact Htrak|]. split; [exact Hsize|]. split; [exact Hat|].
  rewrite Hlast. exact Htype.
Defined.

Example mergedMoov_children :
  map (fun c => (sub_offset c, typeOf (sub_data c)))
      (children Sample.mergedMoov)
  = [(8, "mvhd"); (20, "trak"); (92, "trak"); (164, "mvex")]
  /\ trackIdsOfMoov Sample.mergedMoov = [Some 5; Some 2].
Proof. split; vm_compute; reflexivity. Qed.

(** ** Track-ID patch of a [trak] *)

(** [findSubBox] returns the bytes of what [findSubBoxWithOffset] finds. *)
Lemma findSubBox_loop_sub_data (data : buffer) (targetType : string)
    (fuel : nat) :
  forall offset,
    findSubBox_loop fuel data targetType offset
    = match findSubBoxWithOffset_loop fuel data targetType offset with
      | Some (Ok (Some m)) => Some (Ok (Some (sub_data m)))
      | Some (Ok None) => Some (Ok None)
      | Some (Throw e) => Some (Throw e)
      | None => None
      end.
Proof.
  induction fuel as [|fuel IH]; intros offset; [reflexivity|].
  cbn [findSubBox_loop findSubBoxWithOffset_loop].
  destruct (offset <? byteLength data - 8); [|reflexivity].
  destruct (getUint32 data offset) as [size|]; [|reflexivity].
  destruct ((size <? 8) || (offset + size >? byteLength data)); [reflexivity|].
  destruct (String.eqb (childType data offset) targetType); [reflexivity|].
  apply IH.
Qed.

(** [updateTrackIdInTrak] writes where [findSubBoxWithOffset] finds the
    [tkhd]. *)
Lemma updateTrackIdInTrak_loop_tkhd (trakData : buffer) (newTrackId : Z)
    (fuel : nat) :
  forall offset,
    updateTrackIdInTrak_loop fuel trakData newTrackId offset
    = match findSubBoxWithOffset_loop fuel trakData "tkhd" offset with
      | Some (Ok (Some m)) =>
        let version := Z_of_byte (charAt trakData (sub_offset m + 8)) in
        Some (setUint32 trakData
                (sub_offset m + (if version =? 0 then 20 else 28)) newTrackId)
      | Some (Ok None) => Some (Ok trakData)
      | Some (Throw e) => Some (Throw e)
      | None => None
      end.
Proof.
  induction fuel as [|fuel IH]; intros offset; [reflexivity|].
  cbn [updateTrackIdInTrak_loop findSubBoxWithOffset_loop].
  destruct (offset <? byteLength trakData - 8); [|reflexivity].
  destruct (getUint32 trakData offset) as [size|]; [|reflexivity].
  destruct ((size <? 8) || (offset + size >? byteLength trakData));
    [reflexivity|].
  destruct (String.eqb (childType trakData offset) "tkhd"); [reflexivity|].
  apply IH.
Qed.

Lemma charAt_blit_before (data : buffer) (p : Z) (src : buffer) (i : Z) :
  0 <= i -> i < p -> p <= byteLength data ->
  charAt (blit data p src) i = charAt data i.
Proof.
  unfold blit, byteLength. intros.
  rewrite !charAt_lookup by lia.
  rewrite lookup_app_l by (rewrite length_take; lia).
  now rewrite lookup_take_lt by lia.
Qed.

Lemma slice_blit_before (data : buffer) (p : Z) (src : buffer) (a b : Z) :
  0 <= a -> a <= b -> b <= p -> p <= byteLength data ->
  slice (blit data p src) a b = slice data a b.
Proof.
  unfold blit, slice, byteLength. intros.
  rewrite drop_app_le by (rewrite length_take; lia).
  rewrite take_app_le by (rewrite length_drop, length_take; lia).
  rewrite !take_drop_commute, take_take. do 2 f_equal. lia.
Qed.

Lemma getUint32_blit_before (data : buffer) (p : Z) (src : buffer) (off : Z) :
  off + 4 <= p -> p + byteLength src <= byteLength data ->
  getUint32 (blit data p src) off = getUint32 data off.
Proof.
  intros Hoff Hp. pose proof (byteLength_nonneg src).
  unfold getUint32.
  destruct (Z.leb_spec 0 off); [|reflexivity].
  rewrite byteLength_blit by lia.
  now rewrite slice_blit_before by lia.
Qed.

Lemma childType_blit_before (data : buffer) (p : Z) (src : buffer) (off : Z) :
  0 <= off -> off + 8 <= p -> p <= byteLength data ->
  childType (blit data p src) off = childType data off.
Proof.
  intros. unfold childType. now rewrite !charAt_blit_before by lia.
Qed.

Lemma slice_slice (data : buffer) (a b c d : Z) :
  0 <= a -> 0 <= c -> c <= d -> d <= b - a ->
  slice (slice data a b) c d = slice data (a + c) (a + d).
Proof.
  intros. unfold slice at 1. rewrite drop_slice by lia.
  unfold slice. rewrite take_take. do 2 f_equal. lia.
Qed.

(** A write past the header of the box that the search finds does not
    change what the search finds. *)
Lemma findSubBoxWithOffset_loop_blit (data : buffer) (targetType : string)
    (p : Z) (src : buffer) (fuel : nat) :
  forall offset m,
    findSubBoxWithOffset_loop fuel data targetType offset
    = Some (Ok (Some m)) ->
    0 <= offset -> sub_offset m + 8 <= p ->
    p + byteLength src <= byteLength data ->
    findSubBoxWithOffset_loop fuel (blit data p src) targetType offset
    = Some (Ok (Some (mkSubBox (sub_offset m) (sub_size m)
                        (slice (blit data p src) (sub_offset m)
                               (sub_offset m + sub_size m))))).
Proof.
  induction fuel as [|fuel IH]; intros offset m Hrun H0 Hp Hfit;
    [discriminate|].
  pose proof (byteLength_nonneg src).
  pose proof (findSubBoxWithOffset_loop_found _ _ _ _ _ Hrun) as (Hle & _).
  cbn [findSubBoxWithOffset_loop] in *.
  rewrite byteLength_blit by lia.
  rewrite getUint32_blit_before by lia.
  rewrite childType_blit_before by lia.
  destruct (offset <? byteLength data - 8); [|discriminate].
  destruct (getUint32 data offset) as [size|]; [|discriminate].
  destruct (Z.ltb_spec size 8); [discriminate|].
  destruct (Z.gtb_spec (offset + size) (byteLength data)); [discriminate|].
  cbn [orb] in *.
  destruct (String.eqb (childType data offset) targetType).
  - injection Hrun as <-. reflexivity.
  - apply IH; [assumption|lia|assumption|assumption].
Qed.

(** Patching the track ID of a [trak] whose [tkhd] holds one makes it
    read as the new ID. *)
Lemma updateTrackIdInTrak_reads_back (trakData patched : buffer)
    (newTrackId oldTrackId : Z) :
  updateTrackIdInTrak trakData newTrackId = Ok patched ->
  trackIdOfTrak trakData = Some oldTrackId ->
  trackIdOfTrak patched = Some (newTrackId mod 2 ^ 32)
  /\ length patched = length trakData.
Proof.
  unfold updateTrackIdInTrak, trackIdOfTrak, findSubBox.
  rewrite updateTrackIdInTrak_loop_tkhd, !findSubBox_loop_sub_data.
  destruct (findSubBoxWithOffset_loop (scan_fuel trakData) trakData "tkhd" 8)
    as [[[m|]|]|] eqn:Hfind; cbn [run]; try discriminate.
  intros Hpatch Hold.
  pose proof (findSubBoxWithOffset_loop_found _ _ _ _ _ Hfind)
    as (Hoff & Hsize & Hend & _ & _ & Hdata).
  set (o := sub_offset m) in *. set (sz := sub_size m) in *.
  rewrite Hdata in Hold.
  assert (Hlen : byteLength (slice trakData o (o + sz)) = sz)
    by (rewrite byteLength_slice; lia).
  set (k := if Z_of_byte (charAt (slice trakData o (o + sz)) 8) =? 0
            then 20 else 28) in *.
  assert (Hk : 20 <= k <= 28) by (unfold k; case (_ =? 0); lia).
  assert (Hfits : k + 4 <= sz).
  { unfold getUint32 in Hold. rewrite Hlen in Hold.
    destruct (Z.leb_spec (k + 4) sz); [assumption|].
    rewrite andb_false_r in Hold. discriminate. }
  assert (Hver : charAt (slice trakData o (o + sz)) 8 = charAt trakData (o + 8))
    by (apply charAt_slice; lia).
  cbv zeta in Hpatch. rewrite <- Hver in Hpatch. fold k in Hpatch.
  unfold setUint32, setArray in Hpatch.
  change (byteLength (be32 newTrackId)) with 4 in Hpatch.
  replace ((0 <=? o + k) && (o + k + 4 <=? byteLength trakData)) with true
    in Hpatch by (symmetry; apply andb_true_iff; split; lia).
  apply Ok_inj in Hpatch. subst patched.
  assert (Hsame : length (blit trakData (o + k) (be32 newTrackId))
                  = length trakData).
  { apply length_blit; [lia|]. change (byteLength (be32 newTrackId)) with 4.
    lia. }
  split; [|exact Hsame].
  unfold scan_fuel. rewrite Hsame. fold (scan_fuel trakData).
  rewrite (findSubBoxWithOffset_loop_blit _ _ _ _ _ _ _ Hfind)
    by (change (byteLength (be32 newTrackId)) with 4; fold o; lia).
  cbn [run sub_data]. fold o sz.
  assert (Hlen' : byteLength (slice (blit trakData (o + k) (be32 newTrackId))
                                    o (o + sz)) = sz).
  { rewrite byteLength_slice; unfold byteLength; rewrite ?Hsame;
      unfold byteLength in Hend; lia. }
  rewrite charAt_slice by lia.
  rewrite charAt_blit_before by lia. rewrite <- Hver. fold k.
  unfold getUint32. rewrite Hlen'.
  replace ((0 <=? k) && (k + 4 <=? sz)) with true
    by (symmetry; apply andb_true_iff; split; lia).
  assert (Hs : slice (slice (blit trakData (o + k) (be32 newTrackId))
                            o (o + sz)) k (k + 4) = be32 newTrackId).
  { rewrite slice_slice by lia.
    replace (o + (k + 4)) with (o + k + byteLength (be32 newTrackId))
      by (change (byteLength (be32 newTrackId)) with 4; lia).
    apply slice_blit; [lia|].
    change (byteLength (be32 newTrackId)) with 4. lia. }
  rewrite Hs. now rewrite be_value_be32.
Qed.

(** ** Box writer *)

Lemma totalLength_from (parts : list buffer) :
  forall n, fold_left (fun sum p => sum + byteLength p) parts n
            = n + byteLength (List.concat parts).
Proof.
  induction parts as [|p rest IH]; intros n; cbn [fold_left List.concat].
  - unfold byteLength. cbn. lia.
  - rewrite IH, byteLength_app. lia.
Qed.

Lemma totalLength_concat (parts : list buffer) :
  totalLength parts = byteLength (List.concat parts).
Proof. unfold totalLength. now rewrite totalLength_from. Qed.

Lemma concat_loop_fill (arrays : list buffer) :
  forall (pre : buffer) (k : Z),
    byteLength (List.concat arrays) <= k ->
    concat_loop (pre ++ zeros k) (byteLength pre) arrays
    = pre ++ List.concat arrays ++ zeros (k - byteLength (List.concat arrays)).
Proof.
  induction arrays as [|arr rest IH]; intros pre k Hk;
    cbn [concat_loop List.concat] in *.
  - change (byteLength []) with 0. now rewrite Z.sub_0_r.
  - rewrite byteLength_app in Hk.
    pose proof (byteLength_nonneg (List.concat rest)).
    rewrite blit_fill by lia.
    rewrite app_assoc, <- byteLength_app, IH by lia.
    rewrite <- !app_assoc, byteLength_app. do 3 f_equal. f_equal. lia.
Qed.

(** [concat] is concatenation. *)
Lemma concat_flat (arrays : list buffer) : concat arrays = List.concat arrays.
Proof.
  unfold concat. rewrite totalLength_concat.
  pose proof (concat_loop_fill arrays [] _ (Z.le_refl _)) as Hfill.
  cbn [app] in Hfill. change (byteLength []) with 0 in Hfill.
  rewrite Hfill.
  now rewrite Z.sub_diag, zeros_0, app_nil_r.
Qed.

Lemma blit_fill0 (src : buffer) (k : Z) :
  byteLength src <= k -> blit (zeros k) 0 src = src ++ zeros (k - byteLength src).
Proof. intros Hk. exact (blit_fill [] src k Hk). Qed.

Lemma blit_fill_at (pre src : buffer) (k off : Z) :
  off = byteLength pre -> byteLength src <= k ->
  blit (pre ++ zeros k) off src = pre ++ src ++ zeros (k - byteLength src).
Proof. intros ->. apply blit_fill. Qed.

(** The four type bytes of a box. *)
Lemma makeBox_flat (type : string) (content : buffer) :
  makeBox type content
  = be32 (8 + byteLength content)
    ++ [charCodeAt type 0; charCodeAt type 1; charCodeAt type 2;
        charCodeAt type 3]
    ++ content.
Proof.
  unfold makeBox, put32, put8.
  pose proof (byteLength_nonneg content).
  set (size := 8 + byteLength content).
  rewrite blit_fill0 by (change (byteLength (be32 size)) with 4; lia).
  change (byteLength (be32 size)) with 4.
  rewrite blit_fill_at
    by first [reflexivity | unfold size, byteLength; cbn [length]; lia].
  rewrite (app_assoc _ [_] (zeros _)).
  rewrite blit_fill_at
    by first [reflexivity | unfold size, byteLength; cbn [length]; lia].
  rewrite (app_assoc _ [_] (zeros _)).
  rewrite blit_fill_at
    by first [reflexivity | unfold size, byteLength; cbn [length]; lia].
  rewrite (app_assoc _ [_] (zeros _)).
  rewrite blit_fill_at
    by first [reflexivity | unfold size, byteLength; cbn [length]; lia].
  rewrite (app_assoc _ [_] (zeros _)).
  rewrite blit_fill_at
    by first [reflexivity | unfold size, byteLength; cbn [length]; lia].
  rewrite (zeros_nil (_ - _))
    by (unfold size, byteLength; cbn [length]; lia).
  rewrite app_nil_r, <- !app_assoc. reflexivity.
Qed.

Lemma byteLength_makeBox (type : string) (content : buffer) :
  byteLength (makeBox type content) = 8 + byteLength content.
Proof.
  rewrite makeBox_flat, !byteLength_app.
  change (byteLength (be32 _)) with 4.
  change (byteLength [_; _; _; _]) with 4. lia.
Qed.

(** ** Two-pass offset resolution *)

Lemma byteLength_concat (arrays : list buffer) :
  byteLength (concat arrays) = byteLength (List.concat arrays).
Proof. now rewrite concat_flat. Qed.

Lemma byteLength_cons_concat (a : buffer) (rest : list buffer) :
  byteLength (List.concat (a :: rest))
  = byteLength a + byteLength (List.concat rest).
Proof. cbn [List.concat]. apply byteLength_app. Qed.

Lemma byteLength_put32 (content : buffer) (off v : Z) :
  0 <= off -> off + 4 <= byteLength content ->
  byteLength (put32 content off v) = byteLength content.
Proof.
  intros. unfold put32. apply byteLength_blit; [assumption|].
  change (byteLength (be32 v)) with 4. lia.
Qed.

Lemma trackDataSize_from (samples : list sample) :
  forall n,
    fold_left (fun sum s => match s_data s with
                            | Some d => sum + byteLength d
                            | None => sum
                            end) samples n
    = n + byteLength (List.concat (sampleBytes samples)).
Proof.
  induction samples as [|s rest IH]; intros n;
    cbn [fold_left sampleBytes List.concat].
  - change (byteLength []) with 0. lia.
  - rewrite IH. destruct (s_data s) as [d|]; cbn [List.concat].
    + rewrite byteLength_app. lia.
    + reflexivity.
Qed.

(** The data size of a track is the length of its samples' bytes laid
    end to end. *)
Lemma trackDataSize_concat (samples : list sample) :
  trackDataSize samples = byteLength (List.concat (sampleBytes samples)).
Proof. unfold trackDataSize. now rewrite trackDataSize_from. Qed.

Lemma sampleBytes_app (a b : list sample) :
  sampleBytes (a ++ b) = sampleBytes a ++ sampleBytes b.
Proof.
  induction a as [|s rest IH]; cbn [sampleBytes app]; [reflexivity|].
  destruct (s_data s); now rewrite IH.
Qed.

Lemma trackDataSize_app (a b : list sample) :
  trackDataSize (a ++ b) = trackDataSize a + trackDataSize b.
Proof.
  rewrite !trackDataSize_concat, sampleBytes_app, concat_app, byteLength_app.
  reflexivity.
Qed.

(** A chunk of a file made of a prefix followed by chunks sits behind
    the prefix and the chunks before it. *)
Lemma slice_chunk (pre : buffer) (chunks : list buffer) :
  forall (i : nat) (chunk : buffer),
    chunks !! i = Some chunk ->
    let offset := byteLength pre + byteLength (List.concat (take i chunks)) in
    slice (pre ++ List.concat chunks) offset (offset + byteLength chunk)
    = chunk.
Proof.
  intros i chunk Hi. cbv zeta.
  rewrite <- (take_drop_middle chunks i chunk Hi) at 1.
  rewrite concat_app. cbn [List.concat].
  rewrite <- byteLength_app, app_assoc.
  unfold slice, byteLength.
  rewrite Nat2Z.id, drop_app_length.
  replace (Z.to_nat _) with (length chunk) by lia.
  apply take_app_length.
Qed.

Lemma concat_flat_map {A} (f : A -> list buffer) (l : list A) :
  List.concat (flat_map f l) = List.concat (map (fun a => List.concat (f a)) l).
Proof.
  induction l as [|a rest IH]; cbn [flat_map map List.concat]; [reflexivity|].
  now rewrite concat_app, IH.
Qed.

Ltac box_lengths :=
  repeat first
    [ rewrite byteLength_makeBox
    | rewrite byteLength_concat
    | rewrite byteLength_cons_concat
    | rewrite byteLength_app ].

Lemma RawStsd_byteLength_stco (dataOffset : Z) :
  byteLength (RawStsd.stco dataOffset) = 20.
Proof.
  unfold RawStsd.stco. rewrite byteLength_makeBox.
  rewrite byteLength_put32; [reflexivity|lia|reflexivity].
Qed.

(** The length of a track box does not depend on the chunk offset
    written into it. *)
Lemma RawStsd_byteLength_buildTrak (t : RawStsd.track) (dataOffset : Z) :
  byteLength (RawStsd.buildTrak t dataOffset)
  = byteLength (RawStsd.buildTrak t 0).
Proof.
  unfold RawStsd.buildTrak.
  destruct (RawStsd.stss t), (RawStsd.ctts t); cbn [RawStsd.pushIf app];
    box_lengths; rewrite !RawStsd_byteLength_stco; reflexivity.
Qed.

Lemma RawStsd_finalTraks_length (tracks : list RawStsd.track) :
  forall offset,
    byteLength (List.concat (RawStsd.finalTraks tracks offset))
    = byteLength (List.concat (map (fun t => RawStsd.buildTrak t 0) tracks)).
Proof.
  induction tracks as [|t rest IH]; intros offset;
    cbn [RawStsd.finalTraks map]; [reflexivity|].
  now rewrite !byteLength_cons_concat, IH, RawStsd_byteLength_buildTrak.
Qed.

Lemma RawStsd_finalTraks_lookup (tracks : list RawStsd.track) :
  forall (start : Z) (i : nat) (t : RawStsd.track),
    tracks !! i = Some t ->
    RawStsd.finalTraks tracks start !! i
    = Some (RawStsd.buildTrak t
              (start + trackDataSize
                         (flat_map RawStsd.samples (take i tracks)))).
Proof.
  induction tracks as [|t0 rest IH]; intros start i t Hi; [discriminate|].
  destruct i as [|i]; cbn [RawStsd.finalTraks].
  - injection Hi as <-. cbn. now rewrite Z.add_0_r.
  - cbn [lookup list_lookup] in *. rewrite (IH _ _ _ Hi).
    cbn [take flat_map]. rewrite trackDataSize_app. do 2 f_equal. lia.
Qed.

Lemma byteLength_chunks {A} (samplesOf : A -> list sample) (tracks : list A) :
  byteLength (List.concat
                (map (fun t => List.concat (sampleBytes (samplesOf t))) tracks))
  = trackDataSize (flat_map samplesOf tracks).
Proof.
  induction tracks as [|t rest IH]; cbn [map flat_map List.concat];
    [reflexivity|].
  rewrite byteLength_app, trackDataSize_app, IH.
  now rewrite (trackDataSize_concat (samplesOf t)).
Qed.

(** The file is a header of [mdatStart] bytes followed by the samples'
    bytes, track after track. *)
Lemma RawStsd_file_layout (tracks : list RawStsd.track) :
  exists header : buffer,
    byteLength header = RawStsd.mdatStart tracks
    /\ RawStsd.buildMP4WithRawStsd tracks
       = header ++ List.concat
                     (map (fun t => List.concat
                                      (sampleBytes (RawStsd.samples t)))
                          tracks).
Proof.
  unfold RawStsd.buildMP4WithRawStsd, RawStsd.mdatContent.
  rewrite !concat_flat, concat_flat_map. cbn [List.concat].
  rewrite (makeBox_flat "mdat"), app_nil_r.
  set (moov := makeBox "moov" _).
  set (chunks := List.concat (map _ tracks)).
  exists (RawStsd.ftyp ++ moov
          ++ be32 (8 + byteLength chunks)
          ++ [charCodeAt "mdat" 0; charCodeAt "mdat" 1;
              charCodeAt "mdat" 2; charCodeAt "mdat" 3]).
  split; [|now rewrite <- !app_assoc].
  unfold RawStsd.mdatStart, RawStsd.tempMoov, moov.
  box_lengths. rewrite RawStsd_finalTraks_length.
  change (byteLength (be32 _)) with 4.
  change (byteLength [_; _; _; _]) with 4.
  lia.
Qed.

Lemma Manual_buildTrakWithOffset_eq (t : Manual.track)
    (movieTimescale dataOffset : Z) :
  Manual.buildTrakWithOffset t movieTimescale dataOffset
  = Manual.buildTrak t movieTimescale dataOffset.
Proof.
  unfold Manual.buildTrakWithOffset, Manual.buildTrak, Manual.buildMdia,
    Manual.buildMinf, Manual.buildStbl.
  reflexivity.
Qed.

Lemma Manual_byteLength_buildStco (offset : Z) :
  byteLength (Manual.buildStco offset) = 20.
Proof.
  unfold Manual.buildStco. rewrite byteLength_makeBox.
  rewrite byteLength_put32; [reflexivity|lia|reflexivity].
Qed.

Lemma Manual_byteLength_buildTrak (t : Manual.track)
    (movieTimescale dataOffset : Z) :
  byteLength (Manual.buildTrakWithOffset t movieTimescale dataOffset)
  = byteLength (Manual.buildTrak t movieTimescale 0).
Proof.
  rewrite Manual_buildTrakWithOffset_eq.
  unfold Manual.buildTrak, Manual.buildMdia, Manual.buildMinf,
    Manual.buildStbl.
  destruct (String.eqb (Manual.type t) "video"),
    (Manual.buildStss (Manual.samples t)), (Manual.buildCtts (Manual.samples t));
    cbn [Manual.pushIf app];
    box_lengths; rewrite !Manual_byteLength_buildStco; reflexivity.
Qed.

Lemma Manual_finalTraks_length (tracks : list Manual.track) :
  forall offset,
    byteLength (List.concat (Manual.finalTraks tracks offset))
    = byteLength (List.concat
                    (map (fun t => Manual.buildTrak t movieTimescale 0) tracks)).
Proof.
  induction tracks as [|t rest IH]; intros offset;
    cbn [Manual.finalTraks map]; [reflexivity|].
  now rewrite !byteLength_cons_concat, IH, Manual_byteLength_buildTrak.
Qed.

Lemma Manual_finalTraks_lookup (tracks : list Manual.track) :
  forall (start : Z) (i : nat) (t : Manual.track),
    tracks !! i = Some t ->
    Manual.finalTraks tracks start !! i
    = Some (Manual.buildTrakWithOffset t movieTimescale
              (start + trackDataSize
                         (flat_map Manual.samples (take i tracks)))).
Proof.
  induction tracks as [|t0 rest IH]; intros start i t Hi; [discriminate|].
  destruct i as [|i]; cbn [Manual.finalTraks].
  - injection Hi as <-. cbn. now rewrite Z.add_0_r.
  - cbn [lookup list_lookup] in *. rewrite (IH _ _ _ Hi).
    cbn [take flat_map]. rewrite trackDataSize_app. do 2 f_equal. lia.
Qed.

Lemma Manual_file_layout (tracks : list Manual.track) :
  exists header : buffer,
    byteLength header = Manual.realMdatStart tracks
    /\ Manual.buildMP4File tracks
       = header ++ List.concat
                     (map (fun t => List.concat
                                      (sampleBytes (Manual.samples t)))
                          tracks).
Proof.
  unfold Manual.buildMP4File, Manual.mdatContent.
  rewrite !concat_flat, concat_flat_map. cbn [List.concat].
  rewrite (makeBox_flat "mdat"), app_nil_r.
  set (moov := makeBox "moov" _).
  set (chunks := List.concat (map _ tracks)).
  exists (Manual.buildFtyp ++ moov
          ++ be32 (8 + byteLength chunks)
          ++ [charCodeAt "mdat" 0; charCodeAt "mdat" 1;
              charCodeAt "mdat" 2; charCodeAt "mdat" 3]).
  split; [|now rewrite <- !app_assoc].
  unfold Manual.realMdatStart, Manual.tempMoov, moov.
  box_lengths. rewrite Manual_finalTraks_length.
  change (byteLength (be32 _)) with 4.
  change (byteLength [_; _; _; _]) with 4.
  lia.
Qed.

Lemma slice_track_data {A} (samplesOf : A -> list sample) (tracks : list A)
    (header : buffer) (i : nat) (t : A) :
  tracks !! i = Some t ->
  let offset := byteLength header
                + trackDataSize (flat_map samplesOf (take i tracks)) in
  slice (header ++ List.concat
                     (map (fun t => List.concat (sampleBytes (samplesOf t)))
                          tracks))
        offset (offset + trackDataSize (samplesOf t))
  = List.concat (sampleBytes (samplesOf t)).
Proof.
  intros Hi. cbv zeta.
  rewrite <- byteLength_chunks, <- firstn_map, trackDataSize_concat.
  apply (slice_chunk header
           (map (fun t => List.concat (sampleBytes (samplesOf t))) tracks)).
  now rewrite list_lookup_fmap, Hi.
Qed.

Example chunk_offsets_of_two_tracks :
  let tracks := [Sample.videoTrack; Sample.audioTrack] in
  let file := RawStsd.buildMP4WithRawStsd tracks in
  RawStsd.mdatStart tracks = 918
  /\ map (fun b => (box_type b, box_offset b, box_size b))
         (match parseBoxes file with Ok boxes => boxes | Throw _ => [] end)
     = [("ftyp", 0, 28); ("moov", 28, 882); ("mdat", 910, 23)]
  /\ slice file 918 (918 + 9) = bytes [1; 2; 3; 4; 5; 6; 7; 8; 9]
  /\ slice file 927 (927 + 6) = bytes [10; 11; 12; 13; 14; 15]
  /\ map (fun trak => option_map chunkOffsets (tableOfTrak "stco" trak))
         (traksOfFile file)
     = [Some [918]; Some [927]]
  /\ trackIdsOfFile file = [Some 1; Some 2].
Proof. cbv zeta. repeat split; vm_compute; reflexivity. Qed.

(** ** Track IDs of the progressive builder *)

Lemma slice_app_r (a b : buffer) (off len : Z) :
  0 <= off -> 0 <= len ->
  slice (a ++ b) (byteLength a + off) (byteLength a + off + len)
  = slice b off (off + len).
Proof.
  intros. unfold slice, byteLength.
  replace (Z.to_nat (Z.of_nat (length a) + off))
    with (length a + Z.to_nat off)%nat by lia.
  rewrite drop_app_add. do 2 f_equal. lia.
Qed.

Lemma slice_app_l (a b : buffer) (start stop : Z) :
  0 <= start -> stop <= byteLength a -> start <= stop ->
  slice (a ++ b) start stop = slice a start stop.
Proof.
  intros. unfold slice, byteLength in *.
  rewrite drop_app_le by lia.
  apply take_app_le. rewrite length_drop. lia.
Qed.

Lemma getUint32_app_r (a b : buffer) (off : Z) :
  0 <= off ->
  getUint32 (a ++ b) (byteLength a + off) = getUint32 b off.
Proof.
  intros. unfold getUint32.
  pose proof (byteLength_nonneg a).
  rewrite byteLength_app.
  replace (0 <=? byteLength a + off) with true by (symmetry; lia).
  replace (0 <=? off) with true by (symmetry; lia).
  replace (byteLength a + off + 4 <=? byteLength a + byteLength b)
    with (off + 4 <=? byteLength b) by lia.
  destruct (off + 4 <=? byteLength b); [|reflexivity].
  cbn [andb]. now rewrite (slice_app_r a b off 4) by lia.
Qed.

Lemma getUint32_app_l (a b : buffer) (off : Z) :
  0 <= off -> off + 4 <= byteLength a ->
  getUint32 (a ++ b) off = getUint32 a off.
Proof.
  intros. unfold getUint32.
  pose proof (byteLength_nonneg b).
  rewrite byteLength_app.
  replace (off + 4 <=? byteLength a + byteLength b) with true
    by (symmetry; lia).
  replace (off + 4 <=? byteLength a) with true by (symmetry; lia).
  now rewrite slice_app_l by lia.
Qed.

Lemma childType_app_r (a b : buffer) (off : Z) :
  0 <= off -> childType (a ++ b) (byteLength a + off) = childType b off.
Proof.
  intros. pose proof (byteLength_nonneg a). unfold childType.
  rewrite !charAt_app_r by lia. repeat f_equal; lia.
Qed.

Lemma childType_app_l (a b : buffer) (off : Z) :
  0 <= off -> off + 8 <= byteLength a ->
  childType (a ++ b) off = childType a off.
Proof.
  intros. unfold childType. now rewrite !charAt_app_l by lia.
Qed.

(** The search finds a first child that is a well-formed box of more
    than 8 bytes of the type looked for. *)
Lemma findSubBox_first (hdr child rest : buffer) (targetType : string) :
  byteLength hdr = 8 ->
  getUint32 child 0 = Ok (byteLength child) ->
  8 < byteLength child ->
  typeOf child = targetType ->
  findSubBox (hdr ++ child ++ rest) targetType = Ok (Some child).
Proof.
  intros Hhdr Hsize Hlen Hty.
  pose proof (byteLength_nonneg rest).
  assert (Hget : getUint32 (hdr ++ child ++ rest) 8 = Ok (byteLength child)).
  { replace 8 with (byteLength hdr + 0) by lia.
    now rewrite getUint32_app_r, getUint32_app_l by lia. }
  assert (Htype : childType (hdr ++ child ++ rest) 8 = targetType).
  { replace 8 with (byteLength hdr + 0) by lia.
    now rewrite childType_app_r, childType_app_l by lia. }
  assert (Hslice : slice (hdr ++ child ++ rest) 8 (8 + byteLength child)
                   = child).
  { replace 8 with (byteLength hdr + 0) by lia.
    rewrite slice_app_r by lia.
    rewrite slice_app_l by lia.
    unfold slice, byteLength. cbn [Z.to_nat drop].
    replace (Z.to_nat (0 + Z.of_nat (length child) - 0)) with (length child)
      by lia.
    apply firstn_all. }
  unfold findSubBox, scan_fuel. cbn [findSubBox_loop].
  rewrite Hget, Htype, Hslice, String.eqb_refl.
  rewrite !byteLength_app, Hhdr.
  replace (8 <? 8 + (byteLength child + byteLength rest) - 8) with true
    by (symmetry; lia).
  replace (byteLength child <? 8) with false by (symmetry; lia).
  replace (8 + byteLength child >? 8 + (byteLength child + byteLength rest))
    with false by (symmetry; lia).
  reflexivity.
Qed.

Lemma RawStsd_tkhd_flat (t : RawStsd.track) :
  RawStsd.tkhd t
  = makeBox "tkhd"
      (be32 3 ++ zeros 8 ++ be32 (RawStsd.id t) ++ zeros 4
       ++ be32 (roundDiv (RawStsd.duration t) movieTimescale
                         (RawStsd.timescale t))
       ++ zeros 12
       ++ be16 (if String.eqb (RawStsd.type t) "audio" then 0x0100 else 0)
       ++ zeros 2 ++ be32 0x00010000 ++ zeros 12 ++ be32 0x00010000
       ++ zeros 12 ++ be32 0x40000000
       ++ be32 (Z.shiftl (RawStsd.width t) 16)
       ++ be32 (Z.shiftl (RawStsd.height t) 16)).
Proof. reflexivity. Qed.

Lemma RawStsd_tkhd_reads (t : RawStsd.track) :
  byteLength (RawStsd.tkhd t) = 92
  /\ getUint32 (RawStsd.tkhd t) 0 = Ok 92
  /\ typeOf (RawStsd.tkhd t) = "tkhd"
  /\ Z_of_byte (charAt (RawStsd.tkhd t) 8) = 0
  /\ getUint32 (RawStsd.tkhd t) 20 = Ok (RawStsd.id t mod 2 ^ 32).
Proof.
  rewrite RawStsd_tkhd_flat, makeBox_flat.
  repeat split; try reflexivity.
  transitivity (Ok (be_value 0 (be32 (RawStsd.id t)))); [reflexivity|].
  now rewrite be_value_be32.
Qed.

(** A built track box declares the track's [id]. *)
Lemma RawStsd_trackIdOfTrak (t : RawStsd.track) (dataOffset : Z) :
  trackIdOfTrak (RawStsd.buildTrak t dataOffset)
  = Some (RawStsd.id t mod 2 ^ 32).
Proof.
  unfold RawStsd.buildTrak.
  match goal with |- context [concat [RawStsd.tkhd t; ?m]] =>
    generalize m; intros mdia end.
  rewrite (makeBox_flat "trak"), concat_flat. cbn [List.concat].
  rewrite app_nil_r, app_assoc.
  destruct (RawStsd_tkhd_reads t) as (Hlen & Hsize & Hty & Hver & Hid).
  unfold trackIdOfTrak.
  rewrite (findSubBox_first _ (RawStsd.tkhd t) mdia "tkhd");
    [ | reflexivity | now rewrite Hlen | lia | exact Hty ].
  rewrite Hver. change (0 =? 0) with true. cbv iota. now rewrite Hid.
Qed.

(** ** Track IDs after a merge *)

Lemma slice_full (a : buffer) : slice a 0 (byteLength a) = a.
Proof.
  unfold slice, byteLength. cbn [Z.to_nat drop].
  rewrite Z.sub_0_r, Nat2Z.id. apply firstn_all.
Qed.

Lemma slice_skip (a b : buffer) (start stop : Z) :
  byteLength a <= start -> start <= stop ->
  slice (a ++ b) start stop
  = slice b (start - byteLength a) (stop - byteLength a).
Proof.
  intros. pose proof (byteLength_nonneg a).
  replace start with (byteLength a + (start - byteLength a)) at 1 by lia.
  replace stop
    with (byteLength a + (start - byteLength a) + (stop - start)) at 1 by lia.
  rewrite slice_app_r by lia. f_equal. lia.
Qed.

(** In a box made of a size field, the bytes 4 to [n] of [v], a track
    and a rest, the bytes of [v] and the track are where they were put. *)
Lemma merged_parts (v tc rest : buffer) (x n : Z) :
  4 <= n -> n <= byteLength v ->
  let merged := be32 x ++ slice v 4 n ++ tc ++ rest in
  slice merged 4 n = slice v 4 n
  /\ slice merged n (n + byteLength tc) = tc.
Proof.
  intros H4 Hn. cbv zeta.
  assert (Hlen : byteLength (slice v 4 n) = n - 4)
    by (apply byteLength_slice; lia).
  pose proof (byteLength_nonneg tc).
  split.
  - rewrite slice_skip by (change (byteLength (be32 x)) with 4; lia).
    change (byteLength (be32 x)) with 4.
    rewrite slice_app_l by lia.
    rewrite <- Hlen, Z.sub_diag. apply slice_full.
  - rewrite app_assoc.
    rewrite slice_skip
      by (rewrite ?byteLength_app; change (byteLength (be32 x)) with 4; lia).
    rewrite byteLength_app. change (byteLength (be32 x)) with 4.
    rewrite slice_app_l by lia.
    replace (n - (4 + byteLength (slice v 4 n))) with 0 by lia.
    replace (n + byteLength tc - (4 + byteLength (slice v 4 n)))
      with (byteLength tc) by lia.
    apply slice_full.
Qed.

(** What [createMergedMoov] computes without an [mvex] or a [trex]. *)
Lemma createMergedMoov_append (videoMoovData audioTrakBox : buffer)
    (audioTrexBox : option buffer) (videoMvex : option subBox)
    (audioTrakCopy : buffer) :
  updateTrackIdInTrak audioTrakBox 2 = Ok audioTrakCopy ->
  findSubBoxWithOffset videoMoovData "mvex" = Ok videoMvex ->
  videoMvex = None \/ audioTrexBox = None ->
  4 <= byteLength videoMoovData ->
  createMergedMoov videoMoovData audioTrakBox audioTrexBox
  = Ok (be32 (byteLength videoMoovData + byteLength audioTrakCopy)
        ++ drop 4 (videoMoovData ++ audioTrakCopy)).
Proof.
  intros Htrak Hfind Hnone Hlen.
  pose proof (byteLength_nonneg audioTrakCopy).
  unfold createMergedMoov. rewrite Htrak, Hfind. cbn [bind].
  assert (Hgoal :
    (let newSize := byteLength videoMoovData + byteLength audioTrakCopy in
     let* result := setArray (zeros newSize) 0 videoMoovData in
     let* result := setArray result (byteLength videoMoovData) audioTrakCopy in
     setUint32 result 0 newSize)
    = Ok (be32 (byteLength videoMoovData + byteLength audioTrakCopy)
          ++ drop 4 (videoMoovData ++ audioTrakCopy))).
  { cbv zeta. rewrite setArray_fill0 by lia. cbn [bind].
    rewrite setArray_fill_at by lia. cbn [bind].
    rewrite (zeros_nil (_ - _ - _)), app_nil_r by lia.
    now rewrite setUint32_head by (rewrite byteLength_app; lia). }
  destruct Hnone as [-> | ->]; [exact Hgoal|].
  destruct videoMvex; exact Hgoal.
Qed.

(** [buildOutput] numbers the tracks it keeps 1, 2, ... in the order of
    the demuxer's track list. *)
Lemma collectTracks_ids (infos : list trackInfo)
    (trackSamples : gmap Z (list sample)) (videoStsd audioStsd : option buffer) :
  forall tracks : list RawStsd.track,
    (forall (i : nat) t, tracks !! i = Some t ->
                         RawStsd.id t = Z.of_nat i + 1) ->
    forall (i : nat) t,
      Defrag.collectTracks infos trackSamples videoStsd audioStsd tracks !! i
      = Some t ->
      RawStsd.id t = Z.of_nat i + 1.
Proof.
  induction infos as [|track rest IH]; intros tracks Hids;
    cbn [Defrag.collectTracks]; [exact Hids|].
  destruct (trackSamples !! ti_id track) as [[|s samples]|];
    [now apply IH| |now apply IH].
  apply IH. intros i t Hi.
  apply lookup_app_Some in Hi as [Hi|[Hge Hi]]; [now apply Hids|].
  apply list_lookup_singleton_Some in Hi as [Hi <-].
  cbn [RawStsd.id]. lia.
Qed.

(** One video and one audio track, each with samples: whichever the
    demuxer lists first gets ID 1; the sort then puts the video track
    first. *)
Lemma buildOutput_two_tracks (v a : trackInfo)
    (trackSamples : gmap Z (list sample)) (videoStsd audioStsd : option buffer)
    (sv sa : sample) (svs sas : list sample) :
  ti_type v = "video" -> ti_type a = "audio" ->
  trackSamples !! ti_id v = Some (sv :: svs) ->
  trackSamples !! ti_id a = Some (sa :: sas) ->
  map (fun t => (RawStsd.type t, RawStsd.id t))
      (Defrag.sortTracks
         (Defrag.collectTracks [v; a] trackSamples videoStsd audioStsd []))
  = [("video", 1); ("audio", 2)]
  /\ map (fun t => (RawStsd.type t, RawStsd.id t))
         (Defrag.sortTracks
            (Defrag.collectTracks [a; v] trackSamples videoStsd audioStsd []))
     = [("video", 2); ("audio", 1)].
Proof.
  intros Hv Ha Hsv Hsa.
  unfold Defrag.sortTracks, Defrag.sortInsert.
  cbn [Defrag.collectTracks]. rewrite Hsv, Hsa.
  cbn [app length fold_left RawStsd.type]. rewrite Hv, Ha.
  split; reflexivity.
Qed.

Lemma drop_as_slice (v : buffer) (n : Z) :
  0 <= n -> drop (Z.to_nat n) v = slice v n (byteLength v).
Proof.
  intros. unfold slice, byteLength. symmetry. apply take_ge.
  rewrite length_drop. lia.
Qed.

(** The claim as stated fails on the fragmented path: a video stream
    whose track has ID 5 comes out with track IDs 5 and 2. *)
Lemma fragmented_keeps_video_track_id :
  trackIdsOfFile Sample.video = [Some 5]
  /\ trackIdsOfFile Sample.audio = [Some 7]
  /\ snd (binaryMuxFragmentedMP4 Sample.inputs) = Ok Sample.fragmented
  /\ trackIdsOfFile Sample.fragmented = [Some 5; Some 2].
Proof. repeat split; vm_compute; reflexivity. Qed.

(** ** Sample collection and its timer *)

Lemma ParseFile_samples (events : list demuxEvent) :
  forall s,
    ParseFile.st_samples (fold_left ParseFile.step events s)
    = ParseFile.st_samples s ++ batchesOf events.
Proof.
  induction events as [|ev rest IH]; intros s; cbn [fold_left batchesOf flat_map].
  - now rewrite app_nil_r.
  - rewrite IH. fold (batchesOf rest). rewrite app_assoc. f_equal.
    destruct ev as [infos|trackId batch| |]; cbn [ParseFile.step].
    + unfold ParseFile.onReady. destruct infos; cbn; now rewrite app_nil_r.
    + unfold ParseFile.onSamples.
      destruct (_ && _); reflexivity.
    + cbn. now rewrite app_nil_r.
    + unfold ParseFile.onTimeout.
      destruct (ParseFile.extractionDone s); cbn; now rewrite app_nil_r.
Qed.

Lemma fold_left_snoc {A B} (f : A -> B -> A) (l : list B) (b : B) (a : A) :
  fold_left f (l ++ [b]) a = f (fold_left f l a) b.
Proof. now rewrite fold_left_app. Qed.

Lemma defragmentWithRawStsd_video_unchanged (demux : demuxer) (st : store) :
  videoData (fst (defragmentWithRawStsd demux st)) = videoData st.
Proof.
  unfold defragmentWithRawStsd.
  destruct (extractStsdFromMoov (videoData st)) as [[videoStsd|]|];
    destruct (extractStsdFromMoov (audioData st)) as [audioStsd|];
    try reflexivity.
  pose proof (binaryMux_video_unchanged st) as Hvideo.
  destruct (binaryMuxFragmentedMP4 st) as [st' [fragmented|e]]; exact Hvideo.
Qed.

(** C4, as the code has it.  In [parseFile] a timer that fires before
    the collection is complete resolves the promise with the track
    information and the samples delivered so far, and the last strategy
    goes on with that result: when the library's output file exceeds
    10000 bytes it is what [muxVideoAudio] returns.  In
    [defragmentWithRawStsd] the timer rejects the promise with the
    timeout error: no progressive file is built from the samples
    gathered, the attempt fails as a whole. *)
Theorem timeout_outcomes :
  (forall events : list demuxEvent,
      let s := fold_left ParseFile.step events ParseFile.init in
      ParseFile.extractionDone s = false -> ParseFile.promise s = None ->
      ParseFile.promise (ParseFile.collect events)
      = Some (Ok (ParseFile.mkParsed (ParseFile.st_info s)
                                     (batchesOf events) true)))
  /\ (forall (lib : MP4BoxLib) (st : store)
             (videoResult audioResult : ParseFile.parsed)
             (t : trackInfo) (ts : list trackInfo) (output : buffer),
        ParseFile.parseFile (demux lib) (videoData st) = Ok videoResult ->
        ParseFile.parseFile (demux lib) (audioData st) = Ok audioResult ->
        ParseFile.info videoResult = Some (t :: ts) ->
        remux lib videoResult audioResult = GetBuffer (Ok (Some output)) ->
        10000 < byteLength output ->
        remuxWithLibrary lib st = output)
  /\ (forall (videoStsd audioStsd : option buffer)
             (events : list demuxEvent),
        let s := fold_left (Defrag.step videoStsd audioStsd) events
                           Defrag.init in
        Defrag.resolved s = false -> Defrag.promise s = None ->
        Defrag.promise (Defrag.collect videoStsd audioStsd events)
        = Some (Throw TimeoutError))
  /\ (forall (demux : demuxer) (st st' : store)
             (videoStsd fragmented : buffer) (audioStsd : option buffer),
        extractStsdFromMoov (videoData st) = Ok (Some videoStsd) ->
        extractStsdFromMoov (audioData st) = Ok audioStsd ->
        binaryMuxFragmentedMP4 st = (st', Ok fragmented) ->
        let s := fold_left (Defrag.step (Some videoStsd) audioStsd)
                           (demux fragmented) Defrag.init in
        Defrag.resolved s = false -> Defrag.promise s = None ->
        defragmentWithRawStsd demux st = (st', Throw TimeoutError)).
Proof.
  split; [|split; [|split]].
  - intros events s Hdone Hpromise.
    unfold ParseFile.collect. rewrite fold_left_snoc. fold s.
    cbn [ParseFile.step]. unfold ParseFile.onTimeout.
    rewrite Hdone, Hpromise. cbn [ParseFile.promise settle].
    unfold s. now rewrite ParseFile_samples.
  - intros lib st videoResult audioResult t ts output Hv Ha Hinfo Hremux Hbig.
    unfold remuxWithLibrary. rewrite Hv, Ha, Hinfo, Hremux.
    destruct (Z.ltb_spec 10000 (byteLength output)); [reflexivity|lia].
  - intros videoStsd audioStsd events s Hres Hpromise.
    unfold Defrag.collect. rewrite fold_left_snoc. fold s.
    cbn [Defrag.step]. unfold Defrag.onTimeout.
    now rewrite Hres, Hpromise.
  - intros demux st st' videoStsd fragmented audioStsd Hvs Has Hmux s
           Hres Hpromise.
    unfold defragmentWithRawStsd. rewrite Hvs, Has, Hmux.
    unfold Defrag.collect. rewrite fold_left_snoc. fold s.
    cbn [Defrag.step]. unfold Defrag.onTimeout.
    now rewrite Hres, Hpromise.
Qed.

Lemma timeout_outcomes_witness :
  ParseFile.extractionDone
    (fold_left ParseFile.step (take 2 Sample.partialRun) ParseFile.init)
  = false
  /\ ParseFile.promise
       (fold_left ParseFile.step (take 2 Sample.partialRun) ParseFile.init)
     = None
  /\ ParseFile.promise (ParseFile.collect (take 2 Sample.partialRun))
     = Some (Ok (ParseFile.mkParsed
                   (Some [Sample.videoInfo; Sample.audioInfo])
                   (take 2 (RawStsd.samples Sample.videoTrack)) true)).
Proof.
  split; [reflexivity|]. split; [reflexivity|].
  exact (proj1 timeout_outcomes (take 2 Sample.partialRun)
               eq_refl eq_refl).
Defined.

(** The claim as stated fails for the progressive build: with two of
    three video samples delivered when the timer fires, the promise of
    [defragmentWithRawStsd] is rejected; the complete run builds the
    file. *)
Lemma defragment_timeout_rejects :
  Defrag.resolved
    (fold_left (Defrag.step (Some Sample.stsd) (Some Sample.stsd))
               Sample.partialRun Defrag.init) = false
  /\ Defrag.promise
       (Defrag.collect (Some Sample.stsd) (Some Sample.stsd)
                       Sample.partialRun)
     = Some (Throw TimeoutError)
  /\ snd (defragmentWithRawStsd (demux Sample.slowLibrary) Sample.inputs)
     = Throw TimeoutError
  /\ match snd (defragmentWithRawStsd (fun _ => Sample.fullRun)
                                      Sample.inputs) with
     | Ok output => trackIdsOfFile output
     | Throw _ => []
     end = [Some 1; Some 2].
Proof. repeat split; vm_compute; reflexivity. Qed.

(** ** The fallback chain *)

Lemma plausible_spec (size videoSize : Z) :
  plausible size videoSize = true <-> 9 * videoSize < 10 * size.
Proof. unfold plausible. apply Z.ltb_lt. Qed.

Lemma remuxWithLibrary_cases (lib : MP4BoxLib) (st : store) :
  remuxWithLibrary lib st = videoData st
  \/ (10000 < byteLength (remuxWithLibrary lib st)
      /\ exists videoResult audioResult,
           remux lib videoResult audioResult
           = GetBuffer (Ok (Some (remuxWithLibrary lib st)))).
Proof.
  unfold remuxWithLibrary.
  destruct (ParseFile.parseFile (demux lib) (videoData st))
    as [videoResult|]; [|now left].
  destruct (ParseFile.parseFile (demux lib) (audioData st))
    as [audioResult|]; [|now left].
  destruct (ParseFile.info videoResult) as [[|t ts]|]; try now left.
  destruct (remux lib videoResult audioResult) as [|[[output|]|]|] eqn:Hremux;
    try now left.
  destruct (Z.ltb_spec 10000 (byteLength output)); [|now left].
  right. split; [assumption|]. now exists videoResult, audioResult.
Qed.

(** C1, as the code has it.  With the demuxer library loaded,
    [muxVideoAudio] never throws and returns, in this order of
    preference: the progressive output when that attempt succeeds with
    more than nine tenths of the video input's length; else the
    fragmented output under the same test; else what the library-based
    strategy yields, which is its output file when that exceeds 10000
    bytes and otherwise the video input, byte for byte as it was
    passed in. *)
Theorem muxVideoAudio_fallback_chain :
  forall (lib : MP4BoxLib) (st : store),
    let videoSize := byteLength (videoData st) in
    let progressive := defragmentWithRawStsd (demux lib) st in
    let fragmented := binaryMuxFragmentedMP4 (fst progressive) in
    exists output : buffer,
      snd (muxVideoAudio (Some lib) st) = Ok output
      /\ videoData (fst (muxVideoAudio (Some lib) st)) = videoData st
      /\ ((snd progressive = Ok output
           /\ 9 * videoSize < 10 * byteLength output)
          \/ ((forall r, snd progressive = Ok r ->
                         10 * byteLength r <= 9 * videoSize)
              /\ snd fragmented = Ok output
              /\ 9 * videoSize < 10 * byteLength output)
          \/ ((forall r, snd progressive = Ok r ->
                         10 * byteLength r <= 9 * videoSize)
              /\ (forall r, snd fragmented = Ok r ->
                            10 * byteLength r <= 9 * videoSize)
              /\ (output = videoData st
                  \/ (10000 < byteLength output
                      /\ exists videoResult audioResult,
                           remux lib videoResult audioResult
                           = GetBuffer (Ok (Some output)))))).
Proof.
  intros lib st. cbv zeta.
  pose proof (defragmentWithRawStsd_video_unchanged (demux lib) st) as Hv1.
  unfold muxVideoAudio.
  destruct (defragmentWithRawStsd (demux lib) st) as [st1 r1].
  cbn [fst snd] in *.
  pose proof (binaryMux_video_unchanged st1) as Hv2.
  assert (Hfirst :
    (exists result, r1 = Ok result
                    /\ plausible (byteLength result)
                                 (byteLength (videoData st)) = true)
    \/ (forall r, r1 = Ok r -> 10 * byteLength r <= 9 * byteLength (videoData st))).
  { destruct r1 as [result|e]; [|right; discriminate].
    destruct (plausible (byteLength result) (byteLength (videoData st)))
      eqn:Hp.
    - left. now exists result.
    - right. intros r [= <-]. unfold plausible in Hp.
      apply Z.ltb_ge in Hp. exact Hp. }
  destruct Hfirst as [(result & -> & Hp) | Hfail1].
  { rewrite Hp. exists result. cbn [fst snd].
    split; [reflexivity|]. split; [exact Hv1|].
    left. split; [reflexivity|]. now apply plausible_spec. }
  assert (Hnone1 : match r1 with
                   | Ok result =>
                     if plausible (byteLength result)
                                  (byteLength (videoData st))
                     then Some result else None
                   | Throw _ => None
                   end = None).
  { destruct r1 as [result|e]; [|reflexivity].
    specialize (Hfail1 result eq_refl).
    unfold plausible. destruct (Z.ltb_spec (9 * byteLength (videoData st))
                                            (10 * byteLength result));
      [lia|reflexivity]. }
  rewrite Hnone1.
  destruct (binaryMuxFragmentedMP4 st1) as [st2 r2]. cbn [fst snd] in *.
  assert (Hsecond :
    (exists result, r2 = Ok result
                    /\ plausible (byteLength result)
                                 (byteLength (videoData st)) = true)
    \/ (forall r, r2 = Ok r -> 10 * byteLength r <= 9 * byteLength (videoData st))).
  { destruct r2 as [result|e]; [|right; discriminate].
    destruct (plausible (byteLength result) (byteLength (videoData st)))
      eqn:Hp.
    - left. now exists result.
    - right. intros r [= <-]. unfold plausible in Hp.
      apply Z.ltb_ge in Hp. exact Hp. }
  destruct Hsecond as [(result & -> & Hp) | Hfail2].
  { rewrite Hp. exists result. cbn [fst snd].
    split; [reflexivity|]. split; [congruence|].
    right. left. split; [exact Hfail1|]. split; [reflexivity|].
    now apply plausible_spec. }
  assert (Hnone2 : match r2 with
                   | Ok result =>
                     if plausible (byteLength result)
                                  (byteLength (videoData st))
                     then Some result else None
                   | Throw _ => None
                   end = None).
  { destruct r2 as [result|e]; [|reflexivity].
    specialize (Hfail2 result eq_refl).
    unfold plausible. destruct (Z.ltb_spec (9 * byteLength (videoData st))
                                            (10 * byteLength result));
      [lia|reflexivity]. }
  rewrite Hnone2.
  exists (remuxWithLibrary lib st2). cbn [fst snd].
  split; [reflexivity|]. split; [congruence|].
  right. right. split; [exact Hfail1|]. split; [exact Hfail2|].
  destruct (remuxWithLibrary_cases lib st2) as [Hraw|Hlib].
  - left. rewrite Hraw. congruence.
  - right. exact Hlib.
Qed.

Example muxVideoAudio_falls_back_to_fragmented :
  snd (defragmentWithRawStsd (demux Sample.slowLibrary) Sample.inputs)
  = Throw TimeoutError
  /\ snd (muxVideoAudio (Some Sample.slowLibrary) Sample.inputs)
     = Ok Sample.fragmented
  /\ (9 * byteLength Sample.video <? 10 * byteLength Sample.fragmented) = true.
Proof. repeat split; vm_compute; reflexivity. Qed.

Example muxVideoAudio_falls_back_to_raw_video :
  snd (binaryMuxFragmentedMP4 (mkStore Sample.truncated Sample.audio))
  = Throw RangeError
  /\ snd (muxVideoAudio (Some Sample.slowLibrary)
                        (mkStore Sample.truncated Sample.audio))
     = Ok Sample.truncated.
Proof. repeat split; vm_compute; reflexivity. Qed.

(** The claim as stated fails when the library is not loaded: the call
    throws before any attempt. *)
Lemma muxVideoAudio_throws_without_library :
  muxVideoAudio None Sample.inputs = (Sample.inputs, Throw MP4BoxNotLoaded).
Proof. reflexivity. Qed.

(** ** The scanning loops never run out of fuel

    Every iteration moves the offset forward by at least 8 bytes, so the
    fuel [scan_fuel], one more than the length of the data, is never
    used up: the default of [run] is never what a scan returns. *)

Lemma findSubBoxWithOffset_loop_total (data : buffer) (targetType : string)
    (fuel : nat) :
  forall offset,
    byteLength data - offset < Z.of_nat fuel -> (1 <= fuel)%nat ->
    exists r, findSubBoxWithOffset_loop fuel data targetType offset = Some r.
Proof.
  induction fuel as [|fuel IH]; intros offset Hrem Hpos; [lia|].
  cbn [findSubBoxWithOffset_loop].
  destruct (Z.ltb_spec offset (byteLength data - 8)); [|eauto].
  destruct (getUint32 data offset) as [size|]; [|eauto].
  destruct (Z.ltb_spec size 8); [eauto|].
  destruct (offset + size >? byteLength data); [eauto|]. cbn [orb].
  destruct (String.eqb (childType data offset) targetType); [eauto|].
  apply IH; lia.
Qed.

Lemma findSubBoxWithOffset_total (data : buffer) (targetType : string) :
  findSubBoxWithOffset_loop (scan_fuel data) data targetType 8
  = Some (findSubBoxWithOffset data targetType).
Proof.
  unfold findSubBoxWithOffset.
  destruct (findSubBoxWithOffset_loop_total data targetType
              (scan_fuel data) 8) as [r ->];
    [unfold scan_fuel, byteLength; lia | unfold scan_fuel; lia | reflexivity].
Qed.

Lemma findSubBox_total (data : buffer) (targetType : string) :
  findSubBox_loop (scan_fuel data) data targetType 8
  = Some (findSubBox data targetType).
Proof.
  unfold findSubBox. rewrite findSubBox_loop_sub_data.
  rewrite findSubBoxWithOffset_total.
  destruct (findSubBoxWithOffset data targetType) as [[m|]|e]; reflexivity.
Qed.

Lemma updateTrackIdInTrak_total (trakData : buffer) (newTrackId : Z) :
  updateTrackIdInTrak_loop (scan_fuel trakData) trakData newTrackId 8
  = Some (updateTrackIdInTrak trakData newTrackId).
Proof.
  unfold updateTrackIdInTrak. rewrite updateTrackIdInTrak_loop_tkhd.
  rewrite findSubBoxWithOffset_total.
  destruct (findSubBoxWithOffset trakData "tkhd") as [[m|]|e]; reflexivity.
Qed.

Lemma updateTrackIdInTraf_loop_total (moofData : buffer) (newTrackId : Z)
    (offset size : Z) (fuel : nat) :
  forall trafOffset,
    offset + size - trafOffset < Z.of_nat fuel -> (1 <= fuel)%nat ->
    exists r, updateTrackIdInTraf_loop fuel moofData newTrackId offset size
                                       trafOffset = Some r.
Proof.
  induction fuel as [|fuel IH]; intros trafOffset Hrem Hpos; [lia|].
  cbn [updateTrackIdInTraf_loop].
  destruct (Z.ltb_spec trafOffset (offset + size - 8)); [|eauto].
  destruct (getUint32 moofData trafOffset) as [subSize|]; [|eauto].
  destruct (Z.ltb_spec subSize 8); [eauto|].
  destruct (String.eqb (childType moofData trafOffset) "tfhd"); [eauto|].
  apply IH; lia.
Qed.

Lemma updateTrackIdInMoof_loop_total (moofData : buffer) (newTrackId : Z)
    (fuel : nat) :
  forall offset,
    0 <= offset ->
    byteLength moofData - offset < Z.of_nat fuel -> (1 <= fuel)%nat ->
    exists r, updateTrackIdInMoof_loop fuel moofData newTrackId offset = Some r.
Proof.
  induction fuel as [|fuel IH]; intros offset H0 Hrem Hpos; [lia|].
  cbn [updateTrackIdInMoof_loop].
  destruct (Z.ltb_spec offset (byteLength moofData - 8)); [|eauto].
  destruct (getUint32 moofData offset) as [size|]; [|eauto].
  destruct (Z.ltb_spec size 8); [eauto|].
  destruct (Z.gtb_spec (offset + size) (byteLength moofData)); [eauto|].
  cbn [orb].
  destruct (IH (offset + size)) as [next Hnext]; [lia..|].
  rewrite Hnext.
  destruct (String.eqb (childType moofData offset) "traf"); [|eauto].
  destruct (updateTrackIdInTraf_loop_total moofData newTrackId offset size
              (scan_fuel moofData) (offset + 8)) as [[[d|]|e] ->];
    [unfold scan_fuel, byteLength in *; lia | unfold scan_fuel; lia | ..];
    eauto.
Qed.

Lemma updateTrackIdInMoof_total (moofData : buffer) (newTrackId : Z) :
  updateTrackIdInMoof_loop (scan_fuel moofData) moofData newTrackId 8
  = Some (updateTrackIdInMoof moofData newTrackId).
Proof.
  unfold updateTrackIdInMoof.
  destruct (updateTrackIdInMoof_loop_total moofData newTrackId
              (scan_fuel moofData) 8) as [r ->];
    [lia | unfold scan_fuel, byteLength; lia | unfold scan_fuel; lia
     | reflexivity].
Qed.

Lemma findStsdInBox_loop_total (fuel : nat) :
  forall (data : buffer) offset,
    0 <= offset ->
    byteLength data - offset < Z.of_nat fuel -> (1 <= fuel)%nat ->
    exists r, findStsdInBox_loop fuel data offset = Some r.
Proof.
  induction fuel as [|fuel IH]; intros data offset H0 Hrem Hpos; [lia|].
  cbn [findStsdInBox_loop].
  destruct (Z.ltb_spec offset (byteLength data - 8)); [|eauto].
  destruct (getUint32 data offset) as [size|]; [|eauto].
  destruct (Z.ltb_spec size 8); [eauto|].
  destruct (Z.gtb_spec (offset + size) (byteLength data)); [eauto|].
  cbn [orb].
  destruct (String.eqb (childType data offset) "stsd"); [eauto|].
  destruct (IH data (offset + size)) as [next Hnext]; [lia..|].
  rewrite Hnext.
  destruct (isStsdContainer (childType data offset)); [|eauto].
  destruct (IH (slice data offset (offset + size)) 8) as [[[found|]|e] ->];
    [lia | rewrite byteLength_slice by lia; lia | lia | ..]; eauto.
Qed.

Lemma findStsdInBox_total (data : buffer) (startOffset : Z) :
  0 <= startOffset ->
  findStsdInBox_loop (scan_fuel data) data startOffset
  = Some (findStsdInBox data startOffset).
Proof.
  intros. unfold findStsdInBox.
  destruct (findStsdInBox_loop_total (scan_fuel data) data startOffset)
    as [r ->];
    [lia | unfold scan_fuel, byteLength; lia | unfold scan_fuel; lia
     | reflexivity].
Qed.

Lemma extractStsdFromMoov_loop_total (data : buffer) (fuel : nat) :
  forall offset,
    byteLength data - offset < Z.of_nat fuel -> (1 <= fuel)%nat ->
    exists r, extractStsdFromMoov_loop fuel data offset = Some r.
Proof.
  induction fuel as [|fuel IH]; intros offset Hrem Hpos; [lia|].
  cbn [extractStsdFromMoov_loop].
  destruct (Z.ltb_spec offset (byteLength data - 8)); [|eauto].
  destruct (getUint32 data offset) as [size|]; [|eauto].
  destruct (Z.ltb_spec size 8); [eauto|].
  destruct (offset + size >? byteLength data); [eauto|]. cbn [orb].
  destruct (String.eqb (childType data offset) "moov"); [eauto|].
  apply IH; lia.
Qed.

Lemma extractStsdFromMoov_total (data : buffer) :
  extractStsdFromMoov_loop (scan_fuel data) data 0
  = Some (extractStsdFromMoov data).
Proof.
  unfold extractStsdFromMoov.
  destruct (extractStsdFromMoov_loop_total data (scan_fuel data) 0)
    as [r ->];
    [unfold scan_fuel, byteLength; lia | unfold scan_fuel; lia | reflexivity].
Qed.

(** ** The promises are settled when the timer has fired *)

Lemma Defrag_step_resolved (videoStsd audioStsd : option buffer)
    (s : Defrag.state) (ev : demuxEvent) :
  (Defrag.resolved s = true -> Defrag.promise s <> None) ->
  Defrag.resolved (Defrag.step videoStsd audioStsd s ev) = true ->
  Defrag.promise (Defrag.step videoStsd audioStsd s ev) <> None.
Proof.
  intros Hinv.
  destruct ev as [infos|trackId batch| |]; cbn [Defrag.step].
  - exact Hinv.
  - unfold Defrag.onSamples.
    destruct (Defrag.resolved s) eqn:Hres; [intros _; now apply Hinv|].
    destruct (Defrag.trackSamples s !! trackId) as [l|]; cbn.
    + destruct (Defrag.fileInfo s) as [infos|]; cbn; [|congruence].
      destruct (Defrag.allDone infos _); cbn; [|congruence].
      intros _. destruct (Defrag.promise s); discriminate.
    + congruence.
  - unfold Defrag.onError.
    destruct (Defrag.resolved s) eqn:Hres; [intros _; now apply Hinv|]. cbn.
    intros _. destruct (Defrag.promise s); discriminate.
  - unfold Defrag.onTimeout.
    destruct (Defrag.resolved s) eqn:Hres; [intros _; now apply Hinv|]. cbn.
    intros _. destruct (Defrag.promise s); discriminate.
Qed.

Lemma Defrag_run_resolved (videoStsd audioStsd : option buffer)
    (events : list demuxEvent) :
  forall s,
    (Defrag.resolved s = true -> Defrag.promise s <> None) ->
    let s' := fold_left (Defrag.step videoStsd audioStsd) events s in
    Defrag.resolved s' = true -> Defrag.promise s' <> None.
Proof.
  induction events as [|ev rest IH]; intros s Hinv; cbn [fold_left];
    [exact Hinv|].
  apply IH. now apply Defrag_step_resolved.
Qed.

(** The promise of [defragmentWithRawStsd] is settled once the timer
    has fired. *)
Lemma Defrag_collect_settled (videoStsd audioStsd : option buffer)
    (events : list demuxEvent) :
  exists r, Defrag.promise (Defrag.collect videoStsd audioStsd events)
            = Some r.
Proof.
  unfold Defrag.collect. rewrite fold_left_snoc.
  set (s := fold_left (Defrag.step videoStsd audioStsd) events Defrag.init).
  assert (Hinv : Defrag.resolved s = true -> Defrag.promise s <> None).
  { apply Defrag_run_resolved. discriminate. }
  cbn [Defrag.step]. unfold Defrag.onTimeout.
  destruct (Defrag.resolved s) eqn:Hres.
  - specialize (Hinv eq_refl). destruct (Defrag.promise s) as [r|];
      [now exists r | contradiction].
  - cbn. destruct (Defrag.promise s) as [r|]; cbn; eauto.
Qed.

Lemma ParseFile_step_done (s : ParseFile.state) (ev : demuxEvent) :
  (ParseFile.extractionDone s = true -> ParseFile.promise s <> None) ->
  ParseFile.extractionDone (ParseFile.step s ev) = true ->
  ParseFile.promise (ParseFile.step s ev) <> None.
Proof.
  intros Hinv.
  destruct ev as [infos|trackId batch| |]; cbn [ParseFile.step].
  - unfold ParseFile.onReady. destruct infos; cbn; [|exact Hinv].
    intros Hdone. specialize (Hinv Hdone).
    destruct (ParseFile.promise s); [discriminate|contradiction].
  - unfold ParseFile.onSamples.
    destruct (ParseFile.extractionDone s) eqn:Hdone.
    + rewrite andb_false_r. cbn. intros _. now apply Hinv.
    + destruct (_ <=? _); cbn; [|congruence].
      intros _. destruct (ParseFile.promise s); discriminate.
  - cbn. intros Hdone. specialize (Hinv Hdone).
    destruct (ParseFile.promise s); [discriminate|contradiction].
  - unfold ParseFile.onTimeout.
    destruct (ParseFile.extractionDone s) eqn:Hdone;
      [intros _; now apply Hinv|]. cbn.
    intros _. destruct (ParseFile.promise s); discriminate.
Qed.

Lemma ParseFile_run_done (events : list demuxEvent) :
  forall s,
    (ParseFile.extractionDone s = true -> ParseFile.promise s <> None) ->
    let s' := fold_left ParseFile.step events s in
    ParseFile.extractionDone s' = true -> ParseFile.promise s' <> None.
Proof.
  induction events as [|ev rest IH]; intros s Hinv; cbn [fold_left];
    [exact Hinv|].
  apply IH. now apply ParseFile_step_done.
Qed.

(** The promise of [parseFile] is settled once the timer has fired. *)
Lemma ParseFile_collect_settled (events : list demuxEvent) :
  exists r, ParseFile.promise (ParseFile.collect events) = Some r.
Proof.
  unfold ParseFile.collect. rewrite fold_left_snoc.
  set (s := fold_left ParseFile.step events ParseFile.init).
  assert (Hinv : ParseFile.extractionDone s = true ->
                 ParseFile.promise s <> None).
  { apply ParseFile_run_done. discriminate. }
  cbn [ParseFile.step]. unfold ParseFile.onTimeout.
  destruct (ParseFile.extractionDone s) eqn:Hdone.
  - specialize (Hinv eq_refl). destruct (ParseFile.promise s) as [r|];
      [now exists r | contradiction].
  - cbn. destruct (ParseFile.promise s) as [r|]; cbn; eauto.
Qed.

(** ** The bytes of the time-to-sample box *)

Lemma zeros_add (a b : Z) : 0 <= a -> 0 <= b -> zeros (a + b) = zeros a ++ zeros b.
Proof.
  intros. unfold zeros. rewrite Z2Nat.inj_add by assumption.
  apply replicate_add.
Qed.

(** A write into a zeroed array at an offset. *)
Lemma blit_zeros (k off : Z) (src : buffer) :
  0 <= off -> off + byteLength src <= k ->
  blit (zeros k) off src = zeros off ++ src ++ zeros (k - off - byteLength src).
Proof.
  intros H0 Hk. pose proof (byteLength_nonneg src).
  replace k with (off + (k - off)) at 1 by lia.
  rewrite zeros_add by lia.
  rewrite blit_fill_at; [reflexivity | now rewrite byteLength_zeros | lia].
Qed.

Lemma byteLength_pairBytes (entries : list (Z * Z)) :
  byteLength (pairBytes entries) = 8 * Z.of_nat (length entries).
Proof.
  induction entries as [|e rest IH]; [reflexivity|].
  unfold pairBytes in *. cbn [flat_map length].
  rewrite !byteLength_app, IH.
  change (byteLength (be32 _)) with 4. lia.
Qed.

Lemma putPairs_fill (entries : list (Z * Z)) :
  forall (pre : buffer) (i k : Z),
    byteLength pre = 8 + i * 8 ->
    8 * Z.of_nat (length entries) <= k ->
    putPairs (pre ++ zeros k) i entries
    = pre ++ pairBytes entries ++ zeros (k - 8 * Z.of_nat (length entries)).
Proof.
  induction entries as [|[count v] rest IH]; intros pre i k Hpre Hk;
    cbn [putPairs].
  - cbn. now rewrite Z.sub_0_r.
  - cbn [length] in Hk. unfold put32.
    rewrite blit_fill_at
      by (rewrite ?Hpre; change (byteLength (be32 count)) with 4; lia).
    change (byteLength (be32 count)) with 4.
    rewrite (app_assoc pre).
    rewrite blit_fill_at
      by (rewrite ?byteLength_app, ?Hpre;
          change (byteLength (be32 count)) with 4;
          change (byteLength (be32 v)) with 4; lia).
    change (byteLength (be32 v)) with 4.
    rewrite (app_assoc (pre ++ be32 count)).
    rewrite IH
      by (rewrite ?byteLength_app, ?Hpre;
          change (byteLength (be32 count)) with 4;
          change (byteLength (be32 v)) with 4; cbn [length]; lia).
    unfold pairBytes. cbn [flat_map fst snd length].
    rewrite <- !app_assoc. do 4 f_equal. f_equal. lia.
Qed.

(** The box holds the version word, the number of entries and the
    entries, in this order. *)
Lemma RawStsd_stts_flat (t : RawStsd.track) :
  let entries := sttsEntries (RawStsd.samples t) in
  RawStsd.stts t
  = makeBox "stts" (be32 0 ++ be32 (Z.of_nat (length entries))
                    ++ pairBytes entries).
Proof.
  cbv zeta. unfold RawStsd.stts. f_equal.
  set (entries := sttsEntries (RawStsd.samples t)).
  set (n := Z.of_nat (length entries)).
  assert (0 <= n) by (unfold n; lia).
  unfold put32.
  rewrite blit_zeros by (change (byteLength (be32 n)) with 4; lia).
  change (byteLength (be32 n)) with 4.
  rewrite (app_assoc (zeros 4)).
  rewrite (putPairs_fill entries (zeros 4 ++ be32 n) 0)
    by (reflexivity || (fold n; lia)).
  fold n. rewrite (zeros_nil (_ - _)) by lia.
  now rewrite app_nil_r, <- app_assoc.
Qed.

Example stts_of_three_samples :
  RawStsd.stts (RawStsd.mkTrack 1 "video" 1000 25 0 0
                  (Sample.withDurations [10; 10; 5]) None)
  = makeBox "stts" (bytes [0; 0; 0; 0;  0; 0; 0; 2;
                           0; 0; 0; 2;  0; 0; 0; 10;
                           0; 0; 0; 1;  0; 0; 0; 5]).
Proof. vm_compute. reflexivity. Qed.

(** ** Reading back what the box writer wrote *)

Lemma byte_of_Z_of_byte (b : byte) : byte_of_Z (Z_of_byte b) = b.
Proof.
  pose proof (Z_of_byte_range b) as Hr.
  unfold byte_of_Z. rewrite Z.mod_small by lia.
  unfold Z_of_byte. rewrite N2Z.id, Byte.of_to_N. reflexivity.
Qed.

Lemma getUint8_charAt (view : buffer) (off : Z) :
  0 <= off -> off + 1 <= byteLength view ->
  getUint8 view off = Ok (Z_of_byte (charAt view off)).
Proof.
  intros. unfold getUint8, charAt.
  replace (0 <=? off) with true by (symmetry; lia).
  replace (off + 1 <=? byteLength view) with true by (symmetry; lia).
  reflexivity.
Qed.

(** Inside the buffer, the header is the size word and the four type
    bytes that the scanning loops read too. *)
Lemma readBoxHeader_in_range (view : buffer) (offset : Z) :
  0 <= offset -> offset + 8 <= byteLength view ->
  readBoxHeader view offset
  = let* size := getUint32 view offset in
    let type := childType view offset in
    if size =? 1 then
      let* big := getBigUint64 view (offset + 8) in
      Ok (Some (mkBox (numberOfBigInt big) type 16 offset))
    else if size =? 0 then
      Ok (Some (mkBox (byteLength view - offset) type 8 offset))
    else Ok (Some (mkBox size type 8 offset)).
Proof.
  intros H0 Hlen. unfold readBoxHeader.
  replace (offset + 8 >? byteLength view) with false by (symmetry; lia).
  destruct (getUint32 view offset) as [size|e]; [|reflexivity].
  cbn [bind].
  rewrite !getUint8_charAt by lia. cbn [bind].
  rewrite !byte_of_Z_of_byte. reflexivity.
Qed.

Lemma fromCharCode4_charCodeAt (type : string) :
  String.length type = 4%nat ->
  fromCharCode4 (charCodeAt type 0) (charCodeAt type 1)
                (charCodeAt type 2) (charCodeAt type 3) = type.
Proof.
  destruct type as [|a0 [|a1 [|a2 [|a3 [|]]]]]; try discriminate.
  intros _. unfold fromCharCode4, charCodeAt, charCodes.
  cbn.
  now rewrite !ascii_of_byte_of_ascii.
Qed.

Lemma typeOf_makeBox (type : string) (content : buffer) :
  String.length type = 4%nat -> typeOf (makeBox type content) = type.
Proof.
  intros Hty. rewrite makeBox_flat. unfold typeOf, childType.
  cbn. now apply fromCharCode4_charCodeAt.
Qed.

Lemma getUint32_makeBox (type : string) (content : buffer) :
  getUint32 (makeBox type content) 0
  = Ok ((8 + byteLength content) mod 2 ^ 32).
Proof.
  rewrite makeBox_flat.
  rewrite getUint32_app_l by (unfold byteLength; cbn; lia).
  transitivity (Ok (be_value 0 (be32 (8 + byteLength content))));
    [reflexivity|].
  now rewrite be_value_be32.
Qed.

Lemma getUint32_after (a b : buffer) :
  getUint32 (a ++ b) (byteLength a) = getUint32 b 0.
Proof.
  rewrite <- (Z.add_0_r (byteLength a)) at 1.
  apply getUint32_app_r. lia.
Qed.

Lemma childType_after (a b : buffer) :
  childType (a ++ b) (byteLength a) = childType b 0.
Proof.
  rewrite <- (Z.add_0_r (byteLength a)) at 1.
  apply childType_app_r. lia.
Qed.

Lemma readBoxHeader_makeBox (pre rest : buffer) (type : string)
    (content : buffer) :
  String.length type = 4%nat -> 8 + byteLength content < 2 ^ 32 ->
  readBoxHeader (pre ++ makeBox type content ++ rest) (byteLength pre)
  = Ok (Some (mkBox (8 + byteLength content) type 8 (byteLength pre))).
Proof.
  intros Hty Hsize.
  pose proof (byteLength_nonneg pre). pose proof (byteLength_nonneg rest).
  pose proof (byteLength_nonneg content).
  pose proof (byteLength_makeBox type content) as Hlen.
  rewrite readBoxHeader_in_range
    by (rewrite ?byteLength_app; lia).
  rewrite getUint32_after, getUint32_app_l by lia.
  rewrite childType_after, childType_app_l by lia.
  rewrite getUint32_makeBox, Z.mod_small by lia. cbn [bind].
  change (childType (makeBox type content) 0)
    with (typeOf (makeBox type content)).
  rewrite typeOf_makeBox by assumption.
  replace (8 + byteLength content =? 1) with false by (symmetry; lia).
  replace (8 + byteLength content =? 0) with false by (symmetry; lia).
  reflexivity.
Qed.

Lemma parseBoxes_loop_written (items : list (string * buffer)) :
  forall (pre : buffer) (acc : list box) (fuel : nat),
    Forall writable items ->
    (length items < fuel)%nat ->
    parseBoxes_loop fuel
      (pre ++ List.concat (map (fun it => makeBox (fst it) (snd it)) items))
      (byteLength pre) acc
    = Some (Ok (acc ++ writtenBoxes (byteLength pre) items)).
Proof.
  induction items as [|[type content] items IH]; intros pre acc fuel Hw Hfuel.
  - destruct fuel as [|fuel]; [cbn in Hfuel; lia|].
    cbn [map List.concat writtenBoxes parseBoxes_loop].
    rewrite !app_nil_r.
    replace (byteLength pre <? byteLength pre) with false by (symmetry; lia).
    reflexivity.
  - destruct fuel as [|fuel]; [cbn in Hfuel; lia|].
    inversion Hw as [|? ? [Hty Hsize] Hw']; subst. cbn [fst snd] in *.
    pose proof (byteLength_nonneg pre). pose proof (byteLength_nonneg content).
    pose proof (byteLength_makeBox type content) as Hlen.
    cbn [map List.concat writtenBoxes parseBoxes_loop fst snd].
    rewrite readBoxHeader_makeBox by assumption.
    replace (byteLength pre <? _) with true
      by (symmetry; rewrite !byteLength_app;
          pose proof (byteLength_nonneg
                        (List.concat (map (fun it => makeBox (fst it) (snd it))
                                          items))); lia).
    cbn [box_size].
    replace (8 + byteLength content <? 8) with false by (symmetry; lia).
    rewrite app_assoc.
    replace (byteLength pre + (8 + byteLength content))
      with (byteLength (pre ++ makeBox type content))
      by (rewrite byteLength_app; lia).
    rewrite IH by (try assumption; cbn in Hfuel; lia).
    rewrite <- app_assoc. reflexivity.
Qed.

Lemma length_written_le (items : list (string * buffer)) :
  (length items
   <= length (List.concat (map (fun it => makeBox (fst it) (snd it)) items)))%nat.
Proof.
  induction items as [|[type content] items IH]; [cbn; lia|].
  cbn [map List.concat fst snd]. rewrite length_app.
  pose proof (byteLength_makeBox type content) as Hlen.
  pose proof (byteLength_nonneg content).
  unfold byteLength in Hlen. cbn [length]. lia.
Qed.

(** X1. Boxes written one after the other by [makeBox], each with a
    four-character type and a size below 2^32, are read back by
    [parseBoxes]: one header per box, in order, with the size and type
    that were written, header size 8 and the offset at which the box
    starts. *)
Theorem parseBoxes_reads_written_boxes :
  forall items : list (string * buffer),
    Forall writable items ->
    parseBoxes (List.concat (map (fun it => makeBox (fst it) (snd it)) items))
    = Ok (writtenBoxes 0 items).
Proof.
  intros items Hw. unfold parseBoxes, parseBoxes_fuel.
  pose proof (parseBoxes_loop_written items [] []
                (S (length (List.concat
                              (map (fun it => makeBox (fst it) (snd it)) items))))
                Hw) as Hloop.
  cbn [app] in Hloop. change (byteLength []) with 0 in Hloop.
  rewrite Hloop; [reflexivity|].
  pose proof (length_written_le items). lia.
Qed.

Lemma parseBoxes_reads_written_boxes_witness :
  Forall writable [("ftyp", bytes [1; 2; 3; 4]); ("moov", []); ("mdat", bytes [7])]
  /\ parseBoxes (makeBox "ftyp" (bytes [1; 2; 3; 4]) ++ makeBox "moov" []
                 ++ makeBox "mdat" (bytes [7]))
     = Ok [mkBox 12 "ftyp" 8 0; mkBox 8 "moov" 8 12; mkBox 9 "mdat" 8 20].
Proof.
  assert (Hw : Forall writable
                 [("ftyp", bytes [1; 2; 3; 4]); ("moov", []);
                  ("mdat", bytes [7])]).
  { repeat constructor; cbn; lia. }
  split; [exact Hw|].
  exact (parseBoxes_reads_written_boxes _ Hw).
Defined.

Lemma RawStsd_byteLength_ftyp : byteLength RawStsd.ftyp = 28.
Proof. reflexivity. Qed.

Lemma slice_after (a b : buffer) :
  slice (a ++ b) (byteLength a) (byteLength a + byteLength b) = b.
Proof.
  pose proof (byteLength_nonneg b).
  replace (byteLength a + byteLength b)
    with (byteLength a + 0 + byteLength b) by lia.
  rewrite <- (Z.add_0_r (byteLength a)) at 1.
  rewrite slice_app_r by lia. apply slice_full.
Qed.

(** X2. A file built by [buildMP4WithRawStsd] that is shorter than
    2^32 bytes parses as exactly three top-level boxes: a 28-byte
    [ftyp], the [moov] (as long as the one measured in the first pass)
    and the [mdat], whose payload is the sample data of the tracks, track
    after track, up to the end of the file. *)
Theorem built_file_has_three_boxes :
  forall tracks : list RawStsd.track,
    byteLength (RawStsd.buildMP4WithRawStsd tracks) < 2 ^ 32 ->
    let file := RawStsd.buildMP4WithRawStsd tracks in
    let moovSize := byteLength (RawStsd.tempMoov tracks) in
    let dataSize := trackDataSize (flat_map RawStsd.samples tracks) in
    parseBoxes file
    = Ok [mkBox 28 "ftyp" 8 0; mkBox moovSize "moov" 8 28;
          mkBox (8 + dataSize) "mdat" 8 (28 + moovSize)]
    /\ byteLength file = 28 + moovSize + (8 + dataSize)
    /\ slice file (28 + moovSize + 8) (byteLength file)
       = List.concat (map (fun t => List.concat
                                      (sampleBytes (RawStsd.samples t)))
                          tracks).
Proof.
  intros tracks Hsize file moovSize dataSize.
  destruct (RawStsd_file_layout tracks) as (header & Hheader & Hfile).
  fold file in Hfile, Hsize.
  assert (Hmoov : forall content,
             content = concat (RawStsd.mvhd tracks
                               :: RawStsd.finalTraks tracks
                                    (RawStsd.mdatStart tracks)) ->
             8 + byteLength content = moovSize).
  { intros content ->. unfold moovSize, RawStsd.tempMoov.
    box_lengths. now rewrite RawStsd_finalTraks_length. }
  assert (Hdata : byteLength (RawStsd.mdatContent tracks) = dataSize).
  { unfold RawStsd.mdatContent, dataSize.
    now rewrite concat_flat, concat_flat_map, byteLength_chunks. }
  assert (Hstart : RawStsd.mdatStart tracks = 28 + moovSize + 8).
  { unfold RawStsd.mdatStart. now rewrite RawStsd_byteLength_ftyp. }
  assert (Hlen : byteLength file = 28 + moovSize + (8 + dataSize)).
  { rewrite Hfile, byteLength_app, Hheader, Hstart, byteLength_chunks.
    fold dataSize. lia. }
  assert (0 <= dataSize).
  { unfold dataSize. rewrite trackDataSize_concat. apply byteLength_nonneg. }
  assert (0 <= moovSize) by apply byteLength_nonneg.
  split; [|split; [exact Hlen|]].
  - unfold file, RawStsd.buildMP4WithRawStsd. rewrite concat_flat.
    unfold RawStsd.ftyp. cbv zeta.
    match goal with
    | |- parseBoxes (List.concat [makeBox "ftyp" ?x; makeBox "moov" ?y;
                                  makeBox "mdat" ?z]) = _ =>
      pose proof (Hmoov y eq_refl) as Hy;
      assert (Hx : 8 + byteLength x = 28) by reflexivity;
      pose proof (parseBoxes_loop_written
                    [("ftyp", x); ("moov", y); ("mdat", z)] [] []) as Hloop
    end.
    cbn [map List.concat fst snd app writtenBoxes] in Hloop.
    change (byteLength []) with 0 in Hloop.
    unfold parseBoxes, parseBoxes_fuel. cbn [List.concat].
    rewrite Hloop.
    + rewrite Hx, Hy, Hdata. replace (0 + 28) with 28 by lia. reflexivity.
    + repeat constructor; cbn [fst snd]; rewrite ?Hx, ?Hy, ?Hdata; lia.
    + rewrite !length_app. cbn [length].
      assert (8 <= byteLength RawStsd.ftyp) by (rewrite RawStsd_byteLength_ftyp; lia).
      match goal with |- context [length (makeBox "ftyp" ?x)] =>
        assert (8 <= byteLength (makeBox "ftyp" x))
          by (rewrite byteLength_makeBox;
              pose proof (byteLength_nonneg x); lia)
      end.
      unfold byteLength in *. lia.
  - rewrite Hlen, Hfile.
    replace (28 + moovSize + 8) with (byteLength header) by lia.
    replace (28 + moovSize + (8 + dataSize))
      with (byteLength header
            + byteLength (List.concat
                            (map (fun t => List.concat
                                             (sampleBytes (RawStsd.samples t)))
                                 tracks)))
      by (rewrite byteLength_chunks; fold dataSize; lia).
    apply slice_after.
Qed.

Lemma built_file_has_three_boxes_witness :
  let tracks := [Sample.videoTrack; Sample.audioTrack] in
  let file := RawStsd.buildMP4WithRawStsd tracks in
  byteLength file < 2 ^ 32
  /\ parseBoxes file
     = Ok [mkBox 28 "ftyp" 8 0; mkBox 882 "moov" 8 28; mkBox 23 "mdat" 8 910]
  /\ byteLength file = 933
  /\ slice file 918 933
     = bytes [1; 2; 3; 4; 5; 6; 7; 8; 9; 10; 11; 12; 13; 14; 15].
Proof.
  cbv zeta.
  assert (Hsize : byteLength (RawStsd.buildMP4WithRawStsd
                                [Sample.videoTrack; Sample.audioTrack])
                  < 2 ^ 32) by (vm_compute; reflexivity).
  split; [exact Hsize|].
  exact (built_file_has_three_boxes
           [Sample.videoTrack; Sample.audioTrack] Hsize).
Defined.

(** ** The child scan *)

Lemma getUint32_in_range (data : buffer) (off : Z) :
  0 <= off -> off + 4 <= byteLength data ->
  getUint32 data off = Ok (be_value 0 (slice data off (off + 4))).
Proof.
  intros. unfold getUint32.
  replace (0 <=? off) with true by (symmetry; lia).
  replace (off + 4 <=? byteLength data) with true by (symmetry; lia).
  reflexivity.
Qed.

Lemma typeOf_slice (data : buffer) (offset size : Z) :
  0 <= offset -> 8 <= size ->
  typeOf (slice data offset (offset + size)) = childType data offset.
Proof.
  intros. unfold typeOf, childType.
  rewrite !charAt_slice by lia. cbn [Z.add]. reflexivity.
Qed.

Lemma findSubBoxWithOffset_loop_children (data : buffer) (targetType : string)
    (fuel : nat) :
  forall offset r,
    0 <= offset ->
    findSubBoxWithOffset_loop fuel data targetType offset = Some r ->
    r = Ok (List.find (fun c => String.eqb (typeOf (sub_data c)) targetType)
                      (children_loop fuel data offset)).
Proof.
  induction fuel as [|fuel IH]; intros offset r Hoff Hr; [discriminate|].
  cbn [findSubBoxWithOffset_loop children_loop] in *.
  destruct (Z.ltb_spec offset (byteLength data - 8)) as [Hin|Hout];
    [|injection Hr as <-; reflexivity].
  rewrite getUint32_in_range in Hr |- * by lia.
  set (size := be_value 0 (slice data offset (offset + 4))) in *.
  destruct ((size <? 8) || (offset + size >? byteLength data)) eqn:Hbad;
    [now injection Hr as <-|].
  apply orb_false_elim in Hbad as [Hsmall Hbig].
  apply Z.ltb_ge in Hsmall.
  cbn [List.find sub_data]. rewrite typeOf_slice by lia.
  destruct (String.eqb (childType data offset) targetType).
  - now injection Hr as <-.
  - apply IH; [lia|assumption].
Qed.

(** X3. [findSubBoxWithOffset] and [findSubBox] never throw.  They
    return the first child of the requested type among the children that
    the scan reaches from offset 8 (a child whose size is below 8 or
    reaches past the end stops the scan), and [null] when there is
    none; [findSubBox] returns the bytes of the child that
    [findSubBoxWithOffset] describes. *)
Theorem findSubBox_returns_first_child :
  forall (data : buffer) (targetType : string),
    let wanted := fun c => String.eqb (typeOf (sub_data c)) targetType in
    findSubBoxWithOffset data targetType
    = Ok (List.find wanted (children data))
    /\ findSubBox data targetType
       = Ok (option_map sub_data (List.find wanted (children data))).
Proof.
  intros data targetType wanted.
  pose proof (findSubBoxWithOffset_total data targetType) as Htotal.
  pose proof (findSubBoxWithOffset_loop_children data targetType _ 8 _
                ltac:(lia) Htotal) as Hfound.
  fold (children data) in Hfound. fold wanted in Hfound.
  split; [exact Hfound|].
  pose proof (findSubBox_total data targetType) as Hsub.
  rewrite findSubBox_loop_sub_data, Htotal, Hfound in Hsub.
  destruct (List.find wanted (children data)); now injection Hsub as <-.
Qed.

(** ** What the patchers change *)

Lemma drop_blit_after (data : buffer) (off : Z) (src : buffer) :
  0 <= off -> off + byteLength src <= byteLength data ->
  drop (Z.to_nat off + length src) (blit data off src)
  = drop (Z.to_nat off + length src) data.
Proof.
  intros H0 Hfit. unfold blit, byteLength in *.
  rewrite app_assoc.
  rewrite drop_app_length'; [reflexivity|].
  rewrite length_app, length_take. lia.
Qed.

(** X4. [updateTrackIdInTrex] and [updateTrackIdInSidx] do the same
    thing to their array: one shorter than 16 bytes is left as it is;
    otherwise bytes 12..15 read back as the new ID (modulo 2^32) and
    every other byte, and the length, are unchanged. *)
Theorem reference_patch_reads_back :
  forall (boxData : buffer) (newTrackId : Z),
    let patched := updateTrackIdInTrex boxData newTrackId in
    updateTrackIdInSidx boxData newTrackId = patched
    /\ length patched = length boxData
    /\ ((byteLength boxData < 16 /\ patched = boxData)
        \/ (16 <= byteLength boxData
            /\ getUint32 patched 12 = Ok (newTrackId mod 2 ^ 32)
            /\ slice patched 0 12 = slice boxData 0 12
            /\ drop 16 patched = drop 16 boxData)).
Proof.
  intros boxData newTrackId patched.
  split; [reflexivity|].
  split; [apply updateTrackIdInTrex_length|].
  unfold patched, updateTrackIdInTrex.
  destruct (Z.ltb_spec (byteLength boxData) 16) as [Hshort|Hlong].
  - left. now split.
  - right. split; [assumption|].
    split; [apply getUint32_blit; lia|].
    split; [apply slice_blit_before; lia|].
    apply (drop_blit_after boxData 12 (be32 newTrackId));
      [lia|change (byteLength (be32 newTrackId)) with 4; lia].
Qed.

Lemma setUint32_cases (data : buffer) (off v : Z) :
  0 <= off ->
  setUint32 data off v
  = if off + 4 <=? byteLength data then Ok (blit data off (be32 v))
    else Throw RangeError.
Proof.
  intros. unfold setUint32, setArray.
  replace (0 <=? off) with true by (symmetry; lia).
  reflexivity.
Qed.

(** X5. [updateTrackIdInTrak] writes one field or nothing.  Without a
    [tkhd] child the array is returned unchanged and nothing is
    reported.  With one, the ID is written 20 bytes (version 0) or 28
    bytes (any other version) after the start of the [tkhd], whatever
    the size of that box; the write throws [RangeError] exactly when the
    field reaches past the end of the array. *)
Theorem updateTrackIdInTrak_effect :
  forall (trakData : buffer) (newTrackId : Z),
    match List.find (fun c => String.eqb (typeOf (sub_data c)) "tkhd")
                    (children trakData) with
    | None => updateTrackIdInTrak trakData newTrackId = Ok trakData
    | Some tkhd =>
      let version := Z_of_byte (charAt trakData (sub_offset tkhd + 8)) in
      let field := sub_offset tkhd + (if version =? 0 then 20 else 28) in
      updateTrackIdInTrak trakData newTrackId
      = if field + 4 <=? byteLength trakData
        then Ok (blit trakData field (be32 newTrackId))
        else Throw RangeError
    end.
Proof.
  intros trakData newTrackId.
  pose proof (updateTrackIdInTrak_total trakData newTrackId) as Htotal.
  rewrite updateTrackIdInTrak_loop_tkhd in Htotal.
  pose proof (findSubBoxWithOffset_total trakData "tkhd") as Hfind.
  pose proof (findSubBoxWithOffset_loop_children trakData "tkhd" _ 8 _
                ltac:(lia) Hfind) as Hfound.
  fold (children trakData) in Hfound.
  rewrite Hfind, Hfound in Htotal.
  destruct (List.find _ (children trakData)) as [tkhd|] eqn:Hchild.
  - cbv zeta in *. injection Htotal as <-.
    destruct (findSubBoxWithOffset_found trakData "tkhd" tkhd Hfound)
      as (Hoff & _).
    apply setUint32_cases.
    destruct (_ =? 0); lia.
  - now injection Htotal as <-.
Qed.

Lemma updateTrackIdInTraf_loop_frame (moofData : buffer) (newTrackId : Z)
    (offset size : Z) (fuel : nat) :
  forall trafOffset r,
    0 <= trafOffset ->
    updateTrackIdInTraf_loop fuel moofData newTrackId offset size trafOffset
    = Some r ->
    r = Ok None \/ r = Throw RangeError
    \/ exists tfhdOffset,
         trafOffset <= tfhdOffset
         /\ tfhdOffset + 16 <= byteLength moofData
         /\ childType moofData tfhdOffset = "tfhd"
         /\ r = Ok (Some (blit moofData (tfhdOffset + 12) (be32 newTrackId))).
Proof.
  induction fuel as [|fuel IH]; intros trafOffset r H0 Hr; [discriminate|].
  cbn [updateTrackIdInTraf_loop] in Hr.
  destruct (trafOffset <? offset + size - 8); [|injection Hr as <-; auto].
  unfold getUint32 in Hr.
  destruct ((0 <=? trafOffset) && (trafOffset + 4 <=? byteLength moofData));
    [|injection Hr as <-; auto].
  set (subSize := be_value 0 _) in Hr.
  destruct (Z.ltb_spec subSize 8); [injection Hr as <-; auto|].
  destruct (String.eqb_spec (childType moofData trafOffset) "tfhd") as [Hty|].
  - injection Hr as <-. rewrite setUint32_cases by lia.
    destruct (Z.leb_spec (trafOffset + 12 + 4) (byteLength moofData));
      cbn [bind]; [|auto].
    right. right. exists trafOffset. repeat split; [lia|lia|assumption].
  - apply IH in Hr; [|lia].
    destruct Hr as [?|[?|(t & ? & ? & ? & ?)]]; auto.
    right. right. exists t. repeat split; [lia|assumption..].
Qed.

Lemma updateTrackIdInMoof_loop_frame (moofData : buffer) (newTrackId : Z)
    (fuel : nat) :
  forall offset r,
    0 <= offset ->
    updateTrackIdInMoof_loop fuel moofData newTrackId offset = Some r ->
    r = Ok moofData \/ r = Throw RangeError
    \/ exists tfhdOffset,
         offset + 8 <= tfhdOffset
         /\ tfhdOffset + 16 <= byteLength moofData
         /\ childType moofData tfhdOffset = "tfhd"
         /\ r = Ok (blit moofData (tfhdOffset + 12) (be32 newTrackId)).
Proof.
  induction fuel as [|fuel IH]; intros offset r H0 Hr; [discriminate|].
  cbn [updateTrackIdInMoof_loop] in Hr.
  destruct (offset <? byteLength moofData - 8); [|injection Hr as <-; auto].
  unfold getUint32 in Hr.
  destruct ((0 <=? offset) && (offset + 4 <=? byteLength moofData));
    [|injection Hr as <-; auto].
  set (size := be_value 0 _) in Hr.
  destruct (Z.ltb_spec size 8); [injection Hr as <-; auto|].
  destruct (Z.gtb_spec (offset + size) (byteLength moofData));
    [injection Hr as <-; auto|].
  cbn [orb] in Hr.
  assert (Hnext : updateTrackIdInMoof_loop fuel moofData newTrackId
                    (offset + size) = Some r ->
                  r = Ok moofData \/ r = Throw RangeError
                  \/ exists tfhdOffset,
                       offset + 8 <= tfhdOffset
                       /\ tfhdOffset + 16 <= byteLength moofData
                       /\ childType moofData tfhdOffset = "tfhd"
                       /\ r = Ok (blit moofData (tfhdOffset + 12)
                                       (be32 newTrackId))).
  { intros Hn. apply IH in Hn; [|lia].
    destruct Hn as [?|[?|(t & ? & ? & ? & ?)]]; auto.
    right. right. exists t. repeat split; [lia|assumption..]. }
  destruct (String.eqb (childType moofData offset) "traf"); [|auto].
  destruct (updateTrackIdInTraf_loop (scan_fuel moofData) moofData newTrackId
              offset size (offset + 8)) as [inner|] eqn:Hinner;
    [|discriminate].
  apply updateTrackIdInTraf_loop_frame in Hinner; [|lia].
  destruct Hinner as [->|[->|(t & ? & ? & ? & ->)]];
    [auto|injection Hr as <-; auto|].
  injection Hr as <-. right. right. exists t. auto.
Qed.

(** X6. [updateTrackIdInMoof] changes at most one 32-bit field: it
    returns the array unchanged, or throws [RangeError], or overwrites
    the four bytes at offset 12 of a child whose type reads [tfhd],
    which lies inside the array. *)
Theorem updateTrackIdInMoof_frame :
  forall (moofData : buffer) (newTrackId : Z),
    updateTrackIdInMoof moofData newTrackId = Ok moofData
    \/ updateTrackIdInMoof moofData newTrackId = Throw RangeError
    \/ exists tfhdOffset,
         16 <= tfhdOffset
         /\ tfhdOffset + 16 <= byteLength moofData
         /\ childType moofData tfhdOffset = "tfhd"
         /\ updateTrackIdInMoof moofData newTrackId
            = Ok (blit moofData (tfhdOffset + 12) (be32 newTrackId)).
Proof.
  intros moofData newTrackId.
  pose proof (updateTrackIdInMoof_total moofData newTrackId) as Htotal.
  apply updateTrackIdInMoof_loop_frame in Htotal; [|lia].
  destruct Htotal as [->|[->|(t & ? & ? & ? & ->)]]; auto.
  right. right. exists t. repeat split; [lia|assumption..].
Qed.

Lemma getUint32_be32_head (v : Z) (rest : buffer) :
  getUint32 (be32 v ++ rest) 0 = Ok (v mod 2 ^ 32).
Proof.
  rewrite getUint32_app_l by (change (byteLength (be32 v)) with 4; lia).
  transitivity (Ok (be_value 0 (be32 v))); [reflexivity|].
  now rewrite be_value_be32.
Qed.

Lemma blit_middle (a old new b : buffer) :
  length old = length new ->
  blit (a ++ old ++ b) (byteLength a) new = a ++ new ++ b.
Proof.
  intros Hlen. unfold blit, byteLength. rewrite Nat2Z.id.
  rewrite take_app_length. f_equal. f_equal.
  rewrite <- Hlen, app_assoc.
  rewrite drop_app_length'; [reflexivity|]. now rewrite length_app.
Qed.

(** X7. On a [moof] of the usual layout, [mfhd] then a [traf] whose
    first child is the [tfhd], all written by [makeBox] and shorter
    than 2^32 bytes, [updateTrackIdInMoof] replaces the track ID of the
    [tfhd] and nothing else. *)
Theorem updateTrackIdInMoof_patches_tfhd :
  forall (mfhd tail trafRest rest : buffer) (flags oldTrackId newTrackId : Z),
    let moof := fun trackId =>
      makeBox "moof"
        (makeBox "mfhd" mfhd
         ++ makeBox "traf"
              (makeBox "tfhd" (be32 flags ++ be32 trackId ++ tail) ++ trafRest)
         ++ rest) in
    byteLength (moof oldTrackId) < 2 ^ 32 ->
    updateTrackIdInMoof (moof oldTrackId) newTrackId = Ok (moof newTrackId).
Proof.
  intros mfhd tail trafRest rest flags oldTrackId newTrackId moof Hsize.
  pose proof (byteLength_nonneg mfhd). pose proof (byteLength_nonneg tail).
  pose proof (byteLength_nonneg trafRest). pose proof (byteLength_nonneg rest).
  (* the pieces of the box, with their lengths *)
  remember (8 + (4 + (4 + byteLength tail))) as tfhdLen eqn:HtfhdLen.
  remember (8 + (tfhdLen + byteLength trafRest)) as trafLen eqn:HtrafLen.
  remember (8 + byteLength mfhd) as mfhdLen eqn:HmfhdLen.
  remember (8 + (mfhdLen + (trafLen + byteLength rest))) as moofLen
    eqn:HmoofLen.
  set (tag := fun s : string =>
                [charCodeAt s 0; charCodeAt s 1; charCodeAt s 2;
                 charCodeAt s 3]).
  assert (Hflat : forall trackId,
             moof trackId
             = (be32 moofLen ++ tag "moof")
               ++ (be32 mfhdLen ++ tag "mfhd" ++ mfhd)
               ++ (be32 trafLen ++ tag "traf")
               ++ (be32 tfhdLen ++ tag "tfhd" ++ be32 flags)
               ++ be32 trackId ++ (tail ++ trafRest ++ rest)).
  { intros trackId. unfold moof, tag.
    rewrite !makeBox_flat, !byteLength_app.
    change (byteLength (be32 flags)) with 4.
    change (byteLength (be32 trackId)) with 4.
    repeat match goal with
           | |- context [byteLength (be32 ?x)] =>
             change (byteLength (be32 x)) with 4
           | |- context [byteLength [?a; ?b; ?c; ?d]] =>
             change (byteLength [a; b; c; d]) with 4
           end.
    rewrite <- !app_assoc. cbn [app].
    repeat (f_equal; try lia). }
  assert (Hlen : byteLength (moof oldTrackId) = moofLen).
  { unfold moof. rewrite !byteLength_makeBox, !byteLength_app,
      !byteLength_makeBox, !byteLength_app, !byteLength_makeBox,
      !byteLength_app.
    change (byteLength (be32 flags)) with 4.
    change (byteLength (be32 oldTrackId)) with 4. lia. }
  rewrite (Hflat newTrackId).
  set (hdr := be32 moofLen ++ tag "moof").
  set (mfhdBox := be32 mfhdLen ++ tag "mfhd" ++ mfhd).
  set (trafHdr := be32 trafLen ++ tag "traf").
  set (tfhdHdr := be32 tfhdLen ++ tag "tfhd" ++ be32 flags).
  set (after := tail ++ trafRest ++ rest).
  assert (Hhdr : byteLength hdr = 8) by reflexivity.
  assert (HtrafHdr : byteLength trafHdr = 8) by reflexivity.
  assert (HtfhdHdr : byteLength tfhdHdr = 12) by reflexivity.
  assert (HmfhdBox : byteLength mfhdBox = mfhdLen).
  { unfold mfhdBox. rewrite !byteLength_app.
    change (byteLength (be32 mfhdLen)) with 4.
    change (byteLength (tag "mfhd")) with 4. lia. }
  assert (Hafter : byteLength after
                   = byteLength tail + byteLength trafRest + byteLength rest).
  { unfold after. rewrite !byteLength_app. lia. }
  remember (moof oldTrackId) as data eqn:Hdata.
  assert (Hdata' : data = hdr ++ mfhdBox ++ trafHdr ++ tfhdHdr
                          ++ be32 oldTrackId ++ after)
    by (rewrite Hdata; apply Hflat).
  clear Hdata Hflat moof.
  assert (Hget1 : getUint32 data 8 = Ok mfhdLen).
  { rewrite Hdata', <- Hhdr, getUint32_after. unfold mfhdBox.
    rewrite <- !app_assoc, getUint32_be32_head, Z.mod_small; [reflexivity|lia]. }
  assert (Hty1 : childType data 8 = "mfhd").
  { rewrite Hdata', <- Hhdr, childType_after. reflexivity. }
  assert (Hsplit2 : data = (hdr ++ mfhdBox) ++ trafHdr ++ tfhdHdr
                           ++ be32 oldTrackId ++ after)
    by (rewrite Hdata'; now rewrite <- !app_assoc).
  assert (Hoff2 : byteLength (hdr ++ mfhdBox) = 8 + mfhdLen)
    by (rewrite byteLength_app; lia).
  assert (Hget2 : getUint32 data (8 + mfhdLen) = Ok trafLen).
  { rewrite Hsplit2, <- Hoff2, getUint32_after. unfold trafHdr.
    rewrite <- !app_assoc, getUint32_be32_head, Z.mod_small; [reflexivity|lia]. }
  assert (Hty2 : childType data (8 + mfhdLen) = "traf").
  { rewrite Hsplit2, <- Hoff2, childType_after. reflexivity. }
  assert (Hsplit3 : data = (hdr ++ mfhdBox ++ trafHdr) ++ tfhdHdr
                           ++ be32 oldTrackId ++ after)
    by (rewrite Hdata'; now rewrite <- !app_assoc).
  assert (Hoff3 : byteLength (hdr ++ mfhdBox ++ trafHdr) = 8 + mfhdLen + 8)
    by (rewrite !byteLength_app; lia).
  assert (Hget3 : getUint32 data (8 + mfhdLen + 8) = Ok tfhdLen).
  { rewrite Hsplit3, <- Hoff3, getUint32_after. unfold tfhdHdr.
    rewrite <- !app_assoc, getUint32_be32_head, Z.mod_small; [reflexivity|lia]. }
  assert (Hty3 : childType data (8 + mfhdLen + 8) = "tfhd").
  { rewrite Hsplit3, <- Hoff3, childType_after. reflexivity. }
  assert (Hsplit4 : data = (hdr ++ mfhdBox ++ trafHdr ++ tfhdHdr)
                           ++ be32 oldTrackId ++ after)
    by (rewrite Hdata'; now rewrite <- !app_assoc).
  assert (Hoff4 : byteLength (hdr ++ mfhdBox ++ trafHdr ++ tfhdHdr)
                  = 8 + mfhdLen + 8 + 12)
    by (rewrite !byteLength_app; lia).
  assert (Hset : setUint32 data (8 + mfhdLen + 8 + 12) newTrackId
                 = Ok (hdr ++ mfhdBox ++ trafHdr ++ tfhdHdr
                       ++ be32 newTrackId ++ after)).
  { rewrite setUint32_cases by lia.
    replace (8 + mfhdLen + 8 + 12 + 4 <=? byteLength data) with true
      by (symmetry; apply Z.leb_le; lia).
    rewrite <- Hoff4, Hsplit4, blit_middle by reflexivity.
    now rewrite <- !app_assoc. }
  unfold updateTrackIdInMoof, scan_fuel.
  assert (Hfuel : exists n, length data = S (S n)).
  { unfold byteLength in Hlen. destruct (length data) as [|[|n]]; eauto;
      cbn in Hlen; lia. }
  destruct Hfuel as [n Hn]. rewrite Hn.
  cbn [updateTrackIdInMoof_loop]. unfold scan_fuel. rewrite Hn.
  cbn [updateTrackIdInTraf_loop].
  rewrite Hget1, Hty1.
  replace (8 <? byteLength data - 8) with true
    by (symmetry; apply Z.ltb_lt; lia).
  replace ((mfhdLen <? 8) || (8 + mfhdLen >? byteLength data)) with false
    by (symmetry; apply orb_false_intro;
        [apply Z.ltb_ge|rewrite Z.gtb_ltb; apply Z.ltb_ge]; lia).
  change (String.eqb "mfhd" "traf") with false. cbv iota.
  rewrite Hget2, Hty2.
  replace (8 + mfhdLen <? byteLength data - 8) with true
    by (symmetry; apply Z.ltb_lt; lia).
  replace ((trafLen <? 8) || (8 + mfhdLen + trafLen >? byteLength data))
    with false
    by (symmetry; apply orb_false_intro;
        [apply Z.ltb_ge|rewrite Z.gtb_ltb; apply Z.ltb_ge]; lia).
  change (String.eqb "traf" "traf") with true. cbv iota.
  rewrite Hget3, Hty3.
  replace (8 + mfhdLen + 8 <? 8 + mfhdLen + trafLen - 8) with true
    by (symmetry; apply Z.ltb_lt; lia).
  replace (tfhdLen <? 8) with false
    by (symmetry; apply Z.ltb_ge; lia).
  change (String.eqb "tfhd" "tfhd") with true. cbv iota.
  rewrite Hset. reflexivity.
Qed.

Lemma updateTrackIdInMoof_patches_tfhd_witness :
  let moof := fun trackId =>
    makeBox "moof"
      (makeBox "mfhd" (bytes [0; 0; 0; 0; 0; 0; 0; 1])
       ++ makeBox "traf"
            (makeBox "tfhd" (be32 0 ++ be32 trackId ++ [])
             ++ makeBox "trun" (bytes [0]))
       ++ []) in
  byteLength (moof 7) < 2 ^ 32
  /\ updateTrackIdInMoof (moof 7) 2 = Ok (moof 2).
Proof.
  cbv zeta.
  assert (Hsize : byteLength
                    (makeBox "moof"
                       (makeBox "mfhd" (bytes [0; 0; 0; 0; 0; 0; 0; 1])
                        ++ makeBox "traf"
                             (makeBox "tfhd" (be32 0 ++ be32 7 ++ [])
                              ++ makeBox "trun" (bytes [0]))
                        ++ [])) < 2 ^ 32) by (vm_compute; reflexivity).
  split; [exact Hsize|].
  exact (updateTrackIdInMoof_patches_tfhd
           (bytes [0; 0; 0; 0; 0; 0; 0; 1]) [] (makeBox "trun" (bytes [0])) []
           0 7 2 Hsize).
Defined.

(** ** Appending a track to a movie box *)

Lemma findSubBoxWithOffset_children (data : buffer) (targetType : string) :
  findSubBoxWithOffset data targetType
  = Ok (List.find (fun c => String.eqb (typeOf (sub_data c)) targetType)
                  (children data)).
Proof.
  pose proof (findSubBoxWithOffset_total data targetType) as Htotal.
  now apply findSubBoxWithOffset_loop_children in Htotal; [|lia].
Qed.

Lemma append_then_size (a b : buffer) :
  (let newSize := byteLength a + byteLength b in
   let* r := setArray (zeros newSize) 0 a in
   let* r := setArray r (byteLength a) b in
   setUint32 r 0 newSize)
  = if 4 <=? byteLength a + byteLength b
    then Ok (be32 (byteLength a + byteLength b) ++ drop 4 (a ++ b))
    else Throw RangeError.
Proof.
  cbv zeta.
  pose proof (byteLength_nonneg a). pose proof (byteLength_nonneg b).
  rewrite setArray_fill0 by lia. cbn [bind].
  rewrite setArray_fill by lia. cbn [bind].
  rewrite zeros_nil, app_nil_r by lia.
  destruct (Z.leb_spec 4 (byteLength a + byteLength b)).
  - apply setUint32_head. rewrite byteLength_app. lia.
  - rewrite setUint32_cases by lia. rewrite byteLength_app.
    now replace (0 + 4 <=? byteLength a + byteLength b) with false
      by (symmetry; apply Z.leb_gt; lia).
Qed.

(** X8. [insertTrakIntoMoov] gives what [createMergedMoov] gives when
    no [trex] is supplied: the video [moov] followed by the audio [trak]
    patched to track 2, with the first four bytes replaced by the new
    total size.  It throws what the patch throws, and [RangeError] when
    the result has fewer than four bytes. *)
Theorem insertTrakIntoMoov_appends :
  forall moovData trakData : buffer,
    insertTrakIntoMoov moovData trakData
    = createMergedMoov moovData trakData None
    /\ insertTrakIntoMoov moovData trakData
       = match updateTrackIdInTrak trakData 2 with
         | Throw e => Throw e
         | Ok trakCopy =>
           if 4 <=? byteLength moovData + byteLength trakCopy
           then Ok (be32 (byteLength moovData + byteLength trakCopy)
                    ++ drop 4 (moovData ++ trakCopy))
           else Throw RangeError
         end.
Proof.
  intros moovData trakData.
  unfold insertTrakIntoMoov, createMergedMoov.
  rewrite findSubBoxWithOffset_children.
  destruct (updateTrackIdInTrak trakData 2) as [trakCopy|e];
    [|split; reflexivity].
  cbn [bind].
  split; [now destruct (List.find _ (children moovData))|].
  apply append_then_size.
Qed.

(** ** The inputs of the fragment assembler *)

Lemma newWindow_Ok (st : store) (src : source) (off len : Z) (a : u8array) :
  newWindow st src off len = Ok a ->
  a = Window src off len
  /\ 0 <= off /\ 0 <= len /\ off + len <= byteLength (sourceOf st src).
Proof.
  unfold newWindow.
  destruct (Z.leb_spec 0 off); [|discriminate].
  destruct (Z.leb_spec 0 len); [|discriminate].
  destruct (Z.leb_spec (off + len) (byteLength (sourceOf st src)));
    [|discriminate].
  cbn [andb]. now intros [= <-].
Qed.

(** The two ways a call of [binaryMuxFragmentedMP4] goes: it throws
    before anything is written, or every box was found and the parts
    are patched and written out. *)
Lemma binaryMux_cases (st : store) :
  (exists e, binaryMuxFragmentedMP4 st = (st, Throw e))
  \/ exists videoBoxes audioBoxes videoFtyp videoMoov audioMoov
            audioTrakBox audioTrexBox mergedMoov videoFragments audioFragments,
       parseBoxes (videoData st) = Ok videoBoxes
       /\ parseBoxes (audioData st) = Ok audioBoxes
       /\ findBox videoBoxes "ftyp" = Some videoFtyp
       /\ findBox videoBoxes "moov" = Some videoMoov
       /\ findBox audioBoxes "moov" = Some audioMoov
       /\ findSubBox (boxBytes (audioData st) audioMoov) "trak"
          = Ok (Some audioTrakBox)
       /\ (exists audioMvexBox,
              findSubBox (boxBytes (audioData st) audioMoov) "mvex"
              = Ok audioMvexBox
              /\ match audioMvexBox with
                 | Some mvex => findSubBox mvex "trex"
                 | None => Ok None
                 end = Ok audioTrexBox)
       /\ createMergedMoov (boxBytes (videoData st) videoMoov)
                           audioTrakBox audioTrexBox = Ok mergedMoov
       /\ collectVideoFragments st videoBoxes = Ok videoFragments
       /\ collectAudioFragments st audioBoxes = Ok audioFragments
       /\ binaryMuxFragmentedMP4 st
          = (fst (patchSidxFragments st audioFragments),
             let st' := fst (patchSidxFragments st audioFragments) in
             let* ftypData :=
               newWindow st' VideoData (box_offset videoFtyp)
                         (box_size videoFtyp) in
             let parts :=
               contents st' ftypData :: mergedMoov
               :: map (fun f => contents st' (frag_data f)) videoFragments
               ++ map (fun f => contents st' (frag_data f))
                      (snd (patchSidxFragments st audioFragments)) in
             writeParts (zeros (totalLength parts)) 0 parts).
Proof.
  unfold binaryMuxFragmentedMP4.
  destruct (parseBoxes (videoData st)) as [videoBoxes|] eqn:Hvb;
    [|left; eauto].
  destruct (parseBoxes (audioData st)) as [audioBoxes|] eqn:Hab;
    [|left; eauto].
  cbn [bind].
  destruct (findBox videoBoxes "ftyp") as [videoFtyp|] eqn:Hvf;
    [|left; eauto].
  destruct (findBox videoBoxes "moov") as [videoMoov|] eqn:Hvmoov;
    [|left; eauto].
  destruct (findBox audioBoxes "moov") as [audioMoov|] eqn:Hamoov;
    [|left; eauto].
  destruct (newWindow st VideoData _ _) as [videoMoovData|] eqn:Hvm;
    [|left; eauto].
  destruct (newWindow st AudioData _ _) as [audioMoovData|] eqn:Ham;
    [|left; eauto].
  cbn [bind].
  apply newWindow_Ok in Hvm as (-> & _). apply newWindow_Ok in Ham as (-> & _).
  cbn [contents sourceOf].
  fold (boxBytes (videoData st) videoMoov).
  fold (boxBytes (audioData st) audioMoov).
  destruct (findSubBox _ "trak") as [[audioTrakBox|]|] eqn:Htrak; cbn [bind];
    [| |left; eauto].
  2:{ destruct (findSubBox _ "mvex") as [audioMvex|]; cbn [bind];
        [|left; eauto].
      destruct (match audioMvex with
                | Some mvex => findSubBox mvex "trex"
                | None => Ok None
                end); cbn [bind]; left; eauto. }
  destruct (findSubBox _ "mvex") as [audioMvex|] eqn:Hmvex; cbn [bind];
    [|left; eauto].
  destruct (match audioMvex with
            | Some mvex => findSubBox mvex "trex"
            | None => Ok None
            end) as [audioTrexBox|] eqn:Htrex; cbn [bind]; [|left; eauto].
  destruct (createMergedMoov _ _ _) as [mergedMoov|] eqn:Hmerged;
    cbn [bind]; [|left; eauto].
  destruct (collectVideoFragments st videoBoxes) as [videoFragments|]
    eqn:Hvfs; cbn [bind]; [|left; eauto].
  destruct (collectAudioFragments st audioBoxes) as [audioFragments|]
    eqn:Hafs; cbn [bind]; [|left; eauto].
  right.
  exists videoBoxes, audioBoxes, videoFtyp, videoMoov, audioMoov,
         audioTrakBox, audioTrexBox, mergedMoov, videoFragments, audioFragments.
  repeat split; try reflexivity; try assumption.
  - exists audioMvex. now split.
  - destruct (patchSidxFragments st audioFragments) as [st' afs].
    reflexivity.
Qed.

Lemma windowFits_same_lengths (st st' : store) (f : fragment) :
  length (videoData st') = length (videoData st) ->
  length (audioData st') = length (audioData st) ->
  windowFits st f -> windowFits st' f.
Proof.
  unfold windowFits. destruct (frag_data f) as [[|] off len|]; auto;
    unfold byteLength; cbn [sourceOf]; intros Hv Ha; rewrite ?Hv, ?Ha; auto.
Qed.

Lemma collectAudioFragments_fits (st : store) (boxes : list box) :
  forall frags,
    collectAudioFragments st boxes = Ok frags -> Forall (windowFits st) frags.
Proof.
  induction boxes as [|b rest IH]; intros frags Hfrags;
    cbn [collectAudioFragments] in Hfrags.
  - injection Hfrags as <-. constructor.
  - destruct (String.eqb (box_type b) "styp" || String.eqb (box_type b) "sidx").
    { destruct (newWindow st AudioData _ _) as [a|] eqn:Hw; [|discriminate].
      cbn [bind] in Hfrags.
      destruct (collectAudioFragments st rest); [|discriminate].
      injection Hfrags as <-. constructor; [|now apply IH].
      apply newWindow_Ok in Hw as (-> & ?). exact H. }
    destruct (String.eqb (box_type b) "moof").
    { destruct (updateTrackIdInMoof _ 2); [|discriminate].
      cbn [bind] in Hfrags.
      destruct (collectAudioFragments st rest); [|discriminate].
      injection Hfrags as <-. constructor; [exact I|now apply IH]. }
    destruct (String.eqb (box_type b) "mdat"); [|now apply IH].
    destruct (newWindow st AudioData _ _) as [a|] eqn:Hw; [|discriminate].
    cbn [bind] in Hfrags.
    destruct (collectAudioFragments st rest); [|discriminate].
    injection Hfrags as <-. constructor; [|now apply IH].
    apply newWindow_Ok in Hw as (-> & ?). exact H.
Qed.

Lemma updateTrackIdInSidx_length (sidxData : buffer) (newTrackId : Z) :
  length (updateTrackIdInSidx sidxData newTrackId) = length sidxData.
Proof. exact (updateTrackIdInTrex_length sidxData newTrackId). Qed.

Lemma patchSidxFragments_lengths (frags : list fragment) :
  forall st,
    Forall (windowFits st) frags ->
    length (videoData (fst (patchSidxFragments st frags)))
    = length (videoData st)
    /\ length (audioData (fst (patchSidxFragments st frags)))
       = length (audioData st).
Proof.
  induction frags as [|f rest IH]; intros st Hfits; [now split|].
  inversion Hfits as [|? ? Hf Hrest]; subst.
  cbn [patchSidxFragments].
  destruct (String.eqb (frag_type f) "sidx").
  - assert (Hstep : length (videoData (fst (writeBack st (frag_data f)
                       (updateTrackIdInSidx (contents st (frag_data f)) 2))))
                    = length (videoData st)
                    /\ length (audioData (fst (writeBack st (frag_data f)
                       (updateTrackIdInSidx (contents st (frag_data f)) 2))))
                       = length (audioData st)).
    { unfold windowFits in Hf.
      destruct (frag_data f) as [[|] off len|]; cbn [writeBack fst contents
        sourceOf videoData audioData] in *; [| |now split].
      - split; [|reflexivity]. apply length_blit; [lia|].
        unfold byteLength at 1. rewrite updateTrackIdInSidx_length.
        fold (byteLength (slice (videoData st) off (off + len))).
        rewrite byteLength_slice by lia. lia.
      - split; [reflexivity|]. apply length_blit; [lia|].
        unfold byteLength at 1. rewrite updateTrackIdInSidx_length.
        fold (byteLength (slice (audioData st) off (off + len))).
        rewrite byteLength_slice by lia. lia. }
    destruct (writeBack st (frag_data f) _) as [st1 a]. cbn [fst] in Hstep.
    destruct Hstep as [Hv Ha].
    specialize (IH st1).
    destruct (patchSidxFragments st1 rest) as [st2 rest'].
    cbn [fst] in *.
    destruct IH as [IHv IHa].
    + eapply Forall_impl; [exact Hrest|]. intros g.
      now apply windowFits_same_lengths.
    + split; congruence.
  - specialize (IH st Hrest).
    destruct (patchSidxFragments st rest) as [st2 rest']. exact IH.
Qed.

(** X9. Whatever its inputs and whether it returns or throws,
    [binaryMuxFragmentedMP4] leaves the video input as it was and the
    audio input at its length. *)
Theorem binaryMux_keeps_input_lengths :
  forall st : store,
    let st' := fst (binaryMuxFragmentedMP4 st) in
    videoData st' = videoData st
    /\ length (audioData st') = length (audioData st).
Proof.
  intros st st'. split; [apply binaryMux_video_unchanged|].
  unfold st'.
  destruct (binaryMux_cases st)
    as [[e ->]|(vb & ab & vf & vm & am & trak & trex & merged & vfs & afs
                & _ & _ & _ & _ & _ & _ & _ & _ & _ & Hafs & ->)];
    [reflexivity|].
  cbn [fst].
  apply patchSidxFragments_lengths.
  eapply collectAudioFragments_fits; eassumption.
Qed.

Lemma collectAudioFragments_no_sidx (st : store) (boxes : list box) :
  forall frags,
    collectAudioFragments st boxes = Ok frags ->
    forallb (fun b => negb (String.eqb (box_type b) "sidx")) boxes = true ->
    forallb (fun f => negb (String.eqb (frag_type f) "sidx")) frags = true.
Proof.
  induction boxes as [|b rest IH]; intros frags Hfrags Hno;
    cbn [collectAudioFragments forallb] in *.
  - now injection Hfrags as <-.
  - apply andb_prop in Hno as [Hb Hrest].
    destruct (String.eqb (box_type b) "styp" || String.eqb (box_type b) "sidx").
    { destruct (newWindow st AudioData _ _); [|discriminate].
      cbn [bind] in Hfrags.
      destruct (collectAudioFragments st rest); [|discriminate].
      injection Hfrags as <-. cbn [forallb frag_type].
      rewrite Hb. now apply IH. }
    destruct (String.eqb (box_type b) "moof").
    { destruct (updateTrackIdInMoof _ 2); [|discriminate].
      cbn [bind] in Hfrags.
      destruct (collectAudioFragments st rest); [|discriminate].
      injection Hfrags as <-. cbn [forallb frag_type].
      change (String.eqb "moof" "sidx") with false. now apply IH. }
    destruct (String.eqb (box_type b) "mdat"); [|now apply IH].
    destruct (newWindow st AudioData _ _); [|discriminate].
    cbn [bind] in Hfrags.
    destruct (collectAudioFragments st rest); [|discriminate].
    injection Hfrags as <-. cbn [forallb frag_type].
    rewrite Hb. now apply IH.
Qed.

Lemma patchSidxFragments_no_sidx (frags : list fragment) (st : store) :
  forallb (fun f => negb (String.eqb (frag_type f) "sidx")) frags = true ->
  patchSidxFragments st frags = (st, frags).
Proof.
  induction frags as [|f rest IH]; intros Hno; [reflexivity|].
  cbn [forallb patchSidxFragments] in *.
  apply andb_prop in Hno as [Hf Hrest].
  apply negb_true_iff in Hf. rewrite Hf, (IH Hrest). reflexivity.
Qed.

(** X10. When the audio stream has no top-level [sidx] box,
    [binaryMuxFragmentedMP4] changes neither input buffer. *)
Theorem binaryMux_without_sidx_keeps_inputs :
  forall (st : store) (audioBoxes : list box),
    parseBoxes (audioData st) = Ok audioBoxes ->
    forallb (fun b => negb (String.eqb (box_type b) "sidx")) audioBoxes = true ->
    fst (binaryMuxFragmentedMP4 st) = st.
Proof.
  intros st audioBoxes Hparse Hno.
  destruct (binaryMux_cases st)
    as [[e ->]|(vb & ab & vf & vm & am & trak & trex & merged & vfs & afs
                & _ & Hab & _ & _ & _ & _ & _ & _ & _ & Hafs & ->)];
    [reflexivity|].
  cbn [fst]. rewrite Hparse in Hab. injection Hab as <-.
  rewrite patchSidxFragments_no_sidx; [reflexivity|].
  eapply collectAudioFragments_no_sidx; eassumption.
Qed.

Lemma binaryMux_without_sidx_keeps_inputs_witness :
  let st := mkStore Sample.video Sample.video in
  parseBoxes (audioData st)
  = Ok [mkBox 12 "ftyp" 8 0; mkBox 120 "moov" 8 12; mkBox 10 "moof" 8 132;
        mkBox 11 "mdat" 8 142]
  /\ (exists output, snd (binaryMuxFragmentedMP4 st) = Ok output)
  /\ fst (binaryMuxFragmentedMP4 st) = st.
Proof.
  cbv zeta.
  assert (Hparse : parseBoxes (audioData (mkStore Sample.video Sample.video))
                   = Ok [mkBox 12 "ftyp" 8 0; mkBox 120 "moov" 8 12;
                         mkBox 10 "moof" 8 132; mkBox 11 "mdat" 8 142])
    by (vm_compute; reflexivity).
  split; [exact Hparse|].
  split; [eexists; vm_compute; reflexivity|].
  exact (binaryMux_without_sidx_keeps_inputs _ _ Hparse eq_refl).
Defined.

(** ** The bytes of the sample tables *)

Lemma byteLength_wordBytes (words : list Z) :
  byteLength (wordBytes words) = 4 * Z.of_nat (length words).
Proof.
  induction words as [|w rest IH]; [reflexivity|].
  unfold wordBytes in *. cbn [flat_map length].
  rewrite byteLength_app, IH. change (byteLength (be32 w)) with 4. lia.
Qed.

Lemma putWords_fill (words : list Z) :
  forall (pre : buffer) (base i k : Z),
    byteLength pre = base + i * 4 ->
    4 * Z.of_nat (length words) <= k ->
    putWords (pre ++ zeros k) base i words
    = pre ++ wordBytes words ++ zeros (k - 4 * Z.of_nat (length words)).
Proof.
  induction words as [|w rest IH]; intros pre base i k Hpre Hk;
    cbn [putWords].
  - cbn. now rewrite Z.sub_0_r.
  - cbn [length] in Hk. unfold put32.
    rewrite blit_fill_at
      by (rewrite ?Hpre; change (byteLength (be32 w)) with 4; lia).
    change (byteLength (be32 w)) with 4.
    rewrite (app_assoc pre).
    rewrite IH
      by (rewrite ?byteLength_app, ?Hpre;
          change (byteLength (be32 w)) with 4; lia).
    unfold wordBytes. cbn [flat_map length].
    rewrite <- !app_assoc. do 3 f_equal. f_equal. lia.
Qed.

(** A table of [n] words behind a header of [h] bytes whose last word is
    the count. *)
Lemma table_of_words (h : Z) (words : list Z) :
  4 <= h ->
  let n := Z.of_nat (length words) in
  putWords (put32 (zeros (h + n * 4)) (h - 4) n) h 0 words
  = zeros (h - 4) ++ be32 n ++ wordBytes words.
Proof.
  intros Hh n. subst n. set (n := Z.of_nat (length words)).
  assert (Hn : n = Z.of_nat (length words)) by reflexivity.
  clearbody n.
  unfold put32.
  rewrite blit_zeros by (change (byteLength (be32 n)) with 4; lia).
  change (byteLength (be32 n)) with 4.
  rewrite (app_assoc (zeros (h - 4))).
  rewrite (putWords_fill words (zeros (h - 4) ++ be32 n) h 0).
  - rewrite (zeros_nil (_ - _ - _ - _)) by lia.
    now rewrite app_nil_r, <- app_assoc.
  - rewrite byteLength_app, byteLength_zeros by lia.
    change (byteLength (be32 n)) with 4. lia.
  - lia.
Qed.

Lemma table_of_pairs (entries : list (Z * Z)) :
  let n := Z.of_nat (length entries) in
  putPairs (put32 (zeros (8 + n * 8)) 4 n) 0 entries
  = be32 0 ++ be32 n ++ pairBytes entries.
Proof.
  intros n. subst n. set (n := Z.of_nat (length entries)).
  assert (Hn : n = Z.of_nat (length entries)) by reflexivity.
  clearbody n.
  unfold put32.
  rewrite blit_zeros by (change (byteLength (be32 n)) with 4; lia).
  change (byteLength (be32 n)) with 4.
  rewrite (app_assoc (zeros 4)).
  rewrite (putPairs_fill entries (zeros 4 ++ be32 n) 0)
    by (reflexivity || lia).
  rewrite (zeros_nil (_ - _)) by lia.
  now rewrite app_nil_r, <- app_assoc.
Qed.

Lemma put32_zero_zeros (k off : Z) :
  0 <= off -> off + 4 <= k -> put32 (zeros k) off 0 = zeros k.
Proof.
  intros. unfold put32.
  rewrite blit_zeros by (change (byteLength (be32 0)) with 4; lia).
  change (be32 0) with (zeros 4). change (byteLength (zeros 4)) with 4.
  rewrite <- !zeros_add by lia. f_equal. lia.
Qed.

(** X11. The bytes of the sample tables of a track.  [stts] and [ctts]
    hold a zero version word, the number of runs and one (count, value)
    pair per run; [stsz] a zero version word, a zero default size, the
    number of samples and one size per sample, the byte length of its
    data; [stsc] one chunk holding all samples; [stss] the number of
    sync samples and their positions.  Every word is big-endian.
    [buildMP4File] writes the same [stts] and [stsz]. *)
Theorem sample_table_bytes :
  forall t : RawStsd.track,
    let samples := RawStsd.samples t in
    let sampleCount := Z.of_nat (length samples) in
    RawStsd.stts t
    = makeBox "stts" (be32 0 ++ be32 (Z.of_nat (length (sttsEntries samples)))
                      ++ pairBytes (sttsEntries samples))
    /\ RawStsd.stsz t
       = makeBox "stsz" (be32 0 ++ be32 0 ++ be32 sampleCount
                         ++ wordBytes (map dataLength samples))
    /\ RawStsd.stsc t
       = makeBox "stsc" (be32 0 ++ be32 1 ++ be32 1 ++ be32 sampleCount
                         ++ be32 1)
    /\ (RawStsd.stss t = None
        \/ RawStsd.stss t
           = Some (makeBox "stss"
                     (be32 0 ++ be32 (Z.of_nat (length (syncSamples samples)))
                      ++ wordBytes (syncSamples samples))))
    /\ (RawStsd.ctts t = None
        \/ RawStsd.ctts t
           = Some (makeBox "ctts"
                     (be32 0 ++ be32 (Z.of_nat (length (cttsEntries samples)))
                      ++ pairBytes (cttsEntries samples))))
    /\ Manual.buildStts samples = RawStsd.stts t
    /\ Manual.buildStsz samples = RawStsd.stsz t.
Proof.
  intros t samples sampleCount. subst sampleCount.
  assert (Hstts : RawStsd.stts t
                  = makeBox "stts"
                      (be32 0 ++ be32 (Z.of_nat (length (sttsEntries samples)))
                       ++ pairBytes (sttsEntries samples))).
  { unfold RawStsd.stts. cbv zeta. f_equal. apply table_of_pairs. }
  assert (Hstsz : RawStsd.stsz t
                  = makeBox "stsz"
                      (be32 0 ++ be32 0 ++ be32 (Z.of_nat (length samples))
                       ++ wordBytes (map dataLength samples))).
  { unfold RawStsd.stsz. cbv zeta. f_equal. fold samples.
    pose proof (table_of_words 12 (map dataLength samples)) as Htab.
    cbv zeta in Htab. rewrite length_map in Htab.
    change (12 - 4) with 8 in Htab. rewrite Htab by lia. reflexivity. }
  split; [exact Hstts|]. split; [exact Hstsz|].
  split; [reflexivity|].
  split.
  { unfold RawStsd.stss. fold samples.
    destruct (String.eqb (RawStsd.type t) "video"); [|now left].
    destruct (_ && _); [|now left].
    right. cbv zeta. do 2 f_equal.
    pose proof (table_of_words 8 (syncSamples samples)) as Htab.
    cbv zeta in Htab. change (8 - 4) with 4 in Htab.
    rewrite Htab by lia. reflexivity. }
  split.
  { unfold RawStsd.ctts. fold samples.
    destruct (needsCtts samples); [|now left].
    right. cbv zeta. do 2 f_equal. apply table_of_pairs. }
  split.
  - rewrite Hstts. unfold Manual.buildStts. cbv zeta. f_equal.
    rewrite put32_zero_zeros by lia. apply table_of_pairs.
  - rewrite Hstsz. unfold Manual.buildStsz. cbv zeta. f_equal.
    rewrite !put32_zero_zeros by lia. fold samples.
    pose proof (table_of_words 12 (map dataLength samples)) as Htab.
    cbv zeta in Htab. rewrite length_map in Htab.
    change (12 - 4) with 8 in Htab. rewrite Htab by lia. reflexivity.
Qed.

Lemma syncSamples_from_spec (samples : list sample) :
  forall (i k : Z),
    In k (syncSamples_from i samples)
    <-> exists (j : nat) (s : sample),
          samples !! j = Some s /\ s_is_sync s = true
          /\ k = i + Z.of_nat j + 1.
Proof.
  induction samples as [|s0 rest IH]; intros i k; cbn [syncSamples_from].
  - split; [intros []|intros (j & s & Hj & _)]. discriminate.
  - split.
    + intros Hin.
      assert (Hrest : In k (syncSamples_from (i + 1) rest) ->
                      exists (j : nat) (s : sample),
                        (s0 :: rest) !! j = Some s /\ s_is_sync s = true
                        /\ k = i + Z.of_nat j + 1).
      { intros Hr. apply IH in Hr as (j & s & Hj & Hs & ->).
        exists (S j), s. repeat split; [assumption..|lia]. }
      destruct (s_is_sync s0) eqn:Hsync; [|now apply Hrest].
      destruct Hin as [<-|Hin]; [|now apply Hrest].
      exists 0%nat, s0. repeat split; [assumption|lia].
    + intros (j & s & Hj & Hs & ->).
      assert (Hrest : forall j', j = S j' ->
                                 In (i + Z.of_nat j + 1)
                                    (syncSamples_from (i + 1) rest)).
      { intros j' ->. apply IH. exists j', s. repeat split; [assumption..|lia]. }
      destruct j as [|j'].
      * injection Hj as ->. rewrite Hs. left. lia.
      * destruct (s_is_sync s0); [right|]; now apply (Hrest j').
Qed.

Lemma syncSamples_from_sorted (samples : list sample) :
  forall i : Z,
    StronglySorted Z.lt (syncSamples_from i samples)
    /\ Forall (fun k => i < k) (syncSamples_from i samples).
Proof.
  induction samples as [|s0 rest IH]; intros i; cbn [syncSamples_from].
  - split; constructor.
  - destruct (IH (i + 1)) as [Hsorted Hlow].
    assert (Hlow' : Forall (fun k => i < k) (syncSamples_from (i + 1) rest)).
    { eapply Forall_impl; [exact Hlow|]. cbn. intros. lia. }
    destruct (s_is_sync s0); [|now split].
    split; constructor; [assumption| |lia|assumption].
    eapply Forall_impl; [exact Hlow|]. cbn. intros. lia.
Qed.

(** X12. The sync-sample table lists exactly the 1-based positions
    of the samples flagged [is_sync], in increasing order, once each. *)
Theorem stss_lists_sync_positions :
  forall (samples : list sample) (k : Z),
    (In k (syncSamples samples)
     <-> exists (j : nat) (s : sample),
           samples !! j = Some s /\ s_is_sync s = true
           /\ k = Z.of_nat j + 1)
    /\ StronglySorted Z.lt (syncSamples samples)
    /\ length (syncSamples samples) = syncCount samples.
Proof.
  intros samples k. unfold syncSamples.
  split; [|split].
  - rewrite syncSamples_from_spec.
    split; intros (j & s & Hj & Hs & ->); exists j, s;
      repeat split; try assumption; lia.
  - apply syncSamples_from_sorted.
  - apply length_syncSamples_from.
Qed.

Lemma needsCtts_false (samples : list sample) :
  needsCtts samples = false ->
  Forall (fun s => compositionOffset s = 0) samples.
Proof.
  unfold needsCtts. induction samples as [|s rest IH]; cbn [existsb];
    intros Hno; constructor.
  - apply orb_false_elim in Hno as [Hs _].
    apply negb_false_iff, Z.eqb_eq in Hs.
    unfold compositionOffset. rewrite Hs. lia.
  - apply IH. now apply orb_false_elim in Hno as [_ Hrest].
Qed.

(** X13. The composition-offset runs expand back to the offset
    [cts - dts] of every sample, in order; neighbouring runs carry
    different offsets; and when the box is left out ([needsCtts] false)
    every offset is zero. *)
Theorem ctts_roundtrip :
  forall samples : list sample,
    expandRuns (cttsEntries samples) = map compositionOffset samples
    /\ maximalRuns (cttsEntries samples)
    /\ (needsCtts samples = true
        \/ Forall (fun s => compositionOffset s = 0) samples).
Proof.
  intros samples. split; [|split].
  - unfold cttsEntries. rewrite rle_loop_expand by lia.
    reflexivity.
  - unfold cttsEntries. apply rle_loop_maximal. exact I.
  - destruct (needsCtts samples) eqn:Hneeds; [now left|right].
    now apply needsCtts_false.
Qed.

(** ** The extracted sample description *)

Lemma getUint32_slice (data : buffer) (a b off : Z) :
  0 <= a -> 0 <= off -> off + 4 <= b - a -> b <= byteLength data ->
  getUint32 (slice data a b) off = getUint32 data (a + off).
Proof.
  intros Ha Hoff Hfit Hb.
  rewrite !getUint32_in_range by (rewrite ?byteLength_slice; lia).
  rewrite slice_slice by lia. do 3 f_equal. lia.
Qed.

(** What the recursive search returns is a box of type [stsd], cut out
    of the data at some offset. *)
Lemma findStsdInBox_loop_result (fuel : nat) :
  forall (data : buffer) (offset : Z) r,
    0 <= offset ->
    findStsdInBox_loop fuel data offset = Some r ->
    r = Ok None
    \/ exists (stsd : buffer) (at_ : Z),
         r = Ok (Some stsd)
         /\ offset <= at_ /\ 8 <= byteLength stsd
         /\ at_ + byteLength stsd <= byteLength data
         /\ stsd = slice data at_ (at_ + byteLength stsd)
         /\ typeOf stsd = "stsd"
         /\ getUint32 stsd 0 = Ok (byteLength stsd).
Proof.
  induction fuel as [|fuel IH]; intros data offset r H0 Hr; [discriminate|].
  cbn [findStsdInBox_loop] in Hr.
  destruct (Z.ltb_spec offset (byteLength data - 8)) as [Hin|];
    [|injection Hr as <-; now left].
  destruct (getUint32 data offset) as [size|e] eqn:Hsize.
  2:{ rewrite getUint32_in_range in Hsize by lia. discriminate. }
  destruct (Z.ltb_spec size 8); [injection Hr as <-; now left|].
  destruct (Z.gtb_spec (offset + size) (byteLength data));
    [injection Hr as <-; now left|].
  cbn [orb] in Hr.
  assert (Hlen : byteLength (slice data offset (offset + size)) = size)
    by (rewrite byteLength_slice; lia).
  destruct (String.eqb_spec (childType data offset) "stsd") as [Hty|_].
  { injection Hr as <-. right.
    exists (slice data offset (offset + size)), offset.
    rewrite Hlen. repeat split; try lia.
    - now rewrite typeOf_slice by lia.
    - rewrite getUint32_slice by lia. now rewrite Z.add_0_r. }
  assert (Hnext : findStsdInBox_loop fuel data (offset + size) = Some r ->
                  r = Ok None
                  \/ exists (stsd : buffer) (at_ : Z),
                       r = Ok (Some stsd)
                       /\ offset <= at_ /\ 8 <= byteLength stsd
                       /\ at_ + byteLength stsd <= byteLength data
                       /\ stsd = slice data at_ (at_ + byteLength stsd)
                       /\ typeOf stsd = "stsd"
                       /\ getUint32 stsd 0 = Ok (byteLength stsd)).
  { intros Hn. apply IH in Hn; [|lia].
    destruct Hn as [->|(stsd & at_ & -> & ? & ? & ? & ? & ? & ?)];
      [now left|right].
    exists stsd, at_. repeat split; try assumption; lia. }
  destruct (isStsdContainer (childType data offset)); [|now apply Hnext].
  destruct (findStsdInBox_loop fuel (slice data offset (offset + size)) 8)
    as [inner|] eqn:Hinner; [|discriminate].
  apply IH in Hinner; [|lia].
  destruct Hinner as [->|(stsd & at_ & -> & ? & ? & Hfit & Hcut & ? & ?)];
    [now apply Hnext|].
  injection Hr as <-. right. rewrite Hlen in Hfit.
  exists stsd, (offset + at_). repeat split; try assumption; try lia.
  rewrite Hcut at 1. rewrite slice_slice by lia.
  f_equal. lia.
Qed.

Lemma extractStsdFromMoov_loop_result (data : buffer) (fuel : nat) :
  forall (offset : Z) r,
    0 <= offset ->
    extractStsdFromMoov_loop fuel data offset = Some r ->
    r = Ok None
    \/ exists (stsd : buffer) (at_ : Z),
         r = Ok (Some stsd)
         /\ offset + 8 <= at_ /\ 8 <= byteLength stsd
         /\ at_ + byteLength stsd <= byteLength data
         /\ stsd = slice data at_ (at_ + byteLength stsd)
         /\ typeOf stsd = "stsd"
         /\ getUint32 stsd 0 = Ok (byteLength stsd).
Proof.
  induction fuel as [|fuel IH]; intros offset r H0 Hloop; [discriminate|].
  cbn [extractStsdFromMoov_loop] in Hloop.
  destruct (Z.ltb_spec offset (byteLength data - 8)) as [Hin|];
    [|injection Hloop as <-; now left].
  destruct (getUint32 data offset) as [size|e] eqn:Hsize.
  2:{ rewrite getUint32_in_range in Hsize by lia. discriminate. }
  destruct (Z.ltb_spec size 8); [injection Hloop as <-; now left|].
  destruct (Z.gtb_spec (offset + size) (byteLength data));
    [injection Hloop as <-; now left|].
  cbn [orb] in Hloop.
  destruct (String.eqb (childType data offset) "moov").
  - injection Hloop as <-.
    pose proof (findStsdInBox_total (slice data offset (offset + size)) 8
                  ltac:(lia)) as Hfind.
    apply findStsdInBox_loop_result in Hfind; [|lia].
    destruct Hfind as [->|(stsd & at_ & -> & ? & ? & Hfit & Hcut & ? & ?)];
      [now left|right].
    rewrite byteLength_slice in Hfit by lia.
    exists stsd, (offset + at_). repeat split; try assumption; try lia.
    rewrite Hcut at 1. rewrite slice_slice by lia. f_equal. lia.
  - apply IH in Hloop; [|lia].
    destruct Hloop as [->|(stsd & at_ & -> & ? & ? & ? & ? & ? & ?)];
      [now left|right].
    exists stsd, at_. repeat split; try assumption; lia.
Qed.

(** X14. [extractStsdFromMoov] never throws.  What it returns is
    [null] or a copy of a stretch of the input that is a box: at least
    8 bytes, of type [stsd], with a size field equal to its length. *)
Theorem extractStsdFromMoov_result :
  forall data : buffer,
    extractStsdFromMoov data = Ok None
    \/ exists (stsd : buffer) (at_ : Z),
         extractStsdFromMoov data = Ok (Some stsd)
         /\ 8 <= at_ /\ 8 <= byteLength stsd
         /\ at_ + byteLength stsd <= byteLength data
         /\ stsd = slice data at_ (at_ + byteLength stsd)
         /\ typeOf stsd = "stsd"
         /\ getUint32 stsd 0 = Ok (byteLength stsd).
Proof.
  intros data.
  pose proof (extractStsdFromMoov_total data) as Htotal.
  apply extractStsdFromMoov_loop_result in Htotal; [|lia].
  destruct Htotal as [->|(stsd & at_ & -> & ? & ? & ? & ? & ? & ?)];
    [now left|right].
  exists stsd, at_. repeat split; try assumption; lia.
Qed.

Lemma findStsdInBox_loop_more_fuel (fuel : nat) :
  forall (fuel' : nat) (data : buffer) (offset : Z) r,
    findStsdInBox_loop fuel data offset = Some r -> (fuel <= fuel')%nat ->
    findStsdInBox_loop fuel' data offset = Some r.
Proof.
  induction fuel as [|fuel IH]; intros fuel' data offset r Hr Hle;
    [discriminate|].
  destruct fuel' as [|fuel']; [lia|].
  cbn [findStsdInBox_loop] in *.
  destruct (offset <? byteLength data - 8); [|assumption].
  destruct (getUint32 data offset) as [size|]; [|assumption].
  destruct ((size <? 8) || (offset + size >? byteLength data)); [assumption|].
  destruct (String.eqb (childType data offset) "stsd"); [assumption|].
  destruct (isStsdContainer (childType data offset)).
  - destruct (findStsdInBox_loop fuel (slice data offset (offset + size)) 8)
      as [inner|] eqn:Hinner; [|discriminate].
    rewrite (IH fuel' _ _ _ Hinner) by lia.
    destruct inner as [[found|]|e]; try assumption.
    apply IH; [assumption|lia].
  - apply IH; [assumption|lia].
Qed.

(** Whatever fuel lets the search return gives the result of
    [findStsdInBox]. *)
Lemma findStsdInBox_any_fuel (fuel : nat) (data : buffer) (offset : Z) r :
  0 <= offset ->
  findStsdInBox_loop fuel data offset = Some r ->
  findStsdInBox data offset = r.
Proof.
  intros H0 Hr.
  pose proof (findStsdInBox_total data offset H0) as Htotal.
  apply (findStsdInBox_loop_more_fuel _ (Nat.max fuel (scan_fuel data)))
    in Hr; [|lia].
  apply (findStsdInBox_loop_more_fuel _ (Nat.max fuel (scan_fuel data)))
    in Htotal; [|lia].
  congruence.
Qed.

(** A well-formed box: the size field is the length, at least 8. *)
Lemma isBox_makeBox (type : string) (content : buffer) :
  8 + byteLength content < 2 ^ 32 ->
  getUint32 (makeBox type content) 0 = Ok (byteLength (makeBox type content))
  /\ 8 <= byteLength (makeBox type content).
Proof.
  intros Hsize. pose proof (byteLength_nonneg content).
  rewrite getUint32_makeBox, byteLength_makeBox, Z.mod_small by lia.
  split; [reflexivity|lia].
Qed.

Section StsdSearch.

Variables (pre child rest : buffer).
Hypothesis Hsize : getUint32 child 0 = Ok (byteLength child).
Hypothesis Hmin : 8 <= byteLength child.
Hypothesis Hroom : 8 < byteLength child + byteLength rest.

Let data := pre ++ child ++ rest.
Let offset := byteLength pre.

Lemma stsd_search_reads :
  0 <= offset
  /\ (offset <? byteLength data - 8) = true
  /\ getUint32 data offset = Ok (byteLength child)
  /\ childType data offset = typeOf child
  /\ ((byteLength child <? 8)
      || (offset + byteLength child >? byteLength data)) = false
  /\ slice data offset (offset + byteLength child) = child.
Proof.
  pose proof (byteLength_nonneg pre). pose proof (byteLength_nonneg rest).
  unfold data, offset.
  repeat split.
  - assumption.
  - apply Z.ltb_lt. rewrite !byteLength_app. lia.
  - now rewrite getUint32_after, getUint32_app_l by lia.
  - now rewrite childType_after, childType_app_l by lia.
  - apply orb_false_intro; [apply Z.ltb_ge; lia|].
    rewrite Z.gtb_ltb. apply Z.ltb_ge. rewrite !byteLength_app. lia.
  - rewrite app_assoc.
    replace (byteLength pre + byteLength child)
      with (byteLength (pre ++ child)) by apply byteLength_app.
    rewrite slice_app_l;
      [ | apply byteLength_nonneg | lia | rewrite byteLength_app; lia ].
    rewrite byteLength_app. apply slice_after.
Qed.

Lemma findStsdInBox_found :
  typeOf child = "stsd" -> findStsdInBox data offset = Ok (Some child).
Proof.
  intros Hty.
  destruct stsd_search_reads as (H0 & Hin & Hget & Htype & Hok & Hcut).
  apply (findStsdInBox_any_fuel 1); [assumption|].
  cbn [findStsdInBox_loop].
  now rewrite Hin, Hget, Hok, Htype, Hty, Hcut.
Qed.

Lemma findStsdInBox_skip :
  String.eqb (typeOf child) "stsd" = false ->
  isStsdContainer (typeOf child) = false ->
  findStsdInBox data offset = findStsdInBox data (offset + byteLength child).
Proof.
  intros Hty Hcont.
  destruct stsd_search_reads as (H0 & Hin & Hget & Htype & Hok & Hcut).
  apply (findStsdInBox_any_fuel (S (scan_fuel data))); [assumption|].
  cbn [findStsdInBox_loop].
  rewrite Hin, Hget, Hok, Htype, Hty, Hcont.
  apply findStsdInBox_total. lia.
Qed.

Lemma findStsdInBox_enter (found : buffer) :
  String.eqb (typeOf child) "stsd" = false ->
  isStsdContainer (typeOf child) = true ->
  findStsdInBox child 8 = Ok (Some found) ->
  findStsdInBox data offset = Ok (Some found).
Proof.
  intros Hty Hcont Hinner.
  destruct stsd_search_reads as (H0 & Hin & Hget & Htype & Hok & Hcut).
  apply (findStsdInBox_any_fuel (S (scan_fuel child))); [assumption|].
  cbn [findStsdInBox_loop].
  rewrite Hin, Hget, Hok, Htype, Hty, Hcont, Hcut.
  rewrite findStsdInBox_total by lia. now rewrite Hinner.
Qed.

End StsdSearch.

Lemma makeBox_header (type : string) (content : buffer) :
  exists hdr : buffer,
    byteLength hdr = 8 /\ makeBox type content = hdr ++ content.
Proof.
  exists (be32 (8 + byteLength content)
          ++ [charCodeAt type 0; charCodeAt type 1; charCodeAt type 2;
              charCodeAt type 3]).
  split; [reflexivity|]. now rewrite makeBox_flat, <- app_assoc.
Qed.

Lemma steppedOver_makeBox (type : string) (content : buffer) :
  String.length type = 4%nat -> 8 + byteLength content < 2 ^ 32 ->
  String.eqb type "stsd" = false -> isStsdContainer type = false ->
  steppedOver (makeBox type content).
Proof.
  intros Hty Hsize Hno Hcont. unfold steppedOver.
  rewrite typeOf_makeBox by assumption.
  destruct (isBox_makeBox type content Hsize). auto.
Qed.

(** The search walks over the boxes it has no use for and reaches the
    next one: the box looked for, or a container holding it. *)
Lemma findStsdInBox_scan (skipped : list buffer) :
  forall (pre target rest found : buffer),
    Forall steppedOver skipped ->
    getUint32 target 0 = Ok (byteLength target) ->
    8 <= byteLength target ->
    8 < byteLength target + byteLength rest ->
    (typeOf target = "stsd" /\ found = target)
    \/ (String.eqb (typeOf target) "stsd" = false
        /\ isStsdContainer (typeOf target) = true
        /\ findStsdInBox target 8 = Ok (Some found)) ->
    findStsdInBox (pre ++ List.concat skipped ++ target ++ rest)
                  (byteLength pre)
    = Ok (Some found).
Proof.
  induction skipped as [|b bs IH];
    intros pre target rest found Hskip Hsize Hmin Hroom Hfound.
  - cbn [List.concat app].
    destruct Hfound as [[Hty ->]|(Hty & Hcont & Hinner)].
    + now apply findStsdInBox_found.
    + now apply findStsdInBox_enter.
  - inversion Hskip as [|? ? (Hbsize & Hbmin & Hbty & Hbcont) Hbs]; subst.
    cbn [List.concat]. rewrite <- app_assoc.
    pose proof (byteLength_nonneg (List.concat bs)).
    pose proof (byteLength_nonneg rest).
    rewrite findStsdInBox_skip;
      [ | assumption | assumption
        | rewrite !byteLength_app; lia | assumption | assumption ].
    rewrite app_assoc, <- byteLength_app.
    now apply IH.
Qed.

Lemma findStsdInBox_in_box (type : string) (skipped : list buffer)
    (target : buffer) (others : list buffer) (found : buffer) :
  Forall steppedOver skipped ->
  getUint32 target 0 = Ok (byteLength target) ->
  8 <= byteLength target ->
  8 < byteLength target + byteLength (List.concat others) ->
  (typeOf target = "stsd" /\ found = target)
  \/ (String.eqb (typeOf target) "stsd" = false
      /\ isStsdContainer (typeOf target) = true
      /\ findStsdInBox target 8 = Ok (Some found)) ->
  findStsdInBox (makeBox type (concat (skipped ++ target :: others))) 8
  = Ok (Some found).
Proof.
  intros Hskip Hsize Hmin Hroom Hfound.
  destruct (makeBox_header type (concat (skipped ++ target :: others)))
    as (hdr & Hhdr & ->).
  rewrite concat_flat, concat_app. cbn [List.concat].
  rewrite <- Hhdr. now apply findStsdInBox_scan.
Qed.

Ltac nonneg_lengths :=
  repeat match goal with
         | |- context [byteLength ?x] =>
           lazymatch goal with
           | H : 0 <= byteLength x |- _ => fail
           | _ => pose proof (byteLength_nonneg x)
           end
         end.

Ltac small_box :=
  apply steppedOver_makeBox;
  [ reflexivity
  | match goal with
    | |- 8 + byteLength ?x < _ =>
      let n := eval vm_compute in (byteLength x) in
      change (byteLength x) with n; lia
    end
  | reflexivity | reflexivity ].

Lemma RawStsd_steppedOver_tkhd (t : RawStsd.track) :
  steppedOver (RawStsd.tkhd t).
Proof. unfold RawStsd.tkhd. cbv zeta. small_box. Qed.

Lemma RawStsd_steppedOver_mdhd (t : RawStsd.track) :
  steppedOver (RawStsd.mdhd t).
Proof. unfold RawStsd.mdhd. cbv zeta. small_box. Qed.

Lemma RawStsd_steppedOver_hdlr (t : RawStsd.track) :
  steppedOver (RawStsd.hdlr t).
Proof.
  unfold RawStsd.hdlr. cbv zeta.
  destruct (String.eqb (RawStsd.type t) "video"); small_box.
Qed.

Lemma RawStsd_steppedOver_mediaHeader (t : RawStsd.track) :
  steppedOver (RawStsd.mediaHeader t).
Proof.
  unfold RawStsd.mediaHeader.
  destruct (String.eqb (RawStsd.type t) "video"); small_box.
Qed.

Lemma RawStsd_steppedOver_dinf : steppedOver RawStsd.dinf.
Proof. unfold RawStsd.dinf. cbv zeta. small_box. Qed.

Lemma RawStsd_steppedOver_mvhd (tracks : list RawStsd.track) :
  steppedOver (RawStsd.mvhd tracks).
Proof. unfold RawStsd.mvhd. cbv zeta. small_box. Qed.

(** A container written by [makeBox] that holds what the search looks
    for. *)
Lemma container_target (type : string) (content found : buffer) :
  String.length type = 4%nat ->
  8 + byteLength content < 2 ^ 32 ->
  String.eqb type "stsd" = false ->
  isStsdContainer type = true ->
  findStsdInBox (makeBox type content) 8 = Ok (Some found) ->
  getUint32 (makeBox type content) 0 = Ok (byteLength (makeBox type content))
  /\ 8 <= byteLength (makeBox type content)
  /\ ((typeOf (makeBox type content) = "stsd"
       /\ found = makeBox type content)
      \/ (String.eqb (typeOf (makeBox type content)) "stsd" = false
          /\ isStsdContainer (typeOf (makeBox type content)) = true
          /\ findStsdInBox (makeBox type content) 8 = Ok (Some found))).
Proof.
  intros Hty Hsize Hno Hcont Hfound.
  destruct (isBox_makeBox type content Hsize) as [Hget Hmin].
  rewrite typeOf_makeBox by assumption.
  split; [assumption|]. split; [assumption|]. right. auto.
Qed.

(** The sample description of a built track is what the search finds
    in its [trak] box. *)
Lemma RawStsd_findStsd_in_trak (t : RawStsd.track) (dataOffset : Z) :
  byteLength (RawStsd.buildTrak t dataOffset) < 2 ^ 32 ->
  typeOf (RawStsd.stsd t) = "stsd" ->
  getUint32 (RawStsd.stsd t) 0 = Ok (byteLength (RawStsd.stsd t)) ->
  8 <= byteLength (RawStsd.stsd t) ->
  findStsdInBox (RawStsd.buildTrak t dataOffset) 8
  = Ok (Some (RawStsd.stsd t)).
Proof.
  intros Hlen Hty Hget Hmin. unfold RawStsd.buildTrak in *.
  set (stblParts := RawStsd.pushIf (RawStsd.pushIf _ _) _) in *.
  assert (Hparts : exists others,
             stblParts = [] ++ RawStsd.stsd t :: RawStsd.stts t :: others).
  { unfold stblParts.
    destruct (RawStsd.stss t), (RawStsd.ctts t);
      cbn [RawStsd.pushIf app]; eauto. }
  destruct Hparts as [others Hparts]. clearbody stblParts.
  set (stbl := makeBox "stbl" (concat stblParts)) in *.
  set (minf := makeBox "minf" (concat [RawStsd.mediaHeader t; RawStsd.dinf;
                                       stbl])) in *.
  set (mdia := makeBox "mdia" (concat [RawStsd.mdhd t; RawStsd.hdlr t; minf]))
    in *.
  assert (Hsizes : byteLength stbl <= byteLength minf
                   /\ byteLength minf <= byteLength mdia
                   /\ byteLength mdia
                      <= byteLength (makeBox "trak"
                                       (concat [RawStsd.tkhd t; mdia]))).
  { unfold mdia, minf. box_lengths. nonneg_lengths. lia. }
  destruct Hsizes as (Hs1 & Hs2 & Hs3).
  assert (Hstts : 8 <= byteLength (RawStsd.stts t)).
  { rewrite RawStsd_stts_flat, byteLength_makeBox. nonneg_lengths. lia. }
  assert (Hstbl : findStsdInBox stbl 8 = Ok (Some (RawStsd.stsd t))).
  { unfold stbl. rewrite Hparts.
    apply (findStsdInBox_in_box "stbl" [] (RawStsd.stsd t)
                                (RawStsd.stts t :: others));
      [constructor|exact Hget|exact Hmin| |left; now split].
    rewrite byteLength_cons_concat. nonneg_lengths. lia. }
  assert (Hstbl_len : 16 <= byteLength stbl).
  { unfold stbl. rewrite Hparts. cbn [app]. box_lengths. nonneg_lengths. lia. }
  assert (Hminf : findStsdInBox minf 8 = Ok (Some (RawStsd.stsd t))).
  { unfold minf.
    change [RawStsd.mediaHeader t; RawStsd.dinf; stbl]
      with ([RawStsd.mediaHeader t; RawStsd.dinf] ++ stbl :: []).
    assert (Hfit : 8 + byteLength (concat stblParts) < 2 ^ 32).
    { rewrite <- byteLength_makeBox with (type := "stbl"). fold stbl. lia. }
    destruct (container_target "stbl" (concat stblParts) (RawStsd.stsd t)
                eq_refl Hfit eq_refl eq_refl Hstbl) as (Hg & Hm & Hc).
    fold stbl in Hg, Hm, Hc.
    apply (findStsdInBox_in_box "minf" [RawStsd.mediaHeader t; RawStsd.dinf]
                                stbl []); [|exact Hg|exact Hm| |exact Hc].
    - constructor; [apply RawStsd_steppedOver_mediaHeader|].
      constructor; [apply RawStsd_steppedOver_dinf|constructor].
    - cbn [List.concat]. change (byteLength []) with 0. lia. }
  assert (Hmdia : findStsdInBox mdia 8 = Ok (Some (RawStsd.stsd t))).
  { unfold mdia.
    change [RawStsd.mdhd t; RawStsd.hdlr t; minf]
      with ([RawStsd.mdhd t; RawStsd.hdlr t] ++ minf :: []).
    assert (Hfit : 8 + byteLength (concat [RawStsd.mediaHeader t; RawStsd.dinf;
                                           stbl]) < 2 ^ 32).
    { rewrite <- byteLength_makeBox with (type := "minf"). fold minf. lia. }
    destruct (container_target "minf" _ (RawStsd.stsd t)
                eq_refl Hfit eq_refl eq_refl Hminf) as (Hg & Hm & Hc).
    fold minf in Hg, Hm, Hc.
    apply (findStsdInBox_in_box "mdia" [RawStsd.mdhd t; RawStsd.hdlr t]
                                minf []); [|exact Hg|exact Hm| |exact Hc].
    - constructor; [apply RawStsd_steppedOver_mdhd|].
      constructor; [apply RawStsd_steppedOver_hdlr|constructor].
    - cbn [List.concat]. change (byteLength []) with 0. lia. }
  change [RawStsd.tkhd t; mdia] with ([RawStsd.tkhd t] ++ mdia :: []).
  assert (Hfit : 8 + byteLength (concat [RawStsd.mdhd t; RawStsd.hdlr t; minf])
                 < 2 ^ 32).
  { rewrite <- byteLength_makeBox with (type := "mdia"). fold mdia. lia. }
  destruct (container_target "mdia" _ (RawStsd.stsd t)
              eq_refl Hfit eq_refl eq_refl Hmdia) as (Hg & Hm & Hc).
  fold mdia in Hg, Hm, Hc.
  apply (findStsdInBox_in_box "trak" [RawStsd.tkhd t] mdia []);
    [|exact Hg|exact Hm| |exact Hc].
  - constructor; [apply RawStsd_steppedOver_tkhd|constructor].
  - cbn [List.concat]. change (byteLength []) with 0. lia.
Qed.

Lemma extractStsdFromMoov_wellformed (data stsd : buffer) :
  extractStsdFromMoov data = Ok (Some stsd) ->
  typeOf stsd = "stsd"
  /\ getUint32 stsd 0 = Ok (byteLength stsd)
  /\ 8 <= byteLength stsd.
Proof.
  intros Hfound.
  pose proof (extractStsdFromMoov_total data) as Htotal.
  apply extractStsdFromMoov_loop_result in Htotal; [|lia].
  rewrite Hfound in Htotal.
  destruct Htotal as [|(found & at_ & [= <-] & ? & ? & ? & ? & ? & ?)];
    [discriminate|auto].
Qed.

(** The scan for the movie box steps over a first box and searches the
    second one when that is the [moov]. *)
Lemma extractStsdFromMoov_second_box (first moov rest : buffer) :
  getUint32 first 0 = Ok (byteLength first) -> 8 <= byteLength first ->
  String.eqb (typeOf first) "moov" = false ->
  getUint32 moov 0 = Ok (byteLength moov) -> 8 <= byteLength moov ->
  typeOf moov = "moov" ->
  8 < byteLength moov + byteLength rest ->
  extractStsdFromMoov (first ++ moov ++ rest) = findStsdInBox moov 8.
Proof.
  intros Hfget Hfmin Hfty Hmget Hmmin Hmty Hroom.
  pose proof (byteLength_nonneg rest).
  destruct (stsd_search_reads [] first (moov ++ rest) Hfget Hfmin)
    as (_ & Hin1 & Hget1 & Hty1 & Hok1 & _);
    [rewrite byteLength_app; lia|].
  destruct (stsd_search_reads first moov rest Hmget Hmmin Hroom)
    as (_ & Hin2 & Hget2 & Hty2 & Hok2 & Hcut2).
  cbn [app] in *. change (byteLength []) with 0 in *.
  unfold extractStsdFromMoov, scan_fuel.
  assert (Hfuel : exists n, length (first ++ moov ++ rest) = S n).
  { rewrite !length_app. unfold byteLength in Hfmin.
    destruct (length first); [lia|eauto]. }
  destruct Hfuel as [n ->].
  cbn [extractStsdFromMoov_loop].
  rewrite Hin1, Hget1, Hok1, Hty1, Hfty.
  change (0 + byteLength first) with (byteLength first).
  rewrite Hin2, Hget2, Hok2, Hty2, Hmty, Hcut2.
  reflexivity.
Qed.

(** X15. The sample description survives the rebuild.  When the
    first track carries the [stsd] box that [extractStsdFromMoov] took
    from a source stream, the same extraction applied to the file that
    [buildMP4WithRawStsd] builds (shorter than 2^32 bytes) returns that
    box again, byte for byte. *)
Theorem stsd_survives_build :
  forall (source raw : buffer) (t : RawStsd.track)
         (rest : list RawStsd.track),
    extractStsdFromMoov source = Ok (Some raw) ->
    RawStsd.rawStsd t = Some raw ->
    byteLength (RawStsd.buildMP4WithRawStsd (t :: rest)) < 2 ^ 32 ->
    extractStsdFromMoov (RawStsd.buildMP4WithRawStsd (t :: rest))
    = Ok (Some raw).
Proof.
  intros source raw t rest Hsource Hraw Hsize.
  apply extractStsdFromMoov_wellformed in Hsource as (Hty & Hget & Hmin).
  assert (Hstsd : RawStsd.stsd t = raw) by (unfold RawStsd.stsd; now rewrite Hraw).
  rewrite <- Hstsd in *. clear Hstsd Hraw raw.
  unfold RawStsd.buildMP4WithRawStsd in *.
  set (start := RawStsd.mdatStart (t :: rest)) in *.
  cbn [RawStsd.finalTraks] in *.
  set (trak := RawStsd.buildTrak t start) in *.
  set (traks := RawStsd.finalTraks rest _) in *.
  set (moov := makeBox "moov" (concat (RawStsd.mvhd (t :: rest) :: trak :: traks)))
    in *.
  set (mdat := makeBox "mdat" _) in *.
  rewrite concat_flat in *. cbn [List.concat] in *.
  assert (Hsizes : byteLength trak <= byteLength moov
                   /\ byteLength moov < 2 ^ 32).
  { revert Hsize. unfold moov. box_lengths. nonneg_lengths. lia. }
  destruct Hsizes as [Htrak Hmoov].
  assert (Hfound : findStsdInBox trak 8 = Ok (Some (RawStsd.stsd t))).
  { apply RawStsd_findStsd_in_trak; [fold trak; lia|assumption..]. }
  assert (Hfit : 8 + byteLength (concat [RawStsd.tkhd t;
                   makeBox "mdia" (concat [RawStsd.mdhd t; RawStsd.hdlr t;
                     makeBox "minf" (concat [RawStsd.mediaHeader t;
                       RawStsd.dinf;
                       makeBox "stbl" (concat
                         (RawStsd.pushIf
                            (RawStsd.pushIf
                               [RawStsd.stsd t; RawStsd.stts t; RawStsd.stsc t;
                                RawStsd.stsz t; RawStsd.stco start]
                               (RawStsd.stss t)) (RawStsd.ctts t)))])])])
                 < 2 ^ 32).
  { rewrite <- byteLength_makeBox with (type := "trak").
    change (makeBox "trak" _) with trak. lia. }
  destruct (container_target "trak" _ (RawStsd.stsd t)
              eq_refl Hfit eq_refl eq_refl Hfound) as (Hg & Hm & Hc).
  change (makeBox "trak" _) with trak in Hg, Hm, Hc.
  assert (Hinmoov : findStsdInBox moov 8 = Ok (Some (RawStsd.stsd t))).
  { unfold moov.
    apply (findStsdInBox_in_box "moov" [RawStsd.mvhd (t :: rest)] trak traks);
      [|exact Hg|exact Hm| |exact Hc].
    - constructor; [apply RawStsd_steppedOver_mvhd|constructor].
    - nonneg_lengths.
      assert (16 <= byteLength trak); [|lia].
      unfold trak, RawStsd.buildTrak. box_lengths.
      pose proof (RawStsd_tkhd_reads t) as [Htk _]. rewrite Htk.
      nonneg_lengths. lia. }
  rewrite (extractStsdFromMoov_second_box RawStsd.ftyp moov (mdat ++ [])).
  - exact Hinmoov.
  - reflexivity.
  - rewrite RawStsd_byteLength_ftyp. lia.
  - reflexivity.
  - unfold moov.
    apply isBox_makeBox. rewrite <- byteLength_makeBox with (type := "moov").
    fold moov. lia.
  - unfold moov. rewrite byteLength_makeBox. nonneg_lengths. lia.
  - unfold moov. now apply typeOf_makeBox.
  - nonneg_lengths. assert (Hm16 : 8 < byteLength moov); [|lia].
    unfold moov. box_lengths. nonneg_lengths. lia.
Qed.

Lemma stsd_survives_build_witness :
  let t := RawStsd.mkTrack 1 "video" 90000 9000 640 360
             (RawStsd.samples Sample.videoTrack) (Some Sample.stsd) in
  extractStsdFromMoov Sample.video = Ok (Some Sample.stsd)
  /\ byteLength (RawStsd.buildMP4WithRawStsd [t; Sample.audioTrack]) < 2 ^ 32
  /\ extractStsdFromMoov (RawStsd.buildMP4WithRawStsd [t; Sample.audioTrack])
     = Ok (Some Sample.stsd).
Proof.
  cbv zeta.
  assert (Hsource : extractStsdFromMoov Sample.video = Ok (Some Sample.stsd))
    by (vm_compute; reflexivity).
  assert (Hsize : byteLength
                    (RawStsd.buildMP4WithRawStsd
                       [RawStsd.mkTrack 1 "video" 90000 9000 640 360
                          (RawStsd.samples Sample.videoTrack)
                          (Some Sample.stsd);
                        Sample.audioTrack]) < 2 ^ 32)
    by (vm_compute; reflexivity).
  split; [exact Hsource|]. split; [exact Hsize|].
  exact (stsd_survives_build Sample.video Sample.stsd
           (RawStsd.mkTrack 1 "video" 90000 9000 640 360
              (RawStsd.samples Sample.videoTrack) (Some Sample.stsd))
           [Sample.audioTrack] Hsource eq_refl Hsize).
Defined.

(** ** The assembled file *)

Lemma writeParts_fill (parts : list buffer) :
  forall (pre : buffer) (k : Z),
    byteLength (List.concat parts) <= k ->
    writeParts (pre ++ zeros k) (byteLength pre) parts
    = Ok (pre ++ List.concat parts
          ++ zeros (k - byteLength (List.concat parts))).
Proof.
  induction parts as [|p rest IH]; intros pre k Hk; cbn [writeParts List.concat].
  - cbn. now rewrite Z.sub_0_r.
  - rewrite byteLength_cons_concat in Hk.
    pose proof (byteLength_nonneg (List.concat rest)).
    rewrite setArray_fill by lia. cbn [bind].
    rewrite app_assoc, <- byteLength_app, IH by lia.
    rewrite <- !app_assoc, byteLength_app.
    replace (k - byteLength p - byteLength (List.concat rest))
      with (k - (byteLength p + byteLength (List.concat rest))) by lia.
    reflexivity.
Qed.

Lemma writeParts_concat (parts : list buffer) :
  writeParts (zeros (totalLength parts)) 0 parts = Ok (List.concat parts).
Proof.
  rewrite totalLength_concat.
  pose proof (writeParts_fill parts [] (byteLength (List.concat parts))
                ltac:(lia)) as Hfill.
  cbn [app] in Hfill. change (byteLength []) with 0 in Hfill.
  rewrite Hfill, Z.sub_diag, zeros_0, app_nil_r. reflexivity.
Qed.

Lemma slice_blit_after (data : buffer) (p : Z) (src : buffer) (a b : Z) :
  0 <= p -> p + byteLength src <= a -> p + byteLength src <= byteLength data ->
  slice (blit data p src) a b = slice data a b.
Proof.
  intros Hp Ha Hfit. unfold slice, blit, byteLength in *. f_equal.
  rewrite app_assoc.
  rewrite drop_app_ge by (rewrite length_app, length_take; lia).
  rewrite length_app, length_take, drop_drop. f_equal. lia.
Qed.

Lemma slice_as_take (data : buffer) (a b : Z) :
  0 <= a -> a <= b ->
  slice data a b = drop (Z.to_nat a) (take (Z.to_nat b) data).
Proof.
  intros. unfold slice. rewrite take_drop_commute. f_equal. f_equal. lia.
Qed.

Lemma take_blit_before (data : buffer) (p : Z) (src : buffer) (n : nat) :
  0 <= p -> (n <= Z.to_nat p)%nat -> p <= byteLength data ->
  take n (blit data p src) = take n data.
Proof.
  intros Hp Hn Hfit. unfold blit, byteLength in *.
  rewrite take_app_le by (rewrite length_take; lia).
  rewrite take_take. f_equal. lia.
Qed.

Lemma parseBoxes_chained (view : buffer) (boxes : list box) :
  parseBoxes view = Ok boxes -> chained 0 boxes.
Proof.
  intros Hok.
  destruct (parseBoxes_loop_total view (parseBoxes_fuel view) 0 [])
    as [r Hr]; [unfold parseBoxes_fuel, byteLength; lia
               |unfold parseBoxes_fuel; lia|].
  unfold parseBoxes in Hok. rewrite Hr in Hok. subst r.
  now apply parseBoxes_loop_chained in Hr as (more & -> & Hchain).
Qed.

Lemma windowsFrom_weaken (n : Z) (frags : list fragment) :
  forall lo lo', lo <= lo' -> windowsFrom n lo' frags -> windowsFrom n lo frags.
Proof.
  induction frags as [|f rest IH]; intros lo lo' Hle Hw; [exact I|].
  cbn [windowsFrom] in *.
  destruct (frag_data f) as [[|] off len|]; [assumption| |eauto].
  destruct Hw as (? & ? & ? & ?). repeat split; try assumption. lia.
Qed.

(** A write below [lo] does not show in the fragments from [lo] on. *)
Lemma patchedContents_after_blit (st : store) (p : Z) (src : buffer)
    (frags : list fragment) :
  forall lo,
    0 <= p -> p + byteLength src <= lo ->
    p + byteLength src <= byteLength (audioData st) ->
    windowsFrom (byteLength (audioData st)) lo frags ->
    map (patchedContents
           (mkStore (videoData st) (blit (audioData st) p src))) frags
    = map (patchedContents st) frags.
Proof.
  induction frags as [|f rest IH]; intros lo Hp Hlo Hfit Hw; [reflexivity|].
  cbn [windowsFrom map] in *.
  destruct f as [ty [[|] off len|d]]; cbn [frag_data] in Hw; [contradiction| |].
  - destruct Hw as (Hoff & Hlen & Hend & Hrest).
    rewrite (IH (off + len)) by (assumption || lia).
    f_equal. unfold patchedContents. cbn [frag_type frag_data contents sourceOf
                                           audioData].
    now rewrite slice_blit_after by lia.
  - now rewrite (IH lo).
Qed.

Lemma take_eq_prefix {A} (l1 l2 : list A) (n m : nat) :
  (n <= m)%nat -> take m l1 = take m l2 -> take n l1 = take n l2.
Proof.
  intros Hle Heq. replace n with (n `min` m)%nat by lia.
  rewrite <- !take_take. now rewrite Heq.
Qed.

Lemma patchSidxFragments_contents (frags : list fragment) :
  forall (st : store) (lo : Z),
    0 <= lo ->
    windowsFrom (byteLength (audioData st)) lo frags ->
    videoData (fst (patchSidxFragments st frags)) = videoData st
    /\ length (audioData (fst (patchSidxFragments st frags)))
       = length (audioData st)
    /\ take (Z.to_nat lo) (audioData (fst (patchSidxFragments st frags)))
       = take (Z.to_nat lo) (audioData st)
    /\ map (fun f => contents (fst (patchSidxFragments st frags)) (frag_data f))
           (snd (patchSidxFragments st frags))
       = map (patchedContents st) frags.
Proof.
  induction frags as [|f rest IH]; intros st lo Hlo Hw; [now repeat split|].
  cbn [windowsFrom] in Hw. cbn [patchSidxFragments map].
  destruct f as [ty [[|] off len|d]]; cbn [frag_data frag_type] in *;
    [contradiction| |].
  - destruct Hw as (Hoff & Hlen & Hend & Hrest).
    assert (Hhead : forall audio2 : buffer,
               take (Z.to_nat (off + len)) audio2
               = take (Z.to_nat (off + len)) (audioData st) ->
               take (Z.to_nat lo) audio2 = take (Z.to_nat lo) (audioData st)
               /\ slice audio2 off (off + len)
                  = slice (audioData st) off (off + len)).
    { intros audio2 Htake. split.
      - eapply take_eq_prefix; [|exact Htake]. lia.
      - rewrite !slice_as_take by lia. now rewrite Htake. }
    destruct (String.eqb ty "sidx") eqn:Hty.
    + cbn [contents sourceOf writeBack].
      set (d := updateTrackIdInSidx (slice (audioData st) off (off + len)) 2).
      assert (Hd : byteLength d = len).
      { unfold d, byteLength. rewrite updateTrackIdInSidx_length.
        fold (byteLength (slice (audioData st) off (off + len))).
        rewrite byteLength_slice; lia. }
      set (st1 := mkStore (videoData st) (blit (audioData st) off d)).
      assert (Hlen1 : byteLength (audioData st1) = byteLength (audioData st)).
      { unfold st1. cbn [audioData]. apply byteLength_blit; lia. }
      specialize (IH st1 (off + len) ltac:(lia)).
      rewrite Hlen1 in IH. specialize (IH Hrest).
      destruct (patchSidxFragments st1 rest) as [st2 rest'] eqn:Hpatch.
      cbn [fst snd map frag_data] in *.
      destruct IH as (IHv & IHl & IHt & IHm).
      assert (Htake1 : take (Z.to_nat (off + len)) (audioData st2)
                       = take (Z.to_nat (off + len)) (audioData st1))
        by exact IHt.
      split; [exact IHv|]. split.
      { rewrite IHl. unfold st1. cbn [audioData]. apply length_blit; lia. }
      split.
      { transitivity (take (Z.to_nat lo) (audioData st1)).
        - eapply take_eq_prefix; [|exact Htake1]. lia.
        - unfold st1. cbn [audioData]. apply take_blit_before; lia. }
      f_equal.
      * cbn [contents sourceOf]. unfold patchedContents.
        cbn [frag_type frag_data contents sourceOf]. rewrite Hty. fold d.
        rewrite !slice_as_take by lia. rewrite Htake1.
        rewrite <- slice_as_take by lia.
        unfold st1. cbn [audioData]. rewrite <- Hd. apply slice_blit; lia.
      * rewrite IHm. unfold st1.
        apply (patchedContents_after_blit st off d rest (off + len));
          [lia|lia|lia|assumption].
    + specialize (IH st (off + len) ltac:(lia) Hrest).
      destruct (patchSidxFragments st rest) as [st2 rest'] eqn:Hpatch.
      cbn [fst snd map frag_data] in *.
      destruct IH as (IHv & IHl & IHt & IHm).
      destruct (Hhead _ IHt) as [Htake Hslice].
      repeat split; try assumption.
      f_equal; [|exact IHm].
      cbn [contents sourceOf]. unfold patchedContents.
      cbn [frag_type frag_data contents sourceOf]. now rewrite Hty.
  - destruct (String.eqb ty "sidx") eqn:Hty.
    + cbn [contents writeBack].
      specialize (IH st lo Hlo Hw).
      destruct (patchSidxFragments st rest) as [st2 rest'] eqn:Hpatch.
      cbn [fst snd map frag_data] in *.
      destruct IH as (IHv & IHl & IHt & IHm).
      repeat split; try assumption.
      f_equal; [|exact IHm].
      unfold patchedContents. cbn [frag_type frag_data contents].
      now rewrite Hty.
    + specialize (IH st lo Hlo Hw).
      destruct (patchSidxFragments st rest) as [st2 rest'] eqn:Hpatch.
      cbn [fst snd map frag_data] in *.
      destruct IH as (IHv & IHl & IHt & IHm).
      repeat split; try assumption.
      f_equal; [|exact IHm].
      unfold patchedContents. cbn [frag_type frag_data contents].
      now rewrite Hty.
Qed.

Lemma collectVideoFragments_contents (st st' : store) (boxes : list box) :
  forall frags,
    videoData st' = videoData st ->
    collectVideoFragments st boxes = Ok frags ->
    map (fun f => contents st' (frag_data f)) frags
    = map (boxBytes (videoData st)) (List.filter isFragmentBox boxes).
Proof.
  intros frags Hvideo. revert frags.
  induction boxes as [|b rest IH]; intros frags Hfrags;
    cbn [collectVideoFragments List.filter] in *.
  - now injection Hfrags as <-.
  - unfold isFragmentBox at 1.
    destruct (String.eqb (box_type b) "styp" || String.eqb (box_type b) "sidx"
              || String.eqb (box_type b) "moof"
              || String.eqb (box_type b) "mdat"); [|now apply IH].
    destruct (newWindow st VideoData _ _) as [a|] eqn:Hw; [|discriminate].
    cbn [bind] in Hfrags.
    destruct (collectVideoFragments st rest) as [frags'|]; [|discriminate].
    injection Hfrags as <-. cbn [map frag_data]. rewrite (IH _ eq_refl).
    apply newWindow_Ok in Hw as (-> & _).
    cbn [contents sourceOf]. now rewrite Hvideo.
Qed.

Lemma collectAudioFragments_pieces (st : store) (boxes : list box) :
  forall (lo : Z) frags,
    chained lo boxes ->
    collectAudioFragments st boxes = Ok frags ->
    windowsFrom (byteLength (audioData st)) lo frags
    /\ map (patchedContents st) frags
       = map (audioPiece (audioData st)) (List.filter isFragmentBox boxes).
Proof.
  induction boxes as [|b rest IH]; intros lo frags Hchain Hfrags;
    cbn [collectAudioFragments List.filter chained] in *.
  - injection Hfrags as <-. now split.
  - destruct Hchain as (Hoff & Hsize & Hchain).
    unfold isFragmentBox at 1.
    destruct (String.eqb (box_type b) "styp" || String.eqb (box_type b) "sidx")
      eqn:Hfirst.
    { cbn [orb].
      destruct (newWindow st AudioData _ _) as [a|] eqn:Hw; [|discriminate].
      cbn [bind] in Hfrags.
      destruct (collectAudioFragments st rest) as [frags'|] eqn:Hrest;
        [|discriminate].
      injection Hfrags as <-.
      apply newWindow_Ok in Hw as (-> & H0 & Hlen & Hend).
      cbn [sourceOf] in Hend.
      destruct (IH _ _ Hchain eq_refl) as [Hw' Hmap].
      split.
      - cbn [windowsFrom frag_data]. rewrite Hoff in *.
        repeat split; try lia. exact Hw'.
      - cbn [map]. rewrite Hmap. f_equal.
        unfold patchedContents, audioPiece.
        cbn [frag_type frag_data contents sourceOf]. fold (boxBytes (audioData st) b).
        destruct (String.eqb (box_type b) "sidx"); [reflexivity|].
        cbn [orb] in Hfirst. rewrite orb_false_r in Hfirst.
        apply String.eqb_eq in Hfirst. now rewrite Hfirst. }
    apply orb_false_elim in Hfirst as [Hstyp Hsidx].
    cbn [orb].
    destruct (String.eqb (box_type b) "moof") eqn:Hmoof.
    { cbn [orb].
      destruct (updateTrackIdInMoof _ 2) as [moofData|] eqn:Hpatch;
        [|discriminate].
      cbn [bind] in Hfrags.
      destruct (collectAudioFragments st rest) as [frags'|] eqn:Hrest;
        [|discriminate].
      injection Hfrags as <-.
      destruct (IH _ _ Hchain eq_refl) as [Hw' Hmap].
      split.
      - cbn [windowsFrom frag_data].
        eapply windowsFrom_weaken; [|exact Hw']. lia.
      - cbn [map]. rewrite Hmap. f_equal.
        unfold patchedContents, audioPiece.
        cbn [frag_type frag_data contents].
        change (String.eqb "moof" "sidx") with false.
        rewrite Hsidx, Hmoof. unfold boxBytes. now rewrite Hpatch. }
    cbn [orb].
    destruct (String.eqb (box_type b) "mdat") eqn:Hmdat.
    { destruct (newWindow st AudioData _ _) as [a|] eqn:Hw; [|discriminate].
      cbn [bind] in Hfrags.
      destruct (collectAudioFragments st rest) as [frags'|] eqn:Hrest;
        [|discriminate].
      injection Hfrags as <-.
      apply newWindow_Ok in Hw as (-> & H0 & Hlen & Hend).
      cbn [sourceOf] in Hend.
      destruct (IH _ _ Hchain eq_refl) as [Hw' Hmap].
      split.
      - cbn [windowsFrom frag_data]. rewrite Hoff in *.
        repeat split; try lia. exact Hw'.
      - cbn [map]. rewrite Hmap. f_equal.
        unfold patchedContents, audioPiece.
        cbn [frag_type frag_data contents sourceOf].
        now rewrite Hsidx, Hmoof. }
    destruct (IH _ _ Hchain Hfrags) as [Hw' Hmap].
    split; [|exact Hmap].
    eapply windowsFrom_weaken; [|exact Hw']. lia.
Qed.

(** X16. What [binaryMuxFragmentedMP4] returns.  The output is, in this
    order and with nothing in between: the first [ftyp] box of the video
    stream; the merged movie box, made from the first [moov] of the
    video stream and the first [trak] of the first [moov] of the audio
    stream; every [styp], [sidx], [moof] and [mdat] box of the video
    stream, byte for byte and in order; then every such box of the audio
    stream in order, the [sidx] and [moof] ones with their reference set
    to track 2. *)
Theorem binaryMux_output :
  forall (st : store) (output : buffer),
    snd (binaryMuxFragmentedMP4 st) = Ok output ->
    exists videoBoxes audioBoxes videoFtyp videoMoov audioMoov
           audioTrakBox audioTrexBox mergedMoov,
      parseBoxes (videoData st) = Ok videoBoxes
      /\ parseBoxes (audioData st) = Ok audioBoxes
      /\ findBox videoBoxes "ftyp" = Some videoFtyp
      /\ findBox videoBoxes "moov" = Some videoMoov
      /\ findBox audioBoxes "moov" = Some audioMoov
      /\ findSubBox (boxBytes (audioData st) audioMoov) "trak"
         = Ok (Some audioTrakBox)
      /\ createMergedMoov (boxBytes (videoData st) videoMoov)
                          audioTrakBox audioTrexBox = Ok mergedMoov
      /\ output
         = boxBytes (videoData st) videoFtyp ++ mergedMoov
           ++ List.concat (map (boxBytes (videoData st))
                               (List.filter isFragmentBox videoBoxes))
           ++ List.concat (map (audioPiece (audioData st))
                               (List.filter isFragmentBox audioBoxes)).
Proof.
  intros st output Hout.
  destruct (binaryMux_cases st)
    as [[e He]|(vb & ab & vf & vm & am & trak & trex & merged & vfs & afs
                & Hvb & Hab & Hvf & Hvm & Ham & Htrak & _ & Hmerged & Hvfs
                & Hafs & Hrun)];
    [rewrite He in Hout; discriminate|].
  exists vb, ab, vf, vm, am, trak, trex, merged.
  repeat split; try assumption.
  rewrite Hrun in Hout. cbn [snd] in Hout. cbv zeta in Hout.
  destruct (collectAudioFragments_pieces st ab 0 afs
              (parseBoxes_chained _ _ Hab) Hafs) as [Hwin Hpieces].
  destruct (patchSidxFragments_contents afs st 0 ltac:(lia) Hwin)
    as (Hvideo & _ & _ & Hcontents).
  destruct (newWindow _ VideoData _ _) as [ftypData|] eqn:Hw; [|discriminate].
  cbn [bind] in Hout.
  rewrite writeParts_concat in Hout. injection Hout as <-.
  apply newWindow_Ok in Hw as (-> & _).
  cbn [List.concat contents sourceOf]. rewrite Hvideo.
  fold (boxBytes (videoData st) vf).
  rewrite concat_app.
  rewrite (collectVideoFragments_contents st _ vb vfs Hvideo Hvfs).
  now rewrite Hcontents, Hpieces.
Qed.

Lemma binaryMux_output_witness :
  snd (binaryMuxFragmentedMP4 Sample.inputs) = Ok Sample.fragmented
  /\ exists videoBoxes audioBoxes videoFtyp videoMoov audioMoov
            audioTrakBox audioTrexBox mergedMoov,
       parseBoxes Sample.video = Ok videoBoxes
       /\ parseBoxes Sample.audio = Ok audioBoxes
       /\ findBox videoBoxes "ftyp" = Some videoFtyp
       /\ findBox videoBoxes "moov" = Some videoMoov
       /\ findBox audioBoxes "moov" = Some audioMoov
       /\ findSubBox (boxBytes Sample.audio audioMoov) "trak"
          = Ok (Some audioTrakBox)
       /\ createMergedMoov (boxBytes Sample.video videoMoov)
                           audioTrakBox audioTrexBox = Ok mergedMoov
       /\ Sample.fragmented
          = boxBytes Sample.video videoFtyp ++ mergedMoov
            ++ List.concat (map (boxBytes Sample.video)
                                (List.filter isFragmentBox videoBoxes))
            ++ List.concat (map (audioPiece Sample.audio)
                                (List.filter isFragmentBox audioBoxes)).
Proof.
  assert (Hrun : snd (binaryMuxFragmentedMP4 Sample.inputs)
                 = Ok Sample.fragmented) by (vm_compute; reflexivity).
  split; [exact Hrun|].
  exact (binaryMux_output Sample.inputs Sample.fragmented Hrun).
Defined.

(** X17. [concatenateBuffers] never throws: its result is the buffers
    one after the other, so each buffer is found at the offset given by
    the total length of the buffers before it. *)
Theorem concatenateBuffers_joins :
  forall buffers : list buffer,
    concatenateBuffers buffers = Ok (List.concat buffers)
    /\ forall (i : nat) (chunk : buffer),
         buffers !! i = Some chunk ->
         let offset := byteLength (List.concat (take i buffers)) in
         slice (List.concat buffers) offset (offset + byteLength chunk)
         = chunk.
Proof.
  intros buffers. split.
  - unfold concatenateBuffers. cbv zeta. apply writeParts_concat.
  - intros i chunk Hi.
    apply (slice_chunk [] buffers i chunk Hi).
Qed.

(** ** Outcomes of the sample collectors *)

(** Once the promise of the collector is settled, no callback and no
    timer changes it. *)
Lemma Defrag_promise_stable (videoStsd audioStsd : option buffer)
    (events : list demuxEvent) :
  forall (s : Defrag.state) r,
    Defrag.promise s = Some r ->
    Defrag.promise (fold_left (Defrag.step videoStsd audioStsd) events s)
    = Some r.
Proof.
  induction events as [|ev events IH]; intros s r Hs; [exact Hs|].
  cbn [fold_left]. apply IH.
  destruct ev as [infos|trackId batch| |]; cbn [Defrag.step].
  - exact Hs.
  - unfold Defrag.onSamples.
    destruct (Defrag.resolved s); [exact Hs|].
    destruct (Defrag.trackSamples s !! trackId) as [l|];
      [|cbn [Defrag.promise]; now rewrite Hs].
    destruct (Defrag.fileInfo s) as [infos|]; [|exact Hs].
    destruct (Defrag.allDone infos _); [|exact Hs].
    cbn [Defrag.promise]. now rewrite Hs.
  - unfold Defrag.onError.
    destruct (Defrag.resolved s); [exact Hs|].
    cbn [Defrag.promise]. now rewrite Hs.
  - unfold Defrag.onTimeout.
    destruct (Defrag.resolved s); [exact Hs|].
    cbn [Defrag.promise]. now rewrite Hs.
Qed.

Lemma Defrag_collect_after (videoStsd audioStsd : option buffer)
    (events later : list demuxEvent) (ev : demuxEvent) r :
  Defrag.promise
    (Defrag.step videoStsd audioStsd
       (fold_left (Defrag.step videoStsd audioStsd) events Defrag.init) ev)
  = Some r ->
  Defrag.promise (Defrag.collect videoStsd audioStsd (events ++ ev :: later))
  = Some r.
Proof.
  intros Hstep. unfold Defrag.collect.
  rewrite <- app_assoc, fold_left_app. cbn [app fold_left].
  now apply Defrag_promise_stable.
Qed.

(** X18.  [defragmentWithRawStsd] completes on the batch that fills the
    last track: when the promise is still open, the tracks are known,
    [trackId] has an accumulator and with [batch] added every announced
    track holds at least [nb_samples] samples, the promise resolves with
    the file built from the samples collected up to and including this
    batch, and neither a later callback nor the timer changes that. *)
Theorem Defrag_completes :
  forall (videoStsd audioStsd : option buffer) (infos : list trackInfo)
         (events later : list demuxEvent) (trackId : Z)
         (samples batch : list sample),
    let s := fold_left (Defrag.step videoStsd audioStsd) events Defrag.init in
    let collected := <[trackId := samples ++ batch]> (Defrag.trackSamples s) in
    Defrag.promise s = None ->
    Defrag.resolved s = false ->
    Defrag.fileInfo s = Some infos ->
    Defrag.trackSamples s !! trackId = Some samples ->
    Defrag.allDone infos collected = true ->
    Defrag.promise
      (Defrag.collect videoStsd audioStsd
         (events ++ OnSamples trackId batch :: later))
    = Some (Ok (Defrag.buildOutput infos collected videoStsd audioStsd)).
Proof.
  intros videoStsd audioStsd infos events later trackId samples batch s
         collected Hpromise Hresolved Hinfo Hsamples Hdone.
  apply Defrag_collect_after. fold s.
  cbn [Defrag.step]. unfold Defrag.onSamples.
  rewrite Hresolved, Hsamples, Hinfo. fold collected. rewrite Hdone.
  cbn [Defrag.promise]. now rewrite Hpromise.
Qed.

Lemma Defrag_completes_witness :
  let s := fold_left (Defrag.step (Some Sample.stsd) (Some Sample.stsd))
                     Sample.partialRun Defrag.init in
  let last := drop 2 (RawStsd.samples Sample.videoTrack) in
  Defrag.promise s = None
  /\ Defrag.resolved s = false
  /\ Defrag.promise
       (Defrag.collect (Some Sample.stsd) (Some Sample.stsd)
          (Sample.partialRun ++ OnSamples 5 last :: [OnError]))
     = Some (Ok (Defrag.buildOutput
                   [Sample.videoInfo; Sample.audioInfo]
                   (<[5 := take 2 (RawStsd.samples Sample.videoTrack) ++ last]>
                      (Defrag.trackSamples s))
                   (Some Sample.stsd) (Some Sample.stsd))).
Proof.
  cbv zeta.
  split; [vm_compute; reflexivity|]. split; [vm_compute; reflexivity|].
  apply (Defrag_completes (Some Sample.stsd) (Some Sample.stsd)
           [Sample.videoInfo; Sample.audioInfo] Sample.partialRun [OnError] 5
           (take 2 (RawStsd.samples Sample.videoTrack))
           (drop 2 (RawStsd.samples Sample.videoTrack)));
    vm_compute; reflexivity.
Defined.

(** X19.  In [defragmentWithRawStsd] a batch of samples for a track
    that [onReady] has not announced, arriving while the promise is
    open, rejects the promise with a [TypeError] ([push] on
    [undefined]); later batches, errors and the timer do not change
    the outcome. *)
Theorem Defrag_unannounced_track_rejects :
  forall (videoStsd audioStsd : option buffer)
         (events later : list demuxEvent) (trackId : Z) (batch : list sample),
    let s := fold_left (Defrag.step videoStsd audioStsd) events Defrag.init in
    Defrag.promise s = None ->
    Defrag.resolved s = false ->
    Defrag.trackSamples s !! trackId = None ->
    Defrag.promise
      (Defrag.collect videoStsd audioStsd
         (events ++ OnSamples trackId batch :: later))
    = Some (Throw TypeError).
Proof.
  intros videoStsd audioStsd events later trackId batch s
         Hpromise Hresolved Hsamples.
  apply Defrag_collect_after. fold s.
  cbn [Defrag.step]. unfold Defrag.onSamples.
  rewrite Hresolved, Hsamples. cbn [Defrag.promise]. now rewrite Hpromise.
Qed.

Lemma Defrag_unannounced_track_rejects_witness :
  Defrag.promise
    (Defrag.collect (Some Sample.stsd) None
       ([OnReady [Sample.videoInfo]]
        ++ OnSamples 2 (RawStsd.samples Sample.audioTrack)
        :: [OnSamples 5 (RawStsd.samples Sample.videoTrack)]))
  = Some (Throw TypeError).
Proof.
  apply (Defrag_unannounced_track_rejects (Some Sample.stsd) None
           [OnReady [Sample.videoInfo]]
           [OnSamples 5 (RawStsd.samples Sample.videoTrack)] 2
           (RawStsd.samples Sample.audioTrack));
    vm_compute; reflexivity.
Defined.

Section DefragMP4Outcome.

Variables (fragmentedData : buffer)
          (stsdEntryOf : Z -> option (result buffer)).

(** The promise is settled exactly when [resolved] is set, and then
    with the input or with a built file of more than 10000 bytes. *)
Let settledWell (s : DefragMP4.state) : Prop :=
  match DefragMP4.promise s with
  | None => DefragMP4.resolved s = false
  | Some r =>
    DefragMP4.resolved s = true
    /\ exists output,
         r = Ok output
         /\ (output = fragmentedData \/ 10000 < byteLength output)
  end.

Lemma settledWell_unresolved (s : DefragMP4.state) :
  settledWell s -> DefragMP4.resolved s = false -> DefragMP4.promise s = None.
Proof.
  unfold settledWell. intros Hs Hres.
  destruct (DefragMP4.promise s); [|reflexivity].
  destruct Hs as [Hs _]. congruence.
Qed.

Lemma settledWell_now (fileInfo : option (list trackInfo))
    (trackSamples : gmap Z (list sample)) (output : buffer) :
  output = fragmentedData \/ 10000 < byteLength output ->
  settledWell (DefragMP4.mkState fileInfo trackSamples true
                                 (settle None (Ok output))).
Proof.
  intros Hout. unfold settledWell. cbn. eauto.
Qed.

Lemma DefragMP4_step_settledWell (s : DefragMP4.state) (ev : demuxEvent) :
  settledWell s ->
  settledWell (DefragMP4.step fragmentedData stsdEntryOf s ev).
Proof.
  intros Hs.
  destruct ev as [infos|trackId batch| |]; cbn [DefragMP4.step].
  - exact Hs.
  - unfold DefragMP4.onSamples.
    case_eq (DefragMP4.resolved s); intros Hres; [exact Hs|].
    pose proof (settledWell_unresolved s Hs Hres) as Hp.
    destruct (DefragMP4.fileInfo s) as [infos|].
    + destruct (Defrag.allDone infos _).
      * rewrite Hp. apply settledWell_now.
        unfold DefragMP4.buildManualMP4. cbv zeta.
        match goal with
        | |- context [10000 <? ?n] => destruct (Z.ltb_spec 10000 n)
        end; auto.
      * unfold settledWell. cbn. rewrite ?Hp, ?Hres. reflexivity.
    + unfold settledWell. cbn. rewrite ?Hp, ?Hres. reflexivity.
  - unfold DefragMP4.onError.
    case_eq (DefragMP4.resolved s); intros Hres; [exact Hs|].
    rewrite (settledWell_unresolved s Hs Hres).
    apply settledWell_now. now left.
  - unfold DefragMP4.onTimeout.
    case_eq (DefragMP4.resolved s); intros Hres; [exact Hs|].
    rewrite (settledWell_unresolved s Hs Hres).
    apply settledWell_now. now left.
Qed.

Lemma DefragMP4_run_settledWell (events : list demuxEvent) :
  forall s,
    settledWell s ->
    settledWell (fold_left (DefragMP4.step fragmentedData stsdEntryOf)
                           events s).
Proof.
  induction events as [|ev events IH]; intros s Hs; [exact Hs|].
  cbn [fold_left]. apply IH. now apply DefragMP4_step_settledWell.
Qed.

(** X20.  [defragmentMP4] never rejects.  Whatever callbacks the
    demuxer makes, the promise resolves either with the input buffer
    itself or with a built file of more than 10000 bytes; and when no
    callback has settled it, the timer resolves it with the input. *)
Theorem defragmentMP4_outcome :
  forall demux : demuxer,
    exists output : buffer,
      defragmentMP4 demux stsdEntryOf fragmentedData = Ok output
      /\ (output = fragmentedData \/ 10000 < byteLength output)
      /\ (DefragMP4.resolved
            (fold_left (DefragMP4.step fragmentedData stsdEntryOf)
                       (demux fragmentedData) DefragMP4.init) = true
          \/ output = fragmentedData).
Proof.
  intros demux. unfold defragmentMP4, DefragMP4.collect.
  rewrite fold_left_app. cbn [fold_left].
  set (s := fold_left _ (demux fragmentedData) DefragMP4.init).
  assert (Hs : settledWell s).
  { apply DefragMP4_run_settledWell. unfold settledWell. reflexivity. }
  cbn [DefragMP4.step]. unfold DefragMP4.onTimeout.
  case_eq (DefragMP4.resolved s); intros Hres.
  - unfold settledWell in Hs.
    destruct (DefragMP4.promise s) as [r|]; [|congruence].
    destruct Hs as (_ & output & -> & Hout).
    exists output. auto.
  - rewrite (settledWell_unresolved s Hs Hres). cbn.
    exists fragmentedData. auto.
Qed.

End DefragMP4Outcome.

(** ** The exception of the top-level scan *)

(** The only exception of the top-level scan is the one of
    [getBigUint64], on a 64-bit size that the buffer cuts short. *)
Lemma parseBoxes_loop_throw (view : buffer) (fuel : nat) :
  forall offset boxes e,
    0 <= offset ->
    parseBoxes_loop fuel view offset boxes = Some (Throw e) ->
    e = RangeError
    /\ exists at_,
         offset <= at_
         /\ at_ + 8 <= byteLength view
         /\ byteLength view < at_ + 16
         /\ getUint32 view at_ = Ok 1.
Proof.
  induction fuel as [|fuel IH]; intros offset boxes e H0 Hrun;
    [discriminate|].
  cbn [parseBoxes_loop] in Hrun.
  destruct (offset <? byteLength view); [|discriminate].
  destruct (Z_lt_le_dec (byteLength view) (offset + 8)) as [Hshort|Hlen].
  { rewrite readBoxHeader_short in Hrun by assumption. discriminate. }
  rewrite readBoxHeader_in_range in Hrun by assumption.
  rewrite getUint32_in_range in * by lia.
  cbn [bind] in Hrun.
  set (size := be_value 0 (slice view offset (offset + 4))) in *.
  destruct (Z.eqb_spec size 1) as [Hone|_].
  - unfold getBigUint64 in Hrun.
    destruct (Z.leb_spec (offset + 8 + 8) (byteLength view)) as [Hfit|Hcut].
    + replace (0 <=? offset + 8) with true in Hrun by (symmetry; lia).
      cbn [andb bind] in Hrun.
      cbn [box_size] in Hrun.
      destruct (_ <? 8) eqn:Hsmall; [discriminate|].
      apply Z.ltb_ge in Hsmall.
      apply IH in Hrun as (-> & at_ & Hat & Hrest); [|lia].
      split; [reflexivity|]. exists at_. split; [lia|exact Hrest].
    + replace (0 <=? offset + 8) with true in Hrun by (symmetry; lia).
      cbn [andb bind] in Hrun. injection Hrun as <-.
      split; [reflexivity|]. exists offset.
      rewrite getUint32_in_range by lia. fold size. rewrite Hone.
      repeat split; lia.
  - destruct (size =? 0).
    + cbn [box_size] in Hrun.
      destruct (_ <? 8) eqn:Hsmall; [discriminate|].
      apply Z.ltb_ge in Hsmall.
      apply IH in Hrun as (-> & at_ & Hat & Hrest); [|lia].
      split; [reflexivity|]. exists at_. split; [lia|exact Hrest].
    + cbn [box_size] in Hrun.
      destruct (_ <? 8) eqn:Hsmall; [discriminate|].
      apply Z.ltb_ge in Hsmall.
      apply IH in Hrun as (-> & at_ & Hat & Hrest); [|lia].
      split; [reflexivity|]. exists at_. split; [lia|exact Hrest].
Qed.

(** X21.  [parseBoxes] throws nothing but a [RangeError], and only in
    one situation: a box header whose 32-bit size reads 1, announcing a
    64-bit size, starts at least 8 but fewer than 16 bytes before the
    end of the buffer, so that [getBigUint64] reads past the end. *)
Theorem parseBoxes_throws_on_cut_long_size :
  forall (view : buffer) (e : error),
    parseBoxes view = Throw e ->
    e = RangeError
    /\ exists offset : Z,
         0 <= offset
         /\ offset + 8 <= byteLength view
         /\ byteLength view < offset + 16
         /\ getUint32 view offset = Ok 1.
Proof.
  intros view e Hthrow. unfold parseBoxes in Hthrow.
  destruct (parseBoxes_loop (parseBoxes_fuel view) view 0 [])
    as [r|] eqn:Hrun; [|discriminate].
  subst r.
  apply parseBoxes_loop_throw in Hrun; [|lia].
  exact Hrun.
Qed.

Lemma parseBoxes_throws_on_cut_long_size_witness :
  let view := bytes [0; 0; 0; 1; 0x66; 0x74; 0x79; 0x70; 0; 0; 0; 0] in
  parseBoxes view = Throw RangeError
  /\ exists offset : Z,
       0 <= offset
       /\ offset + 8 <= byteLength view
       /\ byteLength view < offset + 16
       /\ getUint32 view offset = Ok 1.
Proof.
  cbv zeta. split; [vm_compute; reflexivity|].
  apply (parseBoxes_throws_on_cut_long_size
           (bytes [0; 0; 0; 1; 0x66; 0x74; 0x79; 0x70; 0; 0; 0; 0])
           RangeError).
  vm_compute. reflexivity.
Defined.

(** ** The children of a written box *)

Lemma slice_after_app (a b c : buffer) :
  slice (a ++ b ++ c) (byteLength a) (byteLength a + byteLength b) = b.
Proof.
  unfold slice, byteLength.
  rewrite Nat2Z.id, drop_app_length.
  replace (Z.to_nat (Z.of_nat (length a) + Z.of_nat (length b)
                     - Z.of_nat (length a))) with (length b) by lia.
  apply take_app_length.
Qed.

(** Past the end of the fuel the scan needs, more fuel changes
    nothing. *)
Lemma children_loop_fuel (data : buffer) (fuel : nat) :
  forall (fuel' : nat) (offset : Z),
    byteLength data - offset < 8 * Z.of_nat fuel ->
    byteLength data - offset < 8 * Z.of_nat fuel' ->
    children_loop fuel data offset = children_loop fuel' data offset.
Proof.
  induction fuel as [|fuel IH]; intros fuel' offset Hf Hf'.
  - destruct fuel' as [|fuel']; [reflexivity|].
    cbn [children_loop].
    destruct (Z.ltb_spec offset (byteLength data - 8)); [lia|reflexivity].
  - destruct fuel' as [|fuel'].
    + cbn [children_loop].
      destruct (Z.ltb_spec offset (byteLength data - 8)); [lia|reflexivity].
    + cbn [children_loop].
      destruct (offset <? byteLength data - 8); [|reflexivity].
      destruct (getUint32 data offset) as [size|]; [|reflexivity].
      destruct (Z.ltb_spec size 8); [reflexivity|]. cbn [orb].
      destruct (offset + size >? byteLength data); [reflexivity|].
      f_equal. apply IH; lia.
Qed.

Lemma children_any_fuel (data : buffer) (fuel : nat) :
  byteLength data - 8 < 8 * Z.of_nat fuel ->
  children data = children_loop fuel data 8.
Proof.
  intros Hf. unfold children. apply children_loop_fuel; [|exact Hf].
  unfold scan_fuel, byteLength. lia.
Qed.

(** Well-formed boxes written one after the other are the children
    that the scan lists; what follows them, at most eight bytes, is not
    looked at. *)
Lemma children_loop_laidOut (boxes : list buffer) :
  forall (pre post : buffer) (fuel : nat),
    Forall (fun b => 8 <= byteLength b
                     /\ getUint32 b 0 = Ok (byteLength b)) boxes ->
    byteLength post <= 8 ->
    (forall b, last boxes = Some b -> 8 < byteLength b + byteLength post) ->
    (length boxes <= fuel)%nat ->
    children_loop fuel (pre ++ List.concat boxes ++ post) (byteLength pre)
    = laidOut (byteLength pre) boxes.
Proof.
  induction boxes as [|b rest IH]; intros pre post fuel Hwf Hpost Hlast Hfuel.
  - cbn [List.concat app laidOut].
    destruct fuel as [|fuel]; [reflexivity|]. cbn [children_loop].
    rewrite byteLength_app.
    destruct (Z.ltb_spec (byteLength pre) (byteLength pre + byteLength post - 8));
      [lia|reflexivity].
  - destruct fuel as [|fuel]; [cbn in Hfuel; lia|].
    apply Forall_cons in Hwf as [[Hmin Hsize] Hwf].
    pose proof (byteLength_nonneg pre). pose proof (byteLength_nonneg post).
    pose proof (byteLength_nonneg (List.concat rest)).
    assert (Hrest : rest = [] \/ 8 <= byteLength (List.concat rest)).
    { destruct rest as [|b' rest']; [now left|right].
      apply Forall_cons in Hwf as [[Hmin' _] _].
      rewrite byteLength_cons_concat.
      pose proof (byteLength_nonneg (List.concat rest')). lia. }
    assert (Hmore : 8 < byteLength b + byteLength (List.concat rest)
                        + byteLength post).
    { destruct Hrest as [->|Hrest]; [|lia].
      specialize (Hlast b eq_refl). cbn [List.concat].
      change (byteLength []) with 0. lia. }
    cbn [children_loop List.concat laidOut].
    rewrite <- !app_assoc.
    rewrite !byteLength_app.
    replace (byteLength pre
             <? byteLength pre
                + (byteLength b
                   + (byteLength (List.concat rest) + byteLength post)) - 8)
      with true by (symmetry; lia).
    rewrite getUint32_after, getUint32_app_l, Hsize by lia.
    replace (byteLength b <? 8) with false by (symmetry; lia).
    replace (byteLength pre + byteLength b
             >? byteLength pre
                + (byteLength b
                   + (byteLength (List.concat rest) + byteLength post)))
      with false by (symmetry; lia).
    cbn [orb].
    rewrite slice_after_app.
    f_equal.
    rewrite <- byteLength_app, (app_assoc pre b).
    apply IH; [assumption|assumption| |cbn in Hfuel; lia].
    intros b' Hb'. apply Hlast.
    destruct rest; [discriminate|exact Hb'].
Qed.

Lemma findSubBox_children (data : buffer) (targetType : string) :
  findSubBox data targetType
  = Ok (option_map sub_data
          (List.find (fun c => String.eqb (typeOf (sub_data c)) targetType)
                     (children data))).
Proof.
  pose proof (findSubBoxWithOffset_total data targetType) as Htotal.
  pose proof (findSubBoxWithOffset_children data targetType) as Hfound.
  pose proof (findSubBox_total data targetType) as Hsub.
  rewrite findSubBox_loop_sub_data, Htotal, Hfound in Hsub.
  destruct (List.find _ (children data)); now injection Hsub as <-.
Qed.

Lemma map_sub_data_laidOut (boxes : list buffer) :
  forall offset, map sub_data (laidOut offset boxes) = boxes.
Proof.
  induction boxes as [|b rest IH]; intros offset; [reflexivity|].
  cbn [laidOut map sub_data]. now rewrite IH.
Qed.

Lemma find_laidOut (wanted : buffer -> bool) (boxes : list buffer) :
  forall offset,
    option_map sub_data
      (List.find (fun c => wanted (sub_data c)) (laidOut offset boxes))
    = List.find wanted boxes.
Proof.
  induction boxes as [|b rest IH]; intros offset; [reflexivity|].
  cbn [laidOut List.find sub_data].
  destruct (wanted b); [reflexivity|apply IH].
Qed.

Lemma filter_laidOut (wanted : buffer -> bool) (boxes : list buffer) :
  forall offset,
    map sub_data
      (List.filter (fun c => wanted (sub_data c)) (laidOut offset boxes))
    = List.filter wanted boxes.
Proof.
  induction boxes as [|b rest IH]; intros offset; [reflexivity|].
  cbn [laidOut List.filter sub_data].
  destruct (wanted b); cbn [map sub_data]; now rewrite IH.
Qed.

Lemma length_boxes_le (boxes : list buffer) :
  Forall (fun b => 8 <= byteLength b
                   /\ getUint32 b 0 = Ok (byteLength b)) boxes ->
  (length boxes <= length (List.concat boxes))%nat.
Proof.
  induction 1 as [|b rest [Hmin _] _ IH]; [reflexivity|].
  cbn [List.concat length]. rewrite length_app.
  unfold byteLength in Hmin. lia.
Qed.

(** The children of a box written by [makeBox] around well-formed
    boxes. *)
Lemma children_makeBox (type : string) (boxes : list buffer) :
  Forall (fun b => 8 <= byteLength b
                   /\ getUint32 b 0 = Ok (byteLength b)) boxes ->
  (forall b, last boxes = Some b -> 8 < byteLength b) ->
  children (makeBox type (concat boxes)) = laidOut 8 boxes.
Proof.
  intros Hwf Hlast.
  destruct (makeBox_header type (concat boxes)) as (hdr & Hhdr & ->).
  rewrite concat_flat. unfold children.
  rewrite <- Hhdr, <- (app_nil_r (List.concat boxes)).
  apply children_loop_laidOut;
    [assumption|change (byteLength []) with 0; lia| |].
  - intros b Hb. specialize (Hlast b Hb). change (byteLength []) with 0. lia.
  - pose proof (length_boxes_le boxes Hwf).
    unfold scan_fuel. rewrite !length_app. lia.
Qed.

Lemma childOf_makeBox (target type : string) (boxes : list buffer) :
  Forall (fun b => 8 <= byteLength b
                   /\ getUint32 b 0 = Ok (byteLength b)) boxes ->
  (forall b, last boxes = Some b -> 8 < byteLength b) ->
  childOf target (makeBox type (concat boxes))
  = List.find (fun b => String.eqb (typeOf b) target) boxes.
Proof.
  intros Hwf Hlast. unfold childOf.
  rewrite findSubBox_children, children_makeBox by assumption.
  apply (find_laidOut (fun b => String.eqb (typeOf b) target)).
Qed.

Lemma tables_makeBox (type : string) (boxes : list buffer) :
  Forall (fun b => 8 <= byteLength b
                   /\ getUint32 b 0 = Ok (byteLength b)) boxes ->
  (forall b, last boxes = Some b -> 8 < byteLength b) ->
  map sub_data (children (makeBox type (concat boxes))) = boxes.
Proof.
  intros Hwf Hlast. rewrite children_makeBox by assumption.
  apply map_sub_data_laidOut.
Qed.

(** ** The sample tables of a built track *)

Lemma byteLength_part (b : buffer) (parts : list buffer) :
  In b parts -> byteLength b <= byteLength (List.concat parts).
Proof.
  induction parts as [|p rest IH]; intros Hin; [destruct Hin|].
  rewrite byteLength_cons_concat.
  pose proof (byteLength_nonneg p).
  pose proof (byteLength_nonneg (List.concat rest)).
  destruct Hin as [->|Hin]; [lia|]. specialize (IH Hin). lia.
Qed.

(** A box that [makeBox] wrote and that is shorter than 2^32 bytes
    reads as a box of its type. *)
Lemma isBoxOf_makeBox (type : string) (content : buffer) :
  String.length type = 4%nat ->
  byteLength (makeBox type content) < 2 ^ 32 ->
  isBoxOf type (makeBox type content).
Proof.
  intros Hty Hlen. rewrite byteLength_makeBox in Hlen.
  destruct (isBox_makeBox type content Hlen) as [Hget Hmin].
  unfold isBoxOf. now rewrite typeOf_makeBox.
Qed.

Ltac fixed_box :=
  apply isBoxOf_makeBox;
  [ reflexivity
  | rewrite byteLength_makeBox;
    match goal with
    | |- 8 + byteLength ?x < _ =>
      let n := eval vm_compute in (byteLength x) in
      change (byteLength x) with n; lia
    end ].

Lemma RawStsd_isBoxOf_tkhd (t : RawStsd.track) :
  isBoxOf "tkhd" (RawStsd.tkhd t).
Proof. unfold RawStsd.tkhd. cbv zeta. fixed_box. Qed.

Lemma RawStsd_isBoxOf_mdhd (t : RawStsd.track) :
  isBoxOf "mdhd" (RawStsd.mdhd t).
Proof. unfold RawStsd.mdhd. cbv zeta. fixed_box. Qed.

Lemma RawStsd_isBoxOf_hdlr (t : RawStsd.track) :
  isBoxOf "hdlr" (RawStsd.hdlr t).
Proof.
  unfold RawStsd.hdlr. cbv zeta.
  destruct (String.eqb (RawStsd.type t) "video"); fixed_box.
Qed.

Lemma RawStsd_isBoxOf_mediaHeader (t : RawStsd.track) :
  isBoxOf (if String.eqb (RawStsd.type t) "video" then "vmhd" else "smhd")
          (RawStsd.mediaHeader t).
Proof.
  unfold RawStsd.mediaHeader.
  destruct (String.eqb (RawStsd.type t) "video"); fixed_box.
Qed.

Lemma RawStsd_isBoxOf_dinf : isBoxOf "dinf" RawStsd.dinf.
Proof. unfold RawStsd.dinf. cbv zeta. fixed_box. Qed.

Lemma RawStsd_isBoxOf_mvhd (tracks : list RawStsd.track) :
  isBoxOf "mvhd" (RawStsd.mvhd tracks).
Proof. unfold RawStsd.mvhd. cbv zeta. fixed_box. Qed.

(** The parts of the sample table, by name. *)
Lemma RawStsd_stblParts (t : RawStsd.track) (dataOffset : Z) (b : buffer) :
  In b (RawStsd.pushIf
          (RawStsd.pushIf [RawStsd.stsd t; RawStsd.stts t; RawStsd.stsc t;
                           RawStsd.stsz t; RawStsd.stco dataOffset]
                          (RawStsd.stss t))
          (RawStsd.ctts t)) ->
  b = RawStsd.stsd t
  \/ exists type content,
       String.length type = 4%nat /\ b = makeBox type content
       /\ (type = "stts" \/ type = "stsc" \/ type = "stsz" \/ type = "stco"
           \/ type = "stss" \/ type = "ctts").
Proof.
  intros Hin.
  assert (Hcases : In b [RawStsd.stsd t; RawStsd.stts t; RawStsd.stsc t;
                         RawStsd.stsz t; RawStsd.stco dataOffset]
                   \/ RawStsd.stss t = Some b \/ RawStsd.ctts t = Some b).
  { destruct (RawStsd.stss t) as [s|], (RawStsd.ctts t) as [c|];
      cbn [RawStsd.pushIf app] in Hin; cbn [In] in *;
      intuition (subst; auto). }
  destruct Hcases as [Hfix|[Hstss|Hctts]].
  - cbn [In] in Hfix.
    destruct Hfix as [<-|[<-|[<-|[<-|[<-|[]]]]]]; [now left|right..].
    + eexists "stts", _. split; [reflexivity|]. split; [reflexivity|auto].
    + eexists "stsc", _. split; [reflexivity|]. split; [reflexivity|auto].
    + eexists "stsz", _. split; [reflexivity|]. split; [reflexivity|auto].
    + eexists "stco", _. split; [reflexivity|]. split; [reflexivity|auto 6].
  - right. unfold RawStsd.stss in Hstss.
    destruct (String.eqb (RawStsd.type t) "video"); [|discriminate].
    cbv zeta in Hstss.
    destruct (_ && _); [|discriminate]. injection Hstss as <-.
    eexists "stss", _. split; [reflexivity|]. split; [reflexivity|auto 8].
  - right. unfold RawStsd.ctts in Hctts.
    destruct (needsCtts _); [|discriminate]. cbv zeta in Hctts.
    injection Hctts as <-.
    eexists "ctts", _. split; [reflexivity|]. split; [reflexivity|auto 8].
Qed.

Lemma last_pushIf (parts : list buffer) (x : option buffer) (b : buffer) :
  last (RawStsd.pushIf parts x) = Some b ->
  x = Some b \/ (x = None /\ last parts = Some b).
Proof.
  destruct x as [c|]; cbn [RawStsd.pushIf].
  - rewrite last_snoc. intros [= <-]. now left.
  - intros H. now right.
Qed.

Lemma RawStsd_ctts_flat (t : RawStsd.track) (b : buffer) :
  RawStsd.ctts t = Some b ->
  let entries := cttsEntries (RawStsd.samples t) in
  b = makeBox "ctts" (be32 0 ++ be32 (Z.of_nat (length entries))
                      ++ pairBytes entries).
Proof.
  unfold RawStsd.ctts. destruct (needsCtts _); [|discriminate].
  cbv zeta. intros [= <-]. now rewrite table_of_pairs.
Qed.

Lemma RawStsd_stss_flat (t : RawStsd.track) (b : buffer) :
  RawStsd.stss t = Some b ->
  let sync := syncSamples (RawStsd.samples t) in
  b = makeBox "stss" (zeros 4 ++ be32 (Z.of_nat (length sync))
                      ++ wordBytes sync).
Proof.
  unfold RawStsd.stss.
  destruct (String.eqb (RawStsd.type t) "video"); [|discriminate].
  cbv zeta. destruct (_ && _); [|discriminate]. intros [= <-].
  now rewrite (table_of_words 8) by lia.
Qed.

(** Whatever comes last in the sample table is longer than a bare
    header. *)
Lemma RawStsd_stblParts_last (t : RawStsd.track) (dataOffset : Z)
    (b : buffer) :
  last (RawStsd.pushIf
          (RawStsd.pushIf [RawStsd.stsd t; RawStsd.stts t; RawStsd.stsc t;
                           RawStsd.stsz t; RawStsd.stco dataOffset]
                          (RawStsd.stss t))
          (RawStsd.ctts t)) = Some b ->
  8 < byteLength b.
Proof.
  intros Hb.
  apply last_pushIf in Hb as [Hb|[_ Hb]].
  - apply RawStsd_ctts_flat in Hb. cbv zeta in Hb. subst b.
    rewrite byteLength_makeBox, !byteLength_app.
    change (byteLength (be32 _)) with 4. nonneg_lengths. lia.
  - apply last_pushIf in Hb as [Hb|[_ Hb]].
    + apply RawStsd_stss_flat in Hb. cbv zeta in Hb. subst b.
      rewrite byteLength_makeBox, !byteLength_app.
      change (byteLength (be32 _)) with 4. nonneg_lengths. lia.
    + injection Hb as <-. rewrite RawStsd_byteLength_stco. lia.
Qed.

(** The sample table of a built track holds the boxes that
    [buildTrak] put together, in that order. *)
Lemma RawStsd_tablesOfTrak (t : RawStsd.track) (dataOffset : Z) :
  byteLength (RawStsd.buildTrak t dataOffset) < 2 ^ 32 ->
  8 <= byteLength (RawStsd.stsd t) ->
  getUint32 (RawStsd.stsd t) 0 = Ok (byteLength (RawStsd.stsd t)) ->
  tablesOfTrak (RawStsd.buildTrak t dataOffset)
  = RawStsd.pushIf
      (RawStsd.pushIf [RawStsd.stsd t; RawStsd.stts t; RawStsd.stsc t;
                       RawStsd.stsz t; RawStsd.stco dataOffset]
                      (RawStsd.stss t))
      (RawStsd.ctts t).
Proof.
  intros Hlen Hmin Hget. unfold RawStsd.buildTrak in *. cbv zeta in *.
  set (stblParts := RawStsd.pushIf (RawStsd.pushIf _ _) _) in *.
  set (stbl := makeBox "stbl" (concat stblParts)) in *.
  set (minf := makeBox "minf" (concat [RawStsd.mediaHeader t; RawStsd.dinf;
                                       stbl])) in *.
  set (mdia := makeBox "mdia" (concat [RawStsd.mdhd t; RawStsd.hdlr t; minf]))
    in *.
  assert (Hsizes : byteLength stbl <= byteLength minf
                   /\ byteLength minf <= byteLength mdia
                   /\ byteLength mdia
                      <= byteLength (makeBox "trak"
                                       (concat [RawStsd.tkhd t; mdia]))).
  { unfold mdia, minf. box_lengths. nonneg_lengths. lia. }
  destruct Hsizes as (Hs1 & Hs2 & Hs3).
  assert (Hstbl : isBoxOf "stbl" stbl)
    by (apply isBoxOf_makeBox; [reflexivity|fold stbl; lia]).
  assert (Hminf : isBoxOf "minf" minf)
    by (apply isBoxOf_makeBox; [reflexivity|fold minf; lia]).
  assert (Hmdia : isBoxOf "mdia" mdia)
    by (apply isBoxOf_makeBox; [reflexivity|fold mdia; lia]).
  destruct Hstbl as (Hstbl8 & Hstblget & Hstblty).
  destruct Hminf as (Hminf8 & Hminfget & Hminfty).
  destruct Hmdia as (Hmdia8 & Hmdiaget & Hmdiaty).
  destruct (RawStsd_isBoxOf_tkhd t) as (Htk8 & Htkget & Htkty).
  destruct (RawStsd_isBoxOf_mdhd t) as (Hmd8 & Hmdget & Hmdty).
  destruct (RawStsd_isBoxOf_hdlr t) as (Hh8 & Hhget & Hhty).
  destruct (RawStsd_isBoxOf_mediaHeader t) as (Hmh8 & Hmhget & Hmhty).
  destruct RawStsd_isBoxOf_dinf as (Hd8 & Hdget & Hdty).
  assert (Hstbl16 : 8 < byteLength stbl).
  { unfold stbl. rewrite byteLength_makeBox, byteLength_concat.
    assert (Hin : In (RawStsd.stsd t) stblParts).
    { unfold stblParts.
      destruct (RawStsd.stss t), (RawStsd.ctts t);
        cbn [RawStsd.pushIf app In]; auto. }
    apply byteLength_part in Hin. lia. }
  unfold tablesOfTrak.
  rewrite childOf_makeBox;
    [ | repeat constructor; assumption
      | intros b [= <-]; lia ].
  cbn [List.find]. rewrite Htkty, Hmdiaty. cbn [String.eqb Ascii.eqb Bool.eqb].
  fold minf. unfold mdia at 1.
  rewrite childOf_makeBox;
    [ | repeat constructor; assumption
      | intros b [= <-]; lia ].
  cbn [List.find]. rewrite Hmdty, Hhty, Hminfty.
  cbn [String.eqb Ascii.eqb Bool.eqb].
  unfold minf at 1.
  rewrite childOf_makeBox;
    [ | repeat constructor; assumption
      | intros b [= <-]; lia ].
  cbn [List.find]. rewrite Hmhty, Hdty, Hstblty.
  replace (String.eqb (if String.eqb (RawStsd.type t) "video"
                       then "vmhd" else "smhd") "stbl") with false
    by (now destruct (String.eqb (RawStsd.type t) "video")).
  cbn [String.eqb Ascii.eqb Bool.eqb].
  unfold stbl. apply tables_makeBox.
  - apply List.Forall_forall. intros b Hb.
    pose proof (byteLength_part b stblParts Hb) as Hpart.
    assert (Hsmall : byteLength b < 2 ^ 32).
    { unfold stbl in Hs1. rewrite byteLength_makeBox, byteLength_concat in Hs1.
      lia. }
    apply RawStsd_stblParts in Hb as [->|(type & content & Hty & -> & _)];
      [now split|].
    destruct (isBoxOf_makeBox type content Hty Hsmall) as (H8 & Hg & _).
    now split.
  - intros b Hb. now apply RawStsd_stblParts_last in Hb.
Qed.

(** ** The tracks of a built file *)

Lemma last_In (l : list buffer) (b : buffer) : last l = Some b -> In b l.
Proof.
  induction l as [|a [|a' rest] IH]; [discriminate| |].
  - intros [= <-]. now left.
  - intros H. right. now apply IH.
Qed.

(** A file made of an [ftyp], a [moov] holding a header box and track
    boxes, and an [mdat]: the scan of the [moov] lists the track
    boxes. *)
Lemma traksOfFile_built (ftypContent mdatContent head : buffer)
    (traks : list buffer) :
  let moov := makeBox "moov" (concat (head :: traks)) in
  let file := concat [makeBox "ftyp" ftypContent; moov;
                      makeBox "mdat" mdatContent] in
  byteLength file < 2 ^ 32 ->
  8 < byteLength head ->
  getUint32 head 0 = Ok (byteLength head) ->
  String.eqb (typeOf head) "trak" = false ->
  Forall (fun b => 8 < byteLength b /\ isBoxOf "trak" b) traks ->
  traksOfFile file = traks.
Proof.
  intros moov file Hsize Hhead8 Hheadget Hheadty Htraks.
  unfold file in *. rewrite concat_flat in *. cbn [List.concat] in *.
  rewrite app_nil_r in *.
  rewrite !byteLength_app, !byteLength_makeBox in Hsize.
  pose proof (byteLength_nonneg ftypContent).
  pose proof (byteLength_nonneg mdatContent).
  pose proof (byteLength_nonneg (concat (head :: traks))).
  assert (Hmoov : byteLength moov = 8 + byteLength (concat (head :: traks)))
    by apply byteLength_makeBox.
  pose proof (parseBoxes_loop_written
                [("ftyp", ftypContent); ("moov", concat (head :: traks));
                 ("mdat", mdatContent)] [] []) as Hloop.
  cbn [map List.concat fst snd app writtenBoxes] in Hloop.
  change (byteLength []) with 0 in Hloop. rewrite app_nil_r in Hloop.
  fold moov in Hloop.
  unfold traksOfFile, parseBoxes, parseBoxes_fuel.
  rewrite Hloop.
  - unfold findBox. cbn [List.find box_type String.eqb Ascii.eqb Bool.eqb].
    unfold boxBytes. cbn [box_offset box_size].
    replace (0 + (8 + byteLength ftypContent))
      with (byteLength (makeBox "ftyp" ftypContent))
      by (rewrite byteLength_makeBox; lia).
    rewrite <- Hmoov, slice_after_app.
    unfold traksOfMoov, moov.
    rewrite children_makeBox.
    + unfold isTrak.
      rewrite (filter_laidOut (fun b => String.eqb (typeOf b) "trak")).
      cbn [List.filter]. rewrite Hheadty.
      clear -Htraks. induction Htraks as [|b rest [_ (_ & _ & Hty)] _ IH];
        [reflexivity|].
      cbn [List.filter]. rewrite Hty, IH. reflexivity.
    + constructor; [split; [lia|assumption]|].
      eapply Forall_impl; [exact Htraks|].
      intros b [H8 (_ & Hget & _)]. split; [lia|assumption].
    + intros b Hb. destruct traks as [|b0 rest] eqn:Htr.
      * injection Hb as <-. assumption.
      * rewrite <- Htr in *.
        assert (Hin : In b traks).
        { apply last_In. rewrite Htr in *.
          destruct rest; exact Hb. }
        rewrite List.Forall_forall in Htraks.
        now destruct (Htraks b Hin).
  - repeat constructor; cbn [fst snd]; lia.
  - rewrite !length_app. cbn [length].
    assert (8 <= byteLength (makeBox "ftyp" ftypContent))
      by (rewrite byteLength_makeBox; lia).
    unfold byteLength in *. lia.
Qed.

(** ** Reading the tables back *)

Lemma readPairs_pairBytes (entries : list (Z * Z)) :
  forall pre : buffer,
    readPairs (pre ++ pairBytes entries) (byteLength pre) (length entries)
    = map (fun e => (fst e mod 2 ^ 32, snd e mod 2 ^ 32)) entries.
Proof.
  induction entries as [|[count v] rest IH]; intros pre; [reflexivity|].
  unfold pairBytes. cbn [flat_map length readPairs map fst snd].
  fold (pairBytes rest). rewrite <- !app_assoc.
  rewrite getUint32_after, getUint32_be32_head.
  replace (byteLength pre + 4) with (byteLength (pre ++ be32 count))
    by (rewrite byteLength_app; reflexivity).
  rewrite (app_assoc pre (be32 count)).
  rewrite getUint32_after, getUint32_be32_head.
  f_equal.
  replace (byteLength pre + 8) with (byteLength ((pre ++ be32 count) ++ be32 v))
    by (rewrite !byteLength_app; change (byteLength (be32 _)) with 4; lia).
  rewrite (app_assoc _ (be32 v)). apply IH.
Qed.

Lemma readWords_wordBytes (words : list Z) :
  forall pre : buffer,
    readWords (pre ++ wordBytes words) (byteLength pre) (length words)
    = map (fun w => w mod 2 ^ 32) words.
Proof.
  induction words as [|w rest IH]; intros pre; [reflexivity|].
  unfold wordBytes. cbn [flat_map length readWords map].
  fold (wordBytes rest).
  rewrite getUint32_after, getUint32_be32_head. f_equal.
  replace (byteLength pre + 4) with (byteLength (pre ++ be32 w))
    by (rewrite byteLength_app; reflexivity).
  rewrite (app_assoc pre (be32 w)). apply IH.
Qed.

(** A table box: after the 8-byte header come the version and flags
    word and the entry count. *)
Lemma table_count (type : string) (flags : buffer) (n : Z) (rest : buffer) :
  byteLength flags = 4 ->
  getUint32 (makeBox type (flags ++ be32 n ++ rest)) 12 = Ok (n mod 2 ^ 32).
Proof.
  intros Hflags.
  destruct (makeBox_header type (flags ++ be32 n ++ rest))
    as (hdr & Hhdr & ->).
  rewrite (app_assoc hdr flags).
  replace 12 with (byteLength (hdr ++ flags))
    by (rewrite byteLength_app; lia).
  now rewrite getUint32_after, getUint32_be32_head.
Qed.

Lemma table_entries_at (type : string) (flags : buffer) (n : Z)
    (rest : buffer) :
  byteLength flags = 4 ->
  exists pre : buffer,
    byteLength pre = 16
    /\ makeBox type (flags ++ be32 n ++ rest) = pre ++ rest.
Proof.
  intros Hflags.
  destruct (makeBox_header type (flags ++ be32 n ++ rest))
    as (hdr & Hhdr & ->).
  exists (hdr ++ flags ++ be32 n). split.
  - rewrite !byteLength_app. change (byteLength (be32 n)) with 4. lia.
  - now rewrite <- !app_assoc.
Qed.

(** The runs read from a time-to-sample box are the runs written,
    each word modulo 2^32. *)
Lemma timeToSample_written (entries : list (Z * Z)) :
  Z.of_nat (length entries) < 2 ^ 32 ->
  timeToSample (makeBox "stts" (be32 0 ++ be32 (Z.of_nat (length entries))
                                ++ pairBytes entries))
  = map (fun e => (fst e mod 2 ^ 32, snd e mod 2 ^ 32)) entries.
Proof.
  intros Hn. unfold timeToSample, entryCount.
  rewrite table_count by reflexivity.
  rewrite Z.mod_small, Nat2Z.id by lia.
  destruct (table_entries_at "stts" (be32 0) (Z.of_nat (length entries))
              (pairBytes entries) eq_refl) as (pre & Hpre & ->).
  rewrite <- Hpre. apply readPairs_pairBytes.
Qed.

Lemma chunkOffsets_written (offset : Z) :
  chunkOffsets (makeBox "stco" (be32 0 ++ be32 1 ++ be32 offset))
  = [offset mod 2 ^ 32].
Proof.
  unfold chunkOffsets, entryCount.
  rewrite table_count by reflexivity.
  change (Z.to_nat (1 mod 2 ^ 32)) with 1%nat.
  destruct (table_entries_at "stco" (be32 0) 1 (be32 offset) eq_refl)
    as (pre & Hpre & ->).
  rewrite <- Hpre, <- (app_nil_r (be32 offset)).
  exact (readWords_wordBytes [offset] pre).
Qed.

(** The counts of the runs are between 0 and the number of values. *)
Lemma rle_loop_counts (bound : Z) (vals : list Z) :
  forall current count entries,
    0 <= count ->
    count + Z.of_nat (length vals) <= bound ->
    Forall (fun e => 0 <= fst e <= bound) entries ->
    Forall (fun e => 0 <= fst e <= bound)
           (rle_loop vals current count entries).
Proof.
  induction vals as [|v rest IH]; intros current count entries H0 Hb Hall;
    cbn [rle_loop length] in *.
  - destruct (0 <? count); [|assumption].
    apply Forall_app. split; [assumption|].
    constructor; [cbn [fst]; lia|constructor].
  - destruct (v =? current).
    + apply IH; [lia|lia|assumption].
    + apply IH; [lia|lia|].
      apply Forall_app. split; [assumption|].
      constructor; [cbn [fst]; lia|constructor].
Qed.

Lemma expandRuns_wrapped (bound : Z) (entries : list (Z * Z)) :
  bound < 2 ^ 32 ->
  Forall (fun e => 0 <= fst e <= bound) entries ->
  expandRuns (map (fun e => (fst e mod 2 ^ 32, snd e mod 2 ^ 32)) entries)
  = map (fun v => v mod 2 ^ 32) (expandRuns entries).
Proof.
  intros Hbound Hall. unfold expandRuns.
  induction Hall as [|[count v] rest Hcount _ IH]; [reflexivity|].
  cbn [map flat_map fst snd] in *.
  rewrite map_app, IH. f_equal.
  rewrite (Z.mod_small count) by lia.
  clear. induction (Z.to_nat count) as [|n IHn]; [reflexivity|].
  cbn [repeat map]. now rewrite IHn.
Qed.

Lemma map_wrapped_id (values : list Z) :
  Forall (fun v => 0 <= v < 2 ^ 32) values ->
  map (fun v => v mod 2 ^ 32) values = values.
Proof.
  induction 1 as [|v rest Hv _ IH]; [reflexivity|].
  cbn [map]. now rewrite IH, Z.mod_small.
Qed.

(** ** The tracks and tables of a file built with raw sample
    descriptions *)

Lemma RawStsd_finalTraks_In (tracks : list RawStsd.track) (b : buffer) :
  forall offset,
    In b (RawStsd.finalTraks tracks offset) ->
    exists t dataOffset, b = RawStsd.buildTrak t dataOffset.
Proof.
  induction tracks as [|t rest IH]; intros offset Hin; [destruct Hin|].
  cbn [RawStsd.finalTraks In] in Hin.
  destruct Hin as [<-|Hin]; [eauto|]. now apply IH in Hin.
Qed.

Lemma RawStsd_trak_long (t : RawStsd.track) (dataOffset : Z) :
  8 < byteLength (RawStsd.buildTrak t dataOffset).
Proof.
  unfold RawStsd.buildTrak. cbv zeta.
  destruct (RawStsd_isBoxOf_tkhd t) as (Htk8 & _).
  box_lengths. nonneg_lengths. lia.
Qed.

Lemma RawStsd_traksOfFile (tracks : list RawStsd.track) :
  byteLength (RawStsd.buildMP4WithRawStsd tracks) < 2 ^ 32 ->
  traksOfFile (RawStsd.buildMP4WithRawStsd tracks)
  = RawStsd.finalTraks tracks (RawStsd.mdatStart tracks)
  /\ Forall (fun trak => byteLength trak < 2 ^ 32)
            (RawStsd.finalTraks tracks (RawStsd.mdatStart tracks)).
Proof.
  intros Hsize.
  assert (Hsmall : Forall (fun trak => byteLength trak < 2 ^ 32)
                     (RawStsd.finalTraks tracks (RawStsd.mdatStart tracks))).
  { apply List.Forall_forall. intros b Hb.
    unfold RawStsd.buildMP4WithRawStsd in Hsize. cbv zeta in Hsize.
    rewrite concat_flat in Hsize. cbn [List.concat] in Hsize.
    rewrite !byteLength_app, byteLength_makeBox, byteLength_concat in Hsize.
    rewrite byteLength_cons_concat in Hsize.
    apply byteLength_part in Hb.
    pose proof (byteLength_nonneg RawStsd.ftyp).
    pose proof (byteLength_nonneg (RawStsd.mvhd tracks)).
    pose proof (byteLength_nonneg (makeBox "mdat" (RawStsd.mdatContent tracks))).
    change (byteLength []) with 0 in Hsize. lia. }
  split; [|exact Hsmall].
  destruct (RawStsd_isBoxOf_mvhd tracks) as (Hmv8 & Hmvget & Hmvty).
  unfold RawStsd.buildMP4WithRawStsd in *. cbv zeta in *.
  unfold RawStsd.ftyp in *. cbv zeta in *.
  apply traksOfFile_built; [exact Hsize| |exact Hmvget| |].
  - unfold RawStsd.mvhd. cbv zeta. rewrite byteLength_makeBox.
    nonneg_lengths. 
    match goal with
    | |- 8 < 8 + byteLength ?x =>
      let n := eval vm_compute in (byteLength x) in
      change (byteLength x) with n; lia
    end.
  - now rewrite Hmvty.
  - apply List.Forall_forall. intros b Hb.
    rewrite List.Forall_forall in Hsmall. specialize (Hsmall b Hb).
    apply RawStsd_finalTraks_In in Hb as (t & dataOffset & ->).
    split; [apply RawStsd_trak_long|].
    unfold RawStsd.buildTrak in *. cbv zeta in *.
    now apply isBoxOf_makeBox.
Qed.

(** The track at position [i] of the file is the one built for the
    track at position [i], at its offset. *)
Lemma RawStsd_trak_of_file (tracks : list RawStsd.track) (i : nat)
    (t : RawStsd.track) :
  tracks !! i = Some t ->
  byteLength (RawStsd.buildMP4WithRawStsd tracks) < 2 ^ 32 ->
  let offset := RawStsd.mdatStart tracks
                + trackDataSize (flat_map RawStsd.samples (take i tracks)) in
  traksOfFile (RawStsd.buildMP4WithRawStsd tracks) !! i
  = Some (RawStsd.buildTrak t offset)
  /\ byteLength (RawStsd.buildTrak t offset) < 2 ^ 32
  /\ 0 <= offset < 2 ^ 32.
Proof.
  intros Hi Hsize offset.
  destruct (RawStsd_traksOfFile tracks Hsize) as [-> Hsmall].
  pose proof (RawStsd_finalTraks_lookup tracks (RawStsd.mdatStart tracks)
                i t Hi) as Hlook.
  fold offset in Hlook.
  split; [exact Hlook|]. split.
  - rewrite List.Forall_forall in Hsmall. apply Hsmall.
    apply list_elem_of_lookup_2 in Hlook. now apply list_elem_of_In.
  - destruct (RawStsd_file_layout tracks) as (header & Hheader & Hfile).
    rewrite Hfile, byteLength_app, Hheader, byteLength_chunks in Hsize.
    rewrite <- (take_drop i tracks) in Hsize at 2.
    rewrite flat_map_app, trackDataSize_app in Hsize.
    pose proof (byteLength_nonneg header).
    assert (forall l, 0 <= trackDataSize l).
    { intros l. rewrite trackDataSize_concat. apply byteLength_nonneg. }
    pose proof (H0 (flat_map RawStsd.samples (take i tracks))).
    pose proof (H0 (flat_map RawStsd.samples (drop i tracks))).
    unfold offset. lia.
Qed.

(** The sample description that goes into the sample table: the raw
    one of the track, or an empty [stsd]. *)
Lemma RawStsd_isBoxOf_stsd (t : RawStsd.track) :
  (forall raw, RawStsd.rawStsd t = Some raw -> isBoxOf "stsd" raw) ->
  isBoxOf "stsd" (RawStsd.stsd t).
Proof.
  intros Hraw. unfold RawStsd.stsd.
  destruct (RawStsd.rawStsd t) as [raw|]; [now apply Hraw|].
  fixed_box.
Qed.

Lemma RawStsd_table_types (t : RawStsd.track) (dataOffset : Z) :
  typeOf (RawStsd.stts t) = "stts"
  /\ typeOf (RawStsd.stsc t) = "stsc"
  /\ typeOf (RawStsd.stsz t) = "stsz"
  /\ typeOf (RawStsd.stco dataOffset) = "stco"
  /\ (forall b, RawStsd.stss t = Some b -> typeOf b = "stss")
  /\ (forall b, RawStsd.ctts t = Some b -> typeOf b = "ctts").
Proof.
  unfold RawStsd.stts, RawStsd.stsc, RawStsd.stsz, RawStsd.stco. cbv zeta.
  rewrite !typeOf_makeBox by reflexivity.
  repeat split.
  - intros b Hb. apply RawStsd_stss_flat in Hb. cbv zeta in Hb. subst b.
    now rewrite typeOf_makeBox.
  - intros b Hb. apply RawStsd_ctts_flat in Hb. cbv zeta in Hb. subst b.
    now rewrite typeOf_makeBox.
Qed.

(** The chunk-offset, time-to-sample and sync-sample boxes found in
    a built track are the ones [buildTrak] made. *)
Lemma RawStsd_tableOfTrak (t : RawStsd.track) (dataOffset : Z) :
  byteLength (RawStsd.buildTrak t dataOffset) < 2 ^ 32 ->
  isBoxOf "stsd" (RawStsd.stsd t) ->
  tableOfTrak "stco" (RawStsd.buildTrak t dataOffset)
  = Some (RawStsd.stco dataOffset)
  /\ tableOfTrak "stts" (RawStsd.buildTrak t dataOffset)
     = Some (RawStsd.stts t)
  /\ tableOfTrak "stss" (RawStsd.buildTrak t dataOffset) = RawStsd.stss t.
Proof.
  intros Hlen (Hmin & Hget & Hty). unfold tableOfTrak.
  rewrite RawStsd_tablesOfTrak by assumption.
  destruct (RawStsd_table_types t dataOffset)
    as (Htts & Htsc & Htsz & Htco & Htss & Hctts).
  destruct (RawStsd.stss t) as [s|] eqn:Hs;
    [specialize (Htss s eq_refl)|clear Htss];
    (destruct (RawStsd.ctts t) as [c|] eqn:Hc;
     [specialize (Hctts c eq_refl)|clear Hctts]);
    cbn [RawStsd.pushIf app List.find];
    rewrite ?Hty, ?Htts, ?Htsc, ?Htsz, ?Htco, ?Htss, ?Hctts;
    repeat split; reflexivity.
Qed.

(** ** The tracks and tables of a file built with the demuxer's sample
    descriptions *)

Lemma Manual_isBoxOf_tkhd (t : Manual.track) (trackDuration : Z) :
  isBoxOf "tkhd" (Manual.buildTkhd t trackDuration).
Proof. unfold Manual.buildTkhd. cbv zeta. fixed_box. Qed.

Lemma Manual_isBoxOf_mdhd (timescale duration : Z) :
  isBoxOf "mdhd" (Manual.buildMdhd timescale duration).
Proof. unfold Manual.buildMdhd. cbv zeta. fixed_box. Qed.

Lemma Manual_isBoxOf_hdlr (type : string) :
  isBoxOf "hdlr" (Manual.buildHdlr type).
Proof.
  unfold Manual.buildHdlr. cbv zeta.
  destruct (String.eqb type "video"); fixed_box.
Qed.

Lemma Manual_isBoxOf_vmhd : isBoxOf "vmhd" Manual.buildVmhd.
Proof. unfold Manual.buildVmhd. fixed_box. Qed.

Lemma Manual_isBoxOf_smhd : isBoxOf "smhd" Manual.buildSmhd.
Proof. unfold Manual.buildSmhd. fixed_box. Qed.

Lemma Manual_isBoxOf_dinf : isBoxOf "dinf" Manual.buildDinf.
Proof. unfold Manual.buildDinf, Manual.buildDref. cbv zeta. fixed_box. Qed.

Lemma Manual_isBoxOf_mvhd (tracks : list Manual.track)
    (timescale duration : Z) :
  isBoxOf "mvhd" (Manual.buildMvhd tracks timescale duration).
Proof. unfold Manual.buildMvhd. cbv zeta. fixed_box. Qed.

Lemma Manual_buildStts_flat (samples : list sample) :
  let entries := sttsEntries samples in
  Manual.buildStts samples
  = makeBox "stts" (be32 0 ++ be32 (Z.of_nat (length entries))
                    ++ pairBytes entries).
Proof.
  cbv zeta. unfold Manual.buildStts. cbv zeta. f_equal.
  rewrite put32_zero_zeros by lia. apply table_of_pairs.
Qed.

Lemma Manual_buildCtts_flat (samples : list sample) (b : buffer) :
  Manual.buildCtts samples = Some b ->
  let entries := cttsEntries samples in
  b = makeBox "ctts" (be32 0 ++ be32 (Z.of_nat (length entries))
                      ++ pairBytes entries).
Proof.
  unfold Manual.buildCtts. destruct (needsCtts _); [|discriminate].
  cbv zeta. intros [= <-].
  rewrite put32_zero_zeros by lia. now rewrite table_of_pairs.
Qed.

Lemma Manual_buildStss_flat (samples : list sample) (b : buffer) :
  Manual.buildStss samples = Some b ->
  let sync := syncSamples samples in
  b = makeBox "stss" (zeros 4 ++ be32 (Z.of_nat (length sync))
                      ++ wordBytes sync).
Proof.
  unfold Manual.buildStss. cbv zeta. destruct (_ || _); [discriminate|].
  intros [= <-]. rewrite put32_zero_zeros by lia.
  now rewrite (table_of_words 8) by lia.
Qed.

(** The parts of the sample table as [buildTrakWithOffset] collects
    them. *)
Lemma Manual_stblParts (t : Manual.track) (dataOffset : Z) (b : buffer) :
  In b (Manual.pushIf
          (if String.eqb (Manual.type t) "video"
           then Manual.pushIf
                  [Manual.buildStsd t; Manual.buildStts (Manual.samples t);
                   Manual.buildStsc t; Manual.buildStsz (Manual.samples t);
                   Manual.buildStco dataOffset]
                  (Manual.buildStss (Manual.samples t))
           else [Manual.buildStsd t; Manual.buildStts (Manual.samples t);
                 Manual.buildStsc t; Manual.buildStsz (Manual.samples t);
                 Manual.buildStco dataOffset])
          (Manual.buildCtts (Manual.samples t))) ->
  exists type content,
    String.length type = 4%nat /\ b = makeBox type content.
Proof.
  intros Hin.
  assert (Hcases : In b [Manual.buildStsd t;
                         Manual.buildStts (Manual.samples t);
                         Manual.buildStsc t;
                         Manual.buildStsz (Manual.samples t);
                         Manual.buildStco dataOffset]
                   \/ Manual.buildStss (Manual.samples t) = Some b
                   \/ Manual.buildCtts (Manual.samples t) = Some b).
  { destruct (String.eqb (Manual.type t) "video"),
      (Manual.buildStss (Manual.samples t)) as [s|],
      (Manual.buildCtts (Manual.samples t)) as [c|];
      cbn [Manual.pushIf app] in Hin; cbn [In] in *;
      intuition (subst; auto). }
  destruct Hcases as [Hfix|[Hstss|Hctts]].
  - cbn [In] in Hfix.
    destruct Hfix as [<-|[<-|[<-|[<-|[<-|[]]]]]].
    + unfold Manual.buildStsd.
      destruct (Manual.stsdEntry t) as [[entryData|e]|];
        eexists "stsd", _; split; reflexivity.
    + eexists "stts", _. split; reflexivity.
    + eexists "stsc", _. split; reflexivity.
    + eexists "stsz", _. split; reflexivity.
    + eexists "stco", _. split; reflexivity.
  - apply Manual_buildStss_flat in Hstss. cbv zeta in Hstss. subst b.
    eexists "stss", _. split; reflexivity.
  - apply Manual_buildCtts_flat in Hctts. cbv zeta in Hctts. subst b.
    eexists "ctts", _. split; reflexivity.
Qed.

Lemma Manual_last_pushIf (parts : list buffer) (x : option buffer)
    (b : buffer) :
  last (Manual.pushIf parts x) = Some b ->
  x = Some b \/ (x = None /\ last parts = Some b).
Proof.
  destruct x as [c|]; cbn [Manual.pushIf].
  - rewrite last_snoc. intros [= <-]. now left.
  - intros H. now right.
Qed.

Lemma Manual_stblParts_last (t : Manual.track) (dataOffset : Z)
    (b : buffer) :
  last (Manual.pushIf
          (if String.eqb (Manual.type t) "video"
           then Manual.pushIf
                  [Manual.buildStsd t; Manual.buildStts (Manual.samples t);
                   Manual.buildStsc t; Manual.buildStsz (Manual.samples t);
                   Manual.buildStco dataOffset]
                  (Manual.buildStss (Manual.samples t))
           else [Manual.buildStsd t; Manual.buildStts (Manual.samples t);
                 Manual.buildStsc t; Manual.buildStsz (Manual.samples t);
                 Manual.buildStco dataOffset])
          (Manual.buildCtts (Manual.samples t))) = Some b ->
  8 < byteLength b.
Proof.
  intros Hb.
  apply Manual_last_pushIf in Hb as [Hb|[_ Hb]].
  - apply Manual_buildCtts_flat in Hb. cbv zeta in Hb. subst b.
    rewrite byteLength_makeBox, !byteLength_app.
    change (byteLength (be32 _)) with 4. nonneg_lengths. lia.
  - destruct (String.eqb (Manual.type t) "video").
    + apply Manual_last_pushIf in Hb as [Hb|[_ Hb]].
      * apply Manual_buildStss_flat in Hb. cbv zeta in Hb. subst b.
        rewrite byteLength_makeBox, !byteLength_app.
        change (byteLength (be32 _)) with 4. nonneg_lengths. lia.
      * injection Hb as <-. rewrite Manual_byteLength_buildStco. lia.
    + injection Hb as <-. rewrite Manual_byteLength_buildStco. lia.
Qed.

Lemma Manual_tablesOfTrak (t : Manual.track) (timescale dataOffset : Z) :
  byteLength (Manual.buildTrakWithOffset t timescale dataOffset) < 2 ^ 32 ->
  tablesOfTrak (Manual.buildTrakWithOffset t timescale dataOffset)
  = Manual.pushIf
      (if String.eqb (Manual.type t) "video"
       then Manual.pushIf
              [Manual.buildStsd t; Manual.buildStts (Manual.samples t);
               Manual.buildStsc t; Manual.buildStsz (Manual.samples t);
               Manual.buildStco dataOffset]
              (Manual.buildStss (Manual.samples t))
       else [Manual.buildStsd t; Manual.buildStts (Manual.samples t);
             Manual.buildStsc t; Manual.buildStsz (Manual.samples t);
             Manual.buildStco dataOffset])
      (Manual.buildCtts (Manual.samples t)).
Proof.
  intros Hlen. unfold Manual.buildTrakWithOffset in *. cbv zeta in *.
  set (stblParts := Manual.pushIf _ (Manual.buildCtts _)) in *.
  set (mediaHeader := if String.eqb (Manual.type t) "video"
                      then Manual.buildVmhd else Manual.buildSmhd) in *.
  set (tkhd := Manual.buildTkhd t _) in *.
  set (mdhd := Manual.buildMdhd _ _) in *.
  set (stbl := makeBox "stbl" (concat stblParts)) in *.
  set (minf := makeBox "minf" (concat [mediaHeader; Manual.buildDinf; stbl]))
    in *.
  set (mdia := makeBox "mdia" (concat [mdhd; Manual.buildHdlr (Manual.type t);
                                       minf])) in *.
  assert (Hsizes : byteLength stbl <= byteLength minf
                   /\ byteLength minf <= byteLength mdia
                   /\ byteLength mdia
                      <= byteLength (makeBox "trak" (concat [tkhd; mdia]))).
  { unfold mdia, minf. box_lengths. nonneg_lengths. lia. }
  destruct Hsizes as (Hs1 & Hs2 & Hs3).
  assert (Hstbl : isBoxOf "stbl" stbl)
    by (apply isBoxOf_makeBox; [reflexivity|fold stbl; lia]).
  assert (Hminf : isBoxOf "minf" minf)
    by (apply isBoxOf_makeBox; [reflexivity|fold minf; lia]).
  assert (Hmdia : isBoxOf "mdia" mdia)
    by (apply isBoxOf_makeBox; [reflexivity|fold mdia; lia]).
  destruct Hstbl as (Hstbl8 & Hstblget & Hstblty).
  destruct Hminf as (Hminf8 & Hminfget & Hminfty).
  destruct Hmdia as (Hmdia8 & Hmdiaget & Hmdiaty).
  destruct (Manual_isBoxOf_tkhd t
              (roundDiv (Manual.duration t) timescale (Manual.timescale t)))
    as (Htk8 & Htkget & Htkty).
  fold tkhd in Htk8, Htkget, Htkty.
  destruct (Manual_isBoxOf_mdhd (Manual.timescale t) (Manual.duration t))
    as (Hmd8 & Hmdget & Hmdty).
  fold mdhd in Hmd8, Hmdget, Hmdty.
  destruct (Manual_isBoxOf_hdlr (Manual.type t)) as (Hh8 & Hhget & Hhty).
  assert (Hmh : 8 <= byteLength mediaHeader
                /\ getUint32 mediaHeader 0 = Ok (byteLength mediaHeader)
                /\ String.eqb (typeOf mediaHeader) "stbl" = false).
  { unfold mediaHeader. destruct (String.eqb (Manual.type t) "video").
    - destruct Manual_isBoxOf_vmhd as (? & ? & ->). auto.
    - destruct Manual_isBoxOf_smhd as (? & ? & ->). auto. }
  destruct Hmh as (Hmh8 & Hmhget & Hmhty).
  destruct Manual_isBoxOf_dinf as (Hd8 & Hdget & Hdty).
  assert (Hstbl16 : 8 < byteLength stbl).
  { unfold stbl. rewrite byteLength_makeBox, byteLength_concat.
    assert (Hin : In (Manual.buildStco dataOffset) stblParts).
    { unfold stblParts.
      destruct (String.eqb (Manual.type t) "video"),
        (Manual.buildStss (Manual.samples t)),
        (Manual.buildCtts (Manual.samples t));
        cbn [Manual.pushIf app In]; auto 10. }
    apply byteLength_part in Hin.
    rewrite Manual_byteLength_buildStco in Hin. lia. }
  unfold tablesOfTrak.
  rewrite childOf_makeBox;
    [ | repeat constructor; assumption
      | intros b [= <-]; lia ].
  cbn [List.find]. rewrite Htkty, Hmdiaty. cbn [String.eqb Ascii.eqb Bool.eqb].
  fold minf. unfold mdia at 1.
  rewrite childOf_makeBox;
    [ | repeat constructor; assumption
      | intros b [= <-]; lia ].
  cbn [List.find]. rewrite Hmdty, Hhty, Hminfty.
  cbn [String.eqb Ascii.eqb Bool.eqb].
  unfold minf at 1.
  rewrite childOf_makeBox;
    [ | repeat constructor; assumption
      | intros b [= <-]; lia ].
  cbn [List.find]. rewrite Hmhty, Hdty, Hstblty.
  cbn [String.eqb Ascii.eqb Bool.eqb].
  unfold stbl. apply tables_makeBox.
  - apply List.Forall_forall. intros b Hb.
    pose proof (byteLength_part b stblParts Hb) as Hpart.
    assert (Hsmall : byteLength b < 2 ^ 32).
    { unfold stbl in Hs1. rewrite byteLength_makeBox, byteLength_concat in Hs1.
      lia. }
    apply Manual_stblParts in Hb as (type & content & Hty & ->).
    destruct (isBoxOf_makeBox type content Hty Hsmall) as (H8 & Hg & _).
    now split.
  - intros b Hb. now apply Manual_stblParts_last in Hb.
Qed.

Lemma Manual_finalTraks_In (tracks : list Manual.track) (b : buffer) :
  forall offset,
    In b (Manual.finalTraks tracks offset) ->
    exists t dataOffset,
      b = Manual.buildTrakWithOffset t movieTimescale dataOffset.
Proof.
  induction tracks as [|t rest IH]; intros offset Hin; [destruct Hin|].
  cbn [Manual.finalTraks In] in Hin.
  destruct Hin as [<-|Hin]; [eauto|]. now apply IH in Hin.
Qed.

Lemma Manual_trak_long (t : Manual.track) (timescale dataOffset : Z) :
  8 < byteLength (Manual.buildTrakWithOffset t timescale dataOffset).
Proof.
  unfold Manual.buildTrakWithOffset. cbv zeta.
  destruct (Manual_isBoxOf_tkhd t
              (roundDiv (Manual.duration t) timescale (Manual.timescale t)))
    as (Htk8 & _).
  box_lengths. nonneg_lengths. lia.
Qed.

Lemma Manual_traksOfFile (tracks : list Manual.track) :
  byteLength (Manual.buildMP4File tracks) < 2 ^ 32 ->
  traksOfFile (Manual.buildMP4File tracks)
  = Manual.finalTraks tracks (Manual.realMdatStart tracks)
  /\ Forall (fun trak => byteLength trak < 2 ^ 32)
            (Manual.finalTraks tracks (Manual.realMdatStart tracks)).
Proof.
  intros Hsize.
  assert (Hsmall : Forall (fun trak => byteLength trak < 2 ^ 32)
                     (Manual.finalTraks tracks (Manual.realMdatStart tracks))).
  { apply List.Forall_forall. intros b Hb.
    unfold Manual.buildMP4File in Hsize. cbv zeta in Hsize.
    rewrite concat_flat in Hsize. cbn [List.concat] in Hsize.
    rewrite !byteLength_app, byteLength_makeBox, byteLength_concat in Hsize.
    rewrite byteLength_cons_concat in Hsize.
    apply byteLength_part in Hb.
    pose proof (byteLength_nonneg Manual.buildFtyp).
    pose proof (byteLength_nonneg
                  (Manual.buildMvhd tracks movieTimescale
                                    (Manual.maxDuration tracks))).
    pose proof (byteLength_nonneg
                  (makeBox "mdat" (Manual.mdatContent tracks))).
    change (byteLength []) with 0 in Hsize. lia. }
  split; [|exact Hsmall].
  destruct (Manual_isBoxOf_mvhd tracks movieTimescale
                                (Manual.maxDuration tracks))
    as (Hmv8 & Hmvget & Hmvty).
  unfold Manual.buildMP4File in *. cbv zeta in *.
  unfold Manual.buildFtyp in *. cbv zeta in *.
  apply traksOfFile_built; [exact Hsize| |exact Hmvget| |].
  - unfold Manual.buildMvhd. cbv zeta. rewrite byteLength_makeBox.
    match goal with
    | |- 8 < 8 + byteLength ?x =>
      let n := eval vm_compute in (byteLength x) in
      change (byteLength x) with n; lia
    end.
  - now rewrite Hmvty.
  - apply List.Forall_forall. intros b Hb.
    rewrite List.Forall_forall in Hsmall. specialize (Hsmall b Hb).
    apply Manual_finalTraks_In in Hb as (t & dataOffset & ->).
    split; [apply Manual_trak_long|].
    unfold Manual.buildTrakWithOffset in *. cbv zeta in *.
    now apply isBoxOf_makeBox.
Qed.

Lemma Manual_trak_of_file (tracks : list Manual.track) (i : nat)
    (t : Manual.track) :
  tracks !! i = Some t ->
  byteLength (Manual.buildMP4File tracks) < 2 ^ 32 ->
  let offset := Manual.realMdatStart tracks
                + trackDataSize (flat_map Manual.samples (take i tracks)) in
  traksOfFile (Manual.buildMP4File tracks) !! i
  = Some (Manual.buildTrakWithOffset t movieTimescale offset)
  /\ byteLength (Manual.buildTrakWithOffset t movieTimescale offset) < 2 ^ 32
  /\ 0 <= offset < 2 ^ 32.
Proof.
  intros Hi Hsize offset.
  destruct (Manual_traksOfFile tracks Hsize) as [-> Hsmall].
  pose proof (Manual_finalTraks_lookup tracks (Manual.realMdatStart tracks)
                i t Hi) as Hlook.
  fold offset in Hlook.
  split; [exact Hlook|]. split.
  - rewrite List.Forall_forall in Hsmall. apply Hsmall.
    apply list_elem_of_lookup_2 in Hlook. now apply list_elem_of_In.
  - destruct (Manual_file_layout tracks) as (header & Hheader & Hfile).
    rewrite Hfile, byteLength_app, Hheader, byteLength_chunks in Hsize.
    rewrite <- (take_drop i tracks) in Hsize at 2.
    rewrite flat_map_app, trackDataSize_app in Hsize.
    pose proof (byteLength_nonneg header).
    assert (Hdata : forall l, 0 <= trackDataSize l).
    { intros l. rewrite trackDataSize_concat. apply byteLength_nonneg. }
    pose proof (Hdata (flat_map Manual.samples (take i tracks))).
    pose proof (Hdata (flat_map Manual.samples (drop i tracks))).
    unfold offset. lia.
Qed.

Lemma Manual_table_types (t : Manual.track) (dataOffset : Z) :
  typeOf (Manual.buildStsd t) = "stsd"
  /\ typeOf (Manual.buildStts (Manual.samples t)) = "stts"
  /\ typeOf (Manual.buildStsc t) = "stsc"
  /\ typeOf (Manual.buildStsz (Manual.samples t)) = "stsz"
  /\ typeOf (Manual.buildStco dataOffset) = "stco"
  /\ (forall b, Manual.buildStss (Manual.samples t) = Some b ->
                typeOf b = "stss")
  /\ (forall b, Manual.buildCtts (Manual.samples t) = Some b ->
                typeOf b = "ctts").
Proof.
  split.
  { unfold Manual.buildStsd.
    destruct (Manual.stsdEntry t) as [[entryData|e]|]; cbv zeta;
      now rewrite typeOf_makeBox. }
  unfold Manual.buildStts, Manual.buildStsc, Manual.buildStsz,
    Manual.buildStco. cbv zeta.
  rewrite !typeOf_makeBox by reflexivity.
  repeat split.
  - intros b Hb. apply Manual_buildStss_flat in Hb. cbv zeta in Hb. subst b.
    now rewrite typeOf_makeBox.
  - intros b Hb. apply Manual_buildCtts_flat in Hb. cbv zeta in Hb. subst b.
    now rewrite typeOf_makeBox.
Qed.

Lemma Manual_tableOfTrak (t : Manual.track) (timescale dataOffset : Z) :
  byteLength (Manual.buildTrakWithOffset t timescale dataOffset) < 2 ^ 32 ->
  let trak := Manual.buildTrakWithOffset t timescale dataOffset in
  tableOfTrak "stco" trak = Some (Manual.buildStco dataOffset)
  /\ tableOfTrak "stts" trak = Some (Manual.buildStts (Manual.samples t))
  /\ tableOfTrak "stss" trak
     = if String.eqb (Manual.type t) "video"
       then Manual.buildStss (Manual.samples t) else None.
Proof.
  intros Hlen trak. unfold trak, tableOfTrak.
  rewrite Manual_tablesOfTrak by assumption.
  destruct (Manual_table_types t dataOffset)
    as (Hty & Htts & Htsc & Htsz & Htco & Htss & Hctts).
  destruct (String.eqb (Manual.type t) "video");
    (destruct (Manual.buildStss (Manual.samples t)) as [s|] eqn:Hs;
     [specialize (Htss s eq_refl)|clear Htss]);
    (destruct (Manual.buildCtts (Manual.samples t)) as [c|] eqn:Hc;
     [specialize (Hctts c eq_refl)|clear Hctts]);
    cbn [Manual.pushIf app List.find];
    rewrite ?Hty, ?Htts, ?Htsc, ?Htsz, ?Htco, ?Htss, ?Hctts;
    repeat split; reflexivity.
Qed.

(** ** What the tables of a built file hold *)

Lemma rle_loop_values (P : Z -> Prop) (vals : list Z) :
  forall current count entries,
    P current -> Forall P vals ->
    Forall (fun e => P (snd e)) entries ->
    Forall (fun e => P (snd e)) (rle_loop vals current count entries).
Proof.
  induction vals as [|v rest IH]; intros current count entries Hc Hvals Hall;
    cbn [rle_loop].
  - destruct (0 <? count); [|assumption].
    apply Forall_app. split; [assumption|]. now repeat constructor.
  - apply Forall_cons in Hvals as [Hv Hvals].
    destruct (v =? current).
    + now apply IH.
    + apply IH; [assumption|assumption|].
      apply Forall_app. split; [assumption|]. now repeat constructor.
Qed.

Lemma sttsEntries_counts (samples : list sample) :
  Forall (fun e => 0 <= fst e <= Z.of_nat (length samples))
         (sttsEntries samples).
Proof.
  unfold sttsEntries. apply rle_loop_counts; [lia| |constructor].
  rewrite length_map. lia.
Qed.

Lemma sttsEntries_values (samples : list sample) :
  Forall (fun s => 0 <= s_duration s < 2 ^ 32) samples ->
  Forall (fun e => 0 <= snd e < 2 ^ 32) (sttsEntries samples).
Proof.
  intros Hall. unfold sttsEntries.
  apply (rle_loop_values (fun v => 0 <= v < 2 ^ 32)); [| |constructor].
  - destruct Hall as [|s rest Hs _]; [lia|].
    unfold orElse. destruct (s_duration s =? 0); [lia|assumption].
  - now apply Forall_fmap.
Qed.

Lemma wrapped_entries_id (bound : Z) (entries : list (Z * Z)) :
  bound < 2 ^ 32 ->
  Forall (fun e => 0 <= fst e <= bound) entries ->
  Forall (fun e => 0 <= snd e < 2 ^ 32) entries ->
  map (fun e => (fst e mod 2 ^ 32, snd e mod 2 ^ 32)) entries = entries.
Proof.
  intros Hbound Hc Hv. induction entries as [|[c v] rest IH]; [reflexivity|].
  apply Forall_cons in Hc as [Hc Hcs]. apply Forall_cons in Hv as [Hv Hvs].
  cbn [map fst snd] in *. rewrite IH by assumption.
  now rewrite !Z.mod_small by lia.
Qed.

(** What is read back from a time-to-sample box holding the runs of a
    sample list. *)
Lemma timeToSample_roundtrip (samples : list sample) :
  let entries := sttsEntries samples in
  let stts := makeBox "stts" (be32 0 ++ be32 (Z.of_nat (length entries))
                              ++ pairBytes entries) in
  byteLength stts < 2 ^ 32 ->
  Z.of_nat (length samples) < 2 ^ 32 ->
  expandRuns (timeToSample stts)
  = map (fun s => s_duration s mod 2 ^ 32) samples
  /\ (Forall (fun s => 0 <= s_duration s < 2 ^ 32) samples ->
      timeToSample stts = sttsEntries samples
      /\ expandRuns (timeToSample stts) = map s_duration samples).
Proof.
  intros entries stts Hlen Hsamples.
  assert (Hn : Z.of_nat (length entries) < 2 ^ 32).
  { unfold stts in Hlen. rewrite byteLength_makeBox, !byteLength_app in Hlen.
    rewrite byteLength_pairBytes in Hlen.
    change (byteLength (be32 _)) with 4 in Hlen. lia. }
  unfold stts. rewrite timeToSample_written by exact Hn.
  assert (Hexp : expandRuns entries = map s_duration samples).
  { unfold entries, sttsEntries. now rewrite rle_loop_expand. }
  split.
  - rewrite (expandRuns_wrapped (Z.of_nat (length samples)))
      by (exact Hsamples || apply sttsEntries_counts).
    rewrite Hexp. now rewrite map_map.
  - intros Hrange.
    rewrite (wrapped_entries_id (Z.of_nat (length samples)))
      by (exact Hsamples || apply sttsEntries_counts
          || now apply sttsEntries_values).
    split; [reflexivity|exact Hexp].
Qed.

Lemma RawStsd_stsz_flat (t : RawStsd.track) :
  RawStsd.stsz t
  = makeBox "stsz" (zeros 8 ++ be32 (Z.of_nat (length (RawStsd.samples t)))
                    ++ wordBytes (map dataLength (RawStsd.samples t))).
Proof.
  unfold RawStsd.stsz. cbv zeta. f_equal.
  pose proof (table_of_words 12 (map dataLength (RawStsd.samples t))) as Htab.
  cbv zeta in Htab. rewrite length_map in Htab.
  change (12 - 4) with 8 in Htab. now rewrite Htab by lia.
Qed.

Lemma Manual_buildStsz_flat (samples : list sample) :
  Manual.buildStsz samples
  = makeBox "stsz" (zeros 8 ++ be32 (Z.of_nat (length samples))
                    ++ wordBytes (map dataLength samples)).
Proof.
  unfold Manual.buildStsz. cbv zeta. f_equal.
  rewrite !put32_zero_zeros by lia.
  pose proof (table_of_words 12 (map dataLength samples)) as Htab.
  cbv zeta in Htab. rewrite length_map in Htab.
  change (12 - 4) with 8 in Htab. now rewrite Htab by lia.
Qed.

(** A track shorter than 2^32 bytes has fewer than 2^32 samples, and
    its time-to-sample box is shorter still. *)
Lemma RawStsd_table_sizes (t : RawStsd.track) (dataOffset : Z) :
  byteLength (RawStsd.buildTrak t dataOffset) < 2 ^ 32 ->
  byteLength (RawStsd.stts t) < 2 ^ 32
  /\ Z.of_nat (length (RawStsd.samples t)) < 2 ^ 32.
Proof.
  intros Hlen.
  assert (Hparts : byteLength (RawStsd.stts t) + byteLength (RawStsd.stsz t)
                   <= byteLength (RawStsd.buildTrak t dataOffset)).
  { unfold RawStsd.buildTrak.
    destruct (RawStsd.stss t), (RawStsd.ctts t); cbn [RawStsd.pushIf app];
      box_lengths; nonneg_lengths; lia. }
  pose proof (byteLength_nonneg (RawStsd.stts t)).
  pose proof (byteLength_nonneg (RawStsd.stsz t)).
  split; [lia|].
  rewrite RawStsd_stsz_flat, byteLength_makeBox, !byteLength_app in Hparts.
  rewrite byteLength_wordBytes, length_map in Hparts.
  change (byteLength (be32 _)) with 4 in Hparts.
  change (byteLength (zeros 8)) with 8 in Hparts. lia.
Qed.

Lemma Manual_table_sizes (t : Manual.track) (timescale dataOffset : Z) :
  byteLength (Manual.buildTrakWithOffset t timescale dataOffset) < 2 ^ 32 ->
  byteLength (Manual.buildStts (Manual.samples t)) < 2 ^ 32
  /\ Z.of_nat (length (Manual.samples t)) < 2 ^ 32.
Proof.
  intros Hlen.
  assert (Hparts : byteLength (Manual.buildStts (Manual.samples t))
                   + byteLength (Manual.buildStsz (Manual.samples t))
                   <= byteLength (Manual.buildTrakWithOffset t timescale
                                                             dataOffset)).
  { unfold Manual.buildTrakWithOffset.
    destruct (String.eqb (Manual.type t) "video"),
      (Manual.buildStss (Manual.samples t)),
      (Manual.buildCtts (Manual.samples t)); cbn [Manual.pushIf app];
      box_lengths; nonneg_lengths; lia. }
  pose proof (byteLength_nonneg (Manual.buildStts (Manual.samples t))).
  pose proof (byteLength_nonneg (Manual.buildStsz (Manual.samples t))).
  split; [lia|].
  rewrite Manual_buildStsz_flat, byteLength_makeBox, !byteLength_app in Hparts.
  rewrite byteLength_wordBytes, length_map in Hparts.
  change (byteLength (be32 _)) with 4 in Hparts.
  change (byteLength (zeros 8)) with 8 in Hparts. lia.
Qed.

(** C7. In both progressive builders the media data starts at
    [ftyp length + measured moov length + 8], the moov being measured
    with every track built at chunk offset 0.  In the finished file
    (shorter than 2^32 bytes) the track box at position [i] of the
    [moov] holds, in the [stco] box of its sample table, exactly one
    chunk offset: that start plus the data bytes of the tracks before
    it; and the bytes of the file from that offset on are the track's
    samples, one after the other.  For [buildMP4WithRawStsd] the
    raw sample description of the track, when it has one, has to be a
    well-formed [stsd] box, as [extractStsdFromMoov] returns it. *)
Theorem chunk_offsets_resolved :
  (forall (tracks : list RawStsd.track) (i : nat) (t : RawStsd.track),
      tracks !! i = Some t ->
      byteLength (RawStsd.buildMP4WithRawStsd tracks) < 2 ^ 32 ->
      (forall raw, RawStsd.rawStsd t = Some raw -> isBoxOf "stsd" raw) ->
      let file := RawStsd.buildMP4WithRawStsd tracks in
      let start := RawStsd.mdatStart tracks in
      let offset :=
        start + trackDataSize (flat_map RawStsd.samples (take i tracks)) in
      start = byteLength RawStsd.ftyp + byteLength (RawStsd.tempMoov tracks) + 8
      /\ RawStsd.tempMoov tracks
         = makeBox "moov" (concat (RawStsd.mvhd tracks
                             :: map (fun t => RawStsd.buildTrak t 0) tracks))
      /\ option_map chunkOffsets
           (tableOfTrak "stco" (RawStsd.buildTrak t 0)) = Some [0]
      /\ (exists trak stco : buffer,
             traksOfFile file !! i = Some trak
             /\ tableOfTrak "stco" trak = Some stco
             /\ chunkOffsets stco = [offset])
      /\ slice file offset (offset + trackDataSize (RawStsd.samples t))
         = List.concat (sampleBytes (RawStsd.samples t)))
  /\ (forall (tracks : list Manual.track) (i : nat) (t : Manual.track),
      tracks !! i = Some t ->
      byteLength (Manual.buildMP4File tracks) < 2 ^ 32 ->
      let file := Manual.buildMP4File tracks in
      let start := Manual.realMdatStart tracks in
      let offset :=
        start + trackDataSize (flat_map Manual.samples (take i tracks)) in
      start = byteLength Manual.buildFtyp
              + byteLength (Manual.tempMoov tracks) + 8
      /\ Manual.tempMoov tracks
         = makeBox "moov"
             (concat (Manual.buildMvhd tracks movieTimescale
                                       (Manual.maxDuration tracks)
                      :: map (fun t => Manual.buildTrak t movieTimescale 0)
                             tracks))
      /\ option_map chunkOffsets
           (tableOfTrak "stco" (Manual.buildTrak t movieTimescale 0))
         = Some [0]
      /\ (exists trak stco : buffer,
             traksOfFile file !! i = Some trak
             /\ tableOfTrak "stco" trak = Some stco
             /\ chunkOffsets stco = [offset])
      /\ slice file offset (offset + trackDataSize (Manual.samples t))
         = List.concat (sampleBytes (Manual.samples t))).
Proof.
  split.
  - intros tracks i t Hi Hsize Hraw. cbv zeta.
    pose proof (RawStsd_isBoxOf_stsd t Hraw) as Hstsd.
    destruct (RawStsd_trak_of_file tracks i t Hi Hsize)
      as (Htrak & Hlen & Hoff).
    cbv zeta in Htrak, Hlen, Hoff.
    destruct (RawStsd_tableOfTrak t _ Hlen Hstsd) as (Hstco & _).
    split; [reflexivity|]. split; [reflexivity|]. split; [|split].
    + rewrite RawStsd_byteLength_buildTrak in Hlen.
      destruct (RawStsd_tableOfTrak t 0 Hlen Hstsd) as (-> & _).
      cbn [option_map].
      change (RawStsd.stco 0) with (makeBox "stco" (be32 0 ++ be32 1 ++ be32 0)).
      now rewrite chunkOffsets_written.
    + eexists _, _. split; [exact Htrak|]. split; [exact Hstco|].
      change (RawStsd.stco ?o) with (makeBox "stco" (be32 0 ++ be32 1 ++ be32 o)).
      rewrite chunkOffsets_written. now rewrite Z.mod_small.
    + destruct (RawStsd_file_layout tracks) as (header & Hheader & ->).
      rewrite <- Hheader.
      exact (slice_track_data RawStsd.samples tracks header i t Hi).
  - intros tracks i t Hi Hsize. cbv zeta.
    destruct (Manual_trak_of_file tracks i t Hi Hsize)
      as (Htrak & Hlen & Hoff).
    cbv zeta in Htrak, Hlen, Hoff.
    destruct (Manual_tableOfTrak t _ _ Hlen) as (Hstco & _).
    split; [reflexivity|]. split; [reflexivity|]. split; [|split].
    + rewrite Manual_byteLength_buildTrak in Hlen.
      rewrite <- (Manual_byteLength_buildTrak t movieTimescale 0) in Hlen.
      rewrite <- Manual_buildTrakWithOffset_eq.
      destruct (Manual_tableOfTrak t _ 0 Hlen) as (-> & _).
      cbn [option_map].
      change (Manual.buildStco 0)
        with (makeBox "stco" (be32 0 ++ be32 1 ++ be32 0)).
      now rewrite chunkOffsets_written.
    + eexists _, _. split; [exact Htrak|]. split; [exact Hstco|].
      change (Manual.buildStco ?o)
        with (makeBox "stco" (be32 0 ++ be32 1 ++ be32 o)).
      rewrite chunkOffsets_written. now rewrite Z.mod_small.
    + destruct (Manual_file_layout tracks) as (header & Hheader & ->).
      rewrite <- Hheader.
      exact (slice_track_data Manual.samples tracks header i t Hi).
Qed.

Lemma chunk_offsets_resolved_witness :
  let video := RawStsd.mkTrack 1 "video" 90000 9000 640 360
                 (RawStsd.samples Sample.videoTrack) (Some Sample.stsd) in
  let audio := RawStsd.mkTrack 2 "audio" 48000 2048 0 0
                 (RawStsd.samples Sample.audioTrack) (Some Sample.stsd) in
  let file := RawStsd.buildMP4WithRawStsd [video; audio] in
  let video' := Manual.mkTrack 1 "video" 90000 9000 640 360
                  (RawStsd.samples Sample.videoTrack) None in
  let audio' := Manual.mkTrack 2 "audio" 48000 2048 0 0
                  (RawStsd.samples Sample.audioTrack) None in
  let file' := Manual.buildMP4File [video'; audio'] in
  byteLength file < 2 ^ 32
  /\ isBoxOf "stsd" Sample.stsd
  /\ RawStsd.mdatStart [video; audio] = 918
  /\ (exists trak stco : buffer,
         traksOfFile file !! 1%nat = Some trak
         /\ tableOfTrak "stco" trak = Some stco
         /\ chunkOffsets stco = [927])
  /\ slice file 927 933 = bytes [10; 11; 12; 13; 14; 15]
  /\ byteLength file' < 2 ^ 32
  /\ Manual.realMdatStart [video'; audio'] = 918
  /\ (exists trak stco : buffer,
         traksOfFile file' !! 1%nat = Some trak
         /\ tableOfTrak "stco" trak = Some stco
         /\ chunkOffsets stco = [927])
  /\ slice file' 927 933 = bytes [10; 11; 12; 13; 14; 15].
Proof.
  cbv zeta.
  set (video := RawStsd.mkTrack 1 "video" 90000 9000 640 360
                  (RawStsd.samples Sample.videoTrack) (Some Sample.stsd)).
  set (audio := RawStsd.mkTrack 2 "audio" 48000 2048 0 0
                  (RawStsd.samples Sample.audioTrack) (Some Sample.stsd)).
  set (video' := Manual.mkTrack 1 "video" 90000 9000 640 360
                   (RawStsd.samples Sample.videoTrack) None).
  set (audio' := Manual.mkTrack 2 "audio" 48000 2048 0 0
                   (RawStsd.samples Sample.audioTrack) None).
  assert (Hsize : byteLength (RawStsd.buildMP4WithRawStsd [video; audio])
                  < 2 ^ 32) by (vm_compute; reflexivity).
  assert (Hsize' : byteLength (Manual.buildMP4File [video'; audio'])
                   < 2 ^ 32) by (vm_compute; reflexivity).
  assert (Hstsd : isBoxOf "stsd" Sample.stsd).
  { unfold isBoxOf. repeat split; vm_compute; (reflexivity || discriminate). }
  assert (Hraw : forall raw, RawStsd.rawStsd audio = Some raw ->
                             isBoxOf "stsd" raw)
    by (intros raw [= <-]; exact Hstsd).
  split; [exact Hsize|]. split; [exact Hstsd|].
  split; [vm_compute; reflexivity|].
  split; [|split].
  - exact (proj1 (proj2 (proj2 (proj2
             (proj1 chunk_offsets_resolved [video; audio] 1%nat audio
                eq_refl Hsize Hraw))))).
  - exact (proj2 (proj2 (proj2 (proj2
             (proj1 chunk_offsets_resolved [video; audio] 1%nat audio
                eq_refl Hsize Hraw))))).
  - split; [exact Hsize'|]. split; [vm_compute; reflexivity|].
    exact (proj2 (proj2 (proj2
             (proj2 chunk_offsets_resolved [video'; audio'] 1%nat audio'
                eq_refl Hsize')))).
Defined.

(** C8. The time-to-sample entries of a sample list, expanded run by
    run, give back the list of the samples' durations, and no two
    neighbouring entries carry the same duration.  Both builders write
    these entries into the [stts] box of the track: in a built file
    shorter than 2^32 bytes, the runs read from the [stts] box of the
    track box at position [i] expand to the durations of the track's
    samples, each as the 32-bit field holds it (modulo 2^32); when every
    duration fits the field, the runs read are the entries themselves
    and expand to the durations exactly.  Durations [10,10,5] yield the
    entries [(2,10),(1,5)]. *)
Theorem stts_roundtrip :
  (forall samples : list sample,
      expandRuns (sttsEntries samples) = map s_duration samples
      /\ maximalRuns (sttsEntries samples))
  /\ (forall (tracks : list RawStsd.track) (i : nat) (t : RawStsd.track),
      tracks !! i = Some t ->
      byteLength (RawStsd.buildMP4WithRawStsd tracks) < 2 ^ 32 ->
      (forall raw, RawStsd.rawStsd t = Some raw -> isBoxOf "stsd" raw) ->
      exists trak stts : buffer,
        traksOfFile (RawStsd.buildMP4WithRawStsd tracks) !! i = Some trak
        /\ tableOfTrak "stts" trak = Some stts
        /\ expandRuns (timeToSample stts)
           = map (fun s => s_duration s mod 2 ^ 32) (RawStsd.samples t)
        /\ (Forall (fun s => 0 <= s_duration s < 2 ^ 32) (RawStsd.samples t) ->
            timeToSample stts = sttsEntries (RawStsd.samples t)
            /\ expandRuns (timeToSample stts)
               = map s_duration (RawStsd.samples t)))
  /\ (forall (tracks : list Manual.track) (i : nat) (t : Manual.track),
      tracks !! i = Some t ->
      byteLength (Manual.buildMP4File tracks) < 2 ^ 32 ->
      exists trak stts : buffer,
        traksOfFile (Manual.buildMP4File tracks) !! i = Some trak
        /\ tableOfTrak "stts" trak = Some stts
        /\ expandRuns (timeToSample stts)
           = map (fun s => s_duration s mod 2 ^ 32) (Manual.samples t)
        /\ (Forall (fun s => 0 <= s_duration s < 2 ^ 32) (Manual.samples t) ->
            timeToSample stts = sttsEntries (Manual.samples t)
            /\ expandRuns (timeToSample stts)
               = map s_duration (Manual.samples t)))
  /\ sttsEntries (Sample.withDurations [10; 10; 5]) = [(2, 10); (1, 5)].
Proof.
  split; [|split; [|split; [|reflexivity]]].
  - intros samples. split.
    + unfold sttsEntries. now rewrite rle_loop_expand.
    + unfold sttsEntries. apply rle_loop_maximal. exact I.
  - intros tracks i t Hi Hsize Hraw.
    pose proof (RawStsd_isBoxOf_stsd t Hraw) as Hstsd.
    destruct (RawStsd_trak_of_file tracks i t Hi Hsize)
      as (Htrak & Hlen & _).
    cbv zeta in Htrak, Hlen.
    destruct (RawStsd_tableOfTrak t _ Hlen Hstsd) as (_ & Hstts & _).
    destruct (RawStsd_table_sizes t _ Hlen) as (Hsmall & Hcount).
    eexists _, _. split; [exact Htrak|]. split; [exact Hstts|].
    rewrite RawStsd_stts_flat in Hsmall |- *.
    exact (timeToSample_roundtrip (RawStsd.samples t) Hsmall Hcount).
  - intros tracks i t Hi Hsize.
    destruct (Manual_trak_of_file tracks i t Hi Hsize)
      as (Htrak & Hlen & _).
    cbv zeta in Htrak, Hlen.
    destruct (Manual_tableOfTrak t _ _ Hlen) as (_ & Hstts & _).
    destruct (Manual_table_sizes t _ _ Hlen) as (Hsmall & Hcount).
    eexists _, _. split; [exact Htrak|]. split; [exact Hstts|].
    rewrite Manual_buildStts_flat in Hsmall |- *.
    exact (timeToSample_roundtrip (Manual.samples t) Hsmall Hcount).
Qed.

Lemma stts_roundtrip_witness :
  let t := RawStsd.mkTrack 1 "video" 1000 25 0 0
             (Sample.withDurations [10; 10; 5]) (Some Sample.stsd) in
  let file := RawStsd.buildMP4WithRawStsd [t] in
  let t' := Manual.mkTrack 1 "video" 1000 25 0 0
              (Sample.withDurations [10; 10; 5]) None in
  let file' := Manual.buildMP4File [t'] in
  byteLength file < 2 ^ 32
  /\ isBoxOf "stsd" Sample.stsd
  /\ Forall (fun s => 0 <= s_duration s < 2 ^ 32)
            (Sample.withDurations [10; 10; 5])
  /\ (exists trak stts : buffer,
         traksOfFile file !! 0%nat = Some trak
         /\ tableOfTrak "stts" trak = Some stts
         /\ timeToSample stts = [(2, 10); (1, 5)]
         /\ expandRuns (timeToSample stts) = [10; 10; 5])
  /\ byteLength file' < 2 ^ 32
  /\ (exists trak stts : buffer,
         traksOfFile file' !! 0%nat = Some trak
         /\ tableOfTrak "stts" trak = Some stts
         /\ timeToSample stts = [(2, 10); (1, 5)]
         /\ expandRuns (timeToSample stts) = [10; 10; 5]).
Proof.
  cbv zeta.
  set (t := RawStsd.mkTrack 1 "video" 1000 25 0 0
              (Sample.withDurations [10; 10; 5]) (Some Sample.stsd)).
  set (t' := Manual.mkTrack 1 "video" 1000 25 0 0
               (Sample.withDurations [10; 10; 5]) None).
  assert (Hsize : byteLength (RawStsd.buildMP4WithRawStsd [t]) < 2 ^ 32)
    by (vm_compute; reflexivity).
  assert (Hsize' : byteLength (Manual.buildMP4File [t']) < 2 ^ 32)
    by (vm_compute; reflexivity).
  assert (Hstsd : isBoxOf "stsd" Sample.stsd).
  { unfold isBoxOf. repeat split; vm_compute; (reflexivity || discriminate). }
  assert (Hraw : forall raw, RawStsd.rawStsd t = Some raw ->
                             isBoxOf "stsd" raw)
    by (intros raw [= <-]; exact Hstsd).
  assert (Hrange : Forall (fun s => 0 <= s_duration s < 2 ^ 32)
                          (Sample.withDurations [10; 10; 5])).
  { repeat constructor; cbn; lia. }
  split; [exact Hsize|]. split; [exact Hstsd|]. split; [exact Hrange|].
  split; [|split; [exact Hsize'|]].
  - destruct (proj1 (proj2 stts_roundtrip) [t] 0%nat t eq_refl Hsize Hraw)
      as (trak & stts & Htrak & Hstts & _ & Hexact).
    destruct (Hexact Hrange) as [Hruns Hexpand].
    exists trak, stts. split; [exact Htrak|]. split; [exact Hstts|].
    split; [exact Hruns|exact Hexpand].
  - destruct (proj1 (proj2 (proj2 stts_roundtrip)) [t'] 0%nat t' eq_refl
                Hsize')
      as (trak & stts & Htrak & Hstts & _ & Hexact).
    destruct (Hexact Hrange) as [Hruns Hexpand].
    exists trak, stts. split; [exact Htrak|]. split; [exact Hstts|].
    split; [exact Hruns|exact Hexpand].
Defined.

(** C9. Both builders leave the sync-sample box out of a track whose
    samples are all sync samples and of a track without any sync
    sample: in a built file shorter than 2^32 bytes, the sample table of
    the track box at position [i] then has no [stss] child.  When it
    has one, the track is a video track and its sync samples are some
    but not all of its samples; the box found is the one [stss] (or
    [buildStss]) returns. *)
Theorem stss_only_for_mixed_tracks :
  (forall (tracks : list RawStsd.track) (i : nat) (t : RawStsd.track),
      tracks !! i = Some t ->
      byteLength (RawStsd.buildMP4WithRawStsd tracks) < 2 ^ 32 ->
      (forall raw, RawStsd.rawStsd t = Some raw -> isBoxOf "stsd" raw) ->
      exists trak : buffer,
        traksOfFile (RawStsd.buildMP4WithRawStsd tracks) !! i = Some trak
        /\ tableOfTrak "stss" trak = RawStsd.stss t
        /\ (Forall (fun s => s_is_sync s = true) (RawStsd.samples t) ->
            tableOfTrak "stss" trak = None)
        /\ (Forall (fun s => s_is_sync s = false) (RawStsd.samples t) ->
            tableOfTrak "stss" trak = None)
        /\ (forall b, tableOfTrak "stss" trak = Some b ->
              RawStsd.type t = "video"
              /\ (0 < syncCount (RawStsd.samples t)
                    < length (RawStsd.samples t))%nat))
  /\ (forall (tracks : list Manual.track) (i : nat) (t : Manual.track),
      tracks !! i = Some t ->
      byteLength (Manual.buildMP4File tracks) < 2 ^ 32 ->
      exists trak : buffer,
        traksOfFile (Manual.buildMP4File tracks) !! i = Some trak
        /\ tableOfTrak "stss" trak
           = (if String.eqb (Manual.type t) "video"
              then Manual.buildStss (Manual.samples t) else None)
        /\ (Forall (fun s => s_is_sync s = true) (Manual.samples t) ->
            tableOfTrak "stss" trak = None)
        /\ (Forall (fun s => s_is_sync s = false) (Manual.samples t) ->
            tableOfTrak "stss" trak = None)
        /\ (forall b, tableOfTrak "stss" trak = Some b ->
              Manual.type t = "video"
              /\ (0 < syncCount (Manual.samples t)
                    < length (Manual.samples t))%nat)).
Proof.
  split.
  - intros tracks i t Hi Hsize Hraw.
    pose proof (RawStsd_isBoxOf_stsd t Hraw) as Hstsd.
    destruct (RawStsd_trak_of_file tracks i t Hi Hsize)
      as (Htrak & Hlen & _).
    cbv zeta in Htrak, Hlen.
    destruct (RawStsd_tableOfTrak t _ Hlen Hstsd) as (_ & _ & Hstss).
    eexists. split; [exact Htrak|]. split; [exact Hstss|].
    rewrite Hstss. split; [|split].
    + intros Hall. destruct (RawStsd.stss t) as [b|] eqn:E; [|reflexivity].
      apply RawStsd_stss_Some in E as [_ E].
      rewrite (syncCount_all _ Hall) in E. lia.
    + intros Hnone. destruct (RawStsd.stss t) as [b|] eqn:E; [|reflexivity].
      apply RawStsd_stss_Some in E as [_ E].
      rewrite (syncCount_none _ Hnone) in E. lia.
    + intros b. apply RawStsd_stss_Some.
  - intros tracks i t Hi Hsize.
    destruct (Manual_trak_of_file tracks i t Hi Hsize)
      as (Htrak & Hlen & _).
    cbv zeta in Htrak, Hlen.
    destruct (Manual_tableOfTrak t _ _ Hlen) as (_ & _ & Hstss).
    eexists. split; [exact Htrak|]. split; [exact Hstss|].
    rewrite Hstss. split; [|split].
    + intros Hall. destruct (String.eqb (Manual.type t) "video");
        [|reflexivity].
      destruct (Manual.buildStss (Manual.samples t)) as [b|] eqn:E;
        [|reflexivity].
      apply Manual_buildStss_Some in E.
      rewrite (syncCount_all _ Hall) in E. lia.
    + intros Hnone. destruct (String.eqb (Manual.type t) "video");
        [|reflexivity].
      destruct (Manual.buildStss (Manual.samples t)) as [b|] eqn:E;
        [|reflexivity].
      apply Manual_buildStss_Some in E.
      rewrite (syncCount_none _ Hnone) in E. lia.
    + intros b.
      destruct (String.eqb_spec (Manual.type t) "video") as [Hv|_];
        [|discriminate].
      intros E. split; [exact Hv|]. now apply Manual_buildStss_Some in E.
Qed.

Lemma stss_only_for_mixed_tracks_witness :
  let allSync := RawStsd.mkTrack 1 "video" 1000 30 0 0
                   (Sample.withDurations [10; 10; 10]) (Some Sample.stsd) in
  let mixed := RawStsd.mkTrack 2 "video" 90000 9000 640 360
                 (RawStsd.samples Sample.videoTrack) (Some Sample.stsd) in
  let file := RawStsd.buildMP4WithRawStsd [allSync; mixed] in
  let allSync' := Manual.mkTrack 1 "video" 1000 30 0 0
                    (Sample.withDurations [10; 10; 10]) None in
  let file' := Manual.buildMP4File [allSync'] in
  byteLength file < 2 ^ 32
  /\ isBoxOf "stsd" Sample.stsd
  /\ Forall (fun s => s_is_sync s = true) (Sample.withDurations [10; 10; 10])
  /\ (exists trak : buffer,
         traksOfFile file !! 0%nat = Some trak
         /\ tableOfTrak "stss" trak = None)
  /\ (exists trak b : buffer,
         traksOfFile file !! 1%nat = Some trak
         /\ tableOfTrak "stss" trak = Some b
         /\ (0 < syncCount (RawStsd.samples mixed)
               < length (RawStsd.samples mixed))%nat)
  /\ byteLength file' < 2 ^ 32
  /\ (exists trak : buffer,
         traksOfFile file' !! 0%nat = Some trak
         /\ tableOfTrak "stss" trak = None).
Proof.
  cbv zeta.
  set (allSync := RawStsd.mkTrack 1 "video" 1000 30 0 0
                    (Sample.withDurations [10; 10; 10]) (Some Sample.stsd)).
  set (mixed := RawStsd.mkTrack 2 "video" 90000 9000 640 360
                  (RawStsd.samples Sample.videoTrack) (Some Sample.stsd)).
  set (allSync' := Manual.mkTrack 1 "video" 1000 30 0 0
                     (Sample.withDurations [10; 10; 10]) None).
  assert (Hsize : byteLength (RawStsd.buildMP4WithRawStsd [allSync; mixed])
                  < 2 ^ 32) by (vm_compute; reflexivity).
  assert (Hsize' : byteLength (Manual.buildMP4File [allSync']) < 2 ^ 32)
    by (vm_compute; reflexivity).
  assert (Hstsd : isBoxOf "stsd" Sample.stsd).
  { unfold isBoxOf. repeat split; vm_compute; (reflexivity || discriminate). }
  assert (Hraw : forall raw, RawStsd.rawStsd allSync = Some raw ->
                             isBoxOf "stsd" raw)
    by (intros raw [= <-]; exact Hstsd).
  assert (Hraw' : forall raw, RawStsd.rawStsd mixed = Some raw ->
                              isBoxOf "stsd" raw)
    by (intros raw [= <-]; exact Hstsd).
  assert (Hall : Forall (fun s => s_is_sync s = true)
                        (Sample.withDurations [10; 10; 10])).
  { repeat constructor. }
  split; [exact Hsize|]. split; [exact Hstsd|]. split; [exact Hall|].
  split; [|split; [|split; [exact Hsize'|]]].
  - destruct (proj1 stss_only_for_mixed_tracks [allSync; mixed] 0%nat allSync
                eq_refl Hsize Hraw)
      as (trak & Htrak & _ & Hnone & _).
    exists trak. split; [exact Htrak|exact (Hnone Hall)].
  - destruct (proj1 stss_only_for_mixed_tracks [allSync; mixed] 1%nat mixed
                eq_refl Hsize Hraw')
      as (trak & Htrak & Hstss & _ & _ & Hsome).
    destruct (tableOfTrak "stss" trak) as [b|] eqn:Hb;
      [|vm_compute in Hstss; discriminate].
    exists trak, b. split; [exact Htrak|]. split; [exact Hb|].
    exact (proj2 (Hsome b eq_refl)).
  - destruct (proj2 stss_only_for_mixed_tracks [allSync'] 0%nat allSync'
                eq_refl Hsize')
      as (trak & Htrak & _ & Hnone & _).
    exists trak. split; [exact Htrak|exact (Hnone Hall)].
Defined.

(** ** The tracks of a merged movie box *)

Lemma scanned_le (data : buffer) (cs : list subBox) :
  forall offset stop, scanned data offset cs stop -> offset <= stop.
Proof.
  induction cs as [|c rest IH]; intros offset stop Hs; cbn [scanned] in Hs.
  - lia.
  - destruct Hs as (_ & Hsize & _ & _ & _ & Hrest).
    apply IH in Hrest. lia.
Qed.

(** The scan for a child of some type walks over the children before
    it. *)
Lemma findSubBoxWithOffset_loop_scanned (data : buffer) (type : string)
    (m : subBox) (fuel : nat) :
  forall offset,
    0 <= offset ->
    findSubBoxWithOffset_loop fuel data type offset = Some (Ok (Some m)) ->
    scanned data offset
            (childrenBefore type (children_loop fuel data offset))
            (sub_offset m).
Proof.
  induction fuel as [|fuel IH]; intros offset H0 Hfind; [discriminate|].
  cbn [findSubBoxWithOffset_loop children_loop] in *.
  destruct (offset <? byteLength data - 8); [|discriminate].
  destruct (getUint32 data offset) as [size|] eqn:Hget; [|discriminate].
  destruct (Z.ltb_spec size 8); [discriminate|]. cbn [orb] in *.
  destruct (Z.gtb_spec (offset + size) (byteLength data)); [discriminate|].
  cbn [childrenBefore sub_data]. rewrite typeOf_slice by lia.
  destruct (String.eqb (childType data offset) type).
  - injection Hfind as <-. reflexivity.
  - cbn [scanned sub_offset sub_size sub_data].
    repeat split; try assumption; try lia.
    apply IH; [lia|assumption].
Qed.

Lemma findSubBoxWithOffset_scanned (data : buffer) (type : string)
    (m : subBox) :
  findSubBoxWithOffset data type = Ok (Some m) ->
  scanned data 8 (childrenBefore type (children data)) (sub_offset m).
Proof.
  intros Hfind. unfold children.
  apply findSubBoxWithOffset_loop_scanned; [lia|].
  now rewrite findSubBoxWithOffset_total, Hfind.
Qed.

(** Children scanned in one buffer are scanned the same way in a
    buffer that holds the same bytes from offset 4 up to the boundary. *)
Lemma scanned_transfer (v d : buffer) (stop : Z) (cs : list subBox) :
  stop <= byteLength d ->
  (forall a b, 4 <= a -> a <= b -> b <= stop -> slice d a b = slice v a b) ->
  forall offset,
    4 <= offset ->
    scanned v offset cs stop -> scanned d offset cs stop.
Proof.
  intros Hstop Hsame.
  induction cs as [|c rest IH]; intros offset H4 Hs; cbn [scanned] in *;
    [assumption|].
  destruct Hs as (Hoff & Hsize & Hend & Hget & Hdata & Hrest).
  pose proof (scanned_le _ _ _ _ Hrest) as Hle.
  split; [assumption|]. split; [assumption|]. split; [lia|].
  split; [|split].
  - rewrite getUint32_in_range in Hget |- * by lia.
    now rewrite Hsame by lia.
  - now rewrite Hsame by lia.
  - apply IH; [lia|assumption].
Qed.

(** The scan lists the scanned children and goes on from the
    boundary. *)
Lemma children_loop_scanned (d : buffer) (stop : Z) (cs : list subBox) :
  stop < byteLength d ->
  forall (fuel : nat) (offset : Z),
    scanned d offset cs stop ->
    children_loop (length cs + fuel) d offset
    = cs ++ children_loop fuel d stop.
Proof.
  intros Hstop. induction cs as [|c rest IH]; intros fuel offset Hs;
    cbn [scanned] in Hs.
  - subst offset. reflexivity.
  - destruct Hs as (Hoff & Hsize & Hend & Hget & Hdata & Hrest).
    pose proof (scanned_le _ _ _ _ Hrest) as Hle.
    cbn [length Nat.add children_loop app].
    replace (offset <? byteLength d - 8) with true by (symmetry; lia).
    rewrite Hget.
    replace (sub_size c <? 8) with false by (symmetry; lia).
    replace (offset + sub_size c >? byteLength d) with false
      by (symmetry; lia).
    cbn [orb]. rewrite <- Hdata, <- Hoff.
    destruct c as [o s dat]. cbn [sub_offset sub_size sub_data] in *.
    f_equal. subst o. now apply IH.
Qed.

Lemma children_scanned (d : buffer) (stop : Z) (cs : list subBox) :
  stop < byteLength d ->
  scanned d 8 cs stop ->
  children d = cs ++ children_loop (scan_fuel d) d stop.
Proof.
  intros Hstop Hs.
  rewrite (children_any_fuel d (length cs + scan_fuel d)).
  - now apply children_loop_scanned.
  - unfold scan_fuel, byteLength. lia.
Qed.

Lemma children_loop_one (pre b post : buffer) (fuel : nat) :
  8 <= byteLength b -> getUint32 b 0 = Ok (byteLength b) ->
  byteLength post <= 8 -> 8 < byteLength b + byteLength post ->
  (1 <= fuel)%nat ->
  children_loop fuel (pre ++ b ++ post) (byteLength pre)
  = [mkSubBox (byteLength pre) (byteLength b) b].
Proof.
  intros H8 Hget Hpost Hlong Hfuel.
  pose proof (children_loop_laidOut [b] pre post fuel) as Hloop.
  cbn [List.concat laidOut length] in Hloop.
  rewrite app_nil_r in Hloop. apply Hloop; [|assumption| |assumption].
  - repeat constructor; assumption.
  - now intros b' [= <-].
Qed.

Lemma children_loop_two (pre b1 b2 : buffer) (fuel : nat) :
  8 <= byteLength b1 -> getUint32 b1 0 = Ok (byteLength b1) ->
  8 < byteLength b2 -> getUint32 b2 0 = Ok (byteLength b2) ->
  (2 <= fuel)%nat ->
  children_loop fuel (pre ++ b1 ++ b2) (byteLength pre)
  = [mkSubBox (byteLength pre) (byteLength b1) b1;
     mkSubBox (byteLength pre + byteLength b1) (byteLength b2) b2].
Proof.
  intros H8 Hget H8' Hget' Hfuel.
  pose proof (children_loop_laidOut [b1; b2] pre [] fuel) as Hloop.
  cbn [List.concat laidOut length] in Hloop.
  rewrite !app_nil_r in Hloop. apply Hloop; [| | |assumption].
  - repeat constructor; (assumption || lia).
  - change (byteLength []) with 0. lia.
  - intros b' [= <-]. change (byteLength []) with 0. lia.
Qed.

Lemma trackIdsOf_app (a b : list subBox) :
  trackIdsOf (a ++ b) = trackIdsOf a ++ trackIdsOf b.
Proof. unfold trackIdsOf. now rewrite List.filter_app, map_app. Qed.

(** A box made of a size field, the bytes of [v] from 4 up to a child
    boundary, a track box and either nothing or one more box that is
    not a track: its tracks are the tracks of [v] before the boundary,
    then the new one. *)
Lemma trackIds_of_merged (v tc rest : buffer) (cs : list subBox)
    (stop x : Z) :
  scanned v 8 cs stop ->
  stop <= byteLength v ->
  8 < byteLength tc + byteLength rest ->
  8 <= byteLength tc ->
  getUint32 tc 0 = Ok (byteLength tc) ->
  typeOf tc = "trak" ->
  rest = []
  \/ (8 <= byteLength rest /\ getUint32 rest 0 = Ok (byteLength rest)
      /\ String.eqb (typeOf rest) "trak" = false) ->
  trackIdsOfMoov (be32 x ++ slice v 4 stop ++ tc ++ rest)
  = trackIdsOf cs ++ [trackIdOfTrak tc].
Proof.
  intros Hs Hstop Hlong Htc8 Htcget Htcty Hrest.
  pose proof (scanned_le _ _ _ _ Hs) as Hle.
  pose proof (byteLength_nonneg rest) as Hrest0.
  rewrite (app_assoc (be32 x)).
  set (pre := be32 x ++ slice v 4 stop).
  assert (Hpre : byteLength pre = stop).
  { unfold pre. rewrite byteLength_app, byteLength_slice by lia.
    change (byteLength (be32 x)) with 4. lia. }
  set (d := pre ++ tc ++ rest).
  assert (Hd : byteLength d = stop + byteLength tc + byteLength rest).
  { unfold d. rewrite !byteLength_app, Hpre. lia. }
  assert (Hsame : forall a b, 4 <= a -> a <= b -> b <= stop ->
                              slice d a b = slice v a b).
  { intros a b Ha Hab Hb. unfold d, pre. rewrite <- app_assoc.
    rewrite slice_skip by (change (byteLength (be32 x)) with 4; lia).
    change (byteLength (be32 x)) with 4.
    rewrite slice_app_l by (rewrite ?byteLength_slice; lia).
    rewrite slice_slice by lia. f_equal; lia. }
  assert (Hsd : scanned d 8 cs stop)
    by (apply (scanned_transfer v d stop cs); [lia|assumption|lia|assumption]).
  change (trackIdsOfMoov d) with (trackIdsOf (children d)).
  rewrite (children_scanned d stop cs) by (assumption || lia).
  rewrite trackIdsOf_app. f_equal.
  assert (Hfuel : (2 <= scan_fuel d)%nat).
  { unfold scan_fuel. unfold byteLength in Hd, Htc8. lia. }
  set (fuel := scan_fuel d) in *. clearbody fuel.
  unfold d. rewrite <- Hpre. clear Hsd Hsame Hd d.
  destruct Hrest as [->|(Hr8 & Hrget & Hrty)].
  - rewrite children_loop_one;
      [|assumption|assumption|change (byteLength []) with 0; lia
       |change (byteLength []) with 0 in *; lia|lia].
    unfold trackIdsOf. cbn [List.filter sub_data map].
    now rewrite Htcty.
  - destruct (Z_lt_le_dec 8 (byteLength rest)) as [Hbig|Hsmall].
    + rewrite children_loop_two by (assumption || lia).
      unfold trackIdsOf. cbn [List.filter sub_data map].
      rewrite Htcty, Hrty. reflexivity.
    + rewrite children_loop_one by (assumption || lia).
      unfold trackIdsOf. cbn [List.filter sub_data map].
      now rewrite Htcty.
Qed.

(** The track-ID patch leaves the header of the [trak] alone. *)
Lemma updateTrackIdInTrak_header (trakData patched : buffer)
    (newTrackId : Z) :
  updateTrackIdInTrak trakData newTrackId = Ok patched ->
  byteLength patched = byteLength trakData
  /\ getUint32 patched 0 = getUint32 trakData 0
  /\ typeOf patched = typeOf trakData.
Proof.
  intros Hpatch.
  pose proof (updateTrackIdInTrak_total trakData newTrackId) as Htotal.
  rewrite updateTrackIdInTrak_loop_tkhd, findSubBoxWithOffset_total in Htotal.
  destruct (findSubBoxWithOffset trakData "tkhd") as [[m|]|e] eqn:Hfind.
  - cbv zeta in Htotal. injection Htotal as Htotal.
    rewrite Hpatch in Htotal.
    destruct (findSubBoxWithOffset_found _ _ _ Hfind) as (Hoff & _).
    set (field := sub_offset m + _) in Htotal.
    assert (Hfield : 28 <= field) by (unfold field; destruct (_ =? 0); lia).
    rewrite setUint32_cases in Htotal by lia.
    destruct (Z.leb_spec (field + 4) (byteLength trakData)); [|discriminate].
    injection Htotal as <-.
    split; [|split].
    + apply byteLength_blit; [lia|].
      change (byteLength (be32 newTrackId)) with 4. lia.
    + apply getUint32_blit_before; [lia|].
      change (byteLength (be32 newTrackId)) with 4. lia.
    + unfold typeOf. apply childType_blit_before; lia.
  - injection Htotal as Htotal. rewrite Hpatch in Htotal.
    injection Htotal as <-. auto.
  - injection Htotal as Htotal. rewrite Hpatch in Htotal. discriminate.
Qed.

(** A box under a new size field keeps its type. *)
Lemma typeOf_resized (b rest : buffer) (size : Z) :
  8 <= byteLength b ->
  typeOf (be32 size ++ drop 4 (b ++ rest)) = typeOf b.
Proof.
  intros Hlen. unfold typeOf, childType.
  rewrite !charAt_app_r by (change (byteLength (be32 size)) with 4; lia).
  change (byteLength (be32 size)) with 4.
  change (drop 4 (b ++ rest)) with (drop (Z.to_nat 4) (b ++ rest)).
  rewrite !charAt_drop by lia.
  now rewrite !charAt_app_l by lia.
Qed.

(** A child found by the scan is more than a bare header away from the
    start of its box, so the box is longer than 16 bytes. *)
Lemma trackIdOfTrak_long (trak : buffer) (id : Z) :
  trackIdOfTrak trak = Some id -> 16 <= byteLength trak.
Proof.
  unfold trackIdOfTrak. rewrite findSubBox_children.
  destruct (List.find _ (children trak)) as [c|] eqn:Hfind; [|discriminate].
  intros _.
  pose proof (findSubBoxWithOffset_children trak "tkhd") as Hoff.
  rewrite Hfind in Hoff.
  apply findSubBoxWithOffset_found in Hoff. lia.
Qed.

(** The tracks of the merged movie box when the video [moov] has an
    [mvex] and an audio [trex] is given. *)
Lemma createMergedMoov_trackIds_mvex
    (videoMoovData audioTrakBox audioTrexBox merged : buffer)
    (videoMvex : subBox) (oldId : Z) :
  findSubBoxWithOffset videoMoovData "mvex" = Ok (Some videoMvex) ->
  createMergedMoov videoMoovData audioTrakBox (Some audioTrexBox)
  = Ok merged ->
  isBoxOf "trak" audioTrakBox ->
  trackIdOfTrak audioTrakBox = Some oldId ->
  byteLength merged < 2 ^ 32 ->
  trackIdsOfMoov merged
  = trackIdsOf (childrenBefore "mvex" (children videoMoovData)) ++ [Some 2].
Proof.
  intros Hfind Hmerged (Htr8 & Htrget & Htrty) Hold Hsize.
  destruct (updateTrackIdInTrak audioTrakBox 2) as [tc|e] eqn:Htrak;
    [|unfold createMergedMoov in Hmerged; rewrite Htrak in Hmerged;
      discriminate].
  destruct (updateTrackIdInTrak_reads_back _ _ _ _ Htrak Hold) as [Hid _].
  change (2 mod 2 ^ 32) with 2 in Hid.
  destruct (updateTrackIdInTrak_header _ _ _ Htrak) as (Hlen & Hget & Hty).
  rewrite (createMergedMoov_mvex _ _ _ _ _ Hfind Htrak) in Hmerged.
  cbv zeta in Hmerged. apply Ok_inj in Hmerged.
  pose proof (findSubBoxWithOffset_found _ _ _ Hfind)
    as (Hoff & Hmsize & Hend & Hmty & _).
  pose proof (findSubBoxWithOffset_scanned _ _ _ Hfind) as Hscan.
  set (off := sub_offset videoMvex) in *.
  set (size := sub_size videoMvex) in *.
  set (trexCopy := updateTrackIdInTrex audioTrexBox 2) in *.
  set (oldMvex := slice videoMoovData off (off + size)) in *.
  set (newMvex := be32 (size + byteLength trexCopy)
                  ++ drop 4 (oldMvex ++ trexCopy)) in *.
  pose proof (byteLength_nonneg trexCopy) as Htrex0.
  assert (Hold8 : byteLength oldMvex = size)
    by (unfold oldMvex; rewrite byteLength_slice; lia).
  assert (Hnew : byteLength newMvex = size + byteLength trexCopy).
  { unfold newMvex. rewrite byteLength_app.
    change (byteLength (be32 _)) with 4.
    unfold byteLength at 1. rewrite length_drop, length_app.
    unfold byteLength in *. lia. }
  rewrite (drop_app_le (slice videoMoovData 0 off)) in Hmerged
    by (pose proof (byteLength_slice videoMoovData 0 off);
        unfold byteLength in *; lia).
  change (drop 4 (slice videoMoovData 0 off))
    with (drop (Z.to_nat 4) (slice videoMoovData 0 off)) in Hmerged.
  rewrite (drop_slice videoMoovData 4 0) in Hmerged by lia.
  rewrite Z.add_0_l in Hmerged.
  assert (Hmsmall : byteLength newMvex < 2 ^ 32).
  { rewrite <- Hmerged in Hsize.
    rewrite !byteLength_app in Hsize.
    pose proof (byteLength_nonneg (slice videoMoovData 4 off)).
    pose proof (byteLength_nonneg tc).
    change (byteLength (be32 _)) with 4 in Hsize. lia. }
  rewrite <- Hmerged, <- Hid.
  apply trackIds_of_merged; try assumption; try lia.
  - now rewrite Hget, Hlen.
  - now rewrite Hty.
  - right. split; [lia|]. split.
    + unfold newMvex at 1. rewrite getUint32_be32_head, Hnew.
      now rewrite Z.mod_small by lia.
    + unfold newMvex. rewrite typeOf_resized by lia.
      unfold oldMvex. rewrite typeOf_slice by lia.
      now rewrite Hmty.
Qed.

(** The tracks of the merged movie box when the audio track is
    appended: the children of the video [moov] have to reach its end. *)
Lemma createMergedMoov_trackIds_append
    (videoMoovData audioTrakBox merged : buffer)
    (audioTrexBox : option buffer) (oldId : Z) :
  findSubBoxWithOffset videoMoovData "mvex" = Ok None
  \/ audioTrexBox = None ->
  createMergedMoov videoMoovData audioTrakBox audioTrexBox = Ok merged ->
  isBoxOf "trak" audioTrakBox ->
  trackIdOfTrak audioTrakBox = Some oldId ->
  scanned videoMoovData 8 (children videoMoovData)
          (byteLength videoMoovData) ->
  trackIdsOfMoov merged = trackIdsOfMoov videoMoovData ++ [Some 2].
Proof.
  intros Hnone Hmerged (Htr8 & Htrget & Htrty) Hold Htiled.
  pose proof (scanned_le _ _ _ _ Htiled) as Hv8.
  pose proof (trackIdOfTrak_long _ _ Hold) as Hlong.
  destruct (updateTrackIdInTrak audioTrakBox 2) as [tc|e] eqn:Htrak;
    [|unfold createMergedMoov in Hmerged; rewrite Htrak in Hmerged;
      discriminate].
  destruct (updateTrackIdInTrak_reads_back _ _ _ _ Htrak Hold) as [Hid _].
  change (2 mod 2 ^ 32) with 2 in Hid.
  destruct (updateTrackIdInTrak_header _ _ _ Htrak) as (Hlen & Hget & Hty).
  assert (Hfind : exists videoMvex,
             findSubBoxWithOffset videoMoovData "mvex" = Ok videoMvex
             /\ (videoMvex = None \/ audioTrexBox = None)).
  { destruct Hnone as [Hnone| ->]; [eauto|].
    pose proof (findSubBoxWithOffset_children videoMoovData "mvex"). eauto. }
  destruct Hfind as (videoMvex & Hfind & Hcase).
  rewrite (createMergedMoov_append _ _ _ _ _ Htrak Hfind Hcase) in Hmerged
    by lia.
  apply Ok_inj in Hmerged.
  rewrite drop_app_le in Hmerged by (unfold byteLength in Hv8; lia).
  change (drop 4 videoMoovData)
    with (drop (Z.to_nat 4) videoMoovData) in Hmerged.
  rewrite (drop_as_slice videoMoovData 4) in Hmerged by lia.
  rewrite <- (app_nil_r tc) in Hmerged.
  rewrite <- Hmerged, <- Hid.
  change (trackIdsOfMoov videoMoovData)
    with (trackIdsOf (children videoMoovData)).
  apply trackIds_of_merged; try assumption; try lia.
  - change (byteLength []) with 0. lia.
  - now rewrite Hget, Hlen.
  - now rewrite Hty.
  - now left.
Qed.

(** The track IDs that a file built by [buildMP4WithRawStsd] declares
    are those of its track records, in order. *)
Lemma trackIdsOfFile_traks (file : buffer) :
  trackIdsOfFile file = map trackIdOfTrak (traksOfFile file).
Proof.
  unfold trackIdsOfFile, traksOfFile, traksOfMoov, boxBytes, isTrak.
  destruct (parseBoxes file) as [boxes|]; [|reflexivity].
  destruct (findBox boxes "moov"); [|reflexivity].
  now rewrite map_map.
Qed.

Lemma RawStsd_finalTraks_ids (tracks : list RawStsd.track) :
  forall offset,
    map trackIdOfTrak (RawStsd.finalTraks tracks offset)
    = map (fun t => Some (RawStsd.id t mod 2 ^ 32)) tracks.
Proof.
  induction tracks as [|t rest IH]; intros offset; [reflexivity|].
  cbn [RawStsd.finalTraks map].
  now rewrite RawStsd_trackIdOfTrak, IH.
Qed.

(** What [findSubBox] returns is a well-formed box of the type asked
    for. *)
Lemma findSubBox_isBoxOf (data found : buffer) (type : string) :
  findSubBox data type = Ok (Some found) -> isBoxOf type found.
Proof.
  intros Hfound.
  pose proof (findSubBox_total data type) as Htotal.
  rewrite findSubBox_loop_sub_data, findSubBoxWithOffset_total, Hfound
    in Htotal.
  destruct (findSubBoxWithOffset data type) as [[m|]|e] eqn:Hfind;
    try discriminate.
  injection Htotal as <-.
  destruct (findSubBoxWithOffset_found _ _ _ Hfind)
    as (Hoff & Hsize & Hend & Hty & Hget & ->).
  unfold isBoxOf.
  rewrite byteLength_slice by lia.
  replace (sub_offset m + sub_size m - sub_offset m) with (sub_size m) by lia.
  split; [assumption|]. split.
  - rewrite getUint32_slice by lia. now rewrite Z.add_0_r.
  - now rewrite typeOf_slice by lia.
Qed.

(** C2, as the code has it.  Fragmented path: [createMergedMoov] sets
    the track ID of the copy of the audio [trak] to 2 and writes no
    video track ID.  When the video [moov] has an [mvex] and an audio
    [trex] is given, the tracks of the merged [moov] are the tracks of
    the video [moov] that come before its [mvex], with the IDs they
    have in the source, followed by the audio track with ID 2; a video
    track placed after the [mvex] is not carried over.  Otherwise the
    audio track is appended, and the tracks are those of the video
    [moov] (whose children have to reach its end) followed by ID 2.
    The audio [trak] is a well-formed box whose [tkhd] holds an ID, as
    [findSubBox] returns it.  Progressive path: a built [trak] declares
    the [id] of its track record, so a built file shorter than 2^32
    bytes declares the IDs of its track records in order;
    [buildOutput] gives the tracks it keeps the IDs 1, 2, ... in the
    demuxer's order, so with one video and one audio track the video
    track has ID 1 and the audio track ID 2 when the demuxer lists the
    video track first, and the other way round when it lists the audio
    track first. *)
Theorem track_ids_after_mux :
  (forall (videoMoovData audioTrakBox audioTrexBox merged : buffer)
          (videoMvex : subBox) (oldId : Z),
      findSubBoxWithOffset videoMoovData "mvex" = Ok (Some videoMvex) ->
      createMergedMoov videoMoovData audioTrakBox (Some audioTrexBox)
      = Ok merged ->
      isBoxOf "trak" audioTrakBox ->
      trackIdOfTrak audioTrakBox = Some oldId ->
      byteLength merged < 2 ^ 32 ->
      trackIdsOfMoov merged
      = trackIdsOf (childrenBefore "mvex" (children videoMoovData))
        ++ [Some 2])
  /\ (forall (videoMoovData audioTrakBox merged : buffer)
             (audioTrexBox : option buffer) (oldId : Z),
        findSubBoxWithOffset videoMoovData "mvex" = Ok None
        \/ audioTrexBox = None ->
        createMergedMoov videoMoovData audioTrakBox audioTrexBox
        = Ok merged ->
        isBoxOf "trak" audioTrakBox ->
        trackIdOfTrak audioTrakBox = Some oldId ->
        scanned videoMoovData 8 (children videoMoovData)
                (byteLength videoMoovData) ->
        trackIdsOfMoov merged = trackIdsOfMoov videoMoovData ++ [Some 2])
  /\ (forall (audioMoovData audioTrakBox : buffer),
        findSubBox audioMoovData "trak" = Ok (Some audioTrakBox) ->
        isBoxOf "trak" audioTrakBox)
  /\ (forall (t : RawStsd.track) (dataOffset : Z),
        trackIdOfTrak (RawStsd.buildTrak t dataOffset)
        = Some (RawStsd.id t mod 2 ^ 32))
  /\ (forall tracks : list RawStsd.track,
        byteLength (RawStsd.buildMP4WithRawStsd tracks) < 2 ^ 32 ->
        trackIdsOfFile (RawStsd.buildMP4WithRawStsd tracks)
        = map (fun t => Some (RawStsd.id t mod 2 ^ 32)) tracks)
  /\ (forall (infos : list trackInfo) (trackSamples : gmap Z (list sample))
             (videoStsd audioStsd : option buffer) (i : nat)
             (t : RawStsd.track),
        Defrag.collectTracks infos trackSamples videoStsd audioStsd [] !! i
        = Some t ->
        RawStsd.id t = Z.of_nat i + 1)
  /\ (forall (v a : trackInfo) (trackSamples : gmap Z (list sample))
             (videoStsd audioStsd : option buffer)
             (sv sa : sample) (svs sas : list sample),
        ti_type v = "video" -> ti_type a = "audio" ->
        trackSamples !! ti_id v = Some (sv :: svs) ->
        trackSamples !! ti_id a = Some (sa :: sas) ->
        map (fun t => (RawStsd.type t, RawStsd.id t))
            (Defrag.sortTracks
               (Defrag.collectTracks [v; a] trackSamples videoStsd
                                     audioStsd []))
        = [("video", 1); ("audio", 2)]
        /\ map (fun t => (RawStsd.type t, RawStsd.id t))
               (Defrag.sortTracks
                  (Defrag.collectTracks [a; v] trackSamples videoStsd
                                        audioStsd []))
           = [("video", 2); ("audio", 1)]).
Proof.
  split; [|split; [|split; [|split; [|split; [|split]]]]].
  - intros v trak trex merged m oldId.
    apply createMergedMoov_trackIds_mvex.
  - intros v trak merged trex oldId.
    apply createMergedMoov_trackIds_append.
  - intros data trak. apply findSubBox_isBoxOf.
  - apply RawStsd_trackIdOfTrak.
  - intros tracks Hsize.
    destruct (RawStsd_traksOfFile tracks Hsize) as [Htraks _].
    rewrite trackIdsOfFile_traks, Htraks.
    apply RawStsd_finalTraks_ids.
  - intros infos trackSamples videoStsd audioStsd.
    apply collectTracks_ids. intros i t Hi. discriminate.
  - intros v a trackSamples videoStsd audioStsd sv sa svs sas.
    apply buildOutput_two_tracks.
Qed.

Lemma track_ids_after_mux_witness :
  (exists videoMvex : subBox,
      findSubBoxWithOffset (Sample.moov 5) "mvex" = Ok (Some videoMvex))
  /\ createMergedMoov (Sample.moov 5) (Sample.trak 7) (Some (Sample.trex 7))
     = Ok Sample.mergedMoov
  /\ isBoxOf "trak" (Sample.trak 7)
  /\ trackIdOfTrak (Sample.trak 7) = Some 7
  /\ byteLength Sample.mergedMoov < 2 ^ 32
  /\ trackIdsOf (childrenBefore "mvex" (children (Sample.moov 5))) = [Some 5]
  /\ trackIdsOfMoov Sample.mergedMoov = [Some 5; Some 2]
  /\ scanned (Sample.moov 5) 8 (children (Sample.moov 5))
             (byteLength (Sample.moov 5))
  /\ (exists appended : buffer,
         createMergedMoov (Sample.moov 5) (Sample.trak 7) None = Ok appended
         /\ trackIdsOfMoov appended = [Some 5; Some 2]).
Proof.
  assert (Hfind : findSubBoxWithOffset (Sample.moov 5) "mvex"
                  = Ok (List.find
                          (fun c => String.eqb (typeOf (sub_data c)) "mvex")
                          (children (Sample.moov 5))))
    by apply findSubBoxWithOffset_children.
  destruct (List.find _ (children (Sample.moov 5))) as [m|] eqn:Hm;
    [|vm_compute in Hm; discriminate].
  assert (Hmerged : createMergedMoov (Sample.moov 5) (Sample.trak 7)
                                     (Some (Sample.trex 7))
                    = Ok Sample.mergedMoov)
    by (vm_compute; reflexivity).
  assert (Htrak : isBoxOf "trak" (Sample.trak 7)).
  { unfold isBoxOf. repeat split; vm_compute; (reflexivity || discriminate). }
  assert (Hold : trackIdOfTrak (Sample.trak 7) = Some 7)
    by (vm_compute; reflexivity).
  assert (Hsize : byteLength Sample.mergedMoov < 2 ^ 32)
    by (vm_compute; reflexivity).
  assert (Hbefore : trackIdsOf (childrenBefore "mvex"
                                  (children (Sample.moov 5))) = [Some 5])
    by (vm_compute; reflexivity).
  assert (Htiled : scanned (Sample.moov 5) 8 (children (Sample.moov 5))
                           (byteLength (Sample.moov 5))).
  { vm_compute. repeat split; (reflexivity || discriminate). }
  assert (Hids : trackIdsOfMoov (Sample.moov 5) = [Some 5])
    by (vm_compute; reflexivity).
  split; [eauto|]. split; [exact Hmerged|]. split; [exact Htrak|].
  split; [exact Hold|]. split; [exact Hsize|]. split; [exact Hbefore|].
  split; [|split; [exact Htiled|]].
  - rewrite (proj1 track_ids_after_mux _ _ _ _ m 7 Hfind Hmerged Htrak Hold
               Hsize).
    now rewrite Hbefore.
  - destruct (createMergedMoov (Sample.moov 5) (Sample.trak 7) None)
      as [appended|e] eqn:Happ; [|vm_compute in Happ; discriminate].
    exists appended. split; [reflexivity|].
    rewrite (proj1 (proj2 track_ids_after_mux) (Sample.moov 5) (Sample.trak 7)
               appended None 7 (or_intror eq_refl) Happ Htrak Hold Htiled).
    now rewrite Hids.
Defined.

(** A video track placed after the [mvex] is not carried over: the
    merged [moov] then declares the audio track only. *)
Example fragmented_drops_trak_after_mvex :
  let videoMoov :=
    makeBox "moov" (makeBox "mvhd" (bytes [0; 0; 0; 0])
                    ++ makeBox "mvex" (Sample.trex 5) ++ Sample.trak 5) in
  trackIdsOfMoov videoMoov = [Some 5]
  /\ option_map trackIdsOfMoov
       (match createMergedMoov videoMoov (Sample.trak 7)
                               (Some (Sample.trex 7)) with
        | Ok merged => Some merged
        | Throw _ => None
        end)
     = Some [Some 2].
Proof. cbv zeta. split; vm_compute; reflexivity. Qed.
